(* ===== verification/_CoqProject ===== *)
-Q . S2P
Prelude.v
Layers.v
Sums.v
Odict.v
PyValue.v
Csv.v
Profiles.v
Samples.v
Distance.v
Rows.v
Normalize.v
Order.v
Milp.v
Cluster.v
Loops.v
Penalty.v
Preference.v
Pipeline.v
Nearest.v
Schema.v
Outcomes.v
Saved.v
Ordered.v
Files.v
Columns.v
Solvers.v
Reorder.v
Determined.v
