(* ===== verification/Prelude.v ===== *)
(** * Verification of the artist-clustering pipeline

    The repository holds two Python scripts that sort "artist" records into
    readiness clusters:

    - [src/artist_clustering.py]: one ideal profile, a per-feature weight
      table, a weighted Manhattan distance per record, and a binary program
      that selects at least [min_ready_artists] records of smallest total
      distance as 'Ready';
    - [src/modified_artist_clustering.py]: three named profiles ('Ready',
      'Potential', 'Not Ready'), an unweighted Manhattan distance per record
      and profile, a per-profile normalisation by the column maximum, and a
      binary program that assigns every record to exactly one cluster under
      a per-cluster floor [max(1, N // K)], with a constant penalty of 10 on
      'Not Ready'.

    Both scripts run the same pipeline: [load_data] -> [calculate_all_distances]
    (-> [normalize_distances]) -> [cluster_artists] -> CSV writer.

    The development has two layers.  In the first (files [PyValue] to
    [Outcomes]) a row is a finite map: this is enough for the distances,
    the model of the solver and the labels, which never depend on the order
    of the keys; the files [Solvers] and [Reorder] belong to it.  In the
    second (files [Odict], [Csv], [Ordered], [Files], [Columns],
    [Determined])
    a row is a dictionary that keeps the order of insertion, as Python's
    does, the input is the list of records of the file and the output the
    list of records handed to [csv.writer]; every function of the scripts
    that assigns to a key is written again on such rows, and so is
    [calculate_distance], whose diagnostic prints the row; each is proved
    to refine the function of the first layer.

    ** Files, in the order of their dependencies

    - [Prelude] (this file): the exceptions of the Python runtime that the
      scripts can raise ([exn]), the writer-and-error monad [M] in which every
      fallible or printing function is modelled, monadic list traversals
      ([foldM] for a loop with an accumulator, [mapM] for a loop over rows),
      and the shared lemmas on sums of rationals.
    - [Layers]: [map_result], the equations between a computation on
      ordered rows and the computation on rows without order, carried
      through [bind], [foldM] and [mapM]; invariants of loops that return;
      the first exception of a traversal that never prints;
      [map_events].
    - [Sums]: sums of 0/1 values: sums of indicators count, a sum that is 1
      selects one index, double sums commute, round-robin dealing, and the
      change of a sum when one of its terms changes.
    - [Odict]: Python's [dict] with its order of insertion, as an
      association list: [od_get] is [d.get(k)], [od_set] is [d[k] = v] (a
      key that is present keeps its place, a new key goes last), [dict_of]
      is [dict(pairs)], [to_map] forgets the order and [in_order] puts a
      finite map in the order of a list of columns.
    - [PyValue]: the Python values held by a record ([value]), rows as
      [gmap string value], the builtins the scripts call ([float], [max],
      [/], [//], [+], [enumerate], [str.replace], [str.isdigit],
      [dict.get], [dict[key]]) and the interface [FloatParser] for [float]
      applied to a string, with the decimal instance [decimal_parser].
    - [Csv]: [csv.DictReader] and [csv.DictWriter] on records (the lists
      of fields of the lines): [dict_row] is [DictReader.__next__],
      [dict_to_list], [writerow], [writeheader] and [writerows] are the
      methods of [DictWriter] with [extrasaction='raise'] and
      [restval=''].
    - [Profiles]: the module-level tables [ideal_artist], [weights] and
      [profiles] of both scripts, and their well-formedness.  Module
      [Artist] is artist_clustering.py, Module [Modified] is
      modified_artist_clustering.py, here and in the files below.
    - [Samples]: sample records, used to instantiate the theorems.
    - [Distance]: [calculate_distance] of both scripts (the loop over the
      profile, the [except ValueError] penalty branch, the re-raising
      branch) and [calculate_all_distances] of the single-profile script.
    - [Rows]: rows up to the equality of their numbers ([≡]), and
      [calculate_distance] as a morphism for it.
    - [Normalize]: [normalize_distances] and [calculate_all_distances] of
      the multi-profile script.
    - [Order]: [calculate_all_distances] on the rows in another order.
    - [Milp]: the part of the gurobipy interface the scripts use (a model of
      binary variables named by index tuples, linear expressions, a
      minimised objective, linear constraints), feasibility and optimality
      of a solution, the class [Solver] that states what [Model.optimize]
      promises, and the reference solver [brute_force] that meets it.
    - [Cluster]: [cluster_artists] of both scripts: [cluster_model] builds
      the model (lines 69-80 and 102-124), [optimize] is the solver, and
      [assign_clusters] reads the labels back from [x.X > 0.5] (lines 86-87
      and 130-135).
    - [Loops]: the nested loops of lines 131-135 of
      modified_artist_clustering.py once more, as a machine: a state
      ([state]: the counters [i] and [j] and the list [data], updated in
      place by line 134), a step relation with one rule per test of a loop
      ([step]: the outer loop ends, the inner loop ends, [X] is missing,
      [break], next cluster), its function [next] and the runner [run].
    - [Penalty]: the effect of the constant 10 of line 110 on the rows that
      [cluster_artists] returns.
    - [Preference]: where the floors leave a choice, the cluster a row gets
      is the one where it costs least.
    - [Pipeline]: [load_data] (the conversion of the cells, lines 11-15, on
      the rows that [csv.DictReader] yields) and [main] of both scripts
      (lines 92-116 and 140-164): the stages in order, the lines printed,
      the rows handed to [csv.DictWriter].
    - [Nearest]: which rows artist_clustering.py calls 'Ready'.
    - [Schema]: the shape of the rows that [main] of
      modified_artist_clustering.py writes ([output_row]).
    - [Outcomes]: how [main] of both scripts ends on every file the reader
      can yield for lines as long as the header ([modified_verdict],
      [artist_verdict]).
    - [Saved]: the form of the events of a run of [main]: one header and
      then the rows when it returns, nothing for the writer when it
      raises; [cluster_artists] prints nothing.
    - [Ordered]: Module [Ordered] has [load_data] (lines 5-17, from the
      records of the file, with the key [None] of a long record), [save]
      (the block of lines 111-114 and 159-162, with the keys of the first
      row as field names) and, in Modules [Artist] and [Modified], every
      stage that assigns to a key of a row, [calculate_distance] (which
      prints the row) and [main], on rows that keep the order of their
      keys; the objective of the model, which only reads the rows, is that
      of the first layer, applied to [to_row].
    - [Files]: [main] of both scripts from the records of the input file
      to the records of the output file.
    - [Columns]: inputs that differ in the order of their columns.
    - [Solvers]: [cluster_artists] of both scripts with the call
      [model.optimize()] as a parameter ([cluster_artists_with],
      [ready_artists_with]), the contracts [tolerant] and [within_gap]
      of a solver that leaves values near 0 and 1 and may stop before
      the optimum, the solver [thresholded] that the test [x.X > 0.5]
      makes of a tolerant one, a second reference solver
      ([brute_force_last]) and a perturbed one ([noisy]), and the total
      cost of labelled rows ([labelled_cost], [ready_cost]).
    - [Reorder]: an assignment as the list of the rows paired with their
      clusters ([paired]), and [cluster_artists] of
      modified_artist_clustering.py on the rows in another order.
    - [Determined]: [main] of modified_artist_clustering.py with two
      solvers.

    ** Modelling choices

    - Numbers.  Python [int] and [float] are both modelled by exact
      rationals [Q]; equality of numbers is [Qeq] ([==]).  Rounding, and the
      non-finite floats [inf] and [nan], are outside the model: a string that
      [float] would turn into a non-finite value makes the model raise the
      pseudo-exception [NonFinite], which no [except] clause of the scripts
      catches, so no theorem speaks about such runs.
    - Dictionaries.  A record (a CSV row) is a [gmap string value]; only
      lookups and updates by key are used by the code that is modelled.  The
      profile tables are association lists, because the scripts iterate
      over them and the iteration order fixes the order of the sum, of the
      diagnostics and of the cluster indices.
    - Mutation.  The scripts update the rows of [data] in place and return
      the same list.  The rows produced by [load_data] are distinct objects,
      so the model passes the list of rows through each function and
      returns the updated list.
    - Effects.  [print] calls inside [calculate_distance] are recorded as
      events of the monad [M]; an uncaught exception is the outcome
      [inl e].  A run that raises keeps the events printed before the raise.
      [main] has events of type [output]: the diagnostics, its own
      messages, the line printed per row, and the file written ([Opened],
      [Header], one [Record] per row).  An event holds the values printed,
      not the text of the line.
    - The row of a diagnostic.  Lines 55 of artist_clustering.py and 77 of
      modified_artist_clustering.py print the whole row, a dictionary that
      shows its items in the order of its keys.  In the first layer the
      event [NonNumeric feature row] holds the row as a finite map: the
      order of the items printed is not in that layer, and its theorems on
      diagnostics say which features are reported about which row, not in
      which order the row shows its items.  In the second layer the event
      [Ordered.NonNumeric feature row] holds the dictionary with its keys
      in order, in modified_artist_clustering.py with the distances
      stored before the one that is being computed; [printed cols] gives
      the diagnostic of the second layer for that of the first, by putting
      the row in the order of the columns of the output.
    - Files.  In the first layer the input file is given as the list of
      rows that [csv.DictReader] yields: strings under the names of the
      header, [None] where a line is short.  The output file is the list
      of rows given to [csv.DictWriter], which refuses with [ValueError] a
      row that has a key outside the keys of the first row.  In the second
      layer the input is the list of records that [csv.reader] yields for
      the file, the first of them the header, and the output the list of
      records that [csv.writer] takes; [rows_of] gives the rows of the
      first layer for the records, and [shown] the events of the second
      layer for those of the first.  The key [None] of a record longer
      than the header, whose value is a list, is the field [rest] of a
      [reader_row]: it is the last key of the dictionary, so [load_data]
      reaches it after the other keys.  The text of the files is not
      modelled.
    - Loops.  Every loop of the scripts runs over a finite list, so the
      stages are structural [Fixpoint]s or folds: no fuel is needed, and
      "returns" theorems are statements about total functions.  The one
      loop nest with a [break] is also modelled step by step in [Loops];
      its runner takes fuel, and [steps_left] gives the fuel that is
      enough: [len(cluster_names) + 1] tests for each row that remains
      (one per cluster and the test that ends the inner loop), the tests
      left for the current row, and the test that ends the outer loop.
      With that fuel the runner is proved to halt in a final
      configuration, and to end as the fold does.  [tests] is the fuel
      that is needed: the tests that the loops make on a given solution,
      fewer than [steps_left] by those that [break] saves.
    - The solver.  Gurobi is external.  [Milp] states its contract as the
      class [Solver]: [optimize] yields a solution that is feasible and of
      least objective, or none when no solution exists.  The theorems of
      [Cluster] are proved for every instance of the class; which optimal
      solution is returned on a tie is left open, as it is by Gurobi.
      [brute_force] enumerates the 0/1 assignments of the variables, so it
      is only run on small sample tables (at most 12 variables).  Reading
      [X] without a solution raises [AttributeError], as gurobipy does.
      The product of a variable and a value that is not a number (line
      76 of artist_clustering.py, on a string or [None] left under
      ['Distance_to_Ideal']) is taken to raise [TypeError], as Python does
      for operands without a product: this is an assumption on gurobipy,
      and [main] never reaches it, since the distances it stores are
      numbers.
      A numeric solver leaves in a binary variable a value within its
      integrality tolerance of 0 or 1: [Solvers] states this as
      [tolerant] (every value less than one half away from that of an
      optimal solution, which is all that the test [> 0.5] needs) and
      proves that the scripts run with such a solver as with one of the
      class.  It may also stop at a solution whose value is within a gap
      of the least: [within_gap] is the contract with the gap as a
      parameter, and [tolerant] is [within_gap 0].

    ** Theorem groups

    - [Prelude]: monad laws, inversion of successful binds, traversals.
    - [Distance]: [calculate_distance] refines the Manhattan distance of
      the counted values; the distance is non-negative for non-negative
      ideals and weights and zero exactly on records that match the
      profile; a missing feature counts as 0; the [ValueError] penalty
      equals the term of a 0 entry; the diagnostics list exactly the
      rejected features; a [None] raises [TypeError].
    - [Rows]: [float], [dict.get] and [calculate_distance] are [Proper]
      for the equivalence of rows: a distance does not depend on the
      fraction that stands for a number.
    - [Normalize]: [calculate_all_distances] stores every distance divided
      by the column maximum; columns end within [0,1] with maximum 1;
      [ZeroDivisionError] on an all-zero column, [KeyError] and
      [TypeError] on malformed columns; a second pass changes nothing; the
      'weight' entries are never read.
    - [Order]: the maximum of a column is [Proper] for permutations, so a
      row gets the same normalised distances, up to [≡], wherever it
      stands among the rows; for the single-profile script the rows
      returned are permuted with the rows given.
    - [Milp]: the reference solver returns an optimal solution and returns
      none only for an infeasible model.
    - [Cluster]: the models in closed form; a model of the multi-profile
      script is feasible exactly when there are at least as many rows as
      clusters; [cluster_artists] then returns a labelling that meets the
      floors and has least total cost, and raises [AttributeError]
      otherwise; an empty registry raises [ZeroDivisionError]; the same
      for the single-profile script with its floor [min_ready_artists];
      an assignment written as values of the variables and read back by
      the loops gives the assignment (round trip); values of which none
      is above one half leave the rows without a label.
    - [Loops]: the machine is deterministic and never stuck, halts from
      every state (the relation is strongly normalising, the runner ends
      within [steps_left]), keeps the rows it has not reached, and ends
      with the list or the exception of [assign_clusters] (refinement of
      the fold by the loops), after exactly the tests that [tests]
      counts: one per cluster up to the one chosen for each row, so the
      runner has ended with that fuel and with no less.
    - [Penalty]: by moving one row out of 'Not Ready' an assignment gets
      cheaper by 9 at least, because normalised distances lie in [0,1]; so
      the rows labelled 'Not Ready' are exactly [max(1, N // K)], whatever
      the data, for every assignment less than 9 above the least cost.
    - [Preference]: by exchanging two rows, or moving a row out of a
      cluster above its floor, an optimal assignment gets no cheaper: two
      rows never both gain by exchanging clusters, and a row of a cluster
      above its floor costs there no more than anywhere else.
    - [Nearest]: the same argument for the single-profile script: no row
      'Not Ready' is nearer to the ideal profile than a row 'Ready', and
      with positive distances exactly [min_ready_artists] rows are
      'Ready'.
    - [PyValue], [Pipeline]: the decimal parser never rejects a string of
      digits around at most one point, so the [except ValueError] clause of
      [load_data] is never taken and [load_data] replaces exactly those
      strings by their numbers; a cell that is not a string raises
      [AttributeError].
    - [Pipeline]: [main] composes the stages: on a file that the stages
      accept, with at least three (five) rows, it runs to its end and the
      rows written are the rows read with their distances and the labels
      of an optimal assignment; with fewer rows it raises
      [AttributeError]; on a file without rows it raises [IndexError]
      after opening the output file.
    - [Schema]: every row written has the columns of the input, a number
      in [0,1] per profile, the name of a profile under 'Cluster' and no
      [None].
    - [Outcomes]: on every file of strings under the keys of a header the
      outcome of [main] is the verdict computed from the file ([IndexError],
      [ZeroDivisionError], [AttributeError] or a normal end), and no row
      is written unless the end is normal; so no [ValueError], [TypeError]
      or [KeyError] escapes.
    - [Odict], [Csv]: assignment keeps the keys distinct and in order;
      every dictionary of the reader has the columns of the header as
      keys; a record as long as a header of distinct names is zipped with
      it; the header is written as it is; a dictionary written under its
      own keys gives its values; the reader followed by the writer gives
      back the records that are not blank.
    - [Ordered]: every stage refines the stage of the first layer
      ([map_result (fmap to_row) (stage data) = stage' (to_row <$> data)]
      for a stage that prints nothing; for [calculate_all_distances], on
      rows whose keys come first among the columns [cols],
      [map_result (fmap to_row) (stage data)
       = map_events (printed cols) (stage' (to_row <$> data))]: the row of
      a diagnostic is the row of the first layer in the order of the
      columns), and the keys of the rows after every stage are those
      before it followed by the keys that the stage adds.
    - [Files]: [load_data] on records as long as the header refines
      [load_data] on rows, whatever order the latter takes the keys in (the
      loop over the keys ends the same in every order when the cells that
      it refuses are refused alike); a record longer or shorter than the
      header raises [AttributeError]; [main] on the records refines [main]
      on the rows; the file written has the columns of the input, then the
      columns added, and one record per row with the cells of the first
      layer's theorems; the outcome of [main] on every input of strings;
      [save] after the reader gives back the file.
    - [Columns]: [keys_after] is [Proper] for permutations of the keys;
      inputs with the same fields under the same names give the same rows
      of the reader, so the two runs of [main] end the same, print the
      same lines of [main], print diagnostics about the same features
      whose rows have the same items, each in the order of the columns of
      its input, and write the same cells under the same names.  The
      order of the columns of the input shows in the columns written and
      in the rows printed, and nowhere else.
    - [Solvers]: rounding at one half changes no label and turns values
      close to an optimal solution into an optimal solution, so a
      tolerant solver behind the test [> 0.5] is a solver of the class;
      with a solver within a gap the rows returned meet the floors and
      cost at most the gap more than the least, and for a gap below 9
      (the penalty less the width of the normalised distances) 'Not
      Ready' still labels exactly the floor of rows;
      [cluster_artists] of modified_artist_clustering.py ends in one of
      five ways on every input: the exception of the first cost that is
      not a number ([first_cost_error]), or what the numbers of rows and
      clusters decide; two
      solvers of the class give the same events, the same exception and
      rows of the same total cost; when one assignment only has the
      least cost ([only_least], tested by enumeration with
      [only_least_among]) every solver returns its labels, and on a
      table with ties the two reference solvers differ.
    - [Reorder]: [Qsum], the cost and the floors are [Proper] for
      permutations of the pairs; a permutation of the rows lifts to the
      pairs; so the least cost is that of the rows in any order, and
      with one assignment of least cost only the labelled rows are
      permuted as the rows are.
    - [Determined]: the solver is called once, so two runs of [main]
      are the same run when [cluster_artists] is the same on the table
      that reaches it; without a tie on that table the records handed
      to the writer are those of the one assignment of least cost,
      whatever the solver.

    Every theorem with a hypothesis is applied to sample data in a lemma
    named after it with the suffix [_witness], with the decimal parser and
    the reference solver as instances.

    ** Not modelled

    - The text of the CSV files.  [csv.reader] and [csv.writer] are
      library code in C that the scripts only call: the model starts from
      the records that the reader yields for the lines and ends with the
      records given to the writer.  Delimiters, quoting, dialects, line
      ends and encodings are outside the model, and so is the text that the
      writer produces for a number ([repr] of a float has no counterpart
      on exact rationals).  The errors of the file system (a missing input
      file, an output file that cannot be opened) are outside the model.
    - Gurobi's search, log, licence and time limits: the solver is its
      contract, in three strengths ([Solver], [tolerant], [within_gap]).
      A run that a time limit stops before any solution is found is in
      none of them; the scripts set no time limit.
    - IEEE-754 rounding and the non-finite floats.
    - The line [if __name__ == "__main__"] and the imports.

    ** Left for later

    [Proper] instances for the stages after [calculate_distance]
    (normalisation and the choice of the labels up to [≡]), with which
    the theorems of [Order] and [Reorder] would compose into one on
    [main] for a file with its lines in another order; what the
    decimal parser reads on signs, exponents and underscores (it reads
    them, but the theorems characterise it on digits around one point
    only). *)

From Stdlib Require Import QArith Qabs Lqa.
From stdpp Require Import base option list sets.

#[global] Open Scope Q_scope.

(** ** Tactics *)

(** Closes a decidable goal by evaluating its decision procedure. *)
Ltac vm_decide := apply (bool_decide_unpack _); vm_compute; exact I.

(** ** Exceptions *)

(** The exceptions the modelled code can raise, by their Python names.
  [NonFinite] marks a float that the model cannot represent. *)
Inductive exn : Type :=
| ValueError
| TypeError
| KeyError
| ZeroDivisionError
| AttributeError
| IndexError
| NonFinite.

#[export] Instance exn_eq_dec : EqDecision exn.
Proof. solve_decision. Defined.

(** ** The monad of printing, fallible computations *)

(** A computation yields the events it printed and either an uncaught
  exception or a value. *)
Definition M (E A : Type) : Type := (list E * (exn + A))%type.

Section monad.
Context {E : Type}.

Definition ret {A} (a : A) : M E A := ([], inr a).
Definition raise {A} (e : exn) : M E A := ([], inl e).
Definition tell (ev : E) : M E unit := ([ev], inr tt).

Definition bind {A B} (m : M E A) (k : A → M E B) : M E B :=
  match m with
  | (l, inl e) => (l, inl e)
  | (l, inr a) => let '(l', r) := k a in (l ++ l', r)
  end.

(** [try: m except ...]: the handler [h] receives the exception raised by
  [m] and stands for the list of [except] clauses; an exception raised by
  the handler itself is not handled again. *)
Definition try_except {A} (m : M E A) (h : exn → M E A) : M E A :=
  match m with
  | (l, inl e) => let '(l', r) := h e in (l ++ l', r)
  | (l, inr a) => (l, inr a)
  end.

Definition events {A} (m : M E A) : list E := fst m.
Definition outcome {A} (m : M E A) : exn + A := snd m.

(** [m] returns [a]; [m] raises [e]. *)
Definition returns {A} (m : M E A) (a : A) : Prop := outcome m = inr a.
Definition raises {A} (m : M E A) (e : exn) : Prop := outcome m = inl e.

(** Lifting an exception-or-value into the monad. *)
Definition lift {A} (r : exn + A) : M E A := ([], r).

(** The same computation with its events seen through [f]. *)
Definition map_events {E' A} (f : E → E') (m : M E A) : M E' A :=
  (f <$> m.1, m.2).

(** [for x in l: acc = body(acc, x)] *)
Fixpoint foldM {A B} (body : B → A → M E B) (acc : B) (l : list A) : M E B :=
  match l with
  | [] => ret acc
  | x :: l' => bind (body acc x) (λ acc', foldM body acc' l')
  end.

(** [for x in l: x = body(x)], the updated list being returned. *)
Fixpoint mapM {A B} (body : A → M E B) (l : list A) : M E (list B) :=
  match l with
  | [] => ret []
  | x :: l' => bind (body x) (λ y, bind (mapM body l') (λ ys, ret (y :: ys)))
  end.
End monad.

Arguments M : clear implicits.

Declare Scope py_scope.
Delimit Scope py_scope with py.
Notation "x <- m ;; k" := (bind m (λ x, k))
  (at level 100, m at next level, right associativity) : py_scope.
Notation "m ;; k" := (bind m (λ _, k))
  (at level 100, right associativity) : py_scope.
#[global] Open Scope py_scope.

(** ** Laws of the monad *)

Section monad_laws.
Context {E : Type}.
Implicit Types (e : exn) (l : list E).

Lemma bind_ret_l {A B} (a : A) (k : A → M E B) : bind (ret a) k = k a.
Proof. unfold bind, ret. by destruct (k a). Qed.

Lemma bind_ret_r {A} (m : M E A) : bind m ret = m.
Proof. destruct m as [l [e|a]]; simpl; [done|]. by rewrite app_nil_r. Qed.

Lemma bind_assoc {A B C} (m : M E A) (k : A → M E B) (h : B → M E C) :
  bind (bind m k) h = bind m (λ a, bind (k a) h).
Proof.
  destruct m as [l [e|a]]; simpl; [done|].
  destruct (k a) as [l1 [e1|b]]; simpl; [done|].
  destruct (h b) as [l2 r]. by rewrite app_assoc.
Qed.

Lemma bind_ext {A B} (m : M E A) (k k' : A → M E B) :
  (∀ a, k a = k' a) → bind m k = bind m k'.
Proof. intros Hk. destruct m as [l [e|a]]; simpl; [done|]. by rewrite Hk. Qed.

Lemma bind_raise {A B} e (k : A → M E B) : bind (raise e) k = raise e.
Proof. done. Qed.

Lemma bind_lift_inr {A B} (a : A) (k : A → M E B) : bind (lift (inr a)) k = k a.
Proof. apply bind_ret_l. Qed.

Lemma bind_lift_inl {A B} e (k : A → M E B) : bind (lift (inl e)) k = raise e.
Proof. done. Qed.

Lemma try_except_raise {A} e (h : exn → M E A) : try_except (raise e) h = h e.
Proof. unfold try_except, raise. by destruct (h e). Qed.

Lemma try_except_ret {A} (a : A) (h : exn → M E A) : try_except (ret a) h = ret a.
Proof. done. Qed.

Lemma bind_tell {B} ev (k : unit → M E B) :
  bind (tell ev) k = (ev :: events (k tt), outcome (k tt)).
Proof. unfold tell, bind. by destruct (k tt). Qed.

Lemma bind_ok {A B} l (a : A) (k : A → M E B) :
  bind (l, inr a) k = (l ++ events (k a), outcome (k a)).
Proof. simpl. by destruct (k a). Qed.

Lemma bind_err {A B} l e (k : A → M E B) : bind (l, inl e) k = (l, inl e).
Proof. done. Qed.

Lemma try_except_ok {A} l (a : A) (h : exn → M E A) :
  try_except (l, inr a) h = (l, inr a).
Proof. done. Qed.

Lemma try_except_err {A} l e (h : exn → M E A) :
  try_except (l, inl e) h = (l ++ events (h e), outcome (h e)).
Proof. simpl. by destruct (h e). Qed.

(** A handler that re-raises leaves the exception in place. *)
Lemma try_except_reraise {A} (m : M E A) :
  try_except m raise = m.
Proof. destruct m as [l [e|a]]; simpl; [|done]. by rewrite app_nil_r. Qed.

Lemma returns_bind {A B} (m : M E A) (k : A → M E B) a b :
  returns m a → returns (k a) b → returns (bind m k) b.
Proof.
  unfold returns, outcome. destruct m as [l o]. simpl. intros ->.
  by destruct (k a).
Qed.

Lemma raises_bind_l {A B} (m : M E A) (k : A → M E B) e :
  raises m e → raises (bind m k) e.
Proof. unfold raises, outcome. destruct m as [l o]. simpl. by intros ->. Qed.

Lemma raises_bind_r {A B} (m : M E A) (k : A → M E B) a e :
  returns m a → raises (k a) e → raises (bind m k) e.
Proof.
  unfold returns, raises, outcome. destruct m as [l o]. simpl. intros ->.
  by destruct (k a).
Qed.

Lemma returns_ret {A} (a : A) : returns (ret (E:=E) a) a.
Proof. done. Qed.

Lemma raises_raise {A} e : raises (raise (E:=E) (A:=A) e) e.
Proof. done. Qed.

(** An outcome is a value or an exception, never both. *)
Lemma returns_raises {A} (m : M E A) a e : returns m a → raises m e → False.
Proof. unfold returns, raises. congruence. Qed.

Lemma returns_inj {A} (m : M E A) a a' : returns m a → returns m a' → a = a'.
Proof. unfold returns. congruence. Qed.

(** A bind succeeds exactly when both parts do. *)
Lemma bind_inr {A B} (m : M E A) (k : A → M E B) l b :
  bind m k = (l, inr b) ↔
  ∃ l1 a l2, m = (l1, inr a) ∧ k a = (l2, inr b) ∧ l = l1 ++ l2.
Proof.
  destruct m as [l1 [e|a]]; simpl.
  - split; [done|]. by intros (?&?&?&?&_).
  - destruct (k a) as [l2 r] eqn:Hk. split.
    + intros [= <- ->]. eauto 6.
    + intros (?&?&?&[= <- <-]&Hk'&->). rewrite Hk in Hk'. by simplify_eq.
Qed.

Lemma returns_bind_inv {A B} (m : M E A) (k : A → M E B) b :
  returns (bind m k) b → ∃ a, returns m a ∧ returns (k a) b.
Proof.
  unfold returns, outcome. destruct (bind m k) as [l o] eqn:Hb. simpl.
  intros ->. apply bind_inr in Hb as (l1 & a & l2 & -> & Hk & _).
  exists a. by rewrite Hk.
Qed.

Lemma returns_lift_inv {A} (r : exn + A) a : returns (lift (E:=E) r) a → r = inr a.
Proof. unfold returns, lift. by destruct r; intros [=]; subst. Qed.

(** What a bind prints and yields after a first part that returns, and after
    one that raises. *)
Lemma events_bind {A B} (m : M E A) (k : A → M E B) a :
  returns m a → events (bind m k) = events m ++ events (k a).
Proof.
  unfold returns, outcome, events. destruct m as [l o]. simpl. intros ->.
  by destruct (k a).
Qed.

Lemma outcome_bind {A B} (m : M E A) (k : A → M E B) a :
  returns m a → outcome (bind m k) = outcome (k a).
Proof.
  unfold returns, outcome. destruct m as [l o]. simpl. intros ->.
  by destruct (k a).
Qed.

Lemma events_bind_raises {A B} (m : M E A) (k : A → M E B) e :
  raises m e → events (bind m k) = events m.
Proof. unfold raises, outcome, events. destruct m as [l o]. simpl. by intros ->. Qed.

Lemma eta_M {A} (m : M E A) : m = (events m, outcome m).
Proof. by destruct m. Qed.

(** A computation that returns is its events and its value. *)
Lemma returns_eq {A} (m : M E A) a : returns m a → m = (events m, inr a).
Proof. intros Hm. rewrite (eta_M m) at 1. by rewrite Hm. Qed.

(** A bind after a first part that is known. *)
Lemma bind_eq {A B} (m : M E A) (k : A → M E B) l1 a l2 o :
  m = (l1, inr a) → k a = (l2, o) → bind m k = (l1 ++ l2, o).
Proof. intros -> Hk. simpl. by rewrite Hk. Qed.

(** Events seen through a function. *)
Lemma outcome_map_events {E' A} (f : E → E') (m : M E A) :
  outcome (map_events f m) = outcome m.
Proof. done. Qed.

Lemma events_map_events {E' A} (f : E → E') (m : M E A) :
  events (map_events f m) = f <$> events m.
Proof. done. Qed.

Lemma map_events_ret {E' A} (f : E → E') (a : A) : map_events f (ret a) = ret a.
Proof. done. Qed.

Lemma map_events_raise {E' A} (f : E → E') e :
  map_events f (raise (A:=A) e) = raise e.
Proof. done. Qed.
End monad_laws.

Create HintDb py discriminated.
Create Rewrite HintDb pyrw.
#[export] Hint Rewrite @bind_ret_l @bind_ret_r @bind_raise @bind_err
  @bind_lift_inr @bind_lift_inl @bind_tell @try_except_ok @try_except_raise
  @try_except_ret @try_except_reraise : pyrw.

(** ** Traversals *)

Section traversals.
Context {E : Type}.

(** A loop whose body never prints or raises is a left fold. *)
Lemma foldM_ret {A B} (f : B → A → B) (acc : B) (l : list A) :
  foldM (E:=E) (λ b a, ret (f b a)) acc l = ret (fold_left f l acc).
Proof.
  revert acc. induction l as [|x l IH]; intros acc; cbn [foldM fold_left]; [done|].
  by rewrite bind_ret_l.
Qed.

Lemma foldM_app {A B} (body : B → A → M E B) acc (l1 l2 : list A) :
  foldM body acc (l1 ++ l2) = (acc' <- foldM body acc l1 ;; foldM body acc' l2).
Proof.
  revert acc. induction l1 as [|x l1 IH]; intros acc; cbn [foldM app].
  - by rewrite bind_ret_l.
  - rewrite bind_assoc. destruct (body acc x) as [l [e|b]]; [done|].
    by rewrite !bind_ok, IH.
Qed.

(** A traversal of [x :: l] succeeds exactly when the body succeeds on [x]
    and the traversal of [l] succeeds. *)
Lemma mapM_cons_inr {A B} (body : A → M E B) x (l : list A) ev (l' : list B) :
  mapM body (x :: l) = (ev, inr l') ↔
  ∃ ev1 y ev2 ys, body x = (ev1, inr y) ∧ mapM body l = (ev2, inr ys) ∧
                  l' = y :: ys ∧ ev = ev1 ++ ev2.
Proof.
  cbn [mapM]. destruct (body x) as [ev1 [e|y]]; simpl.
  { split; [done|]. by intros (?&?&?&?&?&_). }
  destruct (mapM body l) as [ev2 [e|ys]]; simpl.
  { split; [done|]. by intros (?&?&?&?&_&?&_). }
  rewrite app_nil_r. split.
  - intros [= <- <-]. eauto 8.
  - by intros (?&?&?&?&[= <- <-]&[= <- <-]&->&->).
Qed.

(** A traversal returns [l'] exactly when the body returns the elements of
    [l'] on the elements of [l], one by one. *)
Lemma mapM_returns_iff {A B} (body : A → M E B) (l : list A) (l' : list B) :
  returns (mapM body l) l' ↔ Forall2 (λ x y, returns (body x) y) l l'.
Proof.
  unfold returns, outcome. revert l'. induction l as [|x l IH]; intros l'.
  - split; [intros [= <-]; constructor | by inversion 1].
  - destruct (mapM body (x :: l)) as [ev o] eqn:Hm. simpl. split.
    + intros ->. apply mapM_cons_inr in Hm as (?&y&?&ys&Hy&Hys&->&_).
      constructor; [by rewrite Hy | apply IH; by rewrite Hys].
    + inversion 1 as [|? y ? ys Hy Hys]; subst. apply IH in Hys.
      destruct (body x) as [ev1 o1] eqn:Hb, (mapM body l) as [ev2 o2] eqn:Hl.
      simpl in Hy, Hys; subst.
      assert (mapM body (x :: l) = (ev1 ++ ev2, inr (y :: ys))) as Hm'
        by (apply mapM_cons_inr; eauto 8).
      congruence.
Qed.

(** A successful traversal keeps the length of the list. *)
Lemma mapM_length {A B} (body : A → M E B) (l : list A) (l' : list B) :
  returns (mapM body l) l' → length l' = length l.
Proof. intros Hl%mapM_returns_iff. symmetry. by eapply Forall2_length. Qed.

(** The [i]-th result of a successful traversal is the result of the body on
    the [i]-th element. *)
Lemma mapM_lookup {A B} (body : A → M E B) (l : list A) (l' : list B) i x :
  returns (mapM body l) l' → l !! i = Some x →
  ∃ y, l' !! i = Some y ∧ returns (body x) y.
Proof. intros Hl%mapM_returns_iff Hi. by eapply Forall2_lookup_l in Hl. Qed.

(** A traversal returns when the body returns on every element. *)
Lemma mapM_total {A B} (body : A → M E B) (l : list A) :
  Forall (λ x, ∃ y, returns (body x) y) l → ∃ l', returns (mapM body l) l'.
Proof.
  induction 1 as [|x l [y Hy] _ [ys Hys]]; [by exists []|].
  exists (y :: ys). apply mapM_returns_iff. constructor; [done|].
  by apply mapM_returns_iff.
Qed.

(** The events of a successful traversal are those of the body, in order. *)
Lemma mapM_events {A B} (body : A → M E B) (l : list A) (l' : list B) :
  returns (mapM body l) l' →
  events (mapM body l) = concat ((λ x, events (body x)) <$> l).
Proof.
  unfold returns, outcome, events. revert l'.
  induction l as [|x l IH]; intros l'; [done|].
  destruct (mapM body (x :: l)) as [ev o] eqn:Hm. simpl. intros ->.
  apply mapM_cons_inr in Hm as (?&y&?&ys&Hy&Hys&->&->).
  rewrite Hy. simpl. f_equal. specialize (IH ys). rewrite Hys in IH.
  exact (IH eq_refl).
Qed.

(** How a traversal ends: with the first exception of the body, or with
    the results of the body in order. *)
Lemma outcome_mapM_cons {A B} (body : A → M E B) x (l : list A) :
  outcome (mapM body (x :: l)) =
  match outcome (body x) with
  | inl e => inl e
  | inr y =>
      match outcome (mapM body l) with
      | inl e => inl e
      | inr ys => inr (y :: ys)
      end
  end.
Proof.
  cbn [mapM]. destruct (body x) as [ev1 [e|y]]; [done|].
  by destruct (mapM body l) as [ev2 [e|ys]].
Qed.

Lemma mapM_ext {A B} (f g : A → M E B) (l : list A) :
  (∀ x, f x = g x) → mapM f l = mapM g l.
Proof. intros Hfg. induction l as [|x l IH]; [done|]. cbn [mapM]. by rewrite Hfg, IH. Qed.

(** A traversal whose body neither prints nor raises is a map. *)
Lemma mapM_pure {A B} (body : A → M E B) (f : A → B) (l : list A) :
  Forall (λ x, body x = ret (f x)) l → mapM body l = ret (f <$> l).
Proof.
  induction 1 as [|x l Hx _ IH]; [done|].
  cbn [mapM]. by rewrite Hx, IH, !bind_ret_l.
Qed.

(** A traversal whose body is pure up to an element on which it raises
    without printing raises that exception, and prints nothing. *)
Lemma mapM_pure_raise {A B} (body : A → M E B) (f : A → B) l1 x l2 e :
  Forall (λ x, body x = ret (f x)) l1 → body x = raise e →
  mapM body (l1 ++ x :: l2) = raise e.
Proof.
  intros Hl Hx. induction Hl as [|y l1 Hy _ IH]; cbn [mapM app].
  - by rewrite Hx.
  - by rewrite Hy, bind_ret_l, IH.
Qed.

(** A traversal raises the exception that the body raises on an element,
    when the body returns on the elements before it. *)
Lemma mapM_raises {A B} (body : A → M E B) l1 x l2 e :
  Forall (λ x, ∃ y, returns (body x) y) l1 → raises (body x) e →
  raises (mapM body (l1 ++ x :: l2)) e.
Proof.
  intros Hl Hx. induction Hl as [|y l1 [b Hy] _ IH]; cbn [mapM app].
  - by apply raises_bind_l.
  - eapply raises_bind_r; [done|]. by apply raises_bind_l.
Qed.

(** A loop for its effects only, whose body prints one event per element. *)
Lemma foldM_tell {A} (body : A → M E unit) (f : A → E) (l : list A) :
  Forall (λ x, body x = tell (f x)) l →
  foldM (λ _ x, body x) tt l = (f <$> l, inr tt).
Proof.
  induction 1 as [|x l Hx _ IH]; [done|].
  cbn [foldM]. rewrite Hx.
  by rewrite (bind_eq _ _ [f x] tt (f <$> l) (inr tt)).
Qed.

(** A traversal raises exactly when the body raises on some element and
    succeeds on all elements before it. *)
Lemma mapM_inl {A B} (body : A → M E B) (l : list A) ev e :
  mapM body l = (ev, inl e) →
  ∃ i x, l !! i = Some x ∧ raises (body x) e ∧
         ∀ j y, (j < i)%nat → l !! j = Some y → ∃ b, returns (body y) b.
Proof.
  revert ev. induction l as [|x l IH]; intros ev; [done|].
  cbn [mapM]. destruct (body x) as [ev1 [e1|y]] eqn:Hx.
  - intros [= <- <-]. exists 0%nat, x. unfold raises. rewrite Hx.
    split_and!; [done..|]. intros; lia.
  - rewrite bind_ok. destruct (mapM body l) as [ev2 [e2|ys]] eqn:Hl; simpl; [|done].
    intros [= <- <-]. destruct (IH _ eq_refl) as (i&x'&?&?&Hlt).
    exists (S i), x'. split_and!; [done..|].
    intros [|j] y' ?; simpl; [|apply Hlt; lia].
    intros [= <-]. exists y. unfold returns. by rewrite Hx.
Qed.
End traversals.

(** ** Rationals *)

(** The mathematical sum of a list, against which the left-to-right
    accumulation of the loops is stated. *)
Definition Qsum (l : list Q) : Q := foldr Qplus 0 l.

#[export] Instance Qle_decision (p q : Q) : Decision (p <= q).
Proof. destruct (Qlt_le_dec q p); [right; lra | by left]. Defined.

#[export] Instance Qlt_decision (p q : Q) : Decision (p < q).
Proof. destruct (Qlt_le_dec p q); [by left | right; lra]. Defined.

#[export] Instance Qeq_decision (p q : Q) : Decision (p == q).
Proof. apply Qeq_dec. Defined.

Lemma fold_left_Qplus (l : list Q) (a : Q) : fold_left Qplus l a == a + Qsum l.
Proof.
  revert a. induction l as [|x l IH]; intros a; simpl; [lra|].
  rewrite IH. unfold Qsum. lra.
Qed.

Lemma Qsum_app (l1 l2 : list Q) : Qsum (l1 ++ l2) == Qsum l1 + Qsum l2.
Proof. induction l1 as [|x l1 IH]; simpl; [lra|]. rewrite IH. lra. Qed.

Lemma Qsum_nonneg (l : list Q) : Forall (λ x, 0 <= x) l → 0 <= Qsum l.
Proof. induction 1; simpl; lra. Qed.

(** A sum of non-negative numbers is zero exactly when all of them are. *)
Lemma Qsum_zero_iff (l : list Q) :
  Forall (λ x, 0 <= x) l → Qsum l == 0 ↔ Forall (λ x, x == 0) l.
Proof.
  induction 1 as [|x l Hx Hl IH]; simpl.
  - split; [constructor | reflexivity].
  - pose proof (Qsum_nonneg l Hl). rewrite Forall_cons, <- IH. lra.
Qed.

Lemma Qsum_le (l1 l2 : list Q) : Forall2 Qle l1 l2 → Qsum l1 <= Qsum l2.
Proof. induction 1; simpl; lra. Qed.

Lemma Qsum_equiv (l1 l2 : list Q) : Forall2 Qeq l1 l2 → Qsum l1 == Qsum l2.
Proof. induction 1 as [|x y l1 l2 Hxy _ IH]; simpl; [reflexivity|]. rewrite Hxy, IH. reflexivity. Qed.

(** The same facts for the sum of [f] over a list. *)
Lemma Qsum_fmap_ext {A} (f g : A → Q) (l : list A) :
  Forall (λ a, f a == g a) l → Qsum (f <$> l) == Qsum (g <$> l).
Proof. intros Hl. apply Qsum_equiv. induction Hl; constructor; done. Qed.

Lemma Qsum_fmap_nonneg {A} (f : A → Q) (l : list A) :
  Forall (λ a, 0 <= f a) l → 0 <= Qsum (f <$> l).
Proof. intros Hl. apply Qsum_nonneg. by apply Forall_fmap. Qed.

Lemma Qsum_fmap_zero_iff {A} (f : A → Q) (l : list A) :
  Forall (λ a, 0 <= f a) l →
  Qsum (f <$> l) == 0 ↔ Forall (λ a, f a == 0) l.
Proof.
  intros Hl. rewrite Qsum_zero_iff by by apply Forall_fmap.
  by rewrite Forall_fmap.
Qed.

Lemma Qsum_fmap_le {A} (f g : A → Q) (l : list A) :
  Forall (λ a, f a <= g a) l → Qsum (f <$> l) <= Qsum (g <$> l).
Proof. intros Hl. apply Qsum_le. induction Hl; constructor; done. Qed.

Lemma Qabs_zero_iff (x : Q) : Qabs x == 0 ↔ x == 0.
Proof. apply Qabs_case; intros; lra. Qed.

Lemma Qabs_of_opp_nonneg (v : Q) : 0 <= v → Qabs (0 - v) == v.
Proof. intros. rewrite Qabs_neg; lra. Qed.

(** ** Lists *)

Lemma NoDup_app_cons_prefix {A} (l1 : list A) (x : A) (l2 : list A) :
  NoDup (l1 ++ x :: l2) → NoDup (l1 ++ [x]).
Proof.
  rewrite !NoDup_app, !NoDup_cons. intros (?&Hx&?&?). split_and!; [done| |set_solver|constructor].
  intros y Hy. specialize (Hx y Hy). set_solver.
Qed.

(** A list that does not satisfy a decidable predicate everywhere has a
    first element that fails it. *)
Lemma Forall_first_failure {A} (P : A → Prop) `{!∀ a, Decision (P a)} (l : list A) :
  ¬ Forall P l → ∃ l1 x l2, l = l1 ++ x :: l2 ∧ Forall P l1 ∧ ¬ P x.
Proof.
  induction l as [|a l IH]; intros Hl; [by destruct Hl|].
  destruct (decide (P a)) as [Ha|Ha].
  - destruct IH as (l1 & x & l2 & -> & Hl1 & Hx); [by intros ?; apply Hl; constructor|].
    exists (a :: l1), x, l2. by repeat constructor.
  - exists [], a, l. by repeat constructor.
Qed.

(** ** Propositions *)

Lemma and_iff_both (A A' B B' : Prop) : (A ↔ A') → (B ↔ B') → (A ∧ B) ↔ (A' ∧ B').
Proof. tauto. Qed.
