(* ===== verification/Layers.v ===== *)
(** * Computations in two layers

    The rows of the scripts are modelled twice: as finite maps, which is
    enough for the distances and the labels, and as dictionaries that keep
    the order of their keys, which is what the file written shows.  A
    function of the ordered layer refines the function of the other layer
    when it prints the same, raises the same, and returns a result that the
    abstraction maps to the result of the other.

    [map_result f m] is the computation [m] with its result seen through
    [f]; "the ordered [g] refines [g']" reads
    [map_result f (g x) = g' (f x)].  The lemmas carry such equations
    through [bind], [foldM] and [mapM], and carry [map_events] through the
    same. *)

From stdpp Require Import base option list.
From S2P Require Import Prelude.

#[local] Open Scope py_scope.

(** The computation with its result seen through [f]. *)
Definition map_result {E A B} (f : A → B) (m : M E A) : M E B :=
  (events m, sum_map id f (outcome m)).

Section map_result.
Context {E : Type}.

Lemma map_result_ret {A B} (f : A → B) (a : A) :
  map_result (E:=E) f (ret a) = ret (f a).
Proof. done. Qed.

Lemma map_result_raise {A B} (f : A → B) e :
  map_result (E:=E) f (raise e) = raise e.
Proof. done. Qed.

Lemma map_result_lift {A B} (f : A → B) (r : exn + A) :
  map_result (E:=E) f (lift r) = lift (sum_map id f r).
Proof. done. Qed.

Lemma map_result_ok {A B} (f : A → B) l (a : A) :
  map_result (E:=E) f (l, inr a) = (l, inr (f a)).
Proof. done. Qed.

Lemma map_result_err {A B} (f : A → B) l e :
  map_result (E:=E) (A:=A) f (l, inl e) = (l, inl e).
Proof. done. Qed.

Lemma map_result_id {A} (m : M E A) : map_result id m = m.
Proof. by destruct m as [l [e|a]]. Qed.

Lemma events_map_result {A B} (f : A → B) (m : M E A) :
  events (map_result f m) = events m.
Proof. done. Qed.

Lemma outcome_map_result {A B} (f : A → B) (m : M E A) :
  outcome (map_result f m) = sum_map id f (outcome m).
Proof. done. Qed.

Lemma returns_map_result {A B} (f : A → B) (m : M E A) a :
  returns m a → returns (map_result f m) (f a).
Proof. unfold returns. rewrite outcome_map_result. by intros ->. Qed.

Lemma returns_map_result_inv {A B} (f : A → B) (m : M E A) b :
  returns (map_result f m) b → ∃ a, returns m a ∧ b = f a.
Proof.
  unfold returns. rewrite outcome_map_result.
  destruct (outcome m) as [e|a]; [done|]. intros [= <-]. eauto.
Qed.

Lemma raises_map_result {A B} (f : A → B) (m : M E A) e :
  raises (map_result f m) e ↔ raises m e.
Proof.
  unfold raises. rewrite outcome_map_result.
  destruct (outcome m) as [e'|a]; cbn; [|done]. split; by intros [= ->].
Qed.

(** A bind whose first part is refined and whose continuations agree on
    the result of the first part. *)
Lemma map_result_bind {A A' B B'} (f : A → A') (g : B → B')
    (m : M E A) (k : A → M E B) (k' : A' → M E B') :
  (∀ a, returns m a → map_result g (k a) = k' (f a)) →
  map_result g (bind m k) = bind (map_result f m) k'.
Proof.
  destruct m as [l [e|a]]; [done|]. intros Hk.
  specialize (Hk a eq_refl). rewrite map_result_ok, !bind_ok, <- Hk.
  by destruct (k a) as [l' [e|b]].
Qed.

Lemma bind_map_result {A A' B} (f : A → A') (m : M E A) (k' : A' → M E B) :
  bind (map_result f m) k' = bind m (λ a, k' (f a)).
Proof. by destruct m as [l [e|a]]. Qed.

(** A bind after a refined first part: the two continuations need to agree
    only on what the first part returns. *)
Lemma bind_refined {A A' B} (f : A → A') (m : M E A) (m' : M E A')
    (k : A → M E B) (k' : A' → M E B) :
  map_result f m = m' → (∀ a, returns m a → k a = k' (f a)) →
  bind m k = bind m' k'.
Proof.
  intros <- Hk. rewrite bind_map_result.
  destruct m as [l [e|a]]; [done|]. by rewrite !bind_ok, (Hk a eq_refl).
Qed.

Lemma foldM_map_result {A B B'} (g : B → B') (body : B → A → M E B)
    (body' : B' → A → M E B') (acc : B) (l : list A) :
  (∀ acc x, x ∈ l → map_result g (body acc x) = body' (g acc) x) →
  map_result g (foldM body acc l) = foldM body' (g acc) l.
Proof.
  revert acc. induction l as [|x l IH]; intros acc Hbody; [done|].
  cbn [foldM]. rewrite <- (Hbody acc x) by (apply elem_of_cons; by left).
  apply map_result_bind. intros acc' _. apply IH.
  intros acc'' y Hy. apply Hbody, elem_of_cons. by right.
Qed.

Lemma mapM_map_result {A A' B B'} (fa : A → A') (fb : B → B')
    (body : A → M E B) (body' : A' → M E B') (l : list A) :
  Forall (λ x, map_result fb (body x) = body' (fa x)) l →
  map_result (fmap fb) (mapM body l) = mapM body' (fa <$> l).
Proof.
  induction 1 as [|x l Hx _ IH]; [done|].
  cbn [mapM fmap list_fmap]. rewrite <- Hx, <- IH.
  apply map_result_bind. intros y _. rewrite bind_map_result.
  by destruct (mapM body l) as [l' [e|ys]].
Qed.

Lemma map_result_bind_same {A B B'} (g : B → B') (m : M E A)
    (k : A → M E B) (k' : A → M E B') :
  (∀ a, returns m a → map_result g (k a) = k' a) →
  map_result g (bind m k) = bind m k'.
Proof.
  intros Hk. rewrite (map_result_bind id g m k k') by done. by rewrite map_result_id.
Qed.

End map_result.

(** ** Traversals *)

Section traversals.
Context {E : Type}.

Lemma mapM_fmap {A A' B} (f : A → A') (body : A' → M E B) (l : list A) :
  mapM body (f <$> l) = mapM (λ x, body (f x)) l.
Proof. induction l as [|x l IH]; [done|]. cbn [mapM fmap list_fmap]. by rewrite IH. Qed.

(** What holds before a loop and is kept by every round that returns holds
    after a loop that returns. *)
Lemma foldM_invariant {A B} (P : B → Prop) (body : B → A → M E B) acc (l : list A) b :
  P acc →
  (∀ acc x acc', x ∈ l → P acc → returns (body acc x) acc' → P acc') →
  returns (foldM body acc l) b → P b.
Proof.
  revert acc. induction l as [|x l IH]; intros acc Hacc Hbody.
  { by intros [= <-]. }
  cbn [foldM]. intros (acc' & Hx & Hl)%returns_bind_inv.
  apply (IH acc'); [|by intros; eapply Hbody; [apply elem_of_cons; right|..]|done].
  eapply Hbody; [apply elem_of_cons; by left|done..].
Qed.

Lemma foldM_fmap {A A' B} (f : A → A') (body : B → A' → M E B) acc (l : list A) :
  foldM body acc (f <$> l) = foldM (λ acc x, body acc (f x)) acc l.
Proof.
  revert acc. induction l as [|x l IH]; intros acc; [done|].
  cbn [foldM fmap list_fmap]. apply bind_ext. intros acc'. apply IH.
Qed.

Lemma foldM_ext {A B} (body body' : B → A → M E B) acc (l : list A) :
  (∀ acc x, x ∈ l → body acc x = body' acc x) → foldM body acc l = foldM body' acc l.
Proof.
  revert acc. induction l as [|x l IH]; intros acc Hbody; [done|].
  cbn [foldM]. rewrite Hbody by (apply elem_of_cons; by left).
  apply bind_ext. intros acc'. apply IH. intros acc'' y Hy. apply Hbody, elem_of_cons. by right.
Qed.

(** Computations that show nothing. *)
Lemma events_bind_nil {A B} (m : M E A) (k : A → M E B) :
  events m = [] → (∀ a, events (k a) = []) → events (bind m k) = [].
Proof.
  destruct m as [l [e|a]]; unfold events at 1; cbn [fst]; intros ->; [done|].
  intros Hk. specialize (Hk a). rewrite bind_ok.
  destruct (k a) as [l' o]. unfold events in *. by cbn [fst] in *; subst.
Qed.

Lemma events_foldM_nil {A B} (body : B → A → M E B) acc (l : list A) :
  (∀ acc x, events (body acc x) = []) → events (foldM body acc l) = [].
Proof.
  intros Hbody. revert acc. induction l as [|x l IH]; intros acc; [done|].
  cbn [foldM]. by apply events_bind_nil.
Qed.

Lemma events_mapM_nil {A B} (body : A → M E B) (l : list A) :
  (∀ x, events (body x) = []) → events (mapM body l) = [].
Proof.
  intros Hbody. induction l as [|x l IH]; [done|]. cbn [mapM].
  apply events_bind_nil; [done|]. intros y. by apply events_bind_nil.
Qed.

(** What holds of every event of every part holds of every event of the
    whole. *)
Lemma Forall_events_bind {A B} (P : E → Prop) (m : M E A) (k : A → M E B) :
  Forall P (events m) → (∀ a, Forall P (events (k a))) → Forall P (events (bind m k)).
Proof.
  destruct m as [l [e|a]]; unfold events at 1; cbn [fst]; [done|].
  intros Hl Hk. rewrite bind_ok. specialize (Hk a).
  destruct (k a) as [l' o]. unfold events in *. cbn [fst] in *. by apply Forall_app.
Qed.

Lemma Forall_events_foldM {A B} (P : E → Prop) (body : B → A → M E B) acc (l : list A) :
  (∀ acc x, Forall P (events (body acc x))) → Forall P (events (foldM body acc l)).
Proof.
  intros Hbody. revert acc. induction l as [|x l IH]; intros acc; [constructor|].
  cbn [foldM]. by apply Forall_events_bind.
Qed.

(** What the body establishes of its result from what holds of its
    argument holds of every result of a traversal that returns. *)
Lemma mapM_Forall_returns {A B} (P : A → Prop) (Q : B → Prop) (body : A → M E B) l l' :
  (∀ x y, P x → returns (body x) y → Q y) →
  Forall P l → returns (mapM body l) l' → Forall Q l'.
Proof.
  intros Hbody Hl Hret%mapM_returns_iff.
  induction Hret as [|x y l l' Hxy _ IH]; [constructor|].
  apply Forall_cons in Hl as [Hx Hl]. constructor; eauto.
Qed.

(** A traversal whose body returns or raises [e] on every element raises
    [e] when the body raises on some element. *)
Lemma mapM_raises_alike {A B} (body : A → M E B) (l : list A) e :
  Forall (λ x, (∃ y, returns (body x) y) ∨ raises (body x) e) l →
  Exists (λ x, raises (body x) e) l →
  raises (mapM body l) e.
Proof.
  induction 1 as [|x l Hx Hl IH]; [by intros ?%Exists_nil|].
  intros Hex. cbn [mapM]. destruct Hx as [[y Hy]|Hx]; [|by apply raises_bind_l].
  eapply raises_bind_r; [exact Hy|]. apply raises_bind_l, IH.
  apply Exists_cons in Hex as [Hx|Hex]; [|done]. by destruct (returns_raises _ _ _ Hy Hx).
Qed.

(** A loop for its effects returns only when every round does. *)
Lemma foldM_unit_returns {A} (body : A → M E unit) (l : list A) :
  returns (foldM (λ _ x, body x) tt l) tt → Forall (λ x, returns (body x) tt) l.
Proof.
  induction l as [|x l IH]; [constructor|].
  cbn [foldM]. intros ([] & Hx & Hl)%returns_bind_inv. constructor; auto.
Qed.

(** Two continuations that agree on what the first computation returns. *)
Lemma bind_ext_returns {A B} (m : M E A) (k k' : A → M E B) :
  (∀ a, returns m a → k a = k' a) → bind m k = bind m k'.
Proof.
  intros Hk. destruct m as [l [e|a]]; [done|].
  unfold bind. by rewrite (Hk a).
Qed.

(** A traversal whose body either returns without printing or raises
    without printing ends with the first exception, or with the results. *)
Lemma mapM_first_error {A B} (body : A → M E B) (err : A → option exn) (f : A → B) l :
  (∀ x, body x = match err x with Some e => raise e | None => ret (f x) end) →
  mapM body l = match head (omap err l) with
                | Some e => raise e
                | None => ret (f <$> l)
                end.
Proof.
  intros Hbody. induction l as [|x l IH]; [done|].
  cbn [mapM omap list_omap]. rewrite Hbody. destruct (err x) as [e|]; [done|].
  rewrite bind_ret_l, IH. by destruct (head (omap err l)).
Qed.

Lemma head_omap_None {A B} (f : A → option B) (l : list A) :
  head (omap f l) = None ↔ Forall (λ x, f x = None) l.
Proof.
  induction l as [|x l IH]; [by split|]. cbn [omap list_omap].
  rewrite Forall_cons, <- IH. destruct (f x); cbn; naive_solver.
Qed.

Lemma omap_snd_zip {A B C} (f : B → option C) (l : list A) (k : list B) :
  length k ≤ length l → omap (λ p, f p.2) (zip l k) = omap f k.
Proof.
  revert l. induction k as [|y k IH]; intros [|x l] Hlen; cbn in *; [done..|lia|].
  rewrite IH by lia. done.
Qed.

End traversals.

(** ** Events seen through a function *)

Section map_events.
Context {E E' : Type} (f : E → E').

Lemma map_events_bind {A B} (m : M E A) (k : A → M E B) :
  map_events f (bind m k) = bind (map_events f m) (λ a, map_events f (k a)).
Proof.
  destruct m as [l [e|a]]; [done|]. unfold map_events at 2. cbn [fst snd].
  rewrite !bind_ok. destruct (k a) as [l' [e|b]]; unfold map_events; cbn;
    by rewrite fmap_app.
Qed.

Lemma map_events_tell (ev : E) : map_events f (tell ev) = tell (f ev).
Proof. done. Qed.

Lemma map_events_lift {A} (r : exn + A) : map_events f (lift r) = lift r.
Proof. done. Qed.

Lemma map_events_foldM {A B} (body : B → A → M E B) (acc : B) (l : list A) :
  map_events f (foldM body acc l) = foldM (λ acc x, map_events f (body acc x)) acc l.
Proof.
  revert acc. induction l as [|x l IH]; intros acc; [done|].
  cbn [foldM]. rewrite map_events_bind. apply bind_ext. intros acc'. apply IH.
Qed.

Lemma map_events_mapM {A B} (body : A → M E B) (l : list A) :
  map_events f (mapM body l) = mapM (λ x, map_events f (body x)) l.
Proof.
  induction l as [|x l IH]; [done|]. cbn [mapM].
  rewrite map_events_bind. apply bind_ext. intros y.
  rewrite map_events_bind, IH. by apply bind_ext.
Qed.

Lemma map_events_try_except {A} (m : M E A) (h : exn → M E A) :
  map_events f (try_except m h) = try_except (map_events f m) (λ e, map_events f (h e)).
Proof.
  destruct m as [l [e|a]]; [|done]. unfold map_events at 2. cbn [fst snd try_except].
  destruct (h e) as [l' o]. unfold map_events. cbn. by rewrite fmap_app.
Qed.

Lemma map_events_ext {A} (g : E → E') (m : M E A) :
  Forall (λ ev, f ev = g ev) (events m) → map_events f m = map_events g m.
Proof.
  destruct m as [l o]. unfold map_events. cbn. intros Hl. f_equal.
  by apply Forall_fmap_ext_1.
Qed.

Lemma map_events_silent {A} (g : E → E') (m : M E A) :
  events m = [] → map_events f m = map_events g m.
Proof. intros Hm. apply map_events_ext. rewrite Hm. constructor. Qed.

Lemma map_events_compose {E0 A} (h : E0 → E) (m : M E0 A) :
  map_events f (map_events h m) = map_events (f ∘ h) m.
Proof. destruct m as [l o]. unfold map_events. cbn. by rewrite <- list_fmap_compose. Qed.

Lemma map_result_map_events {A B} (r : A → B) (m : M E A) :
  map_result r (map_events f m) = map_events f (map_result r m).
Proof. done. Qed.

Lemma returns_map_events {A} (m : M E A) a : returns (map_events f m) a ↔ returns m a.
Proof. unfold returns. by rewrite outcome_map_events. Qed.

End map_events.
