(* ===== verification/Sums.v ===== *)
(** * Sums that count

    The sums an integer program over 0/1 variables is made of: sums of
    indicators count the elements of a list that satisfy a predicate, a sum
    of 0/1 values that equals 1 has exactly one entry 1, and a double sum
    can be taken in either order.  The lemmas serve the model of
    [cluster_artists]. *)

From Stdlib Require Import QArith Qabs Lqa.
From stdpp Require Import base option list.
From S2P Require Import Prelude.

(** A natural number as a rational. *)
Definition Qnat (n : nat) : Q := inject_Z (Z.of_nat n).

(** 1 when [P] holds and 0 otherwise. *)
Definition indicator (P : Prop) `{!Decision P} : Q := if decide P then 1 else 0.

(** A value that is 0 or 1. *)
Definition binary (q : Q) : Prop := q == 0 ∨ q == 1.

#[export] Instance binary_dec q : Decision (binary q).
Proof. unfold binary. apply _. Defined.

(** ** Natural numbers as rationals *)

Lemma Qnat_S n : Qnat (S n) == 1 + Qnat n.
Proof. unfold Qnat. rewrite Nat2Z.inj_succ, <- Z.add_1_l, inject_Z_plus. reflexivity. Qed.

Lemma Qnat_le n m : Qnat n <= Qnat m ↔ (n ≤ m)%nat.
Proof. unfold Qnat. rewrite <- Zle_Qle. lia. Qed.

Lemma Qnat_lt n m : Qnat n < Qnat m ↔ (n < m)%nat.
Proof. unfold Qnat. rewrite <- Zlt_Qlt. lia. Qed.

Lemma Qnat_inj n m : Qnat n == Qnat m ↔ n = m.
Proof. unfold Qnat. rewrite inject_Z_injective. lia. Qed.

Lemma Qnat_mul n m : Qnat (n * m) == Qnat n * Qnat m.
Proof. unfold Qnat. rewrite Nat2Z.inj_mul, inject_Z_mult. reflexivity. Qed.

Lemma Qnat_nonneg n : 0 <= Qnat n.
Proof. apply (Qnat_le 0 n). lia. Qed.

(** ** Indicators *)

Lemma indicator_binary P `{!Decision P} : binary (indicator P).
Proof. unfold indicator, binary. case_decide; [right | left]; reflexivity. Qed.

Lemma indicator_true P `{!Decision P} : P → indicator P = 1.
Proof. unfold indicator. intros. by case_decide. Qed.

Lemma indicator_false P `{!Decision P} : ¬ P → indicator P = 0.
Proof. unfold indicator. intros. by case_decide. Qed.

Lemma indicator_half P `{!Decision P} : 1 # 2 < indicator P ↔ P.
Proof. unfold indicator. case_decide; split; try done; intros; lra. Qed.

Lemma binary_nonneg q : binary q → 0 <= q.
Proof. intros [E|E]; lra. Qed.

Lemma binary_le_1 q : binary q → q <= 1.
Proof. intros [E|E]; lra. Qed.

Lemma binary_half q : binary q → 1 # 2 < q ↔ q == 1.
Proof. intros [E|E]; split; intros; lra. Qed.

(** ** Sums over a list *)

Section sums.
Context {A : Type}.
Implicit Types (f g : A → Q) (l : list A).

Lemma Qsum_fmap_cons f a l : Qsum (f <$> a :: l) = f a + Qsum (f <$> l).
Proof. reflexivity. Qed.

Lemma Qsum_const (c : Q) l : Qsum ((λ _, c) <$> l) == c * Qnat (length l).
Proof.
  induction l as [|a l IH].
  - cbn [fmap list_fmap Qsum foldr length]. change (Qnat 0) with 0. lra.
  - rewrite Qsum_fmap_cons, IH. cbn [length]. rewrite Qnat_S. lra.
Qed.

Lemma Qsum_fmap_plus f g l :
  Qsum ((λ a, f a + g a) <$> l) == Qsum (f <$> l) + Qsum (g <$> l).
Proof.
  induction l as [|a l IH]; [cbn; lra|]. rewrite !Qsum_fmap_cons, IH. lra.
Qed.

(** A lower bound on every term bounds the sum. *)
Lemma Qsum_fmap_ge (c : Q) f l :
  Forall (λ a, c <= f a) l → c * Qnat (length l) <= Qsum (f <$> l).
Proof. intros Hl. rewrite <- Qsum_const. by apply Qsum_fmap_le. Qed.

(** A sum of indicators counts. *)
Lemma Qsum_indicator (P : A → Prop) `{!∀ a, Decision (P a)} l :
  Qsum ((λ a, indicator (P a)) <$> l) == Qnat (length (filter P l)).
Proof.
  induction l as [|a l IH]; [reflexivity|].
  rewrite Qsum_fmap_cons, IH, filter_cons. unfold indicator.
  case_decide; [cbn [length]; rewrite Qnat_S|]; lra.
Qed.

End sums.

(** The two orders of a double sum. *)
Lemma Qsum_exchange {A B} (f : A → B → Q) (la : list A) (lb : list B) :
  Qsum ((λ a, Qsum (f a <$> lb)) <$> la) ==
  Qsum ((λ b, Qsum ((λ a, f a b) <$> la)) <$> lb).
Proof.
  induction la as [|a la IH].
  - cbn [fmap list_fmap Qsum foldr]. rewrite (Qsum_const (A:=B) 0 lb). lra.
  - rewrite Qsum_fmap_cons, IH.
    rewrite <- (Qsum_fmap_plus (f a) (λ b, Qsum ((λ a, f a b) <$> la)) lb).
    reflexivity.
Qed.

(** ** Sums of 0/1 values *)

(** A sum of 0/1 values is at most the number of positions that satisfy a
    predicate implied by the value 1. *)
Lemma Qsum_binary_count {B} (P : B → Prop) `{!∀ b, Decision (P b)}
    (qs : list Q) (bs : list B) :
  Forall2 (λ q b, binary q ∧ (q == 1 → P b)) qs bs →
  Qsum qs <= Qnat (length (filter P bs)).
Proof.
  induction 1 as [|q b qs bs [Hq HP] _ IH]; [apply Qle_refl|].
  rewrite filter_cons. cbn [Qsum foldr]. change (foldr Qplus 0 qs) with (Qsum qs).
  destruct Hq as [E|E].
  - case_decide; [cbn [length]; rewrite Qnat_S|]; lra.
  - rewrite decide_True by auto. cbn [length]. rewrite Qnat_S. lra.
Qed.

(** A sum of 0/1 values that is 1 has one entry 1 and zeros elsewhere. *)
Lemma Qsum_binary_one (qs : list Q) :
  Forall binary qs → Qsum qs == 1 →
  ∃ j q, qs !! j = Some q ∧ q == 1 ∧
         ∀ j' q', j' ≠ j → qs !! j' = Some q' → q' == 0.
Proof.
  induction 1 as [|q qs Hq Hqs IH]; [cbn; lra|].
  cbn [Qsum foldr]. change (foldr Qplus 0 qs) with (Qsum qs). intros Hsum.
  destruct Hq as [E|E].
  - destruct IH as (j & q1 & Hj & Hq1 & Hrest); [lra|].
    exists (S j), q1. split_and!; [done..|].
    intros [|j'] q' Hne; cbn; [intros [= <-]; done|].
    apply Hrest. lia.
  - exists 0%nat, q. split_and!; [done..|].
    intros [|j'] q' Hne Hj'; [done|]. cbn in Hj'.
    assert (Qsum qs == 0) as Hz by lra.
    apply Qsum_zero_iff in Hz; [|eapply Forall_impl; [done|apply binary_nonneg]].
    by eapply Forall_lookup_1 in Hz.
Qed.

(** ** Counting in a range *)

Lemma filter_none {A} (P : A → Prop) `{!∀ a, Decision (P a)} (l : list A) :
  Forall (λ a, ¬ P a) l → filter P l = [].
Proof.
  induction 1 as [|a l Ha _ IH]; [done|]. by rewrite filter_cons, decide_False.
Qed.

Lemma filter_all {A} (P : A → Prop) `{!∀ a, Decision (P a)} (l : list A) :
  Forall P l → filter P l = l.
Proof.
  induction 1 as [|a l Ha _ IH]; [done|]. by rewrite filter_cons, decide_True, IH.
Qed.

(** One index of a range equals a given index of it. *)
Lemma filter_eq_seq (c s n : nat) :
  (s ≤ c < s + n)%nat → length (filter (λ j, c = j) (seq s n)) = 1%nat.
Proof.
  revert s. induction n as [|n IH]; intros s Hc; [lia|].
  cbn [seq]. rewrite filter_cons. case_decide as E.
  - subst s. rewrite filter_none; [done|].
    apply Forall_forall. intros j Hj%elem_of_seq. lia.
  - apply IH. lia.
Qed.

(** Dealing [n] items round-robin to [k] places gives each place at least
    [n / k] of them. *)
Lemma round_robin_count (n k j : nat) :
  (j < k)%nat →
  (n / k ≤ length (filter (λ i, i mod k = j) (seq 0 n)))%nat.
Proof.
  intros Hj.
  set (l := (λ t, j + t * k)%nat <$> seq 0 (n / k)).
  assert (length l = (n / k)%nat) as <- by (unfold l; by rewrite length_fmap, length_seq).
  apply submseteq_length, NoDup_submseteq.
  - apply NoDup_fmap_2; [|apply NoDup_seq]. intros t t' E. nia.
  - intros i (t & -> & Ht%elem_of_seq)%list_elem_of_fmap.
    apply list_elem_of_filter. split.
    + rewrite Nat.Div0.mod_add. by apply Nat.mod_small.
    + apply elem_of_seq. pose proof (Nat.Div0.mul_div_le n k). nia.
Qed.

(** ** Indexed sums *)

Lemma Qsum_imap_ext {A} (f g : nat → A → Q) (l : list A) :
  (∀ i a, l !! i = Some a → f i a == g i a) → Qsum (imap f l) == Qsum (imap g l).
Proof.
  revert f g. induction l as [|x l IH]; intros f g Hfg; [reflexivity|].
  rewrite !imap_cons. cbn [Qsum foldr].
  change (foldr Qplus 0 ?l) with (Qsum l).
  rewrite (Hfg 0%nat x eq_refl), (IH (f ∘ S) (g ∘ S)); [reflexivity|].
  intros i a Hi. apply (Hfg (S i) a Hi).
Qed.

Lemma Qsum_imap_zero {A} (f : nat → A → Q) (l : list A) :
  (∀ i a, l !! i = Some a → f i a == 0) → Qsum (imap f l) == 0.
Proof.
  intros Hf. rewrite (Qsum_imap_ext f (λ _ _, 0)) by done.
  change (imap (λ _ _, 0) l) with (imap (const (λ _ : A, 0)) l).
  rewrite imap_const, Qsum_const. lra.
Qed.

(** A sum of terms weighted by the indicator of one index is the term at
    that index. *)
Lemma Qsum_imap_indicator {A} (f : A → Q) (l : list A) (j0 : nat) (a0 : A) :
  l !! j0 = Some a0 → Qsum (imap (λ j a, f a * indicator (j0 = j)) l) == f a0.
Proof.
  revert j0. induction l as [|x l IH]; intros [|j0] Hj0; simplify_eq/=.
  - change (foldr Qplus 0 ?l) with (Qsum l). rewrite Qsum_imap_zero.
    + rewrite indicator_true by done. lra.
    + intros j a _. unfold compose. rewrite indicator_false by done. lra.
  - change (foldr Qplus 0 ?l) with (Qsum l).
    rewrite (Qsum_imap_ext _ (λ j a, f a * indicator (j0 = j))).
    + rewrite IH by done. rewrite indicator_false by done. lra.
    + intros j a _. unfold compose, indicator.
      repeat case_decide; (lia || reflexivity).
Qed.

(** ** Sums that differ in one term *)

Lemma indicator_iff P Q `{!Decision P, !Decision Q} : (P ↔ Q) → indicator P = indicator Q.
Proof. unfold indicator. intros HPQ. repeat case_decide; naive_solver. Qed.

(** A map over the indices of a list. *)
Lemma imap_index {A B} (h : nat → B) (l : list A) :
  imap (λ i _, h i) l = h <$> seq 0 (length l).
Proof.
  apply list_eq. intros i. rewrite list_lookup_imap, list_lookup_fmap.
  destruct (l !! i) as [a|] eqn:Hi.
  - by rewrite lookup_seq_lt by by eapply lookup_lt_Some.
  - rewrite lookup_seq_ge; [done|]. by apply lookup_ge_None.
Qed.

(** Two indexed sums whose terms agree except at one index differ by the
    terms at that index. *)
Lemma Qsum_imap_change {A} (f f' : nat → A → Q) (l : list A) (i : nat) (a : A) :
  l !! i = Some a →
  (∀ j b, j ≠ i → l !! j = Some b → f' j b == f j b) →
  Qsum (imap f' l) == Qsum (imap f l) - f i a + f' i a.
Proof.
  revert f f' i. induction l as [|x l IH]; intros f f' [|i] Hi Hrest; [done..| |];
    rewrite !imap_cons; cbn [Qsum foldr]; change (foldr Qplus 0 ?l) with (Qsum l).
  - injection Hi as ->. rewrite (Qsum_imap_ext (f' ∘ S) (f ∘ S)); [lra|].
    intros j b Hj. by apply (Hrest (S j)).
  - assert (Qsum (imap (f' ∘ S) l) == Qsum (imap (f ∘ S) l) - f (S i) a + f' (S i) a) as ->.
    { apply (IH (f ∘ S) (f' ∘ S) i Hi). intros j b Hj Hb. apply (Hrest (S j)); [lia | done]. }
    assert (f' 0%nat x == f 0%nat x) as -> by by apply Hrest.
    lra.
Qed.

(** The same for a sum over a range. *)
Lemma Qsum_seq_change (h h' : nat → Q) (n i : nat) :
  (i < n)%nat → (∀ j, j ≠ i → h' j == h j) →
  Qsum (h' <$> seq 0 n) == Qsum (h <$> seq 0 n) - h i + h' i.
Proof.
  intros Hi Hrest.
  pose proof (Qsum_imap_change (λ j _, h j) (λ j _, h' j) (seq 0 n) i i) as E.
  rewrite !imap_index, length_seq in E. apply E; [by apply lookup_seq_lt|].
  intros j _ Hj _. by apply Hrest.
Qed.

(** The positions of an indexed map whose value satisfies [P], counted by
    their indices. *)
Lemma filter_imap_length {A B} (P : B → Prop) `{!∀ b, Decision (P b)}
    (Q : nat → Prop) `{!∀ i, Decision (Q i)} (f : nat → A → B) (l : list A) :
  (∀ i a, l !! i = Some a → P (f i a) ↔ Q i) →
  length (filter P (imap f l)) = length (filter Q (seq 0 (length l))).
Proof.
  intros HPQ. apply Qnat_inj.
  rewrite <- (Qsum_indicator P), <- (Qsum_indicator Q), fmap_imap, <- imap_index.
  apply Qsum_imap_ext. intros i a Hi. unfold compose.
  by rewrite (indicator_iff _ _ (HPQ i a Hi)).
Qed.
