(* ===== verification/Odict.v ===== *)
(** * Dictionaries that keep the order of insertion

    A Python [dict] iterates over its keys in the order in which they were
    first inserted; an assignment to a key that is present replaces the
    value and leaves the key where it is.  The rows of the scripts are such
    dictionaries, and the order of their keys is the order of the columns
    of the file that [main] writes.

    An ordered dictionary is an association list without repeated keys
    ([od_wf]).  [od_set] is [d[k] = v], [od_keys] is [d.keys()], [dict_of]
    is [dict(pairs)].  [to_map] forgets the order: it is the abstraction to
    the finite maps that the other files use for rows, and every operation
    commutes with it.  [in_order] goes back: it lists the items of a
    finite map in the order of given columns, and gives back a dictionary
    whose keys come first among them. *)

From stdpp Require Import base option list gmap.
From S2P Require Import Prelude.

Section odict.
Context {K : Type} `{Countable K} {V : Type}.
Implicit Types (d : list (K * V)) (k : K) (v : V).

(** [d.get(k)] *)
Fixpoint od_get d k : option V :=
  match d with
  | [] => None
  | (k', v) :: d' => if decide (k = k') then Some v else od_get d' k
  end.

(** [d[k] = v] *)
Fixpoint od_set d k v : list (K * V) :=
  match d with
  | [] => [(k, v)]
  | (k', v') :: d' =>
      if decide (k = k') then (k, v) :: d' else (k', v') :: od_set d' k v
  end.

(** [d.keys()] *)
Definition od_keys d : list K := d.*1.

(** [dict(pairs)]: a later pair with the key of an earlier one replaces its
    value. *)
Definition dict_of (pairs : list (K * V)) : list (K * V) :=
  foldl (λ d kv, od_set d kv.1 kv.2) [] pairs.

(** No key is repeated. *)
Definition od_wf d : Prop := NoDup (od_keys d).

(** The keys after the assignments to [ks], in order. *)
Definition keys_after (keys ks : list K) : list K :=
  foldl (λ keys k, if decide (k ∈ keys) then keys else keys ++ [k]) keys ks.

(** The finite map that the dictionary stands for. *)
Definition to_map d : gmap K V := list_to_map d.

(** The dictionary of the keys of [cols] that a finite map has, in the
    order of [cols]. *)
Definition in_order (cols : list K) (m : gmap K V) : list (K * V) :=
  omap (λ k, (k,.) <$> m !! k) cols.

#[export] Instance od_wf_dec d : Decision (od_wf d).
Proof. unfold od_wf. apply _. Defined.

(** ** Lookup *)

Lemma lookup_to_map d k : to_map d !! k = od_get d k.
Proof.
  unfold to_map. induction d as [|[k' v] d IH]; [done|]. cbn.
  case_decide as Hk; [subst; by rewrite lookup_insert_eq|].
  by rewrite lookup_insert_ne.
Qed.

Lemma od_get_set d k v k' :
  od_get (od_set d k v) k' = if decide (k' = k) then Some v else od_get d k'.
Proof.
  induction d as [|[k0 v0] d IH]; cbn; repeat (case_decide; cbn); congruence.
Qed.

Lemma od_get_keys d k : is_Some (od_get d k) ↔ k ∈ od_keys d.
Proof.
  unfold od_keys. induction d as [|[k' v] d IH]; cbn.
  - rewrite elem_of_nil. split; [by intros [??]|done].
  - rewrite elem_of_cons. case_decide; [naive_solver|]. rewrite IH. naive_solver.
Qed.

Lemma od_get_None d k : od_get d k = None ↔ k ∉ od_keys d.
Proof. rewrite <- od_get_keys, eq_None_not_Some. done. Qed.

Lemma od_get_elem_of d k v : od_wf d → od_get d k = Some v ↔ (k, v) ∈ d.
Proof.
  unfold od_wf, od_keys. induction d as [|[k' v'] d IH]; cbn; [by rewrite elem_of_nil|].
  intros [Hk' Hnd]%NoDup_cons. rewrite elem_of_cons. case_decide as Hk.
  - subst. split; [by intros [= ->]; left|]. intros [[= ->]|Hin]; [done|].
    destruct Hk'. apply list_elem_of_fmap. by exists (k', v).
  - rewrite IH by done. naive_solver.
Qed.

(** ** Assignment *)

Lemma to_map_set d k v : to_map (od_set d k v) = <[k:=v]> (to_map d).
Proof.
  apply map_eq. intros k'. rewrite lookup_to_map, od_get_set.
  case_decide; [subst; by rewrite lookup_insert_eq|].
  by rewrite lookup_insert_ne, lookup_to_map.
Qed.

Lemma od_keys_set d k v :
  od_keys (od_set d k v) = if decide (k ∈ od_keys d) then od_keys d else od_keys d ++ [k].
Proof.
  unfold od_keys. induction d as [|[k' v'] d IH]; cbn.
  { by rewrite decide_False by apply not_elem_of_nil. }
  destruct (decide (k = k')) as [->|Hne]; cbn.
  { by rewrite decide_True by (apply elem_of_cons; by left). }
  rewrite IH. destruct (decide (k ∈ d.*1)) as [Hk|Hk].
  - by rewrite decide_True by (apply elem_of_cons; by right).
  - rewrite decide_False; [done|]. rewrite elem_of_cons. by intros [?|?].
Qed.

Lemma od_keys_set_in d k v : k ∈ od_keys d → od_keys (od_set d k v) = od_keys d.
Proof. intros Hk. by rewrite od_keys_set, decide_True. Qed.

Lemma od_keys_set_new d k v : k ∉ od_keys d → od_keys (od_set d k v) = od_keys d ++ [k].
Proof. intros Hk. by rewrite od_keys_set, decide_False. Qed.

Lemma od_set_new d k v : k ∉ od_keys d → od_set d k v = d ++ [(k, v)].
Proof.
  unfold od_keys. induction d as [|[k' v'] d IH]; [done|]. cbn.
  rewrite elem_of_cons. intros Hk. rewrite decide_False by naive_solver.
  rewrite IH; [done | naive_solver].
Qed.

Lemma od_wf_set d k v : od_wf d → od_wf (od_set d k v).
Proof.
  unfold od_wf. intros Hd. rewrite od_keys_set. case_decide as Hk; [done|].
  apply NoDup_app. split_and!; [done| |apply NoDup_singleton].
  intros k' Hk' ->%list_elem_of_singleton. done.
Qed.

Lemma length_od_set_in d k v : k ∈ od_keys d → length (od_set d k v) = length d.
Proof.
  intros Hk%(od_keys_set_in _ _ v)%(f_equal length).
  unfold od_keys in Hk. by rewrite !length_fmap in Hk.
Qed.

(** ** The keys after several assignments *)

Lemma keys_after_app keys ks1 ks2 :
  keys_after keys (ks1 ++ ks2) = keys_after (keys_after keys ks1) ks2.
Proof. apply foldl_app. Qed.

Lemma keys_after_present keys ks : ks ⊆ keys → keys_after keys ks = keys.
Proof.
  revert keys. induction ks as [|k ks IH]; intros keys Hks; [done|]. cbn.
  rewrite decide_True by (apply Hks, elem_of_cons; by left).
  apply IH. intros k' Hk'. apply Hks, elem_of_cons. by right.
Qed.

Lemma keys_after_new keys ks :
  NoDup ks → (∀ k, k ∈ ks → k ∉ keys) → keys_after keys ks = keys ++ ks.
Proof.
  intros Hnd. revert keys. induction Hnd as [|k ks Hk Hnd IH]; intros keys Hnew.
  { by rewrite app_nil_r. }
  cbn. rewrite decide_False by (apply Hnew, elem_of_cons; by left).
  rewrite IH, <- (assoc_L (++)); [done|]. intros k' Hk'. rewrite elem_of_app.
  intros [Hin | ->%list_elem_of_singleton]; [|done]. apply (Hnew k'); [apply elem_of_cons; by right|done].
Qed.

Lemma keys_after_prefix keys ks : keys `prefix_of` keys_after keys ks.
Proof.
  revert keys. induction ks as [|k ks IH]; intros keys; [done|]. cbn.
  case_decide; [apply IH|]. etrans; [|apply IH]. by apply prefix_app_r.
Qed.

Lemma keys_after_NoDup keys ks : NoDup keys → NoDup (keys_after keys ks).
Proof.
  revert keys. induction ks as [|k ks IH]; intros keys Hnd; [done|]. cbn.
  apply IH. case_decide as Hk; [done|].
  apply NoDup_app. split_and!; [done| |apply NoDup_singleton].
  by intros k' Hk' ->%list_elem_of_singleton.
Qed.

Lemma elem_of_keys_after keys ks k : k ∈ keys_after keys ks ↔ k ∈ keys ∨ k ∈ ks.
Proof.
  revert keys. induction ks as [|k' ks IH]; intros keys; cbn.
  { rewrite elem_of_nil. naive_solver. }
  rewrite IH, elem_of_cons. case_decide; [naive_solver|].
  rewrite elem_of_app, list_elem_of_singleton. naive_solver.
Qed.

(** ** [dict(pairs)] *)

Lemma od_wf_foldl_set d (pairs : list (K * V)) :
  od_wf d → od_wf (foldl (λ d kv, od_set d kv.1 kv.2) d pairs).
Proof.
  revert d. induction pairs as [|[k v] pairs IH]; intros d Hd; [done|].
  cbn. by apply IH, od_wf_set.
Qed.

Lemma od_wf_dict_of pairs : od_wf (dict_of pairs).
Proof. apply od_wf_foldl_set, NoDup_nil_2. Qed.

Lemma foldl_set_new d (pairs : list (K * V)) :
  NoDup pairs.*1 → (∀ k, k ∈ pairs.*1 → k ∉ od_keys d) →
  foldl (λ d kv, od_set d kv.1 kv.2) d pairs = d ++ pairs.
Proof.
  revert d. induction pairs as [|[k v] pairs IH]; intros d Hnd Hnew.
  { by rewrite app_nil_r. }
  cbn in *. apply NoDup_cons in Hnd as [Hk Hnd].
  rewrite od_set_new by (apply Hnew, elem_of_cons; by left).
  rewrite IH, <- (assoc_L (++)); [done..|]. intros k' Hk'.
  unfold od_keys. rewrite fmap_app, elem_of_app. cbn.
  intros [Hin | ->%list_elem_of_singleton]; [|done].
  apply (Hnew k'); [apply elem_of_cons; by right|done].
Qed.

Lemma od_keys_foldl_set d (pairs : list (K * V)) :
  od_keys (foldl (λ d kv, od_set d kv.1 kv.2) d pairs) = keys_after (od_keys d) pairs.*1.
Proof.
  revert d. induction pairs as [|[k v] pairs IH]; intros d; [done|].
  cbn. by rewrite IH, od_keys_set.
Qed.

Lemma od_keys_foldl_const d (ks : list K) v :
  od_keys (foldl (λ d key, od_set d key v) d ks) = keys_after (od_keys d) ks.
Proof.
  revert d. induction ks as [|k ks IH]; intros d; [done|].
  cbn. by rewrite IH, od_keys_set.
Qed.

(** Pairs with distinct keys are the dictionary. *)
Lemma dict_of_NoDup pairs : NoDup pairs.*1 → dict_of pairs = pairs.
Proof.
  intros Hnd. unfold dict_of. rewrite foldl_set_new; [done..|].
  intros k _. apply not_elem_of_nil.
Qed.

(** Assignments of one value to new keys append them. *)
Lemma foldl_const_new d (ks : list K) v :
  NoDup ks → (∀ k, k ∈ ks → k ∉ od_keys d) →
  foldl (λ d key, od_set d key v) d ks = d ++ ((λ key, (key, v)) <$> ks).
Proof.
  intros Hnd Hnew. rewrite <- (foldl_set_new d ((λ key, (key, v)) <$> ks)).
  - by rewrite foldl_fmap.
  - by rewrite <- list_fmap_compose, list_fmap_id.
  - intros k. rewrite <- list_fmap_compose, list_fmap_id. apply Hnew.
Qed.

(** ** The values *)

Lemma od_set_values (P : V → Prop) d k v :
  P v → Forall P d.*2 → Forall P (od_set d k v).*2.
Proof.
  intros Hv. induction d as [|[k' v'] d IH]; cbn; [by repeat constructor|].
  intros [Hv' Hd]%Forall_cons. case_decide; cbn; constructor; auto.
Qed.

Lemma foldl_set_values (P : V → Prop) d (pairs : list (K * V)) :
  Forall P pairs.*2 → Forall P d.*2 →
  Forall P (foldl (λ d kv, od_set d kv.1 kv.2) d pairs).*2.
Proof.
  revert d. induction pairs as [|[k v] pairs IH]; intros d Hp Hd; [done|].
  cbn in *. apply Forall_cons in Hp as [Hv Hp]. by apply IH, od_set_values.
Qed.

Lemma dict_of_values (P : V → Prop) pairs : Forall P pairs.*2 → Forall P (dict_of pairs).*2.
Proof. intros Hp. by apply foldl_set_values. Qed.

Lemma foldl_const_values (P : V → Prop) d (ks : list K) v :
  P v → Forall P d.*2 → Forall P (foldl (λ d key, od_set d key v) d ks).*2.
Proof.
  intros Hv. revert d. induction ks as [|k ks IH]; intros d Hd; [done|].
  cbn. by apply IH, od_set_values.
Qed.

Lemma od_keys_set_after d k v : od_keys (od_set d k v) = keys_after (od_keys d) [k].
Proof. apply od_keys_set. Qed.

(** What holds of every pair assigned holds of every entry. *)
Lemma foldl_set_entries (P : K → V → Prop) d (pairs : list (K * V)) :
  Forall (λ kv, P kv.1 kv.2) pairs → (∀ k v, od_get d k = Some v → P k v) →
  ∀ k v, od_get (foldl (λ d kv, od_set d kv.1 kv.2) d pairs) k = Some v → P k v.
Proof.
  revert d. induction pairs as [|[k0 v0] pairs IH]; intros d Hp Hd; [done|].
  apply Forall_cons in Hp as [Hkv Hp]. cbn. apply IH; [done|].
  intros k v. rewrite od_get_set. case_decide; [by intros [= <-]; subst|apply Hd].
Qed.

Lemma dict_of_entries (P : K → V → Prop) pairs :
  Forall (λ kv, P kv.1 kv.2) pairs → ∀ k v, od_get (dict_of pairs) k = Some v → P k v.
Proof. intros Hp. by apply foldl_set_entries. Qed.

(** The values of a dictionary, read under its keys in their order. *)
Lemma od_get_own_keys d (dflt : V) :
  od_wf d → (λ k, default dflt (od_get d k)) <$> od_keys d = d.*2.
Proof.
  unfold od_wf, od_keys. induction d as [|[k v] d IH]; [done|]. cbn.
  intros [Hk Hnd]%NoDup_cons. rewrite decide_True by done. cbn. f_equal.
  rewrite <- IH by done. apply Forall_fmap_ext_1, Forall_forall.
  intros k' Hk'. rewrite decide_False; [done|]. by intros ->.
Qed.

Lemma od_get_values (P : V → Prop) d k v :
  Forall P d.*2 → od_get d k = Some v → P v.
Proof.
  induction d as [|[k' v'] d IH]; cbn; [done|].
  intros [Hv' Hd]%Forall_cons. case_decide; [by intros [= <-]|auto].
Qed.

(** ** The abstraction *)

(** What holds of the values holds of the entry under every key. *)
Lemma od_keys_values (P : V → Prop) d :
  Forall P d.*2 → Forall (λ k, ∃ v, od_get d k = Some v ∧ P v) (od_keys d).
Proof.
  intros Hd. apply Forall_forall. intros k [v Hv]%od_get_keys. exists v.
  split; [done|]. by eapply od_get_values.
Qed.

Lemma od_keys_Exists (P : V → Prop) d :
  od_wf d → Exists P d.*2 → Exists (λ k, ∃ v, od_get d k = Some v ∧ P v) (od_keys d).
Proof.
  intros Hwf (v & ([k v'] & -> & Hin)%list_elem_of_fmap & Hv)%Exists_exists.
  apply Exists_exists. exists k. split; [apply list_elem_of_fmap; by exists (k, v')|].
  exists v'. split; [by apply od_get_elem_of|done].
Qed.

Lemma dom_to_map d : dom (to_map d) = list_to_set (od_keys d).
Proof. unfold to_map, od_keys. apply dom_list_to_map_L. Qed.

Lemma to_map_fmap_values (f : V → V) d :
  to_map (prod_map id f <$> d) = f <$> to_map d.
Proof.
  unfold to_map. induction d as [|[k v] d IH]; cbn; [by rewrite fmap_empty|].
  by rewrite IH, fmap_insert.
Qed.

Lemma od_keys_fmap_values (f : V → V) d : od_keys (prod_map id f <$> d) = od_keys d.
Proof. unfold od_keys. induction d as [|[k v] d IH]; [done|]. cbn. by f_equal. Qed.

(** ** A finite map in the order of the columns *)

Lemma in_order_lookups (m : gmap K V) d :
  od_wf d → (∀ k, k ∈ od_keys d → m !! k = od_get d k) → in_order (od_keys d) m = d.
Proof.
  unfold od_wf, od_keys, in_order. induction d as [|[k v] d IH]; [done|].
  cbn [fmap list_fmap fst omap list_omap]. intros [Hk Hnd]%NoDup_cons Hm.
  rewrite (Hm k) by (by left). cbn [od_get]. rewrite decide_True by done. cbn [fmap option_fmap option_map].
  f_equal. apply IH; [done|]. intros k' Hk'. rewrite (Hm k') by (by right).
  cbn [od_get]. by rewrite decide_False by (by intros ->).
Qed.

(** A dictionary whose keys come first among the columns is its finite map
    in the order of the columns. *)
Lemma in_order_to_map cols d :
  NoDup cols → od_keys d `prefix_of` cols → in_order cols (to_map d) = d.
Proof.
  intros Hnd [rest ->]. apply NoDup_app in Hnd as (Hwf & Hrest & _).
  unfold in_order. rewrite omap_app. fold (in_order (od_keys d) (to_map d)).
  rewrite in_order_lookups by (done || intros k _; apply lookup_to_map).
  rewrite <- (app_nil_r d) at 2. f_equal.
  induction rest as [|k rest IH]; [done|]. cbn [omap list_omap].
  rewrite lookup_to_map, (proj2 (od_get_None d k)); [|intros Hk; apply (Hrest k Hk); by left].
  apply IH. intros k' Hk' Hin. apply (Hrest k' Hk'). by right.
Qed.

Lemma in_order_Permutation cols cols' (m : gmap K V) :
  cols ≡ₚ cols' → in_order cols m ≡ₚ in_order cols' m.
Proof. intros Hcols. unfold in_order. by rewrite Hcols. Qed.

End odict.

#[export] Hint Resolve od_wf_set od_wf_dict_of keys_after_NoDup : py.
