(* ===== verification/PyValue.v ===== *)
(** * Python values and builtins

    The values a CSV row can hold after [load_data] ([value]), rows as finite
    maps from column names to values, the diagnostics printed by
    [calculate_distance] ([event]), and the builtins the scripts call:
    [dict.get], [dict[key]], [float], [max], [str.replace(old, '', 1)],
    [str.isdigit] and true division.

    [float] on a string is an interface ([FloatParser]): the theorems of the
    later files hold for every parser that raises nothing but [ValueError]
    (or leaves the model with [NonFinite]).  [decimal_parser] implements the
    interface for ASCII input by the grammar of Python's float literals:
    surrounding whitespace, a sign, [inf]/[infinity]/[nan] in any case,
    digits with single underscores between them, a fraction, an exponent. *)

From Stdlib Require Import QArith Qabs Lqa Ascii String.
From stdpp Require Import base option list gmap strings.
From S2P Require Import Prelude.

(** ** Values and rows *)

(** A number (Python [int] or [float]), a string, or [None]. *)
Inductive value : Type :=
| VNum (q : Q)
| VStr (s : string)
| VNone.

Abbreviation row := (gmap string value).

(** What [calculate_distance] prints: the feature and the row, or the
    feature and the exception.  The row is held as the finite map that rows
    are in this layer, so the event does not say in which order [print]
    shows its items; [Ordered.diagnostic] is the event with the row as a
    dictionary in the order of its keys. *)
Inductive event : Type :=
| NonNumeric (feature : string) (r : row)
| ErrorProcessing (feature : string) (e : exn).

(** Two values are equivalent when they are the same string, both [None], or
    numbers equal as rationals. *)
Definition value_equiv (v w : value) : Prop :=
  match v, w with
  | VNum p, VNum q => p == q
  | VStr s, VStr t => s = t
  | VNone, VNone => True
  | _, _ => False
  end.

#[export] Instance value_Equiv : Equiv value := value_equiv.

(** ** Dictionaries *)

(** [d.get(k, default)] *)
Definition dict_get {A} (d : gmap string A) (k : string) (dflt : A) : A :=
  default dflt (d !! k).

(** [d[k]], which raises [KeyError] on an absent key. *)
Definition dict_item {A} (d : gmap string A) (k : string) : exn + A :=
  match d !! k with
  | Some v => inr v
  | None => inl KeyError
  end.

(** ** Numbers *)

(** [float(s)] for a string [s], as an interface: an implementation returns a
    rational or raises, and raises nothing but [ValueError] or [NonFinite]. *)
Class FloatParser : Type := {
  str_to_float : string → exn + Q;
  str_to_float_exn s e :
    str_to_float s = inl e → e = ValueError ∨ e = NonFinite
}.

(** [float(v)] *)
Definition py_float `{FloatParser} (v : value) : exn + Q :=
  match v with
  | VNum q => inr q
  | VStr s => str_to_float s
  | VNone => inl TypeError
  end.

(** The value as a number, for arithmetic that does not convert strings
    ([+], [/], comparison of numbers): anything else is a [TypeError]. *)
Definition as_num (v : value) : exn + Q :=
  match v with
  | VNum q => inr q
  | _ => inl TypeError
  end.

(** [a / b] on numbers. *)
Definition py_div (a b : Q) : exn + Q :=
  if Qeq_bool b 0 then inl ZeroDivisionError else inr (a / b).

(** [a / b] on values: numbers divide, anything else is a [TypeError]. *)
Definition value_div (a b : value) : exn + value :=
  match a, b with
  | VNum x, VNum y =>
      match py_div x y with
      | inr q => inr (VNum q)
      | inl e => inl e
      end
  | _, _ => inl TypeError
  end.

(** [a + b] for a number [b]: a string or [None] on the left is a
    [TypeError]. *)
Definition value_add (a : value) (b : Q) : exn + value :=
  match a with
  | VNum x => inr (VNum (x + b))
  | _ => inl TypeError
  end.

(** [a > b] on values: numbers compare as numbers, strings as strings, and
    any other pair is a [TypeError]. *)
Definition value_gt (a b : value) : exn + bool :=
  match a, b with
  | VNum x, VNum y => inr (negb (Qle_bool x y))
  | VStr s, VStr t => inr (String.ltb t s)
  | _, _ => inl TypeError
  end.

(** The loop of [max(l)] after its first element: a later element replaces
    the maximum only when it is strictly greater. *)
Fixpoint max_loop (m : value) (l : list value) : exn + value :=
  match l with
  | [] => inr m
  | x :: l' =>
      match value_gt x m with
      | inl e => inl e
      | inr true => max_loop x l'
      | inr false => max_loop m l'
      end
  end.

(** [max(l)], which raises [ValueError] on an empty list. *)
Definition py_max (l : list value) : exn + value :=
  match l with
  | [] => inl ValueError
  | x :: l' => max_loop x l'
  end.

(** The same loop on rationals: the first maximum of [m :: l]. *)
Definition max_from (m : Q) (l : list Q) : Q :=
  fold_left (λ m x, if Qle_bool x m then m else x) l m.

(** ** Sequences and integers *)

(** [enumerate(l)]; also the iteration [for i in range(len(l))] that reads
    [l[i]]. *)
Definition enumerate {A} (l : list A) : list (nat * A) :=
  zip (seq 0 (length l)) l.

(** [a // b] on natural numbers. *)
Definition py_floordiv (a b : nat) : exn + nat :=
  if decide (b = 0%nat) then inl ZeroDivisionError else inr (a / b)%nat.

(** ** Strings *)

Definition is_digit (c : ascii) : bool :=
  let n := nat_of_ascii c in (48 <=? n)%nat && (n <=? 57)%nat.

Definition digit_val (c : ascii) : Z := Z.of_nat (nat_of_ascii c) - 48.

Definition is_space (c : ascii) : bool :=
  let n := nat_of_ascii c in
  ((9 <=? n)%nat && (n <=? 13)%nat) || ((28 <=? n)%nat && (n <=? 32)%nat).

Fixpoint all_digits (s : string) : bool :=
  match s with
  | EmptyString => true
  | String c s' => is_digit c && all_digits s'
  end.

(** [s.isdigit()]: at least one character, and every character a digit. *)
Definition str_isdigit (s : string) : bool :=
  match s with
  | EmptyString => false
  | _ => all_digits s
  end.

(** [s.replace(c, '', 1)]: the first occurrence of [c] is removed. *)
Fixpoint str_remove_first (c : ascii) (s : string) : string :=
  match s with
  | EmptyString => EmptyString
  | String c' s' =>
      if Ascii.eqb c' c then s' else String c' (str_remove_first c s')
  end.

Fixpoint lstrip (s : string) : string :=
  match s with
  | String c s' => if is_space c then lstrip s' else s
  | EmptyString => EmptyString
  end.

Fixpoint rstrip (s : string) : string :=
  match s with
  | String c s' =>
      match rstrip s' with
      | EmptyString => if is_space c then EmptyString
                       else String c EmptyString
      | r => String c r
      end
  | EmptyString => EmptyString
  end.

Definition to_lower (c : ascii) : ascii :=
  let n := nat_of_ascii c in
  if (65 <=? n)%nat && (n <=? 90)%nat then ascii_of_nat (n + 32) else c.

Fixpoint str_lower (s : string) : string :=
  match s with
  | String c s' => String (to_lower c) (str_lower s')
  | EmptyString => EmptyString
  end.

(** ** The decimal float parser *)

(** [digit (["_"] digit)*] after its first digit: the digits are appended to
    the mantissa [acc], [n] counts them, and the unread rest is returned. *)
Fixpoint digits_tail (acc : Z) (n : nat) (s : string) : Z * nat * string :=
  match s with
  | String c s' =>
      if is_digit c then digits_tail (10 * acc + digit_val c) (S n) s'
      else if Ascii.eqb c "_" then
        match s' with
        | String c' s'' =>
            if is_digit c'
            then digits_tail (10 * acc + digit_val c') (S n) s''
            else (acc, n, s)
        | EmptyString => (acc, n, s)
        end
      else (acc, n, s)
  | EmptyString => (acc, n, s)
  end.

Definition digitpart (acc : Z) (s : string) : option (Z * nat * string) :=
  match s with
  | String c s' =>
      if is_digit c then Some (digits_tail (10 * acc + digit_val c) 1 s')
      else None
  | EmptyString => None
  end.

(** An optional sign: whether it is a minus, and the rest. *)
Definition sign (s : string) : bool * string :=
  match s with
  | String "+" s' => (false, s')
  | String "-" s' => (true, s')
  | _ => (false, s)
  end.

(** [digitpart ["." [digitpart]] | "." digitpart]: the mantissa as an
    integer, the number of digits after the point, and the rest. *)
Definition number (s : string) : option (Z * nat * string) :=
  match digitpart 0 s with
  | Some (i, _, rest) =>
      match rest with
      | String "." rest' =>
          match digitpart i rest' with
          | Some r => Some r
          | None => Some (i, 0%nat, rest')
          end
      | _ => Some (i, 0%nat, rest)
      end
  | None =>
      match s with
      | String "." rest' => digitpart 0 rest'
      | _ => None
      end
  end.

(** [[("e" | "E") [sign] digitpart]]: [None] when an exponent is started and
    not finished. *)
Definition exponent (s : string) : option (Z * string) :=
  match s with
  | String c s' =>
      if Ascii.eqb (to_lower c) "e" then
        let '(neg, s'') := sign s' in
        match digitpart 0 s'' with
        | Some (e, _, rest) => Some (if neg then (- e)%Z else e, rest)
        | None => None
        end
      else Some (0%Z, s)
  | EmptyString => Some (0%Z, s)
  end.

(** From this magnitude on a decimal literal is read as [inf]. *)
Definition float_overflow : Q := inject_Z (2 ^ 1024 - 2 ^ 970).

Definition is_inf_nan (s : string) : bool :=
  bool_decide (str_lower s ∈ ["inf"; "infinity"; "nan"]).

(** [float(s)] on an ASCII string. *)
Definition float_of_string (s : string) : exn + Q :=
  let '(neg, body) := sign (rstrip (lstrip s)) in
  if is_inf_nan body then inl NonFinite else
  match number body with
  | Some (m, nf, rest) =>
      match exponent rest with
      | Some (e, EmptyString) =>
          let q := inject_Z m * 10 ^ (e - Z.of_nat nf) in
          if Qle_bool float_overflow q then inl NonFinite
          else inr (if neg then - q else q)
      | _ => inl ValueError
      end
  | None => inl ValueError
  end.

(** ** Properties of the builtins *)

#[export] Instance Q_eq_dec : EqDecision Q.
Proof. solve_decision. Defined.

#[export] Instance value_eq_dec : EqDecision value.
Proof. solve_decision. Defined.

#[export] Instance value_equiv_equivalence : Equivalence value_equiv.
Proof.
  split.
  - by intros [].
  - intros [] []; by simpl.
  - intros [p|s|] [q|t|] [r|u|]; simpl; try done; first [apply Qeq_trans | congruence].
Qed.

#[export] Instance value_equivalence : Equivalence (≡@{value}) :=
  value_equiv_equivalence.

Lemma dict_get_insert {A} (d : gmap string A) k v dflt :
  dict_get (<[k:=v]> d) k dflt = v.
Proof. unfold dict_get. by rewrite lookup_insert_eq. Qed.

Lemma dict_get_insert_ne {A} (d : gmap string A) k k' v dflt :
  k ≠ k' → dict_get (<[k:=v]> d) k' dflt = dict_get d k' dflt.
Proof. intros. unfold dict_get. by rewrite lookup_insert_ne. Qed.

Lemma dict_item_insert {A} (d : gmap string A) k v :
  dict_item (<[k:=v]> d) k = inr v.
Proof. unfold dict_item. by rewrite lookup_insert_eq. Qed.

Lemma dict_item_insert_ne {A} (d : gmap string A) k k' v :
  k ≠ k' → dict_item (<[k:=v]> d) k' = dict_item d k'.
Proof. intros. unfold dict_item. by rewrite lookup_insert_ne. Qed.

Lemma float_of_string_exn s e :
  float_of_string s = inl e → e = ValueError ∨ e = NonFinite.
Proof.
  unfold float_of_string. intros Hs.
  repeat case_match; simplify_eq; auto.
Qed.

#[export] Instance decimal_parser : FloatParser :=
  {| str_to_float := float_of_string; str_to_float_exn := float_of_string_exn |}.

(** [float] raises [TypeError] only on [None]. *)
Lemma py_float_TypeError `{FloatParser} v :
  py_float v = inl TypeError ↔ v = VNone.
Proof.
  destruct v as [q|s|]; simpl; split; try done.
  intros Hs. by destruct (str_to_float_exn _ _ Hs).
Qed.

Lemma py_div_ok a b : ¬ b == 0 → py_div a b = inr (a / b).
Proof.
  intros Hb. unfold py_div.
  destruct (Qeq_bool b 0) eqn:Hz; [|done]. by apply Qeq_bool_eq in Hz.
Qed.

Lemma py_div_zero a b : b == 0 → py_div a b = inl ZeroDivisionError.
Proof. intros Hb. unfold py_div. by rewrite (Qeq_eq_bool _ _ Hb). Qed.

(** ** The maximum *)

Lemma max_from_cons m x l :
  max_from m (x :: l) = max_from (if Qle_bool x m then m else x) l.
Proof. reflexivity. Qed.

(** On numbers [max] is the first maximum. *)
Lemma max_loop_num m (l : list Q) :
  max_loop (VNum m) (VNum <$> l) = inr (VNum (max_from m l)).
Proof.
  revert m. induction l as [|x l IH]; intros m; [done|].
  cbn [fmap list_fmap max_loop value_gt]. rewrite max_from_cons.
  destruct (Qle_bool x m); simpl; apply IH.
Qed.

Lemma py_max_num x (l : list Q) :
  py_max (VNum <$> x :: l) = inr (VNum (max_from x l)).
Proof. apply max_loop_num. Qed.

(** The first maximum is an upper bound ... *)
Lemma max_from_ge m l : m <= max_from m l ∧ Forall (λ x, x <= max_from m l) l.
Proof.
  revert m. induction l as [|x l IH]; intros m.
  { split; [apply Qle_refl | constructor]. }
  rewrite max_from_cons.
  destruct (IH (if Qle_bool x m then m else x)) as [H1 H2].
  destruct (Qle_bool x m) eqn:Hx.
  - apply Qle_bool_iff in Hx. split; [done|]. constructor; [lra|done].
  - assert (m < x) by (destruct (Qlt_le_dec m x) as [|Hle%Qle_bool_iff];
      [done|congruence]).
    split; [lra|]. by constructor.
Qed.

(** ... that is an element of the list. *)
Lemma max_from_elem m l : max_from m l ∈ m :: l.
Proof.
  revert m. induction l as [|x l IH]; intros m; [set_solver|].
  rewrite max_from_cons.
  specialize (IH (if Qle_bool x m then m else x)).
  destruct (Qle_bool x m); set_solver.
Qed.

(** Dividing by a positive number commutes with the comparison and with the
    maximum. *)
Lemma Qle_bool_div x m d : 0 < d → Qle_bool (x / d) (m / d) = Qle_bool x m.
Proof.
  intros Hd. apply eq_true_iff_eq. rewrite !Qle_bool_iff.
  unfold Qdiv. apply Qmult_le_r. by apply Qinv_lt_0_compat.
Qed.

Lemma max_from_div m l d :
  0 < d → max_from (m / d) ((λ q, q / d) <$> l) = max_from m l / d.
Proof.
  intros Hd. revert m. induction l as [|x l IH]; intros m; [done|].
  cbn [fmap list_fmap]. rewrite !max_from_cons, Qle_bool_div by done.
  destruct (Qle_bool x m); apply IH.
Qed.

(** [max] raises nothing but [TypeError] on a non-empty list, and returns a
    number only when every element is a number. *)
Lemma max_loop_exn m l e : max_loop m l = inl e → e = TypeError.
Proof.
  revert m. induction l as [|x l IH]; intros m; [done|]. simpl.
  destruct (value_gt x m) as [e'|[]] eqn:Hgt; eauto.
  intros [= <-]. destruct x, m; simpl in Hgt; congruence.
Qed.

Lemma max_loop_VNum m l q :
  max_loop m l = inr (VNum q) →
  (∃ q0, m = VNum q0) ∧ Forall (λ v, ∃ q', v = VNum q') l.
Proof.
  revert m. induction l as [|x l IH]; intros m; simpl.
  - intros [= ->]. eauto.
  - destruct (value_gt x m) as [e'|[]] eqn:Hgt; [done|..];
      intros [[q0 Hq0] Hl]%IH.
    + subst x. destruct m; simplify_eq/=. eauto.
    + subst m. destruct x; simplify_eq/=. eauto.
Qed.

(** ** Enumerations *)

Lemma enumerate_length {A} (l : list A) : length (enumerate l) = length l.
Proof. unfold enumerate. rewrite length_zip, length_seq. lia. Qed.

Lemma enumerate_lookup {A} (l : list A) i :
  enumerate l !! i = (λ x, (i, x)) <$> l !! i.
Proof.
  unfold enumerate. rewrite lookup_zip_with.
  destruct (l !! i) as [x|] eqn:E.
  - rewrite lookup_seq_lt by (by eapply lookup_lt_Some). done.
  - by destruct (seq 0 (length l) !! i).
Qed.

Lemma enumerate_snd {A} (l : list A) : (enumerate l).*2 = l.
Proof. unfold enumerate. apply snd_zip. rewrite length_seq. lia. Qed.

Lemma enumerate_fst {A} (l : list A) : (enumerate l).*1 = seq 0 (length l).
Proof. unfold enumerate. apply fst_zip. rewrite length_seq. lia. Qed.

Lemma elem_of_enumerate {A} (l : list A) i x :
  (i, x) ∈ enumerate l ↔ l !! i = Some x.
Proof.
  rewrite list_elem_of_lookup. split.
  - intros [k Hk]. rewrite enumerate_lookup in Hk.
    destruct (l !! k) eqn:E; by simplify_eq/=.
  - intros Hi. exists i. by rewrite enumerate_lookup, Hi.
Qed.

Lemma enumerate_fmap {A B} (f : A → B) (l : list A) :
  enumerate (f <$> l) = prod_map id f <$> enumerate l.
Proof.
  apply list_eq. intros i.
  rewrite list_lookup_fmap, !enumerate_lookup, list_lookup_fmap.
  by destruct (l !! i).
Qed.

Lemma py_floordiv_ok a b : b ≠ 0%nat → py_floordiv a b = inr (a / b)%nat.
Proof. unfold py_floordiv. intros. by case_decide. Qed.

Lemma py_floordiv_zero a : py_floordiv a 0 = inl ZeroDivisionError.
Proof. reflexivity. Qed.

(** ** The parser on digits around a point *)

(** What the parser needs to know of a digit and of the point. *)
Lemma is_digit_plain c :
  is_digit c = true →
  is_space c = false ∧ to_lower c = c ∧
  c ≠ "+"%char ∧ c ≠ "-"%char ∧ c ≠ "."%char ∧ c ≠ "i"%char ∧ c ≠ "n"%char.
Proof. destruct c as [[] [] [] [] [] [] [] []]; by vm_compute. Qed.

Lemma digits_tail_all_digits acc n s :
  all_digits s = true → ∃ m k, digits_tail acc n s = (m, k, EmptyString).
Proof.
  revert acc n. induction s as [|c s IH]; intros acc n; [by eexists _, _|].
  cbn [all_digits digits_tail]. intros [Hc Hs]%andb_prop. rewrite Hc. by apply IH.
Qed.

Lemma digits_tail_point acc n a b :
  all_digits a = true →
  ∃ m k, digits_tail acc n (a +:+ String "." b) = (m, k, String "." b).
Proof.
  revert acc n. induction a as [|c a IH]; intros acc n.
  - intros _. by eexists _, _.
  - cbn [all_digits]. intros [Hc Ha]%andb_prop.
    change (String c a +:+ String "." b) with (String c (a +:+ String "." b)).
    cbn [digits_tail]. rewrite Hc. by apply IH.
Qed.

(** A string that is digits after the removal of its first point is digits,
    or digits, a point and digits. *)
Lemma all_digits_remove_point s :
  all_digits (str_remove_first "." s) = true →
  all_digits s = true ∨
  ∃ a b, s = a +:+ String "." b ∧ all_digits a = true ∧ all_digits b = true.
Proof.
  induction s as [|c s IH]; [by left|]. cbn [str_remove_first].
  destruct (Ascii.eqb c ".") eqn:Hc.
  - apply Ascii.eqb_eq in Hc as ->. intros Hs. right. by exists EmptyString, s.
  - cbn [all_digits]. intros [Hd Hs]%andb_prop.
    destruct (IH Hs) as [Hall|(a & b & -> & Ha & Hb)].
    + left. by rewrite Hd, Hall.
    + right. exists (String c a), b. split_and!; [done| |done].
      cbn [all_digits]. by rewrite Hd, Ha.
Qed.

(** A run of the parser on such a string: no sign, no space to strip, no
    exponent, and nothing left unread. *)
Lemma number_digits s :
  s ≠ EmptyString → all_digits s = true → ∃ m k, number s = Some (m, k, EmptyString).
Proof.
  destruct s as [|c s]; [done|]. intros _. cbn [all_digits].
  intros [Hc Hs]%andb_prop. unfold number, digitpart. rewrite Hc.
  destruct (digits_tail_all_digits (10 * 0 + digit_val c) 1 s Hs) as (m & k & ->).
  by eexists _, _.
Qed.

Lemma number_point a b :
  all_digits a = true → all_digits b = true →
  a +:+ b ≠ EmptyString →
  ∃ m k, number (a +:+ String "." b) = Some (m, k, EmptyString).
Proof.
  intros Ha Hb Hne. destruct a as [|c a].
  - destruct b as [|c b]; [done|]. cbn [all_digits] in Hb.
    apply andb_prop in Hb as [Hc Hb].
    change (EmptyString +:+ String "." (String c b)) with (String "." (String c b)).
    unfold number. cbn [digitpart]. change (is_digit ".") with false.
    cbn iota. rewrite Hc.
    destruct (digits_tail_all_digits (10 * 0 + digit_val c) 1 b Hb) as (m & k & ->).
    by eexists _, _.
  - cbn [all_digits] in Ha. apply andb_prop in Ha as [Hc Ha].
    change (String c a +:+ String "." b) with (String c (a +:+ String "." b)).
    unfold number. cbn [digitpart]. rewrite Hc.
    destruct (digits_tail_point (10 * 0 + digit_val c) 1 a b Ha) as (m & k & ->).
    destruct b as [|c' b]; [by eexists _, _|].
    cbn [all_digits] in Hb. apply andb_prop in Hb as [Hc' Hb].
    cbn [digitpart]. rewrite Hc'.
    destruct (digits_tail_all_digits (10 * m + digit_val c') 1 b Hb) as (m' & k' & ->).
    by eexists _, _.
Qed.

(** Every character is a digit or the point. *)
Fixpoint dotted (s : string) : bool :=
  match s with
  | EmptyString => true
  | String c s' => (is_digit c || Ascii.eqb c ".") && dotted s'
  end.

Lemma dotted_char c :
  is_digit c || Ascii.eqb c "." = true →
  is_space c = false ∧ to_lower c = c ∧
  c ≠ "+"%char ∧ c ≠ "-"%char ∧ c ≠ "i"%char ∧ c ≠ "n"%char.
Proof. destruct c as [[] [] [] [] [] [] [] []]; by vm_compute. Qed.

Lemma all_digits_dotted s : all_digits s = true → dotted s = true.
Proof.
  induction s as [|c s IH]; [done|]. cbn [all_digits dotted].
  intros [-> Hs]%andb_prop. by rewrite IH.
Qed.

Lemma dotted_app a b : dotted (a +:+ b) = dotted a && dotted b.
Proof.
  induction a as [|c a IH]; [done|].
  change (String c a +:+ b) with (String c (a +:+ b)). cbn [dotted].
  by rewrite IH, andb_assoc.
Qed.

Lemma dotted_lstrip s : dotted s = true → lstrip s = s.
Proof.
  destruct s as [|c s]; [done|]. cbn [dotted lstrip].
  intros [Hc _]%andb_prop. by destruct (dotted_char c Hc) as (-> & _).
Qed.

Lemma dotted_rstrip s : dotted s = true → rstrip s = s.
Proof.
  induction s as [|c s IH]; [done|]. cbn [dotted rstrip].
  intros [Hc Hs]%andb_prop. rewrite IH by done.
  destruct (dotted_char c Hc) as (-> & _). by destruct s.
Qed.

Lemma dotted_sign s : dotted s = true → sign s = (false, s).
Proof.
  destruct s as [|c s]; [done|]. cbn [dotted].
  intros [Hc _]%andb_prop. destruct (dotted_char c Hc) as (_ & _ & Hp & Hm & _).
  unfold sign. destruct c as [[] [] [] [] [] [] [] []]; done.
Qed.

Lemma dotted_inf_nan s : dotted s = true → is_inf_nan s = false.
Proof.
  intros Hs. unfold is_inf_nan. apply bool_decide_eq_false.
  destruct s as [|c s]; [set_solver|]. cbn [dotted] in Hs.
  apply andb_prop in Hs as [Hc _].
  destruct (dotted_char c Hc) as (_ & Hl & _ & _ & Hi & Hn).
  cbn [str_lower]. rewrite Hl. set_solver.
Qed.

Lemma remove_point_app a b :
  all_digits a = true → str_remove_first "." (a +:+ String "." b) = a +:+ b.
Proof.
  induction a as [|c a IH]; [done|]. cbn [all_digits].
  intros [Hc Ha]%andb_prop.
  change (String c a +:+ ?x) with (String c (a +:+ x)). cbn [str_remove_first].
  destruct (is_digit_plain c Hc) as (_ & _ & _ & _ & Hp & _).
  rewrite (proj2 (Ascii.eqb_neq c ".") Hp). by rewrite IH.
Qed.

(** [float] never rejects a string that is digits around at most one point:
    it returns a number, or the number is too large for a float. *)
Lemma float_of_string_numeric s :
  str_isdigit (str_remove_first "." s) = true →
  float_of_string s ≠ inl ValueError.
Proof.
  intros Hd.
  assert (str_remove_first "." s ≠ EmptyString ∧
          all_digits (str_remove_first "." s) = true) as [Hne Hall].
  { unfold str_isdigit in Hd. by destruct (str_remove_first "." s). }
  assert (dotted s = true ∧ ∃ m k, number s = Some (m, k, EmptyString))
    as (Hs & m & k & Hnum).
  { destruct (all_digits_remove_point s Hall) as [Hdig|(a & b & -> & Ha & Hb)].
    - split; [by apply all_digits_dotted|]. apply number_digits; [|done].
      intros ->. by apply Hne.
    - split.
      + rewrite dotted_app. cbn [dotted].
        by rewrite !all_digits_dotted.
      + apply number_point; [done..|]. by rewrite <- remove_point_app. }
  unfold float_of_string.
  rewrite dotted_lstrip, dotted_rstrip, dotted_sign, dotted_inf_nan, Hnum by done.
  cbn [exponent]. by destruct (Qle_bool _ _).
Qed.
