(* ===== verification/Csv.v ===== *)
(** * csv.DictReader and csv.DictWriter

    The two classes of Python's [csv] module that the scripts call, from
    the records of a file to dictionaries and back.  A record is the list
    of the fields of one line, as [csv.reader] yields it and as
    [csv.writer] takes it; the text of the lines (delimiters, quotes, line
    ends) is below this model.

    [DictReader] takes the first record as the field names and turns every
    later record that is not empty into a dictionary: the fields under the
    names, in the order of the header; [None] under the names that a short
    record does not reach; the fields beyond the header in a list under the
    key [None].  A repeated name keeps its first place and its last value.

    [DictWriter] turns a dictionary into the record of its values in the
    order of the field names, with [''] for a name that the dictionary
    lacks, and refuses with [ValueError] a dictionary that has a key
    outside the field names. *)

From Stdlib Require Import String.
From stdpp Require Import base option list gmap strings.
From S2P Require Import Prelude Layers Odict PyValue.

#[local] Open Scope py_scope.

(** A row with its keys in order. *)
Abbreviation orow := (list (string * value)).

(** The row without the order of its keys. *)
Definition to_row (d : orow) : row := to_map d.

(** A dictionary of [DictReader]: the entries under the field names and,
    for a record longer than the header, the list under the key [None],
    which is the last key of the dictionary. *)
Record reader_row : Type := ReaderRow {
  fields : orow;
  rest : option (list string)
}.

(** ** Reading *)

(** [DictReader.__next__] for one record: [dict(zip(fieldnames, row))], then
    [d[None] = row[lf:]] or [d[key] = None] for the names not reached. *)
Definition dict_row (fieldnames row : list string) : reader_row :=
  let d := dict_of (zip fieldnames (VStr <$> row)) in
  let lf := length fieldnames in
  let lr := length row in
  if decide (lf < lr)%nat then ReaderRow d (Some (drop lf row))
  else ReaderRow (foldl (λ d key, od_set d key VNone) d (drop lr fieldnames)) None.

(** [csv.DictReader(file)] iterated to its end: the first record names the
    fields, empty records are skipped. *)
Definition DictReader (records : list (list string)) : list reader_row :=
  match records with
  | [] => []
  | fieldnames :: rows => dict_row fieldnames <$> filter (λ row, row ≠ []) rows
  end.

(** ** Writing *)

(** [DictWriter._dict_to_list] with [extrasaction='raise'] and
    [restval='']. *)
Definition dict_to_list (fieldnames : list string) (rowdict : orow) : exn + list value :=
  if decide (od_keys rowdict ⊆ fieldnames)
  then inr ((λ key, default (VStr "") (od_get rowdict key)) <$> fieldnames)
  else inl ValueError.

(** [DictWriter.writerow]: the record goes to the file. *)
Definition writerow (fieldnames : list string) (rowdict : orow) : M (list value) unit :=
  record <- lift (dict_to_list fieldnames rowdict) ;;
  tell record.

(** [DictWriter.writeheader]: the row that maps every field name to
    itself. *)
Definition writeheader (fieldnames : list string) : M (list value) unit :=
  writerow fieldnames (dict_of (zip fieldnames (VStr <$> fieldnames))).

(** [DictWriter.writerows] *)
Definition writerows (fieldnames : list string) (rowdicts : list orow) : M (list value) unit :=
  foldM (λ _ rowdict, writerow fieldnames rowdict) tt rowdicts.

(** ** The dictionaries of the reader *)

(** The keys of every dictionary that the reader makes for a header. *)
Definition columns (fieldnames : list string) : list string := keys_after [] fieldnames.

(** The names that a zip with [k] reaches. *)
Lemma fst_zip_take {A B} (l : list A) (k : list B) :
  (zip l k).*1 = take (length k) l.
Proof.
  revert k. induction l as [|x l IH]; intros [|y k]; cbn; [done..|]. by rewrite IH.
Qed.

Section reader.
Implicit Types (fieldnames row : list string) (d : orow).

(** Every dictionary has the columns of the header as its keys, in the
    order of the header. *)
Lemma dict_row_keys fieldnames row :
  od_keys (fields (dict_row fieldnames row)) = columns fieldnames.
Proof.
  unfold dict_row, columns, dict_of. case_decide as Hl; cbn [fields].
  - rewrite od_keys_foldl_set, fst_zip_take, length_fmap. cbn. by rewrite take_ge by lia.
  - rewrite od_keys_foldl_const, od_keys_foldl_set, fst_zip_take, length_fmap. cbn.
    by rewrite <- keys_after_app, take_drop.
Qed.

Lemma dict_row_wf fieldnames row : od_wf (fields (dict_row fieldnames row)).
Proof.
  unfold od_wf. rewrite dict_row_keys. apply keys_after_NoDup, NoDup_nil_2.
Qed.

(** A record longer than the header, and only such a record, has an entry
    under the key [None]. *)
Lemma dict_row_rest fieldnames row :
  rest (dict_row fieldnames row) =
  if decide (length fieldnames < length row)%nat
  then Some (drop (length fieldnames) row) else None.
Proof. unfold dict_row. by case_decide. Qed.

(** A record as long as a header of distinct names is zipped with it. *)
Lemma dict_row_fit fieldnames row :
  NoDup fieldnames → length row = length fieldnames →
  dict_row fieldnames row = ReaderRow (zip fieldnames (VStr <$> row)) None.
Proof.
  intros Hnd Hl. unfold dict_row. rewrite decide_False by lia.
  rewrite Hl, drop_all. cbn. f_equal. apply dict_of_NoDup.
  by rewrite fst_zip by (rewrite length_fmap; lia).
Qed.

(** A shorter record leaves [None] under the names it does not reach. *)
Lemma dict_row_short fieldnames row :
  NoDup fieldnames → (length row ≤ length fieldnames)%nat →
  dict_row fieldnames row =
  ReaderRow (zip fieldnames ((VStr <$> row) ++
                             replicate (length fieldnames - length row) VNone)) None.
Proof.
  intros Hnd Hl. unfold dict_row. rewrite decide_False by lia. f_equal.
  set (lr := length row).
  assert (zip fieldnames (VStr <$> row) = zip (take lr fieldnames) (VStr <$> row)) as Hzip.
  { rewrite <- (take_drop lr fieldnames) at 1.
    rewrite <- (app_nil_r (VStr <$> row)) at 1.
    rewrite zip_with_app by (rewrite length_take, length_fmap; lia).
    cbn. by rewrite zip_with_nil_r, !app_nil_r. }
  rewrite <- (take_drop lr fieldnames) in Hnd.
  apply NoDup_app in Hnd as (Hnd1 & Hdisj & Hnd2).
  rewrite Hzip, dict_of_NoDup by (by rewrite fst_zip by (rewrite length_take, length_fmap; lia)).
  rewrite foldl_const_new; [|done|].
  - rewrite <- (take_drop lr fieldnames) at 3.
    rewrite zip_with_app by (rewrite length_take, length_fmap; lia). f_equal.
    rewrite <- (length_drop fieldnames lr). generalize (drop lr fieldnames).
    intros l. induction l as [|k l IH]; [done|]. cbn. by rewrite IH.
  - intros k Hk. unfold od_keys.
    rewrite fst_zip by (rewrite length_take, length_fmap; lia).
    intros Hk'. by apply (Hdisj k).
Qed.

(** A record shorter than the header leaves [None] under the last name. *)
Lemma dict_row_short_None fieldnames row :
  (length row < length fieldnames)%nat → VNone ∈ (fields (dict_row fieldnames row)).*2.
Proof.
  intros Hl. apply list_elem_of_fmap.
  assert (∃ k, od_get (fields (dict_row fieldnames row)) k = Some VNone) as [k Hk].
  { unfold dict_row. rewrite decide_False by lia. cbn [fields].
    destruct (drop (length row) fieldnames) as [|k0 ks _] eqn:Hd using rev_ind.
    { apply (f_equal length) in Hd. rewrite length_drop in Hd. cbn in Hd. lia. }
    exists k0. rewrite foldl_app. cbn [foldl]. by rewrite od_get_set, decide_True. }
  exists (k, VNone). split; [done|]. by apply od_get_elem_of; [apply dict_row_wf|].
Qed.

(** A cell of a dictionary of the reader is a field of the record, or
    [None]. *)
Definition cell_of (row : list string) (v : value) : Prop :=
  match v with
  | VStr s => s ∈ row
  | VNone => True
  | VNum _ => False
  end.

Lemma zip_strings_cells fieldnames row :
  Forall (λ v, ∃ s, v = VStr s ∧ s ∈ row) (zip fieldnames (VStr <$> row)).*2.
Proof.
  apply Forall_forall. intros v ([k v'] & -> & Hin)%list_elem_of_fmap. cbn.
  apply elem_of_zip_r in Hin. apply list_elem_of_fmap in Hin as (s & -> & Hs). eauto.
Qed.

Lemma dict_row_cells fieldnames row :
  Forall (cell_of row) (fields (dict_row fieldnames row)).*2.
Proof.
  assert (Forall (cell_of row) (dict_of (zip fieldnames (VStr <$> row))).*2) as Hd.
  { apply dict_of_values. eapply Forall_impl; [apply zip_strings_cells|].
    by intros v (s & -> & Hs). }
  unfold dict_row. case_decide; cbn [fields]; [done|]. by apply foldl_const_values.
Qed.

(** A record as long as the header, or longer, leaves its fields and
    nothing else under the names. *)
Lemma dict_row_strings fieldnames row :
  (length fieldnames ≤ length row)%nat →
  Forall (λ v, ∃ s, v = VStr s ∧ s ∈ row) (fields (dict_row fieldnames row)).*2.
Proof.
  intros Hl. unfold dict_row. case_decide; cbn [fields].
  - apply dict_of_values, zip_strings_cells.
  - rewrite drop_ge by lia. apply dict_of_values, zip_strings_cells.
Qed.

End reader.

(** ** The records of the writer *)

(** The record of a row under the field names, with [''] where the row has
    no entry. *)
Definition record_of (fieldnames : list string) (r : row) : list value :=
  (λ key, default (VStr "") (r !! key)) <$> fieldnames.

Lemma zip_fmap_self {A B} (f : A → B) (l : list A) : zip l (f <$> l) = (λ x, (x, f x)) <$> l.
Proof. induction l as [|x l IH]; [done|]. cbn. by rewrite IH. Qed.

Section writer.
Implicit Types (fieldnames : list string) (d rowdict : orow).

Lemma dict_to_list_record fieldnames d :
  od_keys d ⊆ fieldnames → dict_to_list fieldnames d = inr (record_of fieldnames (to_row d)).
Proof.
  intros Hd. unfold dict_to_list, record_of. rewrite decide_True by done. f_equal.
  apply Forall_fmap_ext_1, Forall_forall. intros k _. unfold to_row. by rewrite lookup_to_map.
Qed.

Lemma dict_to_list_extra fieldnames d :
  ¬ od_keys d ⊆ fieldnames → dict_to_list fieldnames d = inl ValueError.
Proof. intros Hd. unfold dict_to_list. by rewrite decide_False. Qed.

(** A dictionary written under its own keys gives its values in order. *)
Lemma dict_to_list_own_keys d : od_wf d → dict_to_list (od_keys d) d = inr d.*2.
Proof.
  intros Hd. unfold dict_to_list. rewrite decide_True by done. f_equal.
  by apply od_get_own_keys.
Qed.

(** The names of the fields go to the file as they are, repeated names
    included. *)
Lemma writeheader_tell fieldnames : writeheader fieldnames = tell (VStr <$> fieldnames).
Proof.
  unfold writeheader, writerow. set (d := dict_of _).
  assert (∀ k, k ∈ od_keys d ↔ k ∈ fieldnames) as Hkeys.
  { intros k. unfold d, dict_of. rewrite od_keys_foldl_set, fst_zip_take, length_fmap.
    cbn. rewrite firstn_all, elem_of_keys_after, elem_of_nil. naive_solver. }
  rewrite dict_to_list_record by (intros k; apply Hkeys).
  rewrite bind_lift_inr. unfold tell, record_of. do 2 f_equal.
  apply Forall_fmap_ext_1, Forall_forall. intros k Hk%Hkeys%od_get_keys.
  unfold to_row. rewrite lookup_to_map. destruct Hk as [v Hv]. rewrite Hv. cbn.
  revert Hv. apply (dict_of_entries (λ k v, v = VStr k)).
  rewrite zip_fmap_self. by apply Forall_fmap, Forall_forall.
Qed.

End writer.

(** ** From the reader to the writer *)

Section round_trip.
Implicit Types (fieldnames row : list string).

(** The dictionary of a record as long as a header of distinct names goes
    back to the record under the header. *)
Lemma writerow_dict_row fieldnames row :
  NoDup fieldnames → length row = length fieldnames →
  writerow fieldnames (fields (dict_row fieldnames row)) = tell (VStr <$> row).
Proof.
  intros Hnd Hl. rewrite dict_row_fit by done. cbn [fields]. unfold writerow.
  assert (od_keys (zip fieldnames (VStr <$> row)) = fieldnames) as Hkeys
    by (apply fst_zip; rewrite length_fmap; lia).
  rewrite <- Hkeys at 1. rewrite dict_to_list_own_keys by (unfold od_wf; by rewrite Hkeys).
  by rewrite bind_lift_inr, snd_zip by (rewrite length_fmap; lia).
Qed.

(** The records of a file whose records are as long as its header go
    through the reader and the writer unchanged, but for the blank ones,
    which the reader skips. *)
Lemma writerows_DictReader fieldnames rows :
  NoDup fieldnames → Forall (λ row, row = [] ∨ length row = length fieldnames) rows →
  writerows fieldnames (fields <$> DictReader (fieldnames :: rows))
  = ((λ row : list string, VStr <$> row) <$> filter (λ row, row ≠ []) rows, inr tt).
Proof.
  intros Hnd Hrows. cbn [DictReader].
  unfold writerows. rewrite (foldM_fmap fields), (foldM_fmap (dict_row fieldnames)).
  apply (foldM_tell (λ row, writerow fieldnames (fields (dict_row fieldnames row)))).
  apply Forall_forall. intros row [Hne Hrow]%list_elem_of_filter.
  apply writerow_dict_row; [done|].
  by destruct (proj1 (Forall_forall _ _) Hrows row Hrow).
Qed.

End round_trip.
