(* ===== verification/Profiles.v ===== *)
(** * The profile tables

    The module-level dictionaries of the two scripts.  A profile is the
    association list of its items in the order of the dictionary literal,
    which is the order in which [calculate_distance] visits its features.
    [Artist] holds [ideal_artist] and [weights] of [artist_clustering.py];
    [Modified] holds [profiles] of [modified_artist_clustering.py], each entry
    a record of its ['profile'] and ['weight'] keys.

    The well-formedness of a table ([profile_wf]: no feature twice, no
    negative ideal value) and of a registry ([registry_wf]: no cluster name
    twice, every profile well formed and over the same features) are
    decidable, and the tables of the scripts satisfy them. *)

From Stdlib Require Import QArith Qabs Lqa String.
From stdpp Require Import base option list gmap strings.
From S2P Require Import Prelude PyValue.

(** A profile: feature names with their ideal values. *)
Abbreviation profile_t := (list (string * Q)).

Module Artist.

Definition ideal_artist : profile_t := [
  ("Number of Songs (Spotify)", 3);
  ("Monthly listeners (Spotify)", 5000);
  ("Total Streams (Spotify)", 10000);
  ("Fan Retention Rate (Spotify)", 10);
  ("Playlist Reach (Spotify)", 10000);
  ("Platform Playlists appearence (Spotify)", 1);
  ("Non-platform playlists (Spotify)", 50);
  ("Spotify Following", 1000);
  ("Instagram Following", 1000);
  ("TikTok Following", 10000)
].

Definition weights : gmap string Q := list_to_map [
  ("Number of Songs (Spotify)", 1);
  ("Monthly listeners (Spotify)", 2);
  ("Total Streams (Spotify)", 2);
  ("Fan Retention Rate (Spotify)", 1.5);
  ("Playlist Reach (Spotify)", 1.5);
  ("Platform Playlists appearence (Spotify)", 1);
  ("Non-platform playlists (Spotify)", 1);
  ("Spotify Following", 1);
  ("Instagram Following", 1);
  ("TikTok Following", 1)
].

End Artist.

Module Modified.

(** An entry of [profiles]: its ['profile'] and its ['weight']. *)
Record cluster_data : Type := {
  profile : profile_t;
  weight : Q
}.

Definition profiles : list (string * cluster_data) := [
  ("Ready", {|
     profile := [
       ("Number of Songs (Spotify)", 3);
       ("Monthly listeners (Spotify)", 5000);
       ("Total Streams (Spotify)", 10000);
       ("Fan Retention Rate (Spotify)", 10);
       ("Playlist Reach (Spotify)", 10000);
       ("Platform Playlists appearence (Spotify)", 1);
       ("Non-platform playlists (Spotify)", 50);
       ("Spotify Following", 1000);
       ("Instagram Following", 1000);
       ("TikTok Following", 10000)
     ];
     weight := 1 |});
  ("Potential", {|
     profile := [
       ("Number of Songs (Spotify)", 2);
       ("Monthly listeners (Spotify)", 2000);
       ("Total Streams (Spotify)", 5000);
       ("Fan Retention Rate (Spotify)", 5);
       ("Playlist Reach (Spotify)", 5000);
       ("Platform Playlists appearence (Spotify)", 0);
       ("Non-platform playlists (Spotify)", 20);
       ("Spotify Following", 500);
       ("Instagram Following", 500);
       ("TikTok Following", 5000)
     ];
     weight := 0.5 |});
  ("Not Ready", {|
     profile := [
       ("Number of Songs (Spotify)", 0);
       ("Monthly listeners (Spotify)", 0);
       ("Total Streams (Spotify)", 0);
       ("Fan Retention Rate (Spotify)", 0);
       ("Playlist Reach (Spotify)", 0);
       ("Platform Playlists appearence (Spotify)", 0);
       ("Non-platform playlists (Spotify)", 0);
       ("Spotify Following", 0);
       ("Instagram Following", 0);
       ("TikTok Following", 0)
     ];
     weight := 0 |})
].

(** [profiles.keys()] *)
Definition cluster_names (ps : list (string * cluster_data)) : list string :=
  ps.*1.

End Modified.

(** ** Well-formedness *)

(** The features of a profile, in order. *)
Definition features (p : profile_t) : list string := p.*1.

(** A dictionary has no key twice, and the distance needs ideal values that
    are not negative. *)
Definition profile_wf (p : profile_t) : Prop :=
  NoDup (features p) ∧ Forall (λ it, 0 <= it.2) p.

(** Every feature of the profile has a weight, and the weight is positive. *)
Definition weights_wf (p : profile_t) (ws : gmap string Q) : Prop :=
  Forall (λ f, ∃ w, ws !! f = Some w ∧ 0 < w) (features p).

(** Cluster names are distinct, and the profiles are well formed and share
    one list of features. *)
Definition registry_wf (ps : list (string * Modified.cluster_data)) : Prop :=
  NoDup (Modified.cluster_names ps) ∧
  Forall (λ c, profile_wf (Modified.profile c.2)) ps ∧
  ∀ c1 c2, c1 ∈ ps → c2 ∈ ps →
    features (Modified.profile c1.2) = features (Modified.profile c2.2).

#[export] Instance profile_wf_dec p : Decision (profile_wf p).
Proof. unfold profile_wf. apply _. Defined.

#[export] Instance weights_wf_dec p ws : Decision (weights_wf p ws).
Proof.
  unfold weights_wf. apply Forall_dec. intros f.
  destruct (ws !! f) as [w|] eqn:Hw.
  - destruct (decide (0 < w)); [left; eauto | right].
    intros (w'&[= <-]&?). done.
  - right. by intros (?&?&_).
Defined.

#[export] Instance registry_wf_dec ps : Decision (registry_wf ps).
Proof.
  unfold registry_wf.
  apply and_dec; [apply _|]. apply and_dec; [apply _|].
  destruct (decide (Forall (λ c1, Forall (λ c2,
    features (Modified.profile c1.2) = features (Modified.profile c2.2)) ps) ps))
    as [Hall|Hnot]; [left | right].
  - intros c1 c2 H1 H2.
    rewrite Forall_forall in Hall. specialize (Hall c1 H1).
    rewrite Forall_forall in Hall. by apply Hall.
  - intros Hall. apply Hnot. apply Forall_forall. intros c1 H1.
    apply Forall_forall. intros c2 H2. by apply Hall.
Defined.

(** ** The tables of the scripts are well formed *)

Lemma ideal_artist_wf : profile_wf Artist.ideal_artist.
Proof. vm_decide. Qed.

Lemma weights_ideal_artist_wf : weights_wf Artist.ideal_artist Artist.weights.
Proof. vm_decide. Qed.

Lemma profiles_wf : registry_wf Modified.profiles.
Proof. vm_decide. Qed.

(** Both scripts use the same ideal profile for 'Ready'. *)
Lemma profiles_Ready :
  Modified.profile <$> (list_to_map (M:=gmap string _) Modified.profiles !! "Ready")
  = Some Artist.ideal_artist.
Proof. reflexivity. Qed.
