(* ===== verification/Samples.v ===== *)
(** * Sample records

    The rows on which the theorems of the development are instantiated: a
    record that meets the 'Ready' profile, one that meets 'Potential' but for
    a missing column, one with strings that [float] accepts or rejects, one
    holding [None], and one with no feature at all. *)

From Stdlib Require Import QArith String.
From stdpp Require Import base option list gmap strings.
From S2P Require Import Prelude PyValue Profiles.

Definition artist_ready : row := list_to_map [
  ("Artist Name", VStr "Ada");
  ("Number of Songs (Spotify)", VNum 3);
  ("Monthly listeners (Spotify)", VNum 5000);
  ("Total Streams (Spotify)", VNum 10000);
  ("Fan Retention Rate (Spotify)", VNum 10);
  ("Playlist Reach (Spotify)", VNum 10000);
  ("Platform Playlists appearence (Spotify)", VNum 1);
  ("Non-platform playlists (Spotify)", VNum 50);
  ("Spotify Following", VNum 1000);
  ("Instagram Following", VNum 1000);
  ("TikTok Following", VNum 10000)
].

Definition artist_rising : row := list_to_map [
  ("Artist Name", VStr "Bo");
  ("Number of Songs (Spotify)", VNum 2);
  ("Monthly listeners (Spotify)", VNum 2000);
  ("Total Streams (Spotify)", VNum 5000);
  ("Fan Retention Rate (Spotify)", VNum 5);
  ("Playlist Reach (Spotify)", VNum 5000);
  ("Platform Playlists appearence (Spotify)", VNum 0);
  ("Non-platform playlists (Spotify)", VNum 20);
  ("Spotify Following", VNum 500);
  ("Instagram Following", VNum 500)
].

Definition artist_messy : row := list_to_map [
  ("Artist Name", VStr "Cy");
  ("Number of Songs (Spotify)", VStr "n/a");
  ("Monthly listeners (Spotify)", VStr "-5");
  ("Total Streams (Spotify)", VStr "1e3");
  ("Fan Retention Rate (Spotify)", VNum 2.5)
].

Definition artist_broken : row :=
  <["Spotify Following" := VNone]> artist_messy.

Definition artist_blank : row := {["Artist Name" := VStr "Di"]}.

Definition sample_data : list row :=
  [artist_ready; artist_rising; artist_messy; artist_blank].
