(* ===== verification/Distance.v ===== *)
(** * The distance calculator

    [calculate_distance] of both scripts and [calculate_all_distances] of
    [artist_clustering.py].

    [Artist.calculate_distance row ideal weights] is the loop of lines 47-60
    of [artist_clustering.py]: for every item of [ideal], in order, the value
    [row.get(feature, 0)] is converted by [float]; a number adds
    [weight * abs(x - ideal_value)]; a [ValueError] prints a diagnostic and
    adds [weight * ideal_value]; any other exception prints and is raised
    again.  [Modified.calculate_distance row profile] is the loop of lines
    70-82 of [modified_artist_clustering.py], the same without weights.

    Both are instances of one loop, [distance_loop], over the way a term is
    scaled; the lemmas are proved once for that loop in Section [loop] and
    the theorems on the two functions follow from them.  The abstract
    specification is [manhattan]: the weighted sum of absolute differences
    over the features of the profile, of the numbers the row counts as
    ([counted_value]: 0 for an absent feature and for a value that [float]
    rejects). *)

From Stdlib Require Import QArith Qabs Lqa String.
From stdpp Require Import base option list gmap strings.
From S2P Require Import Prelude PyValue Profiles Samples.

(** ** The functions of the scripts *)

Module Artist.
Section defs.
Context `{FloatParser}.

Definition calculate_distance
    (row : row) (ideal : profile_t) (weights : gmap string Q) : M event Q :=
  foldM (λ distance '(feature, ideal_value),
    let weight := dict_get weights feature 1 in
    try_except
      (let row_value := dict_get row feature (VNum 0) in
       x <- lift (py_float row_value) ;;
       ret (distance + weight * Qabs (x - ideal_value)))
      (λ e, match e with
            | ValueError =>
                tell (NonNumeric feature row) ;;
                ret (distance + weight * ideal_value)
            | _ =>
                tell (ErrorProcessing feature e) ;;
                raise e
            end))
    0 ideal.

Definition calculate_all_distances
    (data : list row) (ideal : profile_t) (weights : gmap string Q)
    : M event (list row) :=
  mapM (λ row,
    d <- calculate_distance row ideal weights ;;
    ret (<["Distance_to_Ideal" := VNum d]> row)) data.

End defs.
End Artist.

Module Modified.
Section defs.
Context `{FloatParser}.

Definition calculate_distance (row : row) (profile : profile_t) : M event Q :=
  foldM (λ distance '(feature, ideal_value),
    try_except
      (let row_value := dict_get row feature (VNum 0) in
       x <- lift (py_float row_value) ;;
       ret (distance + Qabs (x - ideal_value)))
      (λ e, match e with
            | ValueError =>
                tell (NonNumeric feature row) ;;
                ret (distance + ideal_value)
            | _ =>
                tell (ErrorProcessing feature e) ;;
                raise e
            end))
    0 profile.

End defs.
End Modified.

(** ** The loop shared by both functions *)

Section loop_def.
Context `{FloatParser}.

(** [scale feature t] is what a term [t] of [feature] adds to the distance:
    [weight * t] in one script, [t] in the other. *)
Definition distance_loop (scale : string → Q → Q) (r : row)
    (distance : Q) (items : profile_t) : M event Q :=
  foldM (λ distance '(feature, ideal_value),
    try_except
      (x <- lift (py_float (dict_get r feature (VNum 0))) ;;
       ret (distance + scale feature (Qabs (x - ideal_value))))
      (λ e, match e with
            | ValueError =>
                tell (NonNumeric feature r) ;;
                ret (distance + scale feature ideal_value)
            | _ =>
                tell (ErrorProcessing feature e) ;;
                raise e
            end))
    distance items.

(** The scaling of [artist_clustering.py]: [weights.get(feature, 1) * t]. *)
Definition weighted (weights : gmap string Q) (feature : string) (t : Q) : Q :=
  dict_get weights feature 1 * t.

(** The scaling of [modified_artist_clustering.py]. *)
Definition unweighted (feature : string) (t : Q) : Q := t.

(** ** The specification *)

(** The number a row counts as on a feature: the converted value, and 0 for
    an absent feature and for a value that [float] rejects. *)
Definition counted_value (r : row) (feature : string) : Q :=
  match py_float (dict_get r feature (VNum 0)) with
  | inr x => x
  | inl _ => 0
  end.

(** The weighted Manhattan distance of the counted values to the profile. *)
Definition manhattan (scale : string → Q → Q) (r : row) (p : profile_t) : Q :=
  Qsum ((λ it, scale it.1 (Qabs (counted_value r it.1 - it.2))) <$> p).

(** [float] accepts the value of every feature of the profile. *)
Definition numeric_on (r : row) (p : profile_t) : Prop :=
  Forall (λ it, ∃ x, py_float (dict_get r it.1 (VNum 0)) = inr x) p.

(** [float] accepts or rejects with [ValueError] the value of every feature
    of the profile: no value is [None], none is out of the model. *)
Definition convertible_on (r : row) (p : profile_t) : Prop :=
  Forall (λ it, ∀ e, py_float (dict_get r it.1 (VNum 0)) = inl e → e = ValueError) p.

(** The features of the profile whose value [float] rejects. *)
Definition rejected (r : row) (p : profile_t) : list string :=
  filter (λ f, py_float (dict_get r f (VNum 0)) = inl ValueError) (features p).

(** What an item adds to the distance when the loop goes past it. *)
Definition contribution (scale : string → Q → Q) (r : row) (it : string * Q) : Q :=
  match py_float (dict_get r it.1 (VNum 0)) with
  | inr x => scale it.1 (Qabs (x - it.2))
  | inl _ => scale it.1 it.2
  end.

(** What the loop returns from 0 on a row it can convert: the contributions
    added from left to right. *)
Definition distance_value (scale : string → Q → Q) (r : row) (p : profile_t) : Q :=
  fold_left Qplus (contribution scale r <$> p) 0.

End loop_def.

Section decisions.
Context `{FloatParser}.

#[export] Instance numeric_on_dec r p : Decision (numeric_on r p).
Proof.
  apply Forall_dec. intros it.
  destruct (py_float (dict_get r it.1 (VNum 0))) as [e|x];
    [right; by intros [? ?] | left; by exists x].
Defined.

#[export] Instance convertible_on_dec r p : Decision (convertible_on r p).
Proof.
  apply Forall_dec. intros it.
  destruct (py_float (dict_get r it.1 (VNum 0))) as [e|x]; [|left; done].
  destruct (decide (e = ValueError)) as [->|He]; [left; congruence|].
  right. intros Hc. by apply He, Hc.
Defined.

End decisions.

(** ** Lemmas on the loop *)

Section loop.
Context `{FloatParser} (scale : string → Q → Q) (r : row).
Implicit Types (d : Q) (p : profile_t) (f : string) (v x : Q).

Lemma calculate_distance_loop p ws :
  Artist.calculate_distance r p ws = distance_loop (weighted ws) r 0 p.
Proof. reflexivity. Qed.

Lemma calculate_distance_loop' p :
  Modified.calculate_distance r p = distance_loop unweighted r 0 p.
Proof. reflexivity. Qed.


Lemma distance_loop_app d p1 p2 :
  distance_loop scale r d (p1 ++ p2)
  = (d' <- distance_loop scale r d p1 ;; distance_loop scale r d' p2).
Proof. apply foldM_app. Qed.

Lemma distance_loop_num d f v p x :
  py_float (dict_get r f (VNum 0)) = inr x →
  distance_loop scale r d ((f, v) :: p)
  = distance_loop scale r (d + scale f (Qabs (x - v))) p.
Proof.
  intros Hx. unfold distance_loop. cbn [foldM]. rewrite Hx.
  by autorewrite with pyrw.
Qed.

Lemma distance_loop_rejected d f v p :
  py_float (dict_get r f (VNum 0)) = inl ValueError →
  distance_loop scale r d ((f, v) :: p)
  = (NonNumeric f r :: events (distance_loop scale r (d + scale f v) p),
     outcome (distance_loop scale r (d + scale f v) p)).
Proof.
  intros Hx. unfold distance_loop. cbn [foldM]. rewrite Hx.
  autorewrite with pyrw. cbn [events outcome fst snd ret]. by rewrite bind_ok.
Qed.

Lemma distance_loop_error d f v p e :
  py_float (dict_get r f (VNum 0)) = inl e → e ≠ ValueError →
  distance_loop scale r d ((f, v) :: p) = ([ErrorProcessing f e], inl e).
Proof.
  intros Hx He. unfold distance_loop. cbn [foldM]. rewrite Hx.
  autorewrite with pyrw. by destruct e.
Qed.

(** On a row whose values are numbers or rejected strings the loop returns
    the start value plus the contributions, added from left to right. *)
Lemma distance_loop_returns d p :
  convertible_on r p →
  returns (distance_loop scale r d p)
          (fold_left Qplus (contribution scale r <$> p) d).
Proof.
  intros Hp. revert d. induction Hp as [|[f v] p Hf _ IH]; intros d; [done|].
  unfold contribution at 1. cbn [fmap list_fmap fold_left fst snd] in *.
  destruct (py_float (dict_get r f (VNum 0))) as [e|x] eqn:Hx.
  - rewrite (Hf e eq_refl) in Hx. rewrite distance_loop_rejected by done. apply IH.
  - erewrite distance_loop_num by done. apply IH.
Qed.

(** ... and prints one diagnostic per rejected feature, in profile order. *)
Lemma distance_loop_events d p :
  convertible_on r p →
  events (distance_loop scale r d p) = (λ f, NonNumeric f r) <$> rejected r p.
Proof.
  intros Hp. revert d. induction Hp as [|[f v] p Hf _ IH]; intros d; [done|].
  unfold rejected, features in *. cbn [fmap list_fmap fst] in *.
  rewrite filter_cons. case_decide as Hx.
  - rewrite distance_loop_rejected by done. cbn. by rewrite IH.
  - destruct (py_float (dict_get r f (VNum 0))) as [e|x] eqn:Hx'.
    + by rewrite (Hf e eq_refl) in Hx.
    + erewrite distance_loop_num by done. apply IH.
Qed.

(** The first feature whose value raises something else than [ValueError]
    ends the loop: the exception is raised again after its diagnostic. *)
Lemma distance_loop_raises d p1 f v p2 e :
  convertible_on r p1 →
  py_float (dict_get r f (VNum 0)) = inl e → e ≠ ValueError →
  raises (distance_loop scale r d (p1 ++ (f, v) :: p2)) e ∧
  events (distance_loop scale r d (p1 ++ (f, v) :: p2))
  = ((λ f, NonNumeric f r) <$> rejected r p1) ++ [ErrorProcessing f e].
Proof.
  intros Hp He Hne. rewrite distance_loop_app.
  pose proof (distance_loop_returns d p1 Hp) as Hret.
  pose proof (distance_loop_events d p1 Hp) as Hev.
  destruct (distance_loop scale r d p1) as [l o].
  unfold returns, events in *. simpl in Hret, Hev. subst.
  by rewrite bind_ok, (distance_loop_error _ _ _ _ _ He Hne).
Qed.

End loop.

(** ** The loop implements the Manhattan distance *)

Section scaled.
Context `{FloatParser} (scale : string → Q → Q) (r : row).
Context (scale_proper : ∀ f, Proper (Qeq ==> Qeq) (scale f)).
Implicit Types (d : Q) (p : profile_t).

(** For an ideal value that is not negative, the penalty of a rejected value
    is the term of the number 0. *)
Lemma contribution_counted it :
  0 <= it.2 →
  contribution scale r it == scale it.1 (Qabs (counted_value r it.1 - it.2)).
Proof.
  intros Hv. unfold contribution, counted_value.
  destruct (py_float _); [|reflexivity].
  apply scale_proper. by rewrite Qabs_of_opp_nonneg.
Qed.

Lemma distance_loop_manhattan d p :
  convertible_on r p → Forall (λ it, 0 <= it.2) p →
  ∃ d', returns (distance_loop scale r d p) d' ∧ d' == d + manhattan scale r p.
Proof.
  intros Hp Hv. eexists. split; [by apply distance_loop_returns|].
  rewrite fold_left_Qplus. apply Qplus_comp; [reflexivity|].
  apply Qsum_fmap_ext. eapply Forall_impl; [done|]. apply contribution_counted.
Qed.

(** The loop returns exactly on the rows it can convert. *)
Lemma distance_loop_returns_iff d p :
  (∃ d', returns (distance_loop scale r d p) d') ↔ convertible_on r p.
Proof.
  split; [|intros; eexists; by apply distance_loop_returns].
  revert d. induction p as [|[f v] p IH]; intros d [d' Hd]; [constructor|].
  destruct (py_float (dict_get r f (VNum 0))) as [e|x] eqn:Hx.
  - destruct (decide (e = ValueError)) as [->|He].
    + rewrite distance_loop_rejected in Hd by done.
      constructor; [simpl; congruence | by eapply IH; exists d'].
    + by rewrite (distance_loop_error _ _ _ _ _ _ e Hx He) in Hd.
  - rewrite (distance_loop_num _ _ _ _ _ _ x Hx) in Hd.
    constructor; [simpl; congruence | by eapply IH; exists d'].
Qed.

(** What the loop returns, when it returns. *)
Lemma distance_loop_value d p d' :
  Forall (λ it, 0 <= it.2) p →
  returns (distance_loop scale r d p) d' → d' == d + manhattan scale r p.
Proof.
  intros Hv Hd.
  assert (convertible_on r p) as Hr
    by (apply (proj1 (distance_loop_returns_iff d p)); by exists d').
  destruct (distance_loop_manhattan d p Hr Hv) as (d''&Hd''&Heq).
  unfold returns in *. rewrite Hd in Hd''. by injection Hd'' as <-.
Qed.

Lemma manhattan_nonneg p :
  (∀ it x, it ∈ p → 0 <= x → 0 <= scale it.1 x) → 0 <= manhattan scale r p.
Proof.
  intros Hs. apply Qsum_fmap_nonneg, Forall_forall. intros it Hit.
  apply Hs; [done | apply Qabs_nonneg].
Qed.

Lemma manhattan_zero_iff p :
  (∀ it x, it ∈ p → 0 <= x → 0 <= scale it.1 x) →
  (∀ it x, it ∈ p → scale it.1 x == 0 → x == 0) →
  (∀ it, it ∈ p → scale it.1 0 == 0) →
  manhattan scale r p == 0 ↔ Forall (λ it, counted_value r it.1 == it.2) p.
Proof.
  intros Hs Hz H0. unfold manhattan. rewrite Qsum_fmap_zero_iff.
  - rewrite !Forall_forall. apply forall_proper; intros it.
    apply forall_proper; intros Hit. split.
    + intros Hx. apply (Hz it _ Hit), (proj1 (Qabs_zero_iff _)) in Hx. lra.
    + intros Hx. rewrite <- (H0 it Hit). apply scale_proper.
      apply Qabs_zero_iff. lra.
  - apply Forall_forall. intros it Hit. apply Hs; [done | apply Qabs_nonneg].
Qed.

(** The outcome depends on the row only through the values that [float]
    gives to the features of the profile. *)
Lemma distance_loop_ext r' d p :
  Forall (λ it, py_float (dict_get r it.1 (VNum 0))
                = py_float (dict_get r' it.1 (VNum 0))) p →
  outcome (distance_loop scale r d p) = outcome (distance_loop scale r' d p).
Proof.
  intros Hp. revert d. induction Hp as [|[f v] p Hf _ IH]; intros d; [done|].
  simpl in Hf. destruct (py_float (dict_get r f (VNum 0))) as [e|x] eqn:Hx.
  - destruct (decide (e = ValueError)) as [->|He].
    + rewrite !distance_loop_rejected by done. apply IH.
    + by rewrite !(distance_loop_error _ _ _ _ _ _ e) by done.
  - rewrite !(distance_loop_num _ _ _ _ _ _ x) by done. apply IH.
Qed.

(** The loop never lets a [ValueError] escape: it returns, or raises the
    [TypeError] of a [None] value, or leaves the model. *)
Lemma distance_loop_outcome d p :
  (∃ d', returns (distance_loop scale r d p) d') ∨
  raises (distance_loop scale r d p) TypeError ∨
  raises (distance_loop scale r d p) NonFinite.
Proof.
  revert d. induction p as [|[f v] p IH]; intros d; [left; by exists d|].
  destruct (py_float (dict_get r f (VNum 0))) as [e|x] eqn:Hx.
  - destruct (decide (e = ValueError)) as [->|He].
    + rewrite distance_loop_rejected by done. apply IH.
    + rewrite (distance_loop_error _ _ _ _ _ _ e) by done. right.
      destruct (dict_get r f (VNum 0)) as [q|s|]; simpl in Hx; simplify_eq.
      * destruct (str_to_float_exn _ _ Hx) as [->| ->]; [done | by right].
      * by left.
  - rewrite (distance_loop_num _ _ _ _ _ _ x) by done. apply IH.
Qed.

(** Writing the number 0 under a feature that is absent or rejected changes
    no counted value and keeps the row convertible. *)
Lemma counted_value_insert_zero f g :
  counted_value r f == 0 →
  counted_value (<[f := VNum 0]> r) g == counted_value r g.
Proof.
  intros Hf. unfold counted_value at 1.
  destruct (decide (f = g)) as [<-|Hne].
  - by rewrite dict_get_insert.
  - rewrite dict_get_insert_ne by done. reflexivity.
Qed.

Lemma convertible_on_insert_num f q p :
  convertible_on r p → convertible_on (<[f := VNum q]> r) p.
Proof.
  intros Hp. eapply Forall_impl; [done|]. intros [g v] Hg e. simpl in *.
  destruct (decide (f = g)) as [<-|Hne].
  - by rewrite dict_get_insert.
  - rewrite dict_get_insert_ne by done. apply Hg.
Qed.

Lemma manhattan_ext r' p :
  Forall (λ it, counted_value r' it.1 == counted_value r it.1) p →
  manhattan scale r' p == manhattan scale r p.
Proof.
  intros Hp. apply Qsum_fmap_ext. eapply Forall_impl; [done|].
  intros it Hit. cbv beta in *. apply scale_proper. by rewrite Hit.
Qed.

Lemma distance_value_manhattan p :
  Forall (λ it, 0 <= it.2) p →
  distance_value scale r p == manhattan scale r p.
Proof.
  intros Hv. unfold distance_value. rewrite fold_left_Qplus, Qplus_0_l.
  apply Qsum_fmap_ext. eapply Forall_impl; [done|]. apply contribution_counted.
Qed.

Lemma distance_value_ext r' p :
  Forall (λ it, py_float (dict_get r it.1 (VNum 0))
                = py_float (dict_get r' it.1 (VNum 0))) p →
  distance_value scale r p = distance_value scale r' p.
Proof.
  intros Hp. unfold distance_value. f_equal. apply Forall_fmap_ext.
  eapply Forall_impl; [done|]. intros it Hit. unfold contribution.
  by rewrite Hit.
Qed.

Lemma convertible_on_ext r' p :
  Forall (λ it, py_float (dict_get r it.1 (VNum 0))
                = py_float (dict_get r' it.1 (VNum 0))) p →
  convertible_on r p → convertible_on r' p.
Proof.
  unfold convertible_on. rewrite !Forall_forall. intros Hp Hr it Hit e.
  rewrite <- (Hp it Hit). by apply Hr.
Qed.

(** A numeric row is convertible. *)
Lemma numeric_on_convertible p : numeric_on r p → convertible_on r p.
Proof.
  intros Hp. eapply Forall_impl; [done|]. intros it [x Hx] e. congruence.
Qed.

End scaled.

(** ** The two scalings *)

#[export] Instance weighted_proper ws f : Proper (Qeq ==> Qeq) (weighted ws f).
Proof. intros x y Hxy. unfold weighted. by rewrite Hxy. Qed.

#[export] Instance unweighted_proper f : Proper (Qeq ==> Qeq) (unweighted f).
Proof. by intros x y Hxy. Qed.

(** With well-formed weights, a weighted term is zero only for a zero term,
    and is never negative. *)
Lemma weighted_pos `{FloatParser} p ws it :
  weights_wf p ws → it ∈ p → 0 < dict_get ws it.1 1.
Proof.
  unfold weights_wf, features. rewrite Forall_fmap, Forall_forall.
  intros Hw Hit. destruct (Hw it Hit) as (w&Hw'&?).
  unfold dict_get. simpl in Hw'. by rewrite Hw'.
Qed.

(** ** Theorems on [calculate_distance] *)

Section theorems.
Context `{FloatParser}.
Implicit Types (r : row) (p : profile_t) (ws : gmap string Q).

(** C10: for a profile of distinct features with ideal values that are not
    negative, on a row whose feature values are numbers or strings that
    [float] accepts or rejects, [calculate_distance] of
    [artist_clustering.py] returns, and what it returns is the weighted
    Manhattan distance of the counted values of the row to the profile (the
    penalty [weight * ideal_value] of a rejected value is the term of a 0
    only when the ideal value is not negative). *)
Theorem artist_distance_refines_manhattan r p ws :
  profile_wf p → convertible_on r p →
  ∃ d, returns (Artist.calculate_distance r p ws) d ∧
       d == manhattan (weighted ws) r p.
Proof.
  intros [_ Hv] Hr.
  destruct (distance_loop_manhattan (weighted ws) r _ 0 p Hr Hv) as (d&?&Hd).
  exists d. split; [done|]. rewrite Hd. lra.
Qed.

(** C7: the same for [calculate_distance] of
    [modified_artist_clustering.py], with every weight 1: for a profile of
    distinct features with ideal values that are not negative, on a row
    whose feature values [float] accepts or rejects with [ValueError], it
    returns the Manhattan distance of the counted values of the row to the
    profile. *)
Theorem modified_distance_refines_manhattan r p :
  profile_wf p → convertible_on r p →
  ∃ d, returns (Modified.calculate_distance r p) d ∧
       d == manhattan unweighted r p.
Proof.
  intros [_ Hv] Hr.
  destruct (distance_loop_manhattan unweighted r _ 0 p Hr Hv) as (d&?&Hd).
  exists d. split; [done|]. rewrite Hd. lra.
Qed.

(** With ideal values that are not negative and positive weights, a
    distance that [calculate_distance] returns is not negative. *)
Theorem artist_distance_nonneg r p ws d :
  profile_wf p → weights_wf p ws →
  returns (Artist.calculate_distance r p ws) d → 0 <= d.
Proof.
  intros [_ Hv] Hw Hd.
  apply (distance_loop_value (weighted ws) r _ 0 p d Hv) in Hd.
  rewrite Hd, Qplus_0_l. apply manhattan_nonneg. intros it x Hit Hx.
  pose proof (weighted_pos p ws it Hw Hit). unfold weighted. nra.
Qed.

(** C35: on a row whose feature values are all numeric,
    [calculate_distance] of [modified_artist_clustering.py] returns a
    distance that is not negative, and that is zero exactly when every
    feature of the profile has its ideal value in the row, an absent
    feature counting as 0. *)
Theorem modified_distance_zero_iff r p :
  profile_wf p → numeric_on r p →
  ∃ d, returns (Modified.calculate_distance r p) d ∧ 0 <= d ∧
       (d == 0 ↔ Forall (λ it, counted_value r it.1 == it.2) p).
Proof.
  intros [_ Hv] Hr%numeric_on_convertible.
  destruct (distance_loop_manhattan unweighted r _ 0 p Hr Hv) as (d&?&Hd).
  exists d. split; [done|]. rewrite Hd, Qplus_0_l. split.
  - apply manhattan_nonneg. intros it x _ Hx. exact Hx.
  - apply manhattan_zero_iff; [apply _|done..|reflexivity].
Qed.

(** The same for the weighted distance of [artist_clustering.py], whose
    weights have to be positive on the features of the profile. *)
Theorem artist_distance_zero_iff r p ws :
  profile_wf p → weights_wf p ws → numeric_on r p →
  ∃ d, returns (Artist.calculate_distance r p ws) d ∧
       (d == 0 ↔ Forall (λ it, counted_value r it.1 == it.2) p).
Proof.
  intros [_ Hv] Hw Hr%numeric_on_convertible.
  destruct (distance_loop_manhattan (weighted ws) r _ 0 p Hr Hv) as (d&?&Hd).
  exists d. split; [done|]. rewrite Hd, Qplus_0_l.
  apply manhattan_zero_iff; [apply _|..]; intros it; intros;
    pose proof (weighted_pos p ws it Hw ltac:(done)); unfold weighted in *; nra.
Qed.

(** C36: a feature that is absent from the row counts as the number 0: the
    outcome of [calculate_distance] is the one of the row with an explicit
    0 under that feature. *)
Theorem modified_distance_missing_feature r p f :
  r !! f = None →
  outcome (Modified.calculate_distance r p)
  = outcome (Modified.calculate_distance (<[f := VNum 0]> r) p).
Proof.
  intros Hf. apply (distance_loop_ext unweighted), Forall_forall.
  intros [g v] _. simpl.
  destruct (decide (f = g)) as [<-|Hne].
  - by rewrite dict_get_insert; unfold dict_get; rewrite Hf.
  - by rewrite dict_get_insert_ne.
Qed.

(** C38: the penalty of a value that [float] rejects is the term of the
    number 0: replacing the rejected value by 0 gives an equal distance. *)
Theorem modified_distance_rejected_as_zero r p f d :
  profile_wf p →
  py_float (dict_get r f (VNum 0)) = inl ValueError →
  returns (Modified.calculate_distance r p) d →
  ∃ d', returns (Modified.calculate_distance (<[f := VNum 0]> r) p) d' ∧
        d' == d.
Proof.
  intros [_ Hv] Hf Hd.
  assert (convertible_on r p) as Hr
    by (apply (proj1 (distance_loop_returns_iff unweighted r 0 p)); by exists d).
  apply (distance_loop_value unweighted r _ 0 p d Hv) in Hd.
  destruct (distance_loop_manhattan unweighted (<[f := VNum 0]> r) _ 0 p)
    as (d'&?&Hd'); [by apply convertible_on_insert_num | done |].
  exists d'. split; [done|]. rewrite Hd, Hd'. apply Qplus_comp; [done|].
  apply manhattan_ext; [apply _|]. apply Forall_forall. intros it _.
  apply counted_value_insert_zero. unfold counted_value. by rewrite Hf.
Qed.

(** A run of [calculate_distance] that converts every value prints one
    'Non-numeric value' diagnostic per rejected feature, in the order of the
    profile, and nothing else. *)
Theorem modified_distance_diagnostics r p :
  convertible_on r p →
  events (Modified.calculate_distance r p)
  = (λ f, NonNumeric f r) <$> rejected r p.
Proof. apply (distance_loop_events unweighted). Qed.

(** A [None] under a feature of the profile makes [calculate_distance]
    raise [TypeError], after the diagnostics of the earlier features and an
    'Error processing feature' line. *)
Theorem modified_distance_raises_on_None r p1 f v p2 :
  convertible_on r p1 → r !! f = Some VNone →
  raises (Modified.calculate_distance r (p1 ++ (f, v) :: p2)) TypeError ∧
  events (Modified.calculate_distance r (p1 ++ (f, v) :: p2))
  = ((λ f, NonNumeric f r) <$> rejected r p1) ++ [ErrorProcessing f TypeError].
Proof.
  intros Hp Hf. apply (distance_loop_raises unweighted); [done| |done].
  unfold dict_get. by rewrite Hf.
Qed.

(** [calculate_distance] never lets the [ValueError] of [float] escape:
    it returns a distance, or raises the [TypeError] of a [None] value, or
    meets a non-finite float. *)
Theorem modified_distance_outcome r p :
  (∃ d, returns (Modified.calculate_distance r p) d) ∨
  raises (Modified.calculate_distance r p) TypeError ∨
  raises (Modified.calculate_distance r p) NonFinite.
Proof. apply (distance_loop_outcome unweighted). Qed.

(** Without weights, the weighted distance of [artist_clustering.py] is
    the distance of [modified_artist_clustering.py]: same diagnostics, same
    exception, equal number. *)
Theorem artist_distance_no_weights r p d :
  returns (Modified.calculate_distance r p) d →
  events (Artist.calculate_distance r p ∅) = events (Modified.calculate_distance r p) ∧
  ∃ d', returns (Artist.calculate_distance r p ∅) d' ∧ d' == d.
Proof.
  intros Hd.
  assert (convertible_on r p) as Hr
    by (apply (proj1 (distance_loop_returns_iff unweighted r 0 p)); by exists d).
  split.
  - rewrite calculate_distance_loop, calculate_distance_loop'.
    by rewrite !distance_loop_events.
  - eexists. split; [by apply (distance_loop_returns (weighted ∅))|].
    pose proof (distance_loop_returns unweighted r 0 p Hr) as Hd'.
    rewrite calculate_distance_loop' in Hd.
    unfold returns in Hd, Hd'. rewrite Hd in Hd'. injection Hd' as ->.
    rewrite !fold_left_Qplus. apply Qplus_comp; [done|].
    apply Qsum_fmap_ext, Forall_forall. intros it _.
    unfold contribution, weighted, unweighted, dict_get.
    rewrite lookup_empty. simpl. destruct (py_float _); lra.
Qed.

End theorems.

(** ** The theorems at the sample records *)

Lemma artist_distance_refines_manhattan_witness :
  profile_wf Profiles.Artist.ideal_artist ∧
  convertible_on artist_messy Profiles.Artist.ideal_artist ∧
  ∃ d, returns (Artist.calculate_distance artist_messy
                  Profiles.Artist.ideal_artist Profiles.Artist.weights) d ∧
       d == manhattan (weighted Profiles.Artist.weights) artist_messy
              Profiles.Artist.ideal_artist.
Proof.
  assert (profile_wf Profiles.Artist.ideal_artist) as Hp by vm_decide.
  assert (convertible_on artist_messy Profiles.Artist.ideal_artist) as Hr
    by vm_decide.
  exact (conj Hp (conj Hr (artist_distance_refines_manhattan _ _ _ Hp Hr))).
Defined.

Lemma modified_distance_refines_manhattan_witness :
  profile_wf Profiles.Artist.ideal_artist ∧
  convertible_on artist_messy Profiles.Artist.ideal_artist ∧
  ∃ d, returns (Modified.calculate_distance artist_messy
                  Profiles.Artist.ideal_artist) d ∧
       d == manhattan unweighted artist_messy Profiles.Artist.ideal_artist.
Proof.
  assert (profile_wf Profiles.Artist.ideal_artist) as Hp by vm_decide.
  assert (convertible_on artist_messy Profiles.Artist.ideal_artist) as Hr
    by vm_decide.
  exact (conj Hp (conj Hr (modified_distance_refines_manhattan _ _ Hp Hr))).
Defined.

Lemma artist_distance_nonneg_witness :
  ∃ d, returns (Artist.calculate_distance artist_messy
                  Profiles.Artist.ideal_artist Profiles.Artist.weights) d ∧
       0 <= d.
Proof.
  eexists. split; [by vm_compute|].
  eapply (artist_distance_nonneg artist_messy Profiles.Artist.ideal_artist
            Profiles.Artist.weights); [vm_decide | vm_decide | by vm_compute].
Defined.

Lemma modified_distance_zero_iff_witness :
  numeric_on artist_ready Profiles.Artist.ideal_artist ∧
  ∃ d, returns (Modified.calculate_distance artist_ready
                  Profiles.Artist.ideal_artist) d ∧ 0 <= d ∧
       (d == 0 ↔ Forall (λ it, counted_value artist_ready it.1 == it.2)
                   Profiles.Artist.ideal_artist).
Proof.
  assert (numeric_on artist_ready Profiles.Artist.ideal_artist) as Hr
    by vm_decide.
  split; [done|].
  apply modified_distance_zero_iff; [vm_decide | done].
Defined.

Lemma artist_distance_zero_iff_witness :
  numeric_on artist_rising Profiles.Artist.ideal_artist ∧
  ∃ d, returns (Artist.calculate_distance artist_rising
                  Profiles.Artist.ideal_artist Profiles.Artist.weights) d ∧
       (d == 0 ↔ Forall (λ it, counted_value artist_rising it.1 == it.2)
                   Profiles.Artist.ideal_artist).
Proof.
  assert (numeric_on artist_rising Profiles.Artist.ideal_artist) as Hr
    by vm_decide.
  split; [done|].
  apply artist_distance_zero_iff; [vm_decide | vm_decide | done].
Defined.

Lemma modified_distance_missing_feature_witness :
  artist_rising !! "TikTok Following" = None ∧
  outcome (Modified.calculate_distance artist_rising Profiles.Artist.ideal_artist)
  = outcome (Modified.calculate_distance
               (<["TikTok Following" := VNum 0]> artist_rising)
               Profiles.Artist.ideal_artist).
Proof.
  split; [reflexivity|].
  apply modified_distance_missing_feature. reflexivity.
Defined.

Lemma modified_distance_rejected_as_zero_witness :
  ∃ d d', returns (Modified.calculate_distance artist_messy
                     Profiles.Artist.ideal_artist) d ∧
          returns (Modified.calculate_distance
                     (<["Number of Songs (Spotify)" := VNum 0]> artist_messy)
                     Profiles.Artist.ideal_artist) d' ∧
          d' == d.
Proof.
  eexists.
  destruct (modified_distance_rejected_as_zero artist_messy
              Profiles.Artist.ideal_artist "Number of Songs (Spotify)" _
              ltac:(vm_decide) eq_refl eq_refl) as (d'&Hd'&Heq).
  exists d'. split_and!; [reflexivity | exact Hd' | exact Heq].
Defined.

Lemma modified_distance_diagnostics_witness :
  events (Modified.calculate_distance artist_messy Profiles.Artist.ideal_artist)
  = [NonNumeric "Number of Songs (Spotify)" artist_messy].
Proof.
  rewrite (modified_distance_diagnostics artist_messy
             Profiles.Artist.ideal_artist ltac:(vm_decide)).
  reflexivity.
Defined.

Lemma modified_distance_raises_on_None_witness :
  raises (Modified.calculate_distance artist_broken Profiles.Artist.ideal_artist)
         TypeError ∧
  events (Modified.calculate_distance artist_broken Profiles.Artist.ideal_artist)
  = [NonNumeric "Number of Songs (Spotify)" artist_broken;
     ErrorProcessing "Spotify Following" TypeError].
Proof.
  destruct (modified_distance_raises_on_None artist_broken
              (take 7 Profiles.Artist.ideal_artist) "Spotify Following" 1000
              (drop 8 Profiles.Artist.ideal_artist)
              ltac:(vm_decide) eq_refl) as [Hraise Hev].
  split; [exact Hraise | etrans; [exact Hev | reflexivity]].
Defined.

Lemma artist_distance_no_weights_witness :
  ∃ d, returns (Modified.calculate_distance artist_messy
                  Profiles.Artist.ideal_artist) d ∧
  events (Artist.calculate_distance artist_messy Profiles.Artist.ideal_artist ∅)
  = events (Modified.calculate_distance artist_messy Profiles.Artist.ideal_artist) ∧
  ∃ d', returns (Artist.calculate_distance artist_messy
                   Profiles.Artist.ideal_artist ∅) d' ∧ d' == d.
Proof.
  eexists. split; [reflexivity|].
  apply artist_distance_no_weights. reflexivity.
Defined.

(** ** [calculate_all_distances] of artist_clustering.py *)

Section all_distances.
Context `{FloatParser}.
Implicit Types (r : row) (p : profile_t) (ws : gmap string Q) (data : list row).

(** The row with its distance to the profile stored. *)
Definition with_distance p ws r : row :=
  <["Distance_to_Ideal" := VNum (distance_value (weighted ws) r p)]> r.

Lemma artist_all_distances_returns data p ws :
  Forall (λ r, convertible_on r p) data →
  returns (Artist.calculate_all_distances data p ws) (with_distance p ws <$> data).
Proof.
  intros Hd. apply mapM_returns_iff, Forall2_fmap_r, Forall_Forall2_diag.
  eapply Forall_impl; [done|]. intros r Hr.
  eapply returns_bind; [by apply (distance_loop_returns (weighted ws))|done].
Qed.

(** On rows that [float] can read, [calculate_all_distances] of
    artist_clustering.py returns the rows in order, each with its weighted
    Manhattan distance to the profile under 'Distance_to_Ideal' and its
    other entries unchanged. *)
Theorem artist_calculate_all_distances_spec data p ws :
  profile_wf p → Forall (λ r, convertible_on r p) data →
  ∃ data', returns (Artist.calculate_all_distances data p ws) data' ∧
    Forall2 (λ r r', ∃ d, d == manhattan (weighted ws) r p ∧
                          r' = <["Distance_to_Ideal" := VNum d]> r) data data'.
Proof.
  intros [_ Hv] Hd. eexists. split; [by apply artist_all_distances_returns|].
  apply Forall2_fmap_r, Forall_Forall2_diag, Forall_forall. intros r _.
  exists (distance_value (weighted ws) r p).
  split; [|done]. apply distance_value_manhattan; [apply _ | done].
Qed.

End all_distances.

Lemma artist_calculate_all_distances_spec_witness :
  ∃ data', returns (Artist.calculate_all_distances sample_data
                      Profiles.Artist.ideal_artist Profiles.Artist.weights) data' ∧
    Forall2 (λ r r', ∃ d,
               d == manhattan (weighted Profiles.Artist.weights) r
                      Profiles.Artist.ideal_artist ∧
               r' = <["Distance_to_Ideal" := VNum d]> r) sample_data data'.
Proof.
  apply (artist_calculate_all_distances_spec sample_data); vm_decide.
Defined.
