(* ===== verification/Rows.v ===== *)
(** * Rows up to the equality of rationals

    The model keeps numbers as exact rationals, and a number has many
    fractions: the decimal parser reads ["2.50"] as 250/100 where a caller
    may hold 5/2.  Two rows are equivalent ([≡]) when they have the same
    keys, the same strings and equal numbers; two computations agree
    ([agree]) when they print the same diagnostics about equivalent rows and
    end with the same exception or with equal numbers.

    The file shows that [float] and [calculate_distance] of both scripts
    respect the equivalence: a distance does not depend on the fraction
    that stands for a number. *)

From Stdlib Require Import QArith Qabs Lqa String.
From stdpp Require Import base option list gmap strings.
From S2P Require Import Prelude PyValue Profiles Samples Distance.

#[local] Open Scope py_scope.

(** The same exception, or equal numbers. *)
Definition same_outcome : relation (exn + Q) := sum_relation (=) Qeq.

(** The same diagnostic, about equivalent rows. *)
Definition same_event (ev ev' : event) : Prop :=
  match ev, ev' with
  | NonNumeric f r, NonNumeric f' r' => f = f' ∧ r ≡ r'
  | ErrorProcessing f e, ErrorProcessing f' e' => f = f' ∧ e = e'
  | _, _ => False
  end.

(** Two computations print the same and end the same. *)
Definition agree (m m' : M event Q) : Prop :=
  Forall2 same_event (events m) (events m') ∧ same_outcome (outcome m) (outcome m').

#[export] Instance same_outcome_equivalence : Equivalence same_outcome.
Proof. unfold same_outcome. apply _. Qed.

#[export] Instance same_event_equivalence : Equivalence same_event.
Proof.
  split.
  - by intros [].
  - intros [] []; cbn; naive_solver.
  - intros [] [] []; cbn; try naive_solver. intros [-> ?] [-> ?]. split; [done|by etrans].
Qed.

#[export] Instance agree_equivalence : Equivalence agree.
Proof.
  split.
  - by intros m.
  - by intros m m' [??].
  - intros m1 m2 m3 [??] [??]. split; by etrans.
Qed.

(** * [dict.get] and [float] *)

Section values.
Context `{FloatParser}.
Implicit Types (r : row) (v w : value).

#[export] Instance dict_get_proper (f : string) :
  Proper ((≡) ==> (≡) ==> (≡)) (λ r v, dict_get r f v).
Proof.
  intros r r' Hr v w Hv. unfold dict_get.
  specialize (Hr f). by destruct Hr.
Qed.

#[export] Instance py_float_proper : Proper ((≡) ==> same_outcome) py_float.
Proof.
  intros [p|s|] [q|t|] Hv; try done; cbn in *.
  - by constructor.
  - by subst.
Qed.

(** What [float] gives to a feature of equivalent rows. *)
Lemma counted_outcome r r' f :
  r ≡ r' →
  same_outcome (py_float (dict_get r f (VNum 0))) (py_float (dict_get r' f (VNum 0))).
Proof. intros Hr. apply py_float_proper. by apply (dict_get_proper f). Qed.

End values.

(** * The loop of [calculate_distance] *)

Section loop.
Context `{FloatParser} (scale : string → Q → Q).
Context (scale_proper : ∀ f, Proper (Qeq ==> Qeq) (scale f)).
Implicit Types (r : row) (d : Q) (p : profile_t).

Lemma agree_cons ev ev' (m m' : M event Q) :
  same_event ev ev' → agree m m' →
  agree (ev :: events m, outcome m) (ev' :: events m', outcome m').
Proof. intros Hev [??]. split; [by constructor | done]. Qed.

(** On equivalent rows, from equal numbers, the loop prints the same and
    ends the same. *)
Lemma distance_loop_agree r r' d d' p :
  r ≡ r' → d == d' →
  agree (distance_loop scale r d p) (distance_loop scale r' d' p).
Proof using scale_proper.
  intros Hr. revert d d'. induction p as [|[f v] p IH]; intros d d' Hd.
  { split; [constructor | by constructor]. }
  pose proof (counted_outcome r r' f Hr) as Hx.
  destruct (py_float (dict_get r f (VNum 0))) as [e|x] eqn:E,
    (py_float (dict_get r' f (VNum 0))) as [e'|x'] eqn:E';
    [|by inversion Hx..|].
  - assert (e' = e) as -> by by inversion Hx.
    destruct (decide (e = ValueError)) as [->|He].
    + rewrite !distance_loop_rejected by done.
      apply agree_cons; [done|]. apply IH. by rewrite Hd.
    + rewrite !(distance_loop_error _ _ _ _ _ _ e) by done.
      split; [by repeat constructor | by constructor].
  - assert (x == x') as Hxx' by by inversion Hx.
    rewrite (distance_loop_num _ r d f v p x), (distance_loop_num _ r' d' f v p x')
      by done.
    apply IH. by rewrite Hd, Hxx'.
Qed.

End loop.

(** * [calculate_distance] *)

Section distances.
Context `{FloatParser}.

#[export] Instance modified_calculate_distance_proper :
  Proper ((≡) ==> (=) ==> agree) Modified.calculate_distance.
Proof.
  intros r r' Hr p ? <-. rewrite !calculate_distance_loop'.
  by apply distance_loop_agree; [apply _ | |].
Qed.

#[export] Instance artist_calculate_distance_proper :
  Proper ((≡) ==> (=) ==> (=) ==> agree) Artist.calculate_distance.
Proof.
  intros r r' Hr p ? <- ws ? <-. rewrite !calculate_distance_loop.
  by apply distance_loop_agree; [apply _ | |].
Qed.

(** [calculate_distance] of modified_artist_clustering.py cannot tell
    apart two rows with the same keys, the same strings and equal numbers:
    it prints the same diagnostics and ends with the same exception or with
    equal distances. *)
Theorem modified_distance_respects_rows (r r' : row) p :
  r ≡ r' → agree (Modified.calculate_distance r p) (Modified.calculate_distance r' p).
Proof. intros Hr. by apply modified_calculate_distance_proper. Qed.

(** [calculate_distance] of artist_clustering.py cannot tell apart two
    rows with the same keys, the same strings and equal numbers. *)
Theorem artist_distance_respects_rows (r r' : row) p ws :
  r ≡ r' →
  agree (Artist.calculate_distance r p ws) (Artist.calculate_distance r' p ws).
Proof. intros Hr. by apply artist_calculate_distance_proper. Qed.

End distances.

(** * The theorems at sample rows *)

(** [artist_rising] with its numbers as other fractions. *)
Definition artist_rising_unreduced : row :=
  <["Number of Songs (Spotify)" := VNum (4 # 2)]>
    (<["Fan Retention Rate (Spotify)" := VNum (50 # 10)]> artist_rising).

Lemma artist_rising_equiv : artist_rising ≡ artist_rising_unreduced.
Proof.
  intros k. unfold artist_rising_unreduced.
  destruct (decide (k = "Number of Songs (Spotify)")) as [->|?];
    [rewrite lookup_insert_eq; by repeat constructor|].
  rewrite lookup_insert_ne by done.
  destruct (decide (k = "Fan Retention Rate (Spotify)")) as [->|?];
    [rewrite lookup_insert_eq; by repeat constructor|].
  by rewrite lookup_insert_ne.
Qed.

Lemma modified_distance_respects_rows_witness :
  agree (Modified.calculate_distance (H:=decimal_parser) artist_rising
           Profiles.Artist.ideal_artist)
        (Modified.calculate_distance (H:=decimal_parser) artist_rising_unreduced
           Profiles.Artist.ideal_artist).
Proof.
  apply (modified_distance_respects_rows (H:=decimal_parser)
           artist_rising artist_rising_unreduced Profiles.Artist.ideal_artist).
  exact artist_rising_equiv.
Defined.

Lemma artist_distance_respects_rows_witness :
  agree (Artist.calculate_distance (H:=decimal_parser) artist_rising
           Profiles.Artist.ideal_artist Profiles.Artist.weights)
        (Artist.calculate_distance (H:=decimal_parser) artist_rising_unreduced
           Profiles.Artist.ideal_artist Profiles.Artist.weights).
Proof.
  apply (artist_distance_respects_rows (H:=decimal_parser)
           artist_rising artist_rising_unreduced Profiles.Artist.ideal_artist
           Profiles.Artist.weights).
  exact artist_rising_equiv.
Defined.
