(* ===== verification/Normalize.v ===== *)
(** * The distance normaliser

    [normalize_distances] and [calculate_all_distances] of
    [modified_artist_clustering.py] (lines 84-98).

    [calculate_all_distances] stores, for every row and every cluster of
    [profiles], the distance of the row to the cluster's profile under the
    key ['Distance_to_<cluster>'], then calls [normalize_distances], which
    for every cluster collects the column [row[key]] over the rows, takes
    its [max] (1 for an empty list of rows) and divides every entry of the
    column by it.

    The script guards the division only against the empty list: a column
    whose maximum is 0 makes the division raise [ZeroDivisionError].
    Section [column] holds the lemmas on one column: success on numbers with
    a non-zero maximum, the quotient stored in every row, the bounds of the
    quotients, the error cases. *)

From Stdlib Require Import QArith Qabs Lqa String.
From stdpp Require Import base option list gmap strings.
From S2P Require Import Prelude PyValue Profiles Samples Distance.

(** ** The functions of the script *)

(** [f'Distance_to_{cluster_name}'] *)
Definition distance_key (cluster_name : string) : string :=
  "Distance_to_" +:+ cluster_name.

(** The body of the loop of [normalize_distances] for one cluster. *)
Definition normalize_column (data : list row) (cluster_name : string)
    : M event (list row) :=
  distances <- mapM (λ row, lift (dict_item row (distance_key cluster_name))) data ;;
  max_distance <- lift (match distances with
                        | [] => inr (VNum 1)
                        | _ => py_max distances
                        end) ;;
  mapM (λ row,
    v <- lift (dict_item row (distance_key cluster_name)) ;;
    q <- lift (value_div v max_distance) ;;
    ret (<[distance_key cluster_name := q]> row)) data.

Definition normalize_distances
    (data : list row) (profiles : list (string * Profiles.Modified.cluster_data))
    : M event (list row) :=
  foldM normalize_column data (Profiles.Modified.cluster_names profiles).

Section defs.
Context `{FloatParser}.

(** The inner loop of [calculate_all_distances]: the distances of one row. *)
Definition store_distances
    (row : row) (profiles : list (string * Profiles.Modified.cluster_data))
    : M event (gmap string value) :=
  foldM (λ row '(cluster_name, cluster_data),
    let profile := Profiles.Modified.profile cluster_data in
    d <- Distance.Modified.calculate_distance row profile ;;
    ret (<[distance_key cluster_name := VNum d]> row)) row profiles.

Definition calculate_all_distances
    (data : list row) (profiles : list (string * Profiles.Modified.cluster_data))
    : M event (list row) :=
  data <- mapM (λ row, store_distances row profiles) data ;;
  data <- normalize_distances data profiles ;;
  ret data.

End defs.

(** ** The specification of a column *)

(** The number a row stores under the key of a cluster. *)
Definition cell (c : string) (r : row) : option Q :=
  match r !! distance_key c with
  | Some (VNum q) => Some q
  | _ => None
  end.

(** Every row stores a number under the key of the cluster. *)
Definition numeric_column (data : list row) (c : string) : Prop :=
  Forall (λ r, is_Some (cell c r)) data.

(** The column of a cluster: the numbers stored under its key. *)
Definition column (data : list row) (c : string) : list Q :=
  omap (cell c) data.

(** The divisor [normalize_distances] uses for a column of numbers. *)
Definition divisor (col : list Q) : Q :=
  match col with
  | [] => 1
  | x :: col' => max_from x col'
  end.

(** The row after the division of its entry for cluster [c] by [m]. *)
Definition scale_row (c : string) (m : Q) (r : row) : row :=
  match cell c r with
  | Some q => <[distance_key c := VNum (q / m)]> r
  | None => r
  end.

(** The data after a successful pass over the column of [c]. *)
Definition normalized (data : list row) (c : string) : list row :=
  scale_row c (divisor (column data c)) <$> data.

(** ** Lemmas on one column *)

Section column.
Implicit Types (data : list row) (c : string) (r : row) (m q : Q).

Lemma cell_Some c r q : cell c r = Some q ↔ r !! distance_key c = Some (VNum q).
Proof.
  unfold cell. destruct (r !! distance_key c) as [[]|]; naive_solver.
Qed.

Lemma column_numeric data c :
  numeric_column data c → VNum <$> column data c = (λ r, default VNone (r !! distance_key c)) <$> data.
Proof.
  induction 1 as [|r data [q Hq] _ IH]; [done|].
  unfold column in *. cbn [omap list_omap fmap list_fmap]. rewrite Hq.
  cbn [fmap list_fmap]. rewrite IH. f_equal.
  apply cell_Some in Hq. by rewrite Hq.
Qed.

Lemma column_length data c :
  numeric_column data c → length (column data c) = length data.
Proof.
  intros Hd. rewrite <- (length_fmap VNum), column_numeric by done.
  by rewrite length_fmap.
Qed.

(** Reading the column succeeds on a numeric column. *)
Lemma read_column data c :
  numeric_column data c →
  mapM (E:=event) (λ row : row, lift (dict_item row (distance_key c))) data
  = ret (VNum <$> column data c).
Proof.
  intros Hd. rewrite column_numeric by done. apply mapM_pure.
  eapply Forall_impl; [done|]. intros r [q Hq%cell_Some].
  unfold dict_item. by rewrite Hq.
Qed.

(** The maximum of a numeric column is its divisor. *)
Lemma max_column (col : list Q) :
  match VNum <$> col with [] => inr (VNum 1) | _ => py_max (VNum <$> col) end
  = inr (VNum (divisor col)).
Proof. destruct col as [|x col]; [done|]. apply py_max_num. Qed.

(** A pass over a numeric column with a non-zero maximum returns the rows
    with their entries divided by the maximum, and prints nothing. *)
Lemma normalize_column_ok data c :
  numeric_column data c → ¬ divisor (column data c) == 0 →
  normalize_column data c = ret (normalized data c).
Proof.
  intros Hd Hm. unfold normalize_column.
  rewrite read_column, bind_ret_l, max_column by done.
  rewrite bind_lift_inr. apply mapM_pure.
  eapply Forall_impl; [done|]. intros r [q Hq].
  unfold scale_row. rewrite Hq. apply cell_Some in Hq.
  unfold dict_item. rewrite Hq. rewrite bind_lift_inr. simpl value_div.
  by rewrite py_div_ok, bind_lift_inr.
Qed.

(** A pass over a non-empty numeric column whose maximum is zero raises
    [ZeroDivisionError]. *)
Lemma normalize_column_zero data c :
  numeric_column data c → data ≠ [] → divisor (column data c) == 0 →
  normalize_column data c = raise ZeroDivisionError.
Proof.
  intros Hd Hne Hm. unfold normalize_column.
  rewrite read_column, bind_ret_l, max_column by done.
  rewrite bind_lift_inr.
  destruct Hd as [|r data [q Hq] _]; [done|].
  apply (mapM_pure_raise _ id []); [constructor|].
  apply cell_Some in Hq. unfold dict_item. rewrite Hq, bind_lift_inr.
  simpl value_div. by rewrite py_div_zero.
Qed.

(** A row without the key of the cluster makes the pass raise [KeyError]. *)
Lemma normalize_column_KeyError data1 r data2 c :
  numeric_column data1 c → r !! distance_key c = None →
  normalize_column (data1 ++ r :: data2) c = raise KeyError.
Proof.
  intros Hd Hr. unfold normalize_column.
  rewrite (mapM_pure_raise _ (λ r, default VNone (r !! distance_key c)) _ _ _ KeyError).
  - done.
  - eapply Forall_impl; [done|]. intros r' [q Hq%cell_Some].
    unfold dict_item. by rewrite Hq.
  - unfold dict_item. by rewrite Hr.
Qed.

(** A column in which every row has an entry, and some entry is not a
    number, makes the pass raise [TypeError]: in [max] when the entries are
    of mixed types, in the division otherwise. *)
Lemma normalize_column_TypeError data c :
  Forall (λ r, is_Some (r !! distance_key c)) data → ¬ numeric_column data c →
  raises (normalize_column data c) TypeError.
Proof.
  intros Hkey Hnum. unfold normalize_column.
  rewrite (mapM_pure _ (λ r, default VNone (r !! distance_key c)));
    [|eapply Forall_impl; [done|]; intros r [v Hv]; unfold dict_item; by rewrite Hv].
  rewrite bind_ret_l.
  destruct data as [|r0 data]; [by destruct Hnum; constructor|].
  cbn [fmap list_fmap py_max].
  destruct (max_loop _ _) as [e|mx] eqn:Hmax.
  { apply max_loop_exn in Hmax as ->. by rewrite bind_lift_inl. }
  rewrite bind_lift_inr. cbn [mapM]. apply raises_bind_l, raises_bind_r with (a := default VNone (r0 !! distance_key c)).
  { apply Forall_cons in Hkey as [[v Hv] _]. unfold dict_item. by rewrite Hv. }
  destruct mx as [q|s|]; [|by destruct (default _ _)..].
  destruct Hnum. apply max_loop_VNum in Hmax as [[q0 Hq0] Hall].
  apply Forall_cons in Hkey as [[v0 Hv0] Hkey]. rewrite Hv0 in Hq0. simpl in Hq0.
  constructor; [exists q0; apply cell_Some; by subst|].
  apply Forall_forall. intros r Hr.
  rewrite Forall_forall in Hkey. destruct (Hkey r Hr) as [v Hv].
  rewrite Forall_forall in Hall.
  destruct (Hall _ (list_elem_of_fmap_2 _ _ _ Hr)) as [q' Hq'].
  rewrite Hv in Hq'. simpl in Hq'. exists q'. apply cell_Some. by subst.
Qed.

Lemma distance_key_inj : Inj (=) (=) distance_key.
Proof. intros c c'. unfold distance_key. cbv [String.app]. by intros [= ->]. Qed.

Lemma scale_row_other c m r k :
  k ≠ distance_key c → scale_row c m r !! k = r !! k.
Proof.
  intros Hk. unfold scale_row. destruct (cell c r); [|done].
  by rewrite lookup_insert_ne.
Qed.

Lemma scale_row_cell c m r q :
  cell c r = Some q → cell c (scale_row c m r) = Some (q / m).
Proof.
  intros Hq. unfold scale_row. rewrite Hq. apply cell_Some.
  by rewrite lookup_insert_eq.
Qed.

Lemma scale_row_cell_other c c' m r :
  c ≠ c' → cell c' (scale_row c m r) = cell c' r.
Proof.
  intros Hc. unfold cell. rewrite scale_row_other; [done|].
  by intros ?%distance_key_inj.
Qed.

Lemma normalized_lookup data c i r :
  data !! i = Some r →
  normalized data c !! i = Some (scale_row c (divisor (column data c)) r).
Proof. intros Hi. unfold normalized. by rewrite list_lookup_fmap, Hi. Qed.

(** The column after the pass: every number divided by the maximum. *)
Lemma column_normalized data c :
  column (normalized data c) c
  = (λ q, q / divisor (column data c)) <$> column data c.
Proof.
  unfold normalized. generalize (divisor (column data c)). intros m.
  unfold column. induction data as [|r data IH]; [done|].
  cbn [fmap list_fmap omap list_omap]. destruct (cell c r) as [q|] eqn:Hq.
  - rewrite (scale_row_cell _ _ _ _ Hq). cbn. by rewrite <- IH.
  - unfold scale_row at 1. by rewrite Hq, Hq.
Qed.

(** The other columns are left as they were. *)
Lemma column_normalized_other data c c' :
  c ≠ c' → column (normalized data c) c' = column data c'.
Proof.
  intros Hc. unfold normalized. generalize (divisor (column data c)). intros m.
  unfold column. induction data as [|r data IH]; [done|].
  cbn [fmap list_fmap omap list_omap]. by rewrite scale_row_cell_other, IH.
Qed.

Lemma numeric_column_normalized data c c' :
  numeric_column data c' → numeric_column (normalized data c) c'.
Proof.
  intros Hd. apply Forall_fmap. eapply Forall_impl; [done|].
  intros r [q Hq]. simpl. destruct (decide (c = c')) as [->|Hc].
  - rewrite (scale_row_cell _ _ _ _ Hq). eauto.
  - rewrite scale_row_cell_other by done. eauto.
Qed.

(** ** Bounds *)

Lemma divisor_pos (col : list Q) :
  Forall (λ q, 0 <= q) col → ¬ divisor col == 0 → 0 < divisor col.
Proof.
  destruct col as [|x col]; simpl; [lra|]. intros [Hx _]%Forall_cons Hm.
  destruct (max_from_ge x col) as [Hge _]. lra.
Qed.

Lemma divisor_ge (col : list Q) : Forall (λ q, q <= divisor col) col.
Proof.
  destruct col as [|x col]; [constructor|]. simpl.
  destruct (max_from_ge x col). by constructor.
Qed.

Lemma divisor_all_zero (col : list Q) :
  col ≠ [] → Forall (λ q, q == 0) col → divisor col == 0.
Proof.
  destruct col as [|x col]; [done|]. intros _ Hz.
  rewrite Forall_forall in Hz. apply Hz, max_from_elem.
Qed.

Lemma divisor_div (col : list Q) d :
  0 < d → col ≠ [] → divisor ((λ q, q / d) <$> col) = divisor col / d.
Proof. intros Hd Hne. destruct col as [|x col]; [done|]. by apply max_from_div. Qed.

(** After the pass over a column of non-negative numbers with a non-zero
    maximum, every number of the column lies between 0 and 1. *)
Lemma column_normalized_bounds data c :
  Forall (λ q, 0 <= q) (column data c) → ¬ divisor (column data c) == 0 →
  Forall (λ q, 0 <= q ∧ q <= 1) (column (normalized data c) c).
Proof.
  intros Hnn Hm. pose proof (divisor_pos _ Hnn Hm) as Hpos.
  rewrite column_normalized. apply Forall_fmap.
  pose proof (divisor_ge (column data c)) as Hge.
  eapply Forall_impl; [apply Forall_and; split; [exact Hnn | exact Hge]|].
  intros q [? ?]. simpl. split.
  - apply Qle_shift_div_l; [done|lra].
  - apply Qle_shift_div_r; [done|lra].
Qed.

(** ... and the maximum of the column is 1. *)
Lemma column_normalized_max data c :
  Forall (λ q, 0 <= q) (column data c) → ¬ divisor (column data c) == 0 →
  data ≠ [] → numeric_column data c →
  divisor (column (normalized data c) c) == 1.
Proof.
  intros Hnn Hm Hne Hd. pose proof (divisor_pos _ Hnn Hm) as Hpos.
  rewrite column_normalized, divisor_div; [|done|].
  - by field.
  - intros Hcol%(f_equal length). rewrite column_length in Hcol by done.
    by destruct data.
Qed.

End column.

(** ** All columns *)

(** The data after successful passes over the columns of [names], in order. *)
Definition normalized_all (data : list row) (names : list string) : list row :=
  foldl normalized data names.

(** Every column of [names] holds numbers whose maximum is not zero. *)
Definition normalizable (data : list row) (names : list string) : Prop :=
  Forall (λ c, numeric_column data c ∧ ¬ divisor (column data c) == 0) names.

Section columns.
Implicit Types (data : list row) (c : string) (names : list string).

Lemma normalizable_normalized data c names :
  c ∉ names → normalizable data names → normalizable (normalized data c) names.
Proof.
  unfold normalizable. rewrite !Forall_forall. intros Hc Hn c' Hc'.
  assert (c ≠ c') by (by intros ->). destruct (Hn c' Hc') as [? ?].
  rewrite column_normalized_other by done.
  split; [by apply numeric_column_normalized | done].
Qed.

(** On normalisable data the passes succeed and print nothing. *)
Lemma foldM_normalize_ok data names :
  NoDup names → normalizable data names →
  foldM (E:=event) normalize_column data names = ret (normalized_all data names).
Proof.
  intros Hnd. revert data.
  induction Hnd as [|c names Hc _ IH]; intros data Hn; [done|].
  apply Forall_cons in Hn as [[? ?] Hn]. cbn [foldM].
  rewrite normalize_column_ok, bind_ret_l by done.
  by apply IH, normalizable_normalized.
Qed.

Lemma normalized_all_length data names :
  length (normalized_all data names) = length data.
Proof.
  revert data. induction names as [|c names IH]; intros data; [done|].
  cbn [normalized_all foldl]. fold (normalized_all (normalized data c) names).
  rewrite IH. apply length_fmap.
Qed.

Lemma numeric_column_normalized_all data names c :
  numeric_column data c → numeric_column (normalized_all data names) c.
Proof.
  revert data. induction names as [|c' names IH]; intros data Hd; [done|].
  by apply IH, numeric_column_normalized.
Qed.

(** The passes leave alone the columns of the other clusters ... *)
Lemma column_normalized_all_other data names c :
  c ∉ names → column (normalized_all data names) c = column data c.
Proof.
  revert data. induction names as [|c' names IH]; intros data Hc; [done|].
  apply not_elem_of_cons in Hc as [? ?]. cbn [normalized_all foldl].
  fold (normalized_all (normalized data c') names).
  by rewrite IH, column_normalized_other.
Qed.

(** ... and divide the column of each cluster of [names] by its maximum. *)
Lemma column_normalized_all data names c :
  NoDup names → c ∈ names →
  column (normalized_all data names) c
  = (λ q, q / divisor (column data c)) <$> column data c.
Proof.
  intros Hnd. revert data.
  induction Hnd as [|c' names Hc' _ IH]; intros data Hc; [by inversion Hc|].
  cbn [normalized_all foldl]. fold (normalized_all (normalized data c') names).
  apply elem_of_cons in Hc as [->|Hc].
  - by rewrite column_normalized_all_other, column_normalized.
  - assert (c' ≠ c) by (by intros ->).
    by rewrite IH, column_normalized_other.
Qed.

(** The first column whose maximum is zero stops the passes with
    [ZeroDivisionError]. *)
Lemma foldM_normalize_zero data names1 c names2 :
  NoDup (names1 ++ [c]) → normalizable data names1 →
  numeric_column data c → data ≠ [] → divisor (column data c) == 0 →
  foldM (E:=event) normalize_column data (names1 ++ c :: names2)
  = raise ZeroDivisionError.
Proof.
  intros [Hnd [Hc _]]%NoDup_app Hn Hd Hne Hz.
  assert (c ∉ names1) as Hc' by (intros ?; eapply Hc; [done|set_solver]).
  rewrite foldM_app, foldM_normalize_ok, bind_ret_l by done. cbn [foldM].
  rewrite normalize_column_zero; [done|..].
  - by apply numeric_column_normalized_all.
  - intros Hl%(f_equal length). rewrite normalized_all_length in Hl.
    by destruct data.
  - by rewrite column_normalized_all_other.
Qed.

End columns.

(** ** The distances of a row *)

Section store.
Context `{FloatParser}.
Implicit Types (r : row) (ps : list (string * Profiles.Modified.cluster_data)).

(** The distance of a row to the profile of a cluster, as
    [calculate_distance] returns it. *)
Definition dist (r : row) (cd : Profiles.Modified.cluster_data) : Q :=
  distance_value unweighted r (Profiles.Modified.profile cd).

(** The row with the distances of [r] stored under the keys of [ps]. *)
Definition stored_from (r : row) (row' : row) ps : row :=
  foldl (λ row c, <[distance_key c.1 := VNum (dist r c.2)]> row) row' ps.

Definition stored (r : row) ps : row := stored_from r r ps.

(** No feature of a profile is named like a distance column. *)
Definition keys_apart ps : Prop :=
  Forall (λ c, Forall (λ c', distance_key c'.1 ∉ features (Profiles.Modified.profile c.2)) ps) ps.

(** [float] accepts or rejects every feature value of the row, for every
    profile. *)
Definition convertible_row (r : row) ps : Prop :=
  Forall (λ c, convertible_on r (Profiles.Modified.profile c.2)) ps.

#[export] Instance keys_apart_dec ps : Decision (keys_apart ps).
Proof. unfold keys_apart. apply _. Defined.

#[export] Instance convertible_row_dec r ps : Decision (convertible_row r ps).
Proof. unfold convertible_row. apply _. Defined.

(** Two rows that agree on all features of all profiles. *)
Definition agree_on ps (r row' : row) : Prop :=
  Forall (λ c, Forall (λ it : string * Q, row' !! it.1 = r !! it.1)
                 (Profiles.Modified.profile c.2)) ps.

Lemma agree_on_float ps r row' c :
  agree_on ps r row' → c ∈ ps →
  Forall (λ it, py_float (dict_get r it.1 (VNum 0))
                = py_float (dict_get row' it.1 (VNum 0)))
         (Profiles.Modified.profile c.2).
Proof.
  unfold agree_on. rewrite Forall_forall. intros Ha Hc.
  eapply Forall_impl; [by apply Ha|]. intros it Hit. unfold dict_get.
  by rewrite Hit.
Qed.

Lemma agree_on_insert ps r row' c d :
  keys_apart ps → c ∈ ps → agree_on ps r row' →
  agree_on ps r (<[distance_key c.1 := d]> row').
Proof.
  unfold keys_apart, agree_on. rewrite !Forall_forall. intros Hk Hc Ha c' Hc'.
  specialize (Hk c' Hc'). rewrite Forall_forall in Hk. specialize (Hk c Hc).
  specialize (Ha c' Hc'). rewrite Forall_forall in Ha |- *. intros it Hit.
  rewrite lookup_insert_ne; [by apply Ha|].
  intros Heq. apply Hk. rewrite Heq. unfold features.
  by apply list_elem_of_fmap_2.
Qed.

(** The inner loop stores the distances of the row it started from: the
    keys it writes are not read by the later distance computations. *)
Lemma store_from_returns ps0 r row' ps :
  ps ⊆ ps0 → keys_apart ps0 → convertible_row r ps0 → agree_on ps0 r row' →
  returns (store_distances row' ps) (stored_from r row' ps).
Proof.
  intros Hsub Hk Hr. revert row' Hsub.
  induction ps as [|[c cd] ps IH]; intros row' Hsub Ha; [done|].
  assert ((c, cd) ∈ ps0) as Hc by set_solver.
  unfold store_distances. cbn [foldM]. eapply returns_bind.
  - eapply returns_bind; [|apply returns_ret].
    rewrite calculate_distance_loop'. apply distance_loop_returns.
    apply (convertible_on_ext r); [by apply (agree_on_float ps0 _ _ (c, cd))|].
    unfold convertible_row in Hr. rewrite Forall_forall in Hr.
    by apply (Hr (c, cd)).
  - fold (distance_value unweighted row' (Profiles.Modified.profile cd)).
    rewrite <- (distance_value_ext unweighted r row')
      by by apply (agree_on_float ps0 _ _ (c, cd)).
    apply IH; [set_solver|]. by apply (agree_on_insert ps0 r row' (c, cd)).
Qed.

Lemma agree_on_refl ps r : agree_on ps r r.
Proof. apply Forall_forall. intros c _. by apply Forall_forall. Qed.

Lemma store_distances_returns r ps :
  keys_apart ps → convertible_row r ps →
  returns (store_distances r ps) (stored r ps).
Proof.
  intros Hk Hr. unfold stored.
  assert (ps ⊆ ps) as Hsub by reflexivity.
  exact (store_from_returns ps r r ps Hsub Hk Hr (agree_on_refl ps r)).
Qed.

(** The keys written by the inner loop. *)
Definition distance_keys ps : list string :=
  distance_key <$> Profiles.Modified.cluster_names ps.

Lemma stored_from_cons r row' c ps :
  stored_from r row' (c :: ps)
  = stored_from r (<[distance_key c.1 := VNum (dist r c.2)]> row') ps.
Proof. reflexivity. Qed.

Lemma stored_from_other r row' ps k :
  k ∉ distance_keys ps → stored_from r row' ps !! k = row' !! k.
Proof.
  revert row'. induction ps as [|[c cd] ps IH]; intros row' Hk; [done|].
  apply not_elem_of_cons in Hk as [? ?]. rewrite stored_from_cons.
  rewrite IH by done. by rewrite lookup_insert_ne.
Qed.

Lemma stored_from_key r row' ps c cd :
  NoDup (Profiles.Modified.cluster_names ps) → (c, cd) ∈ ps →
  stored_from r row' ps !! distance_key c = Some (VNum (dist r cd)).
Proof.
  revert row'. induction ps as [|[c1 cd1] ps IH]; intros row' Hnd Hc.
  { by inversion Hc. }
  apply NoDup_cons in Hnd as [Hc1 Hnd]. rewrite stored_from_cons.
  apply elem_of_cons in Hc as [[= <- <-]|Hc]; [|by apply IH].
  rewrite stored_from_other, lookup_insert_eq; [done|].
  unfold distance_keys. intros (c'&?%distance_key_inj&?)%list_elem_of_fmap.
  by subst.
Qed.

Lemma stored_cell r ps c cd :
  NoDup (Profiles.Modified.cluster_names ps) → (c, cd) ∈ ps →
  cell c (stored r ps) = Some (dist r cd).
Proof.
  intros Hnd Hc. apply cell_Some. unfold stored.
  exact (stored_from_key r r ps c cd Hnd Hc).
Qed.

(** The column of a cluster after the distances have been stored. *)
Lemma column_stored data ps c cd :
  NoDup (Profiles.Modified.cluster_names ps) → (c, cd) ∈ ps →
  column ((λ r, stored r ps) <$> data) c = (λ r, dist r cd) <$> data.
Proof.
  intros Hnd Hc. unfold column. induction data as [|r data IH]; [done|].
  cbn [fmap list_fmap omap list_omap]. rewrite (stored_cell _ _ _ cd) by done.
  cbn. by rewrite <- IH.
Qed.

Lemma numeric_column_stored data ps c cd :
  NoDup (Profiles.Modified.cluster_names ps) → (c, cd) ∈ ps →
  numeric_column ((λ r, stored r ps) <$> data) c.
Proof.
  intros Hnd Hc. apply Forall_fmap, Forall_forall. intros r _. simpl.
  rewrite (stored_cell _ _ _ cd) by done. eauto.
Qed.

(** Storing the distances of every row succeeds on convertible rows. *)
Lemma store_all_returns data ps :
  keys_apart ps → Forall (λ r, convertible_row r ps) data →
  returns (mapM (λ row, store_distances row ps) data)
          ((λ r, stored r ps) <$> data).
Proof.
  intros Hk Hd. apply mapM_returns_iff, Forall2_fmap_r, Forall_Forall2_diag.
  eapply Forall_impl; [done|]. intros r Hr. by apply store_distances_returns.
Qed.

(** The columns are normalisable when no column of distances has maximum
    zero. *)
Lemma normalizable_stored data ps :
  NoDup (Profiles.Modified.cluster_names ps) →
  Forall (λ c, ¬ divisor ((λ r, dist r c.2) <$> data) == 0) ps →
  normalizable ((λ r, stored r ps) <$> data) (Profiles.Modified.cluster_names ps).
Proof.
  intros Hnd Hz. unfold normalizable, Profiles.Modified.cluster_names.
  apply Forall_fmap, Forall_forall. intros [c cd] Hc. simpl.
  rewrite (column_stored _ _ _ cd) by done.
  split; [by apply (numeric_column_stored _ _ _ cd)|].
  rewrite Forall_forall in Hz. by apply (Hz (c, cd)).
Qed.

End store.

(** ** Rows of the result *)

Section rows.
Implicit Types (data : list row) (c : string) (names : list string).

Lemma cell_column data c i r :
  numeric_column data c → data !! i = Some r →
  column data c !! i = cell c r.
Proof.
  intros Hd. revert i. induction Hd as [|r0 data [q Hq] _ IH]; intros i; [done|].
  unfold column. cbn [omap list_omap]. rewrite Hq.
  destruct i as [|i]; simpl; [by intros [= <-]|]. apply IH.
Qed.

(** The passes keep every row in place and change it only under the keys
    of the clusters of [names]. *)
Lemma normalized_all_lookup data names i r :
  data !! i = Some r →
  ∃ r', normalized_all data names !! i = Some r' ∧
        ∀ k, k ∉ distance_key <$> names → r' !! k = r !! k.
Proof.
  revert data r. induction names as [|c names IH]; intros data r Hi.
  { exists r. by split. }
  destruct (IH (normalized data c) _ (normalized_lookup _ c _ _ Hi))
    as (r'&Hr'&Hk).
  exists r'. split; [done|]. intros k [? ?]%not_elem_of_cons.
  rewrite Hk by done. by apply scale_row_other.
Qed.

End rows.

(** ** Theorems on [normalize_distances] and [calculate_all_distances] *)

(** C27: [normalize_distances] on columns of non-negative numbers whose
    maxima are not zero returns, prints nothing, keeps the number of rows,
    and leaves in every column numbers between 0 and 1 with maximum 1. *)
Theorem normalize_distances_bounds data ps :
  NoDup (Profiles.Modified.cluster_names ps) → data ≠ [] →
  normalizable data (Profiles.Modified.cluster_names ps) →
  Forall (λ c, Forall (λ q, 0 <= q) (column data c))
         (Profiles.Modified.cluster_names ps) →
  ∃ data', normalize_distances data ps = ret data' ∧
    length data' = length data ∧
    Forall (λ c, Forall (λ q, 0 <= q ∧ q <= 1) (column data' c) ∧
                 divisor (column data' c) == 1)
           (Profiles.Modified.cluster_names ps).
Proof.
  intros Hnd Hne Hn Hnn. eexists. split; [by apply foldM_normalize_ok|].
  split; [apply normalized_all_length|].
  unfold normalizable in Hn. rewrite Forall_forall in Hn, Hnn |- *.
  intros c Hc. destruct (Hn c Hc) as [Hnum Hz]. specialize (Hnn c Hc).
  rewrite column_normalized_all by done.
  rewrite <- !column_normalized.
  split; [by apply column_normalized_bounds | by apply column_normalized_max].
Qed.

(** A column whose numbers are all zero makes [normalize_distances]
    raise [ZeroDivisionError]: the script guards the division only against
    an empty list of rows. *)
Theorem normalize_distances_zero_column data ps1 c cd ps2 :
  NoDup (Profiles.Modified.cluster_names (ps1 ++ [(c, cd)])) →
  normalizable data (Profiles.Modified.cluster_names ps1) →
  numeric_column data c → data ≠ [] →
  Forall (λ q, q == 0) (column data c) →
  normalize_distances data (ps1 ++ (c, cd) :: ps2) = raise ZeroDivisionError.
Proof.
  intros Hnd Hn Hd Hne Hz. unfold normalize_distances.
  unfold Profiles.Modified.cluster_names in *. rewrite fmap_app in *.
  apply foldM_normalize_zero; [done..|]. cbn [fst].
  apply divisor_all_zero; [|done].
  intros Hl%(f_equal length). rewrite column_length in Hl by done.
  by destruct data.
Qed.

(** A row without the distance column of the first cluster makes
    [normalize_distances] raise [KeyError]. *)
Theorem normalize_distances_KeyError data1 r data2 c cd ps :
  numeric_column data1 c → r !! distance_key c = None →
  raises (normalize_distances (data1 ++ r :: data2) ((c, cd) :: ps)) KeyError.
Proof.
  intros Hd Hr. unfold normalize_distances.
  cbn [Profiles.Modified.cluster_names fmap list_fmap foldM fst].
  apply raises_bind_l. by rewrite normalize_column_KeyError.
Qed.

(** Rows that all have the distance column of the first cluster, one of
    them with an entry that is not a number, make [normalize_distances]
    raise [TypeError]. *)
Theorem normalize_distances_TypeError data c cd ps :
  Forall (λ r, is_Some (r !! distance_key c)) data → ¬ numeric_column data c →
  raises (normalize_distances data ((c, cd) :: ps)) TypeError.
Proof.
  intros Hkey Hnum. unfold normalize_distances.
  cbn [Profiles.Modified.cluster_names fmap list_fmap foldM fst].
  by apply raises_bind_l, normalize_column_TypeError.
Qed.

(** ** A second pass *)

Section idempotence.
Implicit Types (data : list row) (c : string) (names : list string).

(** Dividing by a number equal to 1 leaves an equivalent row. *)
Lemma scale_row_one c m r : m == 1 → scale_row c m r ≡ r.
Proof.
  intros Hm. unfold scale_row. destruct (cell c r) as [q|] eqn:Hq; [|done].
  apply cell_Some in Hq. intros k.
  destruct (decide (k = distance_key c)) as [->|Hk].
  - rewrite lookup_insert_eq, Hq. constructor.
    change (q / m == q). rewrite Hm. by field.
  - by rewrite lookup_insert_ne.
Qed.

Lemma normalized_one data c :
  divisor (column data c) == 1 → normalized data c ≡ data.
Proof.
  unfold normalized. generalize (divisor (column data c)).
  intros m Hm. induction data as [|r data IH]; [done|].
  constructor; [by apply scale_row_one | apply IH].
Qed.

(** Passes over columns whose maxima are 1 leave equivalent data. *)
Lemma normalized_all_one data names :
  NoDup names → Forall (λ c, divisor (column data c) == 1) names →
  normalized_all data names ≡ data.
Proof.
  intros Hnd. revert data.
  induction Hnd as [|c names Hc _ IH]; intros data Hone; [done|].
  apply Forall_cons in Hone as [Hc1 Hone].
  cbn [normalized_all foldl]. fold (normalized_all (normalized data c) names).
  rewrite IH; [by apply normalized_one|].
  rewrite Forall_forall in Hone |- *. intros c' Hc'.
  rewrite column_normalized_other; [by apply Hone | by intros ->].
Qed.

End idempotence.

(** C39: a second call of [normalize_distances] on the result of a
    successful first call returns equivalent data: the maximum of every
    column is 1 after the first call, so the second divides by 1. *)
Theorem normalize_distances_idempotent data ps data' :
  NoDup (Profiles.Modified.cluster_names ps) → data ≠ [] →
  normalizable data (Profiles.Modified.cluster_names ps) →
  Forall (λ c, Forall (λ q, 0 <= q) (column data c))
         (Profiles.Modified.cluster_names ps) →
  normalize_distances data ps = ret data' →
  ∃ data'', normalize_distances data' ps = ret data'' ∧ data'' ≡ data'.
Proof.
  intros Hnd Hne Hn Hnn. unfold normalize_distances.
  rewrite foldM_normalize_ok by done. intros [= <-].
  assert (Forall (λ c, numeric_column
            (normalized_all data (Profiles.Modified.cluster_names ps)) c ∧
            divisor (column (normalized_all data
              (Profiles.Modified.cluster_names ps)) c) == 1)
          (Profiles.Modified.cluster_names ps)) as Hone.
  { unfold normalizable in Hn. rewrite Forall_forall in Hn, Hnn |- *.
    intros c Hc. destruct (Hn c Hc) as [Hnum Hz]. specialize (Hnn c Hc).
    split; [by apply numeric_column_normalized_all|].
    rewrite column_normalized_all, <- column_normalized by done.
    by apply column_normalized_max. }
  eexists. split.
  - apply foldM_normalize_ok; [done|]. eapply Forall_impl; [exact Hone|].
    intros c [? Hc]. split; [done|]. rewrite Hc. lra.
  - apply normalized_all_one; [done|]. eapply Forall_impl; [exact Hone|].
    by intros c [_ ?].
Qed.

Section pipeline.
Context `{FloatParser}.
Implicit Types (data : list row) (ps : list (string * Profiles.Modified.cluster_data)).

(** The data after [calculate_all_distances] has succeeded. *)
Definition all_distances data ps : list row :=
  normalized_all ((λ r, stored r ps) <$> data) (Profiles.Modified.cluster_names ps).

(** No column of distances has maximum zero. *)
Definition nonzero_columns data ps : Prop :=
  Forall (λ c, ¬ divisor ((λ r, dist r c.2) <$> data) == 0) ps.

#[export] Instance nonzero_columns_dec data ps : Decision (nonzero_columns data ps).
Proof. unfold nonzero_columns. apply _. Defined.

Lemma calculate_all_distances_returns data ps :
  NoDup (Profiles.Modified.cluster_names ps) → keys_apart ps →
  Forall (λ r, convertible_row r ps) data → nonzero_columns data ps →
  returns (calculate_all_distances data ps) (all_distances data ps).
Proof.
  intros Hnd Hk Hd Hz. unfold calculate_all_distances.
  eapply returns_bind; [by apply store_all_returns|].
  unfold normalize_distances.
  rewrite foldM_normalize_ok by (done || by apply normalizable_stored).
  by rewrite !bind_ret_l.
Qed.

Lemma all_distances_lookup data ps i r :
  NoDup (Profiles.Modified.cluster_names ps) → data !! i = Some r →
  ∃ r', all_distances data ps !! i = Some r' ∧
    (∀ c cd, (c, cd) ∈ ps →
       cell c r' = Some (dist r cd / divisor ((λ r, dist r cd) <$> data))) ∧
    (∀ k, k ∉ distance_keys ps → r' !! k = r !! k).
Proof.
  intros Hnd Hi. unfold all_distances.
  set (data1 := (λ r, stored r ps) <$> data).
  assert (data1 !! i = Some (stored r ps)) as Hi1
    by (unfold data1; by rewrite list_lookup_fmap, Hi).
  destruct (normalized_all_lookup data1 (Profiles.Modified.cluster_names ps)
              i _ Hi1) as (r'&Hr'&Hother).
  exists r'. split_and!; [done| |].
  - intros c cd Hc.
    assert (c ∈ Profiles.Modified.cluster_names ps) as Hc'
      by (apply list_elem_of_fmap; by exists (c, cd)).
    rewrite <- (cell_column _ c i r' ) by
      (done || by eapply numeric_column_normalized_all, numeric_column_stored).
    rewrite column_normalized_all by done. unfold data1.
    rewrite (column_stored _ _ _ cd) by done.
    by rewrite !list_lookup_fmap, Hi.
  - intros k Hk. rewrite Hother by done. by apply stored_from_other.
Qed.

(** C6: on rows whose values [float] accepts or rejects, with distinct
    cluster names, no feature named like a distance column and no column
    of distances with maximum zero, [calculate_all_distances] returns the
    rows in place, each with its distance to every profile divided by the
    largest distance of any row to that profile, and otherwise unchanged. *)
Theorem calculate_all_distances_spec data ps :
  NoDup (Profiles.Modified.cluster_names ps) → keys_apart ps →
  Forall (λ r, convertible_row r ps) data → nonzero_columns data ps →
  ∃ data', returns (calculate_all_distances data ps) data' ∧
    length data' = length data ∧
    ∀ i r, data !! i = Some r →
      ∃ r', data' !! i = Some r' ∧
        (∀ c cd, (c, cd) ∈ ps →
           cell c r' = Some (dist r cd / divisor ((λ r, dist r cd) <$> data))) ∧
        (∀ k, k ∉ distance_keys ps → r' !! k = r !! k).
Proof.
  intros Hnd Hk Hd Hz. exists (all_distances data ps).
  split; [by apply calculate_all_distances_returns|]. split.
  - unfold all_distances. by rewrite normalized_all_length, length_fmap.
  - intros i r Hi. by apply all_distances_lookup.
Qed.

(** A column whose maximum is zero, after columns whose maxima are not,
    makes [calculate_all_distances] raise [ZeroDivisionError]. *)
Lemma calculate_all_distances_zero data ps1 c cd ps2 :
  NoDup (Profiles.Modified.cluster_names (ps1 ++ (c, cd) :: ps2)) →
  keys_apart (ps1 ++ (c, cd) :: ps2) →
  Forall (λ r, convertible_row r (ps1 ++ (c, cd) :: ps2)) data →
  data ≠ [] → nonzero_columns data ps1 →
  divisor ((λ r, dist r cd) <$> data) == 0 →
  raises (calculate_all_distances data (ps1 ++ (c, cd) :: ps2)) ZeroDivisionError.
Proof.
  intros Hnd Hk Hd Hne Hnz Hz. unfold calculate_all_distances.
  set (ps := ps1 ++ (c, cd) :: ps2) in *.
  assert ((c, cd) ∈ ps) as Hc by (unfold ps; set_solver).
  eapply raises_bind_r; [by apply store_all_returns|].
  apply raises_bind_l. unfold normalize_distances, ps at 2.
  unfold Profiles.Modified.cluster_names in *.
  rewrite fmap_app, fmap_cons. cbn [fst].
  rewrite foldM_normalize_zero; [done|..].
  - unfold ps in Hnd. rewrite fmap_app, fmap_cons in Hnd.
    by apply NoDup_app_cons_prefix in Hnd.
  - apply Forall_fmap, Forall_forall. intros [c' cd'] Hc'. simpl.
    assert ((c', cd') ∈ ps) by (unfold ps; set_solver).
    rewrite (column_stored _ _ _ cd') by done.
    split; [by apply (numeric_column_stored _ _ _ cd')|].
    unfold nonzero_columns in Hnz. rewrite Forall_forall in Hnz.
    by apply (Hnz (c', cd')).
  - by apply (numeric_column_stored _ _ _ cd).
  - by destruct data.
  - by rewrite (column_stored _ _ _ cd).
Qed.

(** The same for the first column of the registry whose maximum is zero. *)
Lemma calculate_all_distances_zero_column data ps :
  NoDup (Profiles.Modified.cluster_names ps) → keys_apart ps →
  Forall (λ r, convertible_row r ps) data →
  data ≠ [] → ¬ nonzero_columns data ps →
  raises (calculate_all_distances data ps) ZeroDivisionError.
Proof.
  intros Hnd Hk Hd Hne Hnz.
  destruct (Forall_first_failure _ _ Hnz) as (ps1 & [c cd] & ps2 & -> & Hps1 & Hz).
  apply calculate_all_distances_zero; try done.
  cbn [snd] in Hz. by destruct (decide (divisor ((λ r, dist r cd) <$> data) == 0)).
Qed.

(** C15: when every row is at distance 0 from the profile of some cluster
    (and the columns of the clusters before it have a non-zero maximum),
    [calculate_all_distances] raises [ZeroDivisionError]. *)
Theorem calculate_all_distances_zero_division data ps1 c cd ps2 :
  NoDup (Profiles.Modified.cluster_names (ps1 ++ (c, cd) :: ps2)) →
  keys_apart (ps1 ++ (c, cd) :: ps2) →
  Forall (λ r, convertible_row r (ps1 ++ (c, cd) :: ps2)) data →
  data ≠ [] → nonzero_columns data ps1 →
  Forall (λ r, dist r cd == 0) data →
  raises (calculate_all_distances data (ps1 ++ (c, cd) :: ps2)) ZeroDivisionError.
Proof.
  intros Hnd Hk Hd Hne Hnz Hz. apply calculate_all_distances_zero; try done.
  apply divisor_all_zero; [by destruct data | by apply Forall_fmap].
Qed.

Lemma store_distances_ignores_weight (row : row) ps ps' :
  Forall2 (λ c c', c.1 = c'.1 ∧
             Profiles.Modified.profile c.2 = Profiles.Modified.profile c'.2) ps ps' →
  store_distances row ps = store_distances row ps'.
Proof.
  intros Hps. revert row.
  induction Hps as [|[c cd] [c' cd'] ps ps' [Hc Hp] _ IH]; intros row; [done|].
  simpl in Hc, Hp. subst c'. unfold store_distances in *. cbn [foldM].
  rewrite Hp. apply bind_ext. intros row'. apply IH.
Qed.

(** C40: [calculate_all_distances] does not read the ['weight'] entries of
    [profiles]: registries with the same cluster names and profiles give the
    same result. *)
Theorem calculate_all_distances_ignores_weight data ps ps' :
  Forall2 (λ c c', c.1 = c'.1 ∧
             Profiles.Modified.profile c.2 = Profiles.Modified.profile c'.2) ps ps' →
  calculate_all_distances data ps = calculate_all_distances data ps'.
Proof.
  intros Hps. unfold calculate_all_distances, normalize_distances.
  assert (Profiles.Modified.cluster_names ps = Profiles.Modified.cluster_names ps')
    as -> by (induction Hps as [|???? [? _]]; [done|]; by f_equal/=).
  f_equal. apply mapM_ext. intros row. by apply store_distances_ignores_weight.
Qed.

End pipeline.

(** ** The theorems at the sample records *)

(** The entry of 'Not Ready' in [profiles]. *)
Definition not_ready_data : Profiles.Modified.cluster_data :=
  default {| Profiles.Modified.profile := []; Profiles.Modified.weight := 0 |}
    (snd <$> Profiles.Modified.profiles !! 2%nat).

Lemma normalize_distances_bounds_witness :
  ∃ data', normalize_distances (all_distances sample_data Profiles.Modified.profiles)
             Profiles.Modified.profiles = ret data' ∧
    length data' = 4%nat ∧
    Forall (λ c, Forall (λ q, 0 <= q ∧ q <= 1) (column data' c) ∧
                 divisor (column data' c) == 1)
           ["Ready"; "Potential"; "Not Ready"].
Proof.
  apply (normalize_distances_bounds
           (all_distances sample_data Profiles.Modified.profiles)
           Profiles.Modified.profiles); [vm_decide | done | |vm_decide].
  apply Forall_forall. intros c Hc.
  repeat (apply elem_of_cons in Hc as [->|Hc]); [..|by inversion Hc];
    (split; [vm_decide | by vm_compute]).
Defined.

Lemma normalize_distances_zero_column_witness :
  normalize_distances [stored artist_blank Profiles.Modified.profiles]
    Profiles.Modified.profiles = raise ZeroDivisionError.
Proof.
  replace Profiles.Modified.profiles
    with (take 2 Profiles.Modified.profiles
          ++ ("Not Ready", not_ready_data) :: []) at 2 by reflexivity.
  apply (normalize_distances_zero_column
           [stored artist_blank Profiles.Modified.profiles]);
    [vm_decide | | vm_decide | done | vm_decide].
  apply Forall_forall. intros c Hc.
  repeat (apply elem_of_cons in Hc as [->|Hc]); [..|by inversion Hc];
    (split; [vm_decide | by vm_compute]).
Defined.

Lemma normalize_distances_KeyError_witness :
  raises (normalize_distances
            [stored artist_ready Profiles.Modified.profiles; artist_blank]
            Profiles.Modified.profiles) KeyError.
Proof.
  apply (normalize_distances_KeyError
           [stored artist_ready Profiles.Modified.profiles] artist_blank []);
    [vm_decide | reflexivity].
Defined.

Lemma normalize_distances_TypeError_witness :
  raises (normalize_distances
            [<[distance_key "Ready" := VStr "far"]> artist_blank]
            Profiles.Modified.profiles) TypeError.
Proof.
  apply (normalize_distances_TypeError
           [<[distance_key "Ready" := VStr "far"]> artist_blank]);
    [vm_decide | vm_decide].
Defined.

Lemma normalize_distances_idempotent_witness :
  ∃ data'', normalize_distances (all_distances sample_data Profiles.Modified.profiles)
              Profiles.Modified.profiles = ret data'' ∧
            data'' ≡ all_distances sample_data Profiles.Modified.profiles.
Proof.
  apply (normalize_distances_idempotent
           ((λ r, stored r Profiles.Modified.profiles) <$> sample_data)
           Profiles.Modified.profiles); [vm_decide | done | | vm_decide | ].
  - apply Forall_forall. intros c Hc.
    repeat (apply elem_of_cons in Hc as [->|Hc]); [..|by inversion Hc];
      (split; [vm_decide | by vm_compute]).
  - unfold normalize_distances. apply foldM_normalize_ok; [vm_decide|].
    apply Forall_forall. intros c Hc.
    repeat (apply elem_of_cons in Hc as [->|Hc]); [..|by inversion Hc];
      (split; [vm_decide | by vm_compute]).
Defined.

Lemma calculate_all_distances_spec_witness :
  ∃ data', returns (calculate_all_distances sample_data Profiles.Modified.profiles)
             data' ∧
    length data' = 4%nat ∧
    ∀ i r, sample_data !! i = Some r →
      ∃ r', data' !! i = Some r' ∧
        (∀ c cd, (c, cd) ∈ Profiles.Modified.profiles →
           cell c r' = Some (dist r cd / divisor ((λ r, dist r cd) <$> sample_data))) ∧
        (∀ k, k ∉ distance_keys Profiles.Modified.profiles → r' !! k = r !! k).
Proof.
  apply (calculate_all_distances_spec sample_data Profiles.Modified.profiles);
    vm_decide.
Defined.

Lemma calculate_all_distances_zero_division_witness :
  raises (calculate_all_distances [artist_blank] Profiles.Modified.profiles)
         ZeroDivisionError.
Proof.
  replace Profiles.Modified.profiles
    with (take 2 Profiles.Modified.profiles
          ++ ("Not Ready", not_ready_data) :: []) by reflexivity.
  apply (calculate_all_distances_zero_division [artist_blank]);
    [vm_decide | vm_decide | vm_decide | done | vm_decide | vm_decide].
Defined.

Lemma calculate_all_distances_ignores_weight_witness :
  calculate_all_distances sample_data Profiles.Modified.profiles
  = calculate_all_distances sample_data
      ((λ c, (c.1, {| Profiles.Modified.profile := Profiles.Modified.profile c.2;
                      Profiles.Modified.weight := 0 |}))
         <$> Profiles.Modified.profiles).
Proof.
  apply calculate_all_distances_ignores_weight.
  repeat constructor.
Defined.
