(* ===== verification/Order.v ===== *)
(** * The order of the rows

    The spec lets the distances of the rows be computed in any order, or in
    parallel: a distance depends on its row and on the profile only.  In
    modified_artist_clustering.py the pass of [normalize_distances] reads a
    whole column, but only its maximum, which does not depend on the order
    of the rows either.

    The file proves that [calculate_all_distances] of both scripts gives to
    a row the same distances wherever the row stands in the file.  For the
    multi-profile script "the same" is the equivalence [≡] of rows: the
    maximum of a column is one of its numbers, and in another order it may
    be an equal number written as another fraction. *)

From Stdlib Require Import QArith Qabs Lqa String.
From stdpp Require Import base option list gmap strings.
From S2P Require Import Prelude Sums PyValue Profiles Samples Distance Normalize.

#[local] Open Scope py_scope.

(** * The maximum of a column *)

Section divisor.
Implicit Types (col : list Q).

Lemma divisor_elem col : col ≠ [] → divisor col ∈ col.
Proof. destruct col as [|x col]; [done|]. intros _. apply max_from_elem. Qed.

Lemma divisor_le col col' : col ≠ [] → col ⊆ col' → divisor col <= divisor col'.
Proof.
  intros Hne Hsub. apply (proj1 (Forall_forall _ _) (divisor_ge col')).
  by apply Hsub, divisor_elem.
Qed.

#[export] Instance divisor_proper : Proper ((≡ₚ) ==> Qeq) divisor.
Proof.
  intros col col' Hp. destruct (decide (col = [])) as [->|Hne].
  { by apply Permutation_nil_l in Hp as ->. }
  assert (col' ≠ []) as Hne' by (intros ->; by apply Permutation_nil_r in Hp).
  apply Qle_antisym; apply divisor_le; try done; intros q; by rewrite Hp.
Qed.

End divisor.

(** * The rows of modified_artist_clustering.py *)

Section modified.
Context `{FloatParser}.
Implicit Types (data : list row) (ps : list (string * Profiles.Modified.cluster_data)).

Lemma nonzero_columns_Permutation data data' ps :
  data ≡ₚ data' → nonzero_columns data ps → nonzero_columns data' ps.
Proof.
  intros Hp Hnz. eapply Forall_impl; [exact Hnz|]. intros [c cd] Hc. cbn in *.
  by rewrite <- Hp.
Qed.

(** A row with its distances, in two orders of the data. *)
Lemma all_distances_any_order data data' ps i i' (r : row) :
  NoDup (Profiles.Modified.cluster_names ps) → data ≡ₚ data' →
  data !! i = Some r → data' !! i' = Some r →
  ∃ r1 r2, all_distances data ps !! i = Some r1 ∧
           all_distances data' ps !! i' = Some r2 ∧ r1 ≡ r2.
Proof.
  intros Hnd Hp Hi Hi'.
  destruct (all_distances_lookup data ps i r Hnd Hi) as (r1 & Hr1 & Hcell1 & Hother1).
  destruct (all_distances_lookup data' ps i' r Hnd Hi') as (r2 & Hr2 & Hcell2 & Hother2).
  exists r1, r2. split_and!; [done..|]. intros k.
  destruct (decide (k ∈ distance_keys ps)) as [Hk|Hk];
    [|by rewrite Hother1, Hother2].
  apply list_elem_of_fmap in Hk as (c & -> & ([c' cd] & -> & Hc)%list_elem_of_fmap).
  cbn [fst].
  rewrite (proj1 (cell_Some _ _ _) (Hcell1 c' cd Hc)),
    (proj1 (cell_Some _ _ _) (Hcell2 c' cd Hc)).
  constructor. change (dist r cd / divisor ((λ r, dist r cd) <$> data)
                       == dist r cd / divisor ((λ r, dist r cd) <$> data')).
  by rewrite Hp.
Qed.

Lemma calculate_all_distances_orders data data' ps :
  NoDup (Profiles.Modified.cluster_names ps) → keys_apart ps →
  Forall (λ r, convertible_row r ps) data → nonzero_columns data ps →
  data ≡ₚ data' →
  ∃ out out', returns (calculate_all_distances data ps) out ∧
              returns (calculate_all_distances data' ps) out' ∧
              ∀ i i' (r : row), data !! i = Some r → data' !! i' = Some r →
                ∃ r1 r2, out !! i = Some r1 ∧ out' !! i' = Some r2 ∧ r1 ≡ r2.
Proof.
  intros Hnd Hk Hd Hnz Hp. exists (all_distances data ps), (all_distances data' ps).
  split_and!.
  - by apply calculate_all_distances_returns.
  - apply calculate_all_distances_returns; [done..| |by eapply nonzero_columns_Permutation].
    by rewrite <- Hp.
  - intros i i' r. by apply all_distances_any_order.
Qed.

(** C34: [calculate_all_distances] of modified_artist_clustering.py gives to
    a row the same normalised distances, up to the fraction that stands for
    a number, wherever the row stands among the rows: the rows may be
    processed in any order. *)
Theorem calculate_all_distances_any_order data data' ps :
  NoDup (Profiles.Modified.cluster_names ps) → keys_apart ps →
  Forall (λ r, convertible_row r ps) data → nonzero_columns data ps →
  data ≡ₚ data' →
  ∃ out out', returns (calculate_all_distances data ps) out ∧
              returns (calculate_all_distances data' ps) out' ∧
              ∀ i i' (r : row), data !! i = Some r → data' !! i' = Some r →
                ∃ r1 r2, out !! i = Some r1 ∧ out' !! i' = Some r2 ∧ r1 ≡ r2.
Proof. apply calculate_all_distances_orders. Qed.

End modified.

(** * The rows of artist_clustering.py *)

Section artist.
Context `{FloatParser}.
Implicit Types (data : list row) (p : profile_t) (ws : gmap string Q).

(** [calculate_all_distances] of artist_clustering.py on the rows in
    another order returns its rows in that order. *)
Theorem artist_calculate_all_distances_any_order data data' p ws :
  Forall (λ r, convertible_on r p) data → data ≡ₚ data' →
  ∃ out out', returns (Artist.calculate_all_distances data p ws) out ∧
              returns (Artist.calculate_all_distances data' p ws) out' ∧
              out ≡ₚ out'.
Proof.
  intros Hd Hp. exists (with_distance p ws <$> data), (with_distance p ws <$> data').
  split_and!; [by apply artist_all_distances_returns| |by rewrite Hp].
  apply artist_all_distances_returns. by rewrite <- Hp.
Qed.

End artist.

(** * The theorems at the sample rows *)

Lemma calculate_all_distances_any_order_witness :
  ∃ out out',
    returns (calculate_all_distances (H:=decimal_parser) sample_data
               Profiles.Modified.profiles) out ∧
    returns (calculate_all_distances (H:=decimal_parser) (reverse sample_data)
               Profiles.Modified.profiles) out' ∧
    ∀ i i' (r : row), sample_data !! i = Some r → reverse sample_data !! i' = Some r →
      ∃ r1 r2, out !! i = Some r1 ∧ out' !! i' = Some r2 ∧ r1 ≡ r2.
Proof.
  apply (calculate_all_distances_any_order (H:=decimal_parser) sample_data
           (reverse sample_data) Profiles.Modified.profiles);
    [vm_decide | vm_decide | vm_decide | vm_decide | symmetry; apply reverse_Permutation].
Defined.

Lemma artist_calculate_all_distances_any_order_witness :
  ∃ out out',
    returns (Artist.calculate_all_distances (H:=decimal_parser) sample_data
               Profiles.Artist.ideal_artist Profiles.Artist.weights) out ∧
    returns (Artist.calculate_all_distances (H:=decimal_parser) (reverse sample_data)
               Profiles.Artist.ideal_artist Profiles.Artist.weights) out' ∧
    out ≡ₚ out'.
Proof.
  apply (artist_calculate_all_distances_any_order (H:=decimal_parser) sample_data
           (reverse sample_data) Profiles.Artist.ideal_artist Profiles.Artist.weights);
    [vm_decide | symmetry; apply reverse_Permutation].
Defined.
