(* ===== verification/Milp.v ===== *)
(** * The integer-program interface

    The part of gurobipy that [cluster_artists] uses, as data: a model holds
    binary variables (named by their index tuples, [x[i]] or [x[i, j]]), a
    linear objective to minimise and a list of linear constraints.
    [addVars], [setObjective] and [addConstr] build the model the way the
    calls of the scripts do; [quicksum] builds a linear expression.

    A solution gives a value to every variable (the attribute [X]).
    [feasible] and [optimal] say when a solution satisfies a model and when
    it minimises the objective.  The class [Solver] is the contract of
    [Model.optimize]: it yields an optimal solution, or none when the model
    has no feasible solution, after which reading [X] raises
    [AttributeError].  [brute_force] implements the contract by enumerating
    the assignments of 0 and 1 to the variables; it stands for Gurobi where
    a theorem is instantiated on sample data. *)

From Stdlib Require Import QArith Qabs Lqa String.
From stdpp Require Import base option list gmap strings.
From S2P Require Import Prelude Sums PyValue.

(** ** Models *)

(** A variable of [addVars]: its index tuple. *)
Abbreviation var := (list nat).

(** The values [X] of the variables after [optimize]. *)
Abbreviation solution := (gmap (list nat) Q).

(** A linear expression: terms [coefficient * variable]. *)
Definition LinExpr : Type := list (Q * var).

Inductive sense : Type := LESS_EQUAL | EQUAL | GREATER_EQUAL.

Record Constr : Type := {
  lhs : LinExpr;
  op : sense;
  rhs : Q;
  cname : string
}.

Record Model : Type := {
  vars : gset var;
  objective : LinExpr;
  constrs : list Constr
}.

(** The index tuples of [addVars(d1, ..., dn)]. *)
Fixpoint tuples (dims : list nat) : list var :=
  match dims with
  | [] => [[]]
  | d :: dims' => i ← seq 0 d; (λ t, i :: t) <$> tuples dims'
  end.

(** [Model(name)] *)
Definition new_model (name : string) : Model :=
  {| vars := ∅; objective := []; constrs := [] |}.

(** [model.addVars(d1, ..., dn, vtype=GRB.BINARY)] *)
Definition addVars (m : Model) (dims : list nat) : Model :=
  {| vars := vars m ∪ list_to_set (tuples dims);
     objective := objective m;
     constrs := constrs m |}.

(** [model.setObjective(e, GRB.MINIMIZE)] *)
Definition setObjective (m : Model) (e : LinExpr) : Model :=
  {| vars := vars m; objective := e; constrs := constrs m |}.

(** [model.addConstr(c)] *)
Definition addConstr (m : Model) (c : Constr) : Model :=
  {| vars := vars m; objective := objective m; constrs := constrs m ++ [c] |}.

(** [quicksum(e for ...)] *)
Definition quicksum (es : list LinExpr) : LinExpr := concat es.

(** [x * c] and [x] as linear expressions. *)
Definition times (v : var) (c : Q) : LinExpr := [(c, v)].
Definition just (v : var) : LinExpr := [(1, v)].

(** ** Solutions *)

(** The value of a variable, 0 when the solution does not mention it. *)
Definition X (sol : solution) (v : var) : Q := default 0 (sol !! v).

(** [e.getValue()]: the value of a linear expression. *)
Definition getValue (sol : solution) (e : LinExpr) : Q :=
  Qsum ((λ t, t.1 * X sol t.2) <$> e).

Definition holds (sol : solution) (c : Constr) : Prop :=
  match op c with
  | LESS_EQUAL => getValue sol (lhs c) <= rhs c
  | EQUAL => getValue sol (lhs c) == rhs c
  | GREATER_EQUAL => rhs c <= getValue sol (lhs c)
  end.

(** A solution of the model: a binary value for each of its variables, and
    every constraint satisfied. *)
Definition feasible (m : Model) (sol : solution) : Prop :=
  dom sol = vars m ∧ map_Forall (λ _ q, binary q) sol ∧ Forall (holds sol) (constrs m).

Definition optimal (m : Model) (sol : solution) : Prop :=
  feasible m sol ∧
  ∀ sol', feasible m sol' → getValue sol (objective m) <= getValue sol' (objective m).

(** ** The contract of the solver *)

Class Solver : Type := {
  optimize : Model → option solution;
  optimize_optimal m sol : optimize m = Some sol → optimal m sol;
  optimize_infeasible m sol : optimize m = None → ¬ feasible m sol
}.

(** [v.X] after [optimize]: [AttributeError] when the solver found no
    solution. *)
Definition attr_X (result : option solution) (v : var) : exn + Q :=
  match result with
  | None => inl AttributeError
  | Some sol =>
      match sol !! v with
      | Some q => inr q
      | None => inl AttributeError
      end
  end.

(** The solution that gives [f v] to each variable [v] of a list. *)
Definition solution_of (f : var → Q) (vs : list var) : solution :=
  list_to_map ((λ v, (v, f v)) <$> vs).

(** ** A reference solver *)

(** All assignments of 0 and 1 to the variables of a list. *)
Fixpoint assignments (vs : list var) : list solution :=
  match vs with
  | [] => [∅]
  | v :: vs' => sol ← assignments vs'; [<[v := 0]> sol; <[v := 1]> sol]
  end.

(** The first solution of smallest value in a list. *)
Definition better (e : LinExpr) (best sol : solution) : solution :=
  if Qle_bool (getValue best e) (getValue sol e) then best else sol.

Definition argmin (e : LinExpr) (l : list solution) : option solution :=
  match l with
  | [] => None
  | sol :: l' => Some (foldl (better e) sol l')
  end.

#[export] Instance holds_dec sol c : Decision (holds sol c).
Proof. unfold holds. destruct (op c); apply _. Defined.

#[export] Instance feasible_dec m sol : Decision (feasible m sol).
Proof. unfold feasible. apply _. Defined.

Definition brute_force (m : Model) : option solution :=
  argmin (objective m) (filter (feasible m) (assignments (elements (vars m)))).

(** ** Variables and constraints of a model *)

Lemma elem_of_tuples_1 (n : nat) (v : var) :
  v ∈ tuples [n] ↔ ∃ i, v = [i] ∧ (i < n)%nat.
Proof.
  cbn [tuples]. rewrite list_elem_of_bind. setoid_rewrite elem_of_seq.
  setoid_rewrite list_elem_of_fmap. setoid_rewrite list_elem_of_singleton.
  split.
  - intros (i & (t & -> & ->) & Hi). exists i. split; [done | lia].
  - intros (i & -> & Hi). exists i. split; [by exists [] | lia].
Qed.

Lemma elem_of_tuples_2 (n k : nat) (v : var) :
  v ∈ tuples [n; k] ↔ ∃ i j, v = [i; j] ∧ (i < n)%nat ∧ (j < k)%nat.
Proof.
  change (tuples [n; k]) with (i ← seq 0 n; (λ t, i :: t) <$> tuples [k]).
  rewrite list_elem_of_bind. setoid_rewrite elem_of_seq.
  setoid_rewrite list_elem_of_fmap. setoid_rewrite elem_of_tuples_1.
  split.
  - intros (i & (t & -> & j & -> & Hj) & Hi). exists i, j. split; [done | lia].
  - intros (i & j & -> & Hi & Hj). exists i. split; [|lia]. exists [j]. eauto.
Qed.

(** A loop of [addConstr] appends its constraints in order. *)
Lemma foldl_addConstr {A} (step : Model → A → Model) (c : A → Constr) m (l : list A) :
  (∀ m a, step m a = addConstr m (c a)) →
  foldl step m l =
  {| vars := vars m; objective := objective m; constrs := constrs m ++ (c <$> l) |}.
Proof.
  intros Hstep. revert m. induction l as [|a l IH]; intros m.
  - cbn. rewrite app_nil_r. by destruct m.
  - cbn [foldl]. rewrite IH, Hstep. cbn. by rewrite <- app_assoc.
Qed.

Lemma lookup_solution_of f vs v :
  solution_of f vs !! v = if decide (v ∈ vs) then Some (f v) else None.
Proof.
  unfold solution_of. case_decide as Hv.
  - apply elem_of_list_to_map_1'.
    + intros q (v' & [= <- ->] & _)%list_elem_of_fmap. done.
    + apply list_elem_of_fmap. eauto.
  - apply not_elem_of_list_to_map_1. rewrite <- list_fmap_compose.
    by rewrite list_fmap_id.
Qed.

Lemma dom_solution_of f vs : dom (solution_of f vs) = list_to_set vs.
Proof.
  unfold solution_of. rewrite dom_list_to_map_L, <- list_fmap_compose.
  by rewrite list_fmap_id.
Qed.

Lemma X_solution_of f vs v : v ∈ vs → X (solution_of f vs) v = f v.
Proof. intros Hv. unfold X. by rewrite lookup_solution_of, decide_True. Qed.

Lemma solution_of_binary f vs :
  (∀ v, v ∈ vs → binary (f v)) → map_Forall (λ _ q, binary q) (solution_of f vs).
Proof.
  intros Hf v q. rewrite lookup_solution_of. case_decide; [|done].
  intros [= <-]. auto.
Qed.

(** ** Values of expressions *)

Lemma getValue_cons sol c v e : getValue sol ((c, v) :: e) = c * X sol v + getValue sol e.
Proof. reflexivity. Qed.

Lemma getValue_app sol e1 e2 : getValue sol (e1 ++ e2) == getValue sol e1 + getValue sol e2.
Proof. unfold getValue. by rewrite fmap_app, Qsum_app. Qed.

Lemma getValue_quicksum sol es : getValue sol (quicksum es) == Qsum (getValue sol <$> es).
Proof.
  induction es as [|e es IH]; [reflexivity|].
  unfold quicksum in *. cbn [concat fmap list_fmap Qsum foldr].
  rewrite getValue_app, IH. reflexivity.
Qed.

Lemma getValue_ext sol sol' e :
  (∀ v, X sol v == X sol' v) → getValue sol e == getValue sol' e.
Proof.
  intros HX. induction e as [|[c v] e IH]; [reflexivity|].
  rewrite !getValue_cons, IH, (HX v). reflexivity.
Qed.

Lemma holds_ext sol sol' c :
  (∀ v, X sol v == X sol' v) → holds sol c → holds sol' c.
Proof.
  intros HX. pose proof (getValue_ext sol sol' (lhs c) HX) as E.
  unfold holds. destruct (op c); intros Hh; lra.
Qed.

Lemma X_lookup sol v q : sol !! v = Some q → X sol v = q.
Proof. unfold X. by intros ->. Qed.

Lemma X_insert sol v q : X (<[v := q]> sol) v = q.
Proof. unfold X. by rewrite lookup_insert_eq. Qed.

Lemma X_insert_ne sol v v' q : v ≠ v' → X (<[v := q]> sol) v' = X sol v'.
Proof. unfold X. intros. by rewrite lookup_insert_ne. Qed.

Lemma X_binary sol v :
  map_Forall (λ _ q, binary q) sol → binary (X sol v).
Proof.
  intros Hb. unfold X. destruct (sol !! v) as [q|] eqn:E; [exact (Hb v q E)|].
  left. reflexivity.
Qed.

(** ** Rounding a solution to the literals 0 and 1 *)

Definition round (q : Q) : Q := if decide (1 # 2 < q) then 1 else 0.

Lemma round_literal q : round q = 0 ∨ round q = 1.
Proof. unfold round. case_decide; auto. Qed.

Lemma round_binary q : binary q → round q == q.
Proof. unfold round. intros [E|E]; case_decide; lra. Qed.

Lemma X_round sol v :
  map_Forall (λ _ q, binary q) sol → X (round <$> sol) v == X sol v.
Proof.
  intros Hb. unfold X. rewrite lookup_fmap.
  destruct (sol !! v) as [q|] eqn:E; [|reflexivity].
  apply round_binary, (Hb v q E).
Qed.

Lemma feasible_round m sol : feasible m sol → feasible m (round <$> sol).
Proof.
  intros (Hdom & Hb & Hc). split; [by rewrite dom_fmap_L|]. split.
  - intros v q. rewrite lookup_fmap. intros (q' & _ & ->)%fmap_Some.
    destruct (round_literal q') as [-> | ->]; [by left | by right].
  - eapply Forall_impl; [exact Hc|]. intros c. apply holds_ext.
    intros v. symmetry. by apply X_round.
Qed.

(** ** The enumeration is complete *)

Lemma assignments_complete (vs : list var) (sol : solution) :
  NoDup vs → dom sol = list_to_set vs →
  map_Forall (λ _ q, q = 0 ∨ q = 1) sol → sol ∈ assignments vs.
Proof.
  intros Hnd. revert sol. induction Hnd as [|v vs Hv Hnd IH]; intros sol Hdom Hb.
  - apply dom_empty_inv_L in Hdom as ->. set_solver.
  - cbn [assignments]. apply list_elem_of_bind. exists (delete v sol).
    assert (is_Some (sol !! v)) as [q Hq] by (apply elem_of_dom; set_solver).
    split.
    + rewrite <- (insert_delete_id sol v q Hq).
      rewrite delete_insert_id by apply lookup_delete_eq.
      destruct (Hb v q Hq) as [-> | ->]; set_solver.
    + apply IH.
      * rewrite dom_delete_L, Hdom. set_solver.
      * intros v' q'. rewrite lookup_delete_Some. intros [_ ?]. by eapply Hb.
Qed.

(** ** The minimum of a list *)

Lemma better_cases e s s' :
  (better e s s' = s ∨ better e s s' = s') ∧
  getValue (better e s s') e <= getValue s e ∧ getValue (better e s s') e <= getValue s' e.
Proof.
  unfold better. destruct (Qle_bool _ _) eqn:E.
  - apply Qle_bool_iff in E. split; [by left|]. split; [apply Qle_refl | done].
  - assert (¬ getValue s e <= getValue s' e) as Hn by (rewrite <- Qle_bool_iff, E; done).
    split; [by right|]. split; [lra | apply Qle_refl].
Qed.

Lemma foldl_better_elem e l s : foldl (better e) s l ∈ s :: l.
Proof.
  revert s. induction l as [|s' l IH]; intros s; [set_solver|].
  cbn [foldl]. specialize (IH (better e s s')).
  apply elem_of_cons in IH as [-> | IH]; [|by do 2 right].
  destruct (better_cases e s s') as [[-> | ->] _]; [left | right; left].
Qed.

Lemma foldl_better_le e l s sol :
  sol ∈ s :: l → getValue (foldl (better e) s l) e <= getValue sol e.
Proof.
  revert s sol. induction l as [|s' l IH]; intros s sol Hin.
  - apply list_elem_of_singleton in Hin as ->. apply Qle_refl.
  - cbn [foldl]. destruct (better_cases e s s') as (_ & Hl & Hr).
    pose proof (IH (better e s s') (better e s s')) as Hb.
    rewrite !elem_of_cons in Hin. destruct Hin as [-> | [-> | Hin]].
    + eapply Qle_trans; [apply Hb; by left | done].
    + eapply Qle_trans; [apply Hb; by left | done].
    + apply IH. by right.
Qed.

Lemma argmin_elem e l sol : argmin e l = Some sol → sol ∈ l.
Proof. destruct l; [done|]. intros [= <-]. apply foldl_better_elem. Qed.

Lemma argmin_le e l sol sol' :
  argmin e l = Some sol → sol' ∈ l → getValue sol e <= getValue sol' e.
Proof. destruct l; [done|]. intros [= <-]. apply foldl_better_le. Qed.

Lemma argmin_None e l : argmin e l = None → l = [].
Proof. by destruct l. Qed.

(** ** The reference solver meets the contract *)

Lemma feasible_rounded_listed m sol :
  feasible m sol →
  round <$> sol ∈ filter (feasible m) (assignments (elements (vars m))).
Proof.
  intros Hf. apply list_elem_of_filter. split; [by apply feasible_round|].
  apply assignments_complete; [apply NoDup_elements| |].
  - rewrite dom_fmap_L, list_to_set_elements_L. apply Hf.
  - intros v q. rewrite lookup_fmap. intros (q' & _ & ->)%fmap_Some.
    apply round_literal.
Qed.

Lemma brute_force_optimal m sol : brute_force m = Some sol → optimal m sol.
Proof.
  intros Hbf. split.
  - by apply argmin_elem, list_elem_of_filter in Hbf as [? _].
  - intros sol' Hf'. eapply Qle_trans.
    + eapply argmin_le; [exact Hbf | by apply feasible_rounded_listed].
    + apply Qle_lteq. right. apply getValue_ext. intros v. apply X_round, Hf'.
Qed.

Lemma brute_force_infeasible m sol : brute_force m = None → ¬ feasible m sol.
Proof.
  intros Hbf%argmin_None Hf%feasible_rounded_listed.
  rewrite Hbf in Hf. by apply elem_of_nil in Hf.
Qed.

#[export] Instance brute_force_solver : Solver :=
  {| optimize := brute_force;
     optimize_optimal := brute_force_optimal;
     optimize_infeasible := brute_force_infeasible |}.
