(* ===== verification/Cluster.v ===== *)
(** * Clustering by integer programming

    [cluster_artists] of both scripts: the model it builds, the call of the
    solver and the labels read back from the solution.

    Module [Artist] holds the one-cluster version of artist_clustering.py
    (a variable per row, at least [min_ready_artists] rows 'Ready'), Module
    [Modified] the version of modified_artist_clustering.py (a variable per
    row and cluster, every row in exactly one cluster, every cluster with at
    least [max(1, len(data) // len(profiles))] rows, a constant 10 added to
    the cost of 'Not Ready').

    The solver is the class [Solver] of [Milp]: the theorems hold for every
    solver that meets the contract, and the witnesses run the reference
    solver on sample data. *)

From Stdlib Require Import QArith Qabs Lqa String.
From stdpp Require Import base option list gmap strings pretty.
From S2P Require Import Prelude Sums PyValue Profiles Samples Distance Normalize Milp.

#[local] Open Scope py_scope.

(** [x.X > 0.5] *)
Definition chosen (x : Q) : bool := bool_decide (1 # 2 < x).

(** [quicksum(x[...] for k in range(n))]: the sum of the variables that [var]
    names. *)
Definition sum_vars (var : nat → var) (n : nat) : LinExpr :=
  quicksum ((λ k, just (var k)) <$> seq 0 n).

Module Artist.
Section defs.
Context `{Solver}.

(** Line 76: the terms [x[i] * data[i]['Distance_to_Ideal']]. *)
Definition objective_of (data : list row) : M event LinExpr :=
  terms <- mapM (λ '(i, row),
             v <- lift (dict_item row "Distance_to_Ideal") ;;
             c <- lift (as_num v) ;;
             ret (times [i] c)) (enumerate data) ;;
  ret (quicksum terms).

(** Line 80: at least [min_ready_artists] rows are 'Ready'. *)
Definition min_ready_constr (n : nat) (min_ready_artists : Q) : Constr :=
  {| lhs := sum_vars (λ i, [i]) n;
     op := GREATER_EQUAL;
     rhs := min_ready_artists;
     cname := "min_ready_artists" |}.

(** Lines 69-80: the model. *)
Definition cluster_model (data : list row) (min_ready_artists : Q) : M event Model :=
  let model := new_model "Artist Clustering" in
  let model := addVars model [length data] in
  e <- objective_of data ;;
  let model := setObjective model e in
  let model := addConstr model (min_ready_constr (length data) min_ready_artists) in
  ret model.

(** Line 87: the label of a row. *)
Definition label (x : Q) : string :=
  if chosen x then "Ready" else "Not Ready".

(** Lines 86-87: the labels read back from the solution. *)
Definition assign_clusters (result : option solution) (data : list row) : M event (list row) :=
  mapM (λ '(i, row),
    x <- lift (attr_X result [i]) ;;
    ret (<["Cluster" := VStr (label x)]> row)) (enumerate data).

Definition cluster_artists (data : list row) (min_ready_artists : Q) : M event (list row) :=
  model <- cluster_model data min_ready_artists ;;
  let result := optimize model in
  data <- assign_clusters result data ;;
  ret data.

End defs.
End Artist.

Module Modified.
Section defs.
Context `{Solver}.

(** Line 110: [10 if cluster_name == "Not Ready" else 0]. *)
Definition penalty (cluster_name : string) : Q :=
  if decide (cluster_name = "Not Ready") then 10 else 0.

(** Line 110: the cost of a row in a cluster. *)
Definition cost (row : row) (cluster_name : string) : exn + Q :=
  match dict_item row (distance_key cluster_name) with
  | inl e => inl e
  | inr v =>
      match value_add v (penalty cluster_name) with
      | inl e => inl e
      | inr c => as_num c
      end
  end.

(** Lines 109-113: the terms of the objective, rows outside and clusters
    inside. *)
Definition objective_of (data : list row) (cluster_names : list string) : M event LinExpr :=
  terms <- mapM (λ '(i, row),
             terms <- mapM (λ '(j, cluster_name),
                        c <- lift (cost row cluster_name) ;;
                        ret (times [i; j] c)) (enumerate cluster_names) ;;
             ret (quicksum terms)) (enumerate data) ;;
  ret (quicksum terms).

(** Line 119: row [i] is in exactly one of [k] clusters. *)
Definition assignment_constr (k i : nat) : Constr :=
  {| lhs := sum_vars (λ j, [i; j]) k;
     op := EQUAL;
     rhs := 1;
     cname := "Artist_" +:+ pretty i +:+ "_Cluster_Assignment" |}.

(** Line 122: [max(1, len(data) // len(profiles))]. *)
Definition min_artists (n k : nat) : exn + nat :=
  match py_floordiv n k with
  | inl e => inl e
  | inr q => inr (Nat.max 1 q)
  end.

(** Line 124: cluster [j] has at least [min_artists] of the [n] rows. *)
Definition min_constr (n min_artists : nat) (j : nat) (cluster_name : string) : Constr :=
  {| lhs := sum_vars (λ i, [i; j]) n;
     op := GREATER_EQUAL;
     rhs := inject_Z (Z.of_nat min_artists);
     cname := "Min_" +:+ cluster_name |}.

(** Lines 102-124: the model. *)
Definition cluster_model (data : list row) (profiles : list (string * Profiles.Modified.cluster_data)) : M event Model :=
  let cluster_names := Profiles.Modified.cluster_names profiles in
  let model := new_model "Artist Clustering" in
  let model := addVars model [length data; length profiles] in
  e <- objective_of data cluster_names ;;
  let model := setObjective model e in
  let model := foldl (λ model i, addConstr model (assignment_constr (length profiles) i))
                 model (seq 0 (length data)) in
  min_artists <- lift (min_artists (length data) (length profiles)) ;;
  let model := foldl (λ model '(j, cluster_name),
                   addConstr model (min_constr (length data) min_artists j cluster_name))
                 model (enumerate cluster_names) in
  ret model.

(** Lines 132-135: the first cluster whose variable is above one half names
    the row; a row with no such cluster is left without a label. *)
Fixpoint assign_cluster (result : option solution) (i : nat) (row : row)
    (items : list (nat * string)) : M event (gmap string value) :=
  match items with
  | [] => ret row
  | (j, cluster_name) :: items' =>
      x <- lift (attr_X result [i; j]) ;;
      if chosen x then ret (<["Cluster" := VStr cluster_name]> row)
      else assign_cluster result i row items'
  end.

(** Lines 130-135 *)
Definition assign_clusters (result : option solution) (cluster_names : list string)
    (data : list row) : M event (list row) :=
  mapM (λ '(i, row), assign_cluster result i row (enumerate cluster_names))
    (enumerate data).

Definition cluster_artists (data : list row) (profiles : list (string * Profiles.Modified.cluster_data)) : M event (list row) :=
  model <- cluster_model data profiles ;;
  let result := optimize model in
  let cluster_names := Profiles.Modified.cluster_names profiles in
  data <- assign_clusters result cluster_names data ;;
  ret data.

End defs.
End Modified.

(** * The model in closed form *)

(** ** Sums of variables *)

Lemma getValue_sum_vars sol (var : nat → var) n :
  getValue sol (sum_vars var n) == Qsum ((λ k, X sol (var k)) <$> seq 0 n).
Proof.
  unfold sum_vars. rewrite getValue_quicksum, <- list_fmap_compose.
  apply Qsum_fmap_ext, Forall_forall. intros k _.
  unfold compose, just. rewrite getValue_cons. cbn. lra.
Qed.

(** An enumeration mapped is an indexed map. *)
Lemma fmap_enumerate {A B} (h : nat → A → B) (l : list A) :
  (λ '(i, a), h i a) <$> enumerate l = imap h l.
Proof.
  apply list_eq. intros i.
  rewrite list_lookup_fmap, enumerate_lookup, list_lookup_imap.
  by destruct (l !! i).
Qed.

(** ** The model of modified_artist_clustering.py *)

(** The cost of a row in a cluster as a number: its distance, 0 where the
    row stores no number, and the penalty. *)
Definition cost_of (r : row) (name : string) : Q :=
  default 0 (cell name r) + Modified.penalty name.

(** Every row stores a number under the key of every cluster. *)
Definition numeric_costs (data : list row) (names : list string) : Prop :=
  Forall (numeric_column data) names.

#[export] Instance numeric_costs_dec data names : Decision (numeric_costs data names).
Proof. unfold numeric_costs, numeric_column. apply _. Defined.

(** The objective: the cost of row [i] in cluster [j] times [x[i, j]]. *)
Definition total_cost (data : list row) (names : list string) : LinExpr :=
  quicksum (imap (λ i r,
    quicksum (imap (λ j name, times [i; j] (cost_of r name)) names)) data).

(** The model for rows [data], clusters [names] and floor [m]. *)
Definition model_of (data : list row) (names : list string) (m : nat) : Model :=
  {| vars := list_to_set (tuples [length data; length names]);
     objective := total_cost data names;
     constrs := (Modified.assignment_constr (length names) <$> seq 0 (length data)) ++
                imap (Modified.min_constr (length data) m) names |}.

Section modified_model.
Implicit Types (data : list row) (names : list string) (sol : solution).

Lemma numeric_costs_nil names : numeric_costs [] names.
Proof. apply Forall_forall. intros c _. constructor. Qed.

Lemma cost_numeric (r : row) name :
  is_Some (cell name r) → Modified.cost r name = inr (cost_of r name).
Proof.
  unfold cost_of, Modified.cost, cell, dict_item. intros [q Hq].
  destruct (r !! distance_key name) as [[]|]; by simplify_eq/=.
Qed.

Lemma cost_not_numeric (r : row) name :
  cell name r = None →
  Modified.cost r name = inl (if r !! distance_key name is Some _ then TypeError else KeyError).
Proof.
  unfold Modified.cost, cell, dict_item.
  by destruct (r !! distance_key name) as [[]|].
Qed.

Lemma modified_objective_returns data names :
  numeric_costs data names →
  Modified.objective_of data names = ret (total_cost data names).
Proof.
  intros Hnum. unfold Modified.objective_of, total_cost.
  rewrite <- fmap_enumerate.
  erewrite mapM_pure, bind_ret_l; [reflexivity|].
  apply Forall_forall. intros [i r] Hr%elem_of_enumerate%list_elem_of_lookup_2.
  rewrite <- fmap_enumerate. erewrite mapM_pure, bind_ret_l; [reflexivity|].
  apply Forall_forall. intros [j name] Hn%elem_of_enumerate%list_elem_of_lookup_2.
  rewrite cost_numeric; [by rewrite bind_lift_inr|].
  unfold numeric_costs, numeric_column in Hnum.
  by eapply Forall_forall in Hnum; [eapply Forall_forall in Hnum|].
Qed.

Lemma modified_model_returns data profiles :
  let names := Profiles.Modified.cluster_names profiles in
  profiles ≠ [] → numeric_costs data names →
  Modified.cluster_model data profiles =
  ret (model_of data names (Nat.max 1 (length data / length names))).
Proof.
  intros names Hne Hnum. unfold Modified.cluster_model.
  fold names. rewrite modified_objective_returns, bind_ret_l by done.
  unfold Modified.min_artists. rewrite py_floordiv_ok by by destruct profiles.
  rewrite bind_lift_inr.
  rewrite (foldl_addConstr _ (Modified.assignment_constr (length profiles))) by done.
  rewrite (foldl_addConstr _ (λ '(j, name),
    Modified.min_constr (length data) (Nat.max 1 (length data / length profiles)) j name))
    by by intros ? [].
  rewrite fmap_enumerate. unfold model_of, names, Profiles.Modified.cluster_names.
  rewrite length_fmap. cbn. by rewrite union_empty_l_L.
Qed.

(** With no profile the division of line 122 raises. *)
Lemma modified_model_no_profiles data :
  Modified.cluster_model data [] = raise ZeroDivisionError.
Proof.
  unfold Modified.cluster_model. rewrite modified_objective_returns by constructor.
  by rewrite bind_ret_l.
Qed.

Lemma holds_assignment_constr sol k i :
  holds sol (Modified.assignment_constr k i) ↔
  Qsum ((λ j, X sol [i; j]) <$> seq 0 k) == 1.
Proof.
  unfold holds. cbn [op lhs rhs Modified.assignment_constr].
  by rewrite getValue_sum_vars.
Qed.

Lemma holds_min_constr sol n m j name :
  holds sol (Modified.min_constr n m j name) ↔
  Qnat m <= Qsum ((λ i, X sol [i; j]) <$> seq 0 n).
Proof.
  unfold holds. cbn [op lhs rhs Modified.min_constr].
  by rewrite getValue_sum_vars.
Qed.

(** The solutions of the model: 0/1 values on the pairs of a row and a
    cluster, that sum to 1 along each row and to the floor at least along
    each cluster. *)
Lemma modified_feasible_iff data names m sol :
  feasible (model_of data names m) sol ↔
  dom sol = list_to_set (tuples [length data; length names]) ∧
  map_Forall (λ _ q, binary q) sol ∧
  (∀ i, (i < length data)%nat →
     Qsum ((λ j, X sol [i; j]) <$> seq 0 (length names)) == 1) ∧
  (∀ j, (j < length names)%nat →
     Qnat m <= Qsum ((λ i, X sol [i; j]) <$> seq 0 (length data))).
Proof.
  unfold feasible, model_of. cbn [vars constrs].
  rewrite Forall_app, Forall_fmap, !Forall_forall.
  apply and_iff_compat_l, and_iff_compat_l. apply and_iff_both.
  - setoid_rewrite elem_of_seq. unfold compose.
    setoid_rewrite holds_assignment_constr.
    split; intros Hrow i ?; apply Hrow; lia.
  - split.
    + intros Hcol j Hj. apply lookup_lt_is_Some_2 in Hj as [name Hj].
      apply (holds_min_constr sol _ m j name), Hcol.
      apply list_elem_of_lookup. exists j. by rewrite list_lookup_imap, Hj.
    + intros Hcol c (j & Hc)%list_elem_of_lookup.
      rewrite list_lookup_imap in Hc.
      destruct (names !! j) as [name|] eqn:Hj; simplify_eq/=.
      apply holds_min_constr, Hcol. by eapply lookup_lt_Some.
Qed.

End modified_model.

(** ** Assignments as solutions *)

(** The solution in which row [i] is in cluster [g i]. *)
Definition assignment (g : nat → nat) (n k : nat) : solution :=
  solution_of (λ v, match v with
                    | [i; j] => indicator (g i = j)
                    | _ => 0
                    end) (tuples [n; k]).

(** The number of the [n] rows that [g] puts in cluster [j]. *)
Definition members (g : nat → nat) (n j : nat) : nat :=
  length (filter (λ i, g i = j) (seq 0 n)).

(** [g] puts each of [n] rows in one of [k] clusters and at least [m] rows in
    each cluster. *)
Definition balanced (g : nat → nat) (n k m : nat) : Prop :=
  (∀ i, (i < n)%nat → (g i < k)%nat) ∧ (∀ j, (j < k)%nat → (m ≤ members g n j)%nat).

Section assignments.
Context (g : nat → nat) (n k : nat).

Lemma X_assignment i j :
  (i < n)%nat → (j < k)%nat → X (assignment g n k) [i; j] = indicator (g i = j).
Proof.
  intros Hi Hj. unfold assignment. rewrite X_solution_of; [done|].
  apply elem_of_tuples_2. eauto.
Qed.

Lemma assignment_binary : map_Forall (λ _ q, binary q) (assignment g n k).
Proof.
  apply solution_of_binary. intros v (i & j & -> & _)%elem_of_tuples_2.
  apply indicator_binary.
Qed.

Lemma assignment_row i :
  (i < n)%nat → (g i < k)%nat →
  Qsum ((λ j, X (assignment g n k) [i; j]) <$> seq 0 k) == 1.
Proof.
  intros Hi Hg.
  rewrite (Qsum_fmap_ext _ (λ j, indicator (g i = j))).
  - rewrite Qsum_indicator, filter_eq_seq by lia. reflexivity.
  - apply Forall_forall. intros j Hj%elem_of_seq.
    rewrite X_assignment by lia. reflexivity.
Qed.

Lemma assignment_column j :
  (j < k)%nat →
  Qsum ((λ i, X (assignment g n k) [i; j]) <$> seq 0 n) == Qnat (members g n j).
Proof.
  intros Hj. rewrite (Qsum_fmap_ext _ (λ i, indicator (g i = j))).
  - apply Qsum_indicator.
  - apply Forall_forall. intros i Hi%elem_of_seq.
    rewrite X_assignment by lia. reflexivity.
Qed.

End assignments.

Section modified_feasibility.
Implicit Types (data : list row) (names : list string) (sol : solution).

(** A balanced assignment is a solution of the model. *)
Lemma assignment_feasible data names m g :
  balanced g (length data) (length names) m →
  feasible (model_of data names m) (assignment g (length data) (length names)).
Proof.
  intros [Hg Hm]. apply modified_feasible_iff. split_and!.
  - apply dom_solution_of.
  - apply assignment_binary.
  - intros i Hi. apply assignment_row; auto.
  - intros j Hj. rewrite assignment_column by done. apply Qnat_le. auto.
Qed.

(** Dealing the rows round-robin is balanced when there are at least as many
    rows as clusters. *)
Lemma round_robin_balanced (n k : nat) :
  (0 < k ≤ n)%nat → balanced (λ i, i mod k) n k (Nat.max 1 (n / k)).
Proof.
  intros Hk. split.
  - intros i _. apply Nat.mod_upper_bound. lia.
  - intros j Hj. unfold members.
    pose proof (round_robin_count n k j Hj).
    assert (1 ≤ n / k)%nat by (apply Nat.div_le_lower_bound; lia). lia.
Qed.

(** The rows of a solution, summed over all clusters, are the rows of the
    data: with fewer rows than the floors ask for there is no solution. *)
Lemma modified_infeasible data names m sol :
  (length data < length names * m)%nat → ¬ feasible (model_of data names m) sol.
Proof.
  intros Hlt (_ & _ & Hrow & Hcol)%modified_feasible_iff.
  set (f := λ i j : nat, X sol [i; j]).
  assert (Qsum ((λ i, Qsum (f i <$> seq 0 (length names))) <$> seq 0 (length data))
          == Qnat (length data)) as Hrows.
  { rewrite (Qsum_fmap_ext _ (λ _, 1)).
    - rewrite Qsum_const, length_seq. lra.
    - apply Forall_forall. intros i Hi%elem_of_seq. apply Hrow. lia. }
  assert (Qnat m * Qnat (length names) <=
          Qsum ((λ j, Qsum ((λ i, f i j) <$> seq 0 (length data))) <$> seq 0 (length names)))
    as Hcols.
  { pose proof (Qsum_fmap_ge (Qnat m) (λ j, Qsum ((λ i, f i j) <$> seq 0 (length data)))
                  (seq 0 (length names))) as Hge.
    rewrite length_seq in Hge. apply Hge.
    apply Forall_forall. intros j Hj%elem_of_seq. apply Hcol. lia. }
  rewrite <- Qsum_exchange, Hrows, <- Qnat_mul in Hcols.
  apply Qnat_le in Hcols. lia.
Qed.

(** The model has a solution exactly when there are at least as many rows as
    the floors ask for. *)
Lemma modified_feasible_exists data names :
  names ≠ [] →
  (∃ sol, feasible (model_of data names (Nat.max 1 (length data / length names))) sol) ↔
  (length names ≤ length data)%nat.
Proof.
  intros Hne. assert (0 < length names)%nat by (destruct names; cbn; [done | lia]).
  split.
  - intros [sol Hsol]. destruct (decide (length names ≤ length data)%nat); [done|].
    exfalso. revert Hsol. apply modified_infeasible.
    rewrite Nat.div_small by lia. lia.
  - intros Hle. eexists. apply assignment_feasible, round_robin_balanced. lia.
Qed.

End modified_feasibility.

(** * Reading the labels back *)

(** The first cluster of row [i] whose variable is above one half. *)
Definition cluster_of (sol : solution) (k i : nat) : nat :=
  default 0%nat (fst <$> list_find (λ j, 1 # 2 < X sol [i; j]) (seq 0 k)).

(** The rows labelled with the clusters that [g] gives them. *)
Definition label_rows (g : nat → nat) (names : list string) (data : list row) : list row :=
  imap (λ i r, match names !! g i with
               | Some name => <["Cluster" := VStr name]> r
               | None => r
               end) data.

Section extraction.
Implicit Types (data : list row) (names : list string) (sol : solution).

Lemma attr_X_Some sol v : v ∈ dom sol → attr_X (Some sol) v = inr (X sol v).
Proof. intros [q Hq]%elem_of_dom. unfold attr_X, X. by rewrite Hq. Qed.

Lemma assign_cluster_skip sol i (r : row) l1 l2 :
  Forall (λ item, [i; item.1] ∈ dom sol ∧ ¬ 1 # 2 < X sol [i; item.1]) l1 →
  Modified.assign_cluster (Some sol) i r (l1 ++ l2) =
  Modified.assign_cluster (Some sol) i r l2.
Proof.
  induction 1 as [|[j name] l1 [Hdom Hx] _ IH]; [done|].
  cbn [app Modified.assign_cluster]. rewrite attr_X_Some, bind_lift_inr by done.
  unfold chosen. by rewrite bool_decide_eq_false_2.
Qed.

Lemma assign_cluster_hit sol i (r : row) j name l :
  [i; j] ∈ dom sol → 1 # 2 < X sol [i; j] →
  Modified.assign_cluster (Some sol) i r ((j, name) :: l) =
  ret (<["Cluster" := VStr name]> r).
Proof.
  intros Hdom Hx. cbn [Modified.assign_cluster].
  rewrite attr_X_Some, bind_lift_inr by done.
  unfold chosen. by rewrite bool_decide_eq_true_2.
Qed.

Lemma assign_cluster_None i (r : row) item l :
  Modified.assign_cluster None i r (item :: l) = raise AttributeError.
Proof. by destruct item. Qed.

(** In a solution each row has its variable at 1 for one cluster, which is
    [cluster_of], and at 0 for the others. *)
Lemma modified_row_choice data names m sol i :
  feasible (model_of data names m) sol → (i < length data)%nat →
  let j := cluster_of sol (length names) i in
  (j < length names)%nat ∧
  ∀ j', (j' < length names)%nat → X sol [i; j'] == indicator (j = j').
Proof.
  intros (_ & Hbin & Hrow & _)%modified_feasible_iff Hi.
  destruct (Qsum_binary_one ((λ j, X sol [i; j]) <$> seq 0 (length names)))
    as (j0 & q & Hj0 & Hq & Hrest); [|by apply Hrow|].
  { apply Forall_fmap, Forall_forall. intros j _. by apply X_binary. }
  apply list_lookup_fmap_Some in Hj0 as (? & -> & Hj0).
  apply lookup_seq in Hj0 as [-> Hj0]. cbn in Hq, Hj0.
  assert (∀ j', (j' < length names)%nat → j' ≠ j0 → X sol [i; j'] == 0) as Hzero.
  { intros j' Hj' Hne. apply (Hrest j'); [done|].
    by rewrite list_lookup_fmap, lookup_seq_lt. }
  assert (cluster_of sol (length names) i = j0) as ->.
  { unfold cluster_of.
    rewrite (proj2 (list_find_Some _ _ j0 j0)); [done|]. split_and!.
    - by apply lookup_seq_lt.
    - lra.
    - intros j' ? [-> ?]%lookup_seq Hlt. cbn. rewrite Hzero by lia. lra. }
  split; [done|]. intros j' Hj'. unfold indicator. case_decide as E.
  - by subst j'.
  - apply Hzero; [done | congruence].
Qed.

Lemma modified_dom data names m sol i j :
  feasible (model_of data names m) sol →
  (i < length data)%nat → (j < length names)%nat → [i; j] ∈ dom sol.
Proof.
  intros [-> _] Hi Hj. apply elem_of_list_to_set, elem_of_tuples_2. eauto.
Qed.

(** The loop over the clusters labels a row of a solution with the name of
    its cluster. *)
Lemma assign_cluster_feasible data names m sol i (r : row) :
  feasible (model_of data names m) sol → (i < length data)%nat →
  ∃ name, names !! cluster_of sol (length names) i = Some name ∧
    Modified.assign_cluster (Some sol) i r (enumerate names) =
    ret (<["Cluster" := VStr name]> r).
Proof.
  intros Hsol Hi. destruct (modified_row_choice _ _ _ _ i Hsol Hi) as [Hj HX].
  set (j := cluster_of sol (length names) i) in *.
  destruct (lookup_lt_is_Some_2 names j Hj) as [name Hname].
  exists name. split; [done|].
  rewrite <- (take_drop_middle (enumerate names) j (j, name))
    by by rewrite enumerate_lookup, Hname.
  rewrite assign_cluster_skip.
  - apply assign_cluster_hit; [by eapply modified_dom|].
    rewrite HX by done. by apply indicator_half.
  - apply Forall_lookup_2. intros idx [j' name'] [Hidx Hlt]%lookup_take_Some.
    rewrite enumerate_lookup in Hidx.
    destruct (names !! idx) eqn:E; simplify_eq/=.
    split; [eapply modified_dom; [done..|lia]|].
    rewrite HX by lia. rewrite indicator_half. lia.
Qed.

(** Reading a solution back labels every row with its cluster. *)
Lemma assign_clusters_feasible data names m sol :
  feasible (model_of data names m) sol →
  Modified.assign_clusters (Some sol) names data =
  ret (label_rows (cluster_of sol (length names)) names data).
Proof.
  intros Hsol. unfold Modified.assign_clusters, label_rows.
  rewrite <- fmap_enumerate. apply mapM_pure, Forall_forall.
  intros [i r] Hr%elem_of_enumerate%lookup_lt_Some.
  destruct (assign_cluster_feasible data names m sol i r Hsol Hr) as (name & -> & ->).
  done.
Qed.

(** Reading back when the solver has found no solution raises at the first
    row, and returns when there is no row. *)
Lemma assign_clusters_None names data :
  names ≠ [] →
  Modified.assign_clusters None names data =
  match data with [] => ret [] | _ => raise AttributeError end.
Proof.
  intros Hne. destruct data as [|r data]; [done|]. destruct names; [done|].
  unfold Modified.assign_clusters, enumerate. cbn [length seq zip zip_with mapM].
  by rewrite assign_cluster_None.
Qed.

End extraction.

(** * Solutions and assignments *)

(** The total cost of the assignment [g]. *)
Definition assignment_cost (g : nat → nat) (names : list string) (data : list row) : Q :=
  Qsum (imap (λ i r, cost_of r (default "" (names !! g i))) data).

(** The rows labelled with a cluster name. *)
Definition labelled (name : string) (data : list row) : list row :=
  filter (λ r, r !! "Cluster" = Some (VStr name)) data.

Section solutions.
Implicit Types (data : list row) (names : list string) (sol : solution).

(** A solution is the assignment of its rows to their clusters. *)
Lemma solution_is_assignment data names m sol v :
  feasible (model_of data names m) sol →
  X sol v == X (assignment (cluster_of sol (length names)) (length data) (length names)) v.
Proof.
  intros Hsol. destruct (decide (v ∈ tuples [length data; length names])) as [Hv|Hv].
  - apply elem_of_tuples_2 in Hv as (i & j & -> & Hi & Hj).
    rewrite X_assignment by done. by apply (modified_row_choice data names m).
  - unfold X, assignment. rewrite lookup_solution_of, decide_False by done.
    destruct Hsol as [Hdom _]. rewrite (proj1 (not_elem_of_dom sol v)); [done|].
    rewrite Hdom. unfold model_of. cbn [vars]. by rewrite elem_of_list_to_set.
Qed.

Lemma solution_balanced data names m sol :
  feasible (model_of data names m) sol →
  balanced (cluster_of sol (length names)) (length data) (length names) m.
Proof.
  intros Hsol. split.
  - intros i Hi. by apply (modified_row_choice data names m).
  - intros j Hj. apply Qnat_le. rewrite <- assignment_column by done.
    pose proof Hsol as (_ & _ & _ & Hcol)%modified_feasible_iff.
    eapply Qle_trans; [by apply Hcol|]. apply Qle_lteq. right.
    apply Qsum_fmap_ext, Forall_forall. intros i _.
    by apply (solution_is_assignment data names m).
Qed.

(** The objective at an assignment is the cost of the assignment. *)
Lemma getValue_total_cost g data names :
  (∀ i, (i < length data)%nat → (g i < length names)%nat) →
  getValue (assignment g (length data) (length names)) (total_cost data names) ==
  assignment_cost g names data.
Proof.
  intros Hg. unfold total_cost, assignment_cost.
  rewrite getValue_quicksum, fmap_imap. apply Qsum_imap_ext.
  intros i r Hi%lookup_lt_Some. unfold compose.
  rewrite getValue_quicksum, fmap_imap.
  destruct (lookup_lt_is_Some_2 names (g i) (Hg i Hi)) as [name Hname].
  rewrite Hname. cbn [default].
  rewrite (Qsum_imap_ext _ (λ j name, cost_of r name * indicator (g i = j))).
  - by apply Qsum_imap_indicator.
  - intros j n Hj%lookup_lt_Some. unfold compose, times.
    rewrite getValue_cons, X_assignment by done. cbn. lra.
Qed.

(** Each cluster labels at least the rows that the assignment gives it. *)
Lemma members_le_labelled g names data j name :
  names !! j = Some name →
  (members g (length data) j ≤ length (labelled name (label_rows g names data)))%nat.
Proof.
  intros Hname. apply Qnat_le. unfold members, labelled.
  rewrite <- Qsum_indicator. apply Qsum_binary_count.
  apply Forall2_same_length_lookup_2.
  { unfold label_rows. by rewrite length_fmap, length_seq, length_imap. }
  intros i q r' (i' & -> & [-> _]%lookup_seq)%list_lookup_fmap_Some Hr'.
  split; [apply indicator_binary|]. cbn. intros Hq.
  assert (g i = j) as Hg by (apply (indicator_half (g i = j)); lra).
  unfold label_rows in Hr'. rewrite list_lookup_imap in Hr'.
  destruct (data !! i) as [r|]; simplify_eq/=.
  by rewrite Hname, lookup_insert_eq.
Qed.

Lemma label_rows_Forall2 g names data :
  (∀ i, (i < length data)%nat → (g i < length names)%nat) →
  Forall2 (λ r r', ∃ name, name ∈ names ∧ r' = <["Cluster" := VStr name]> r)
    data (label_rows g names data).
Proof.
  intros Hg. apply Forall2_same_length_lookup_2.
  { unfold label_rows. by rewrite length_imap. }
  intros i r r' Hr Hr'. unfold label_rows in Hr'.
  rewrite list_lookup_imap, Hr in Hr'.
  destruct (lookup_lt_is_Some_2 names (g i)) as [name Hname].
  { apply Hg. by eapply lookup_lt_Some. }
  rewrite Hname in Hr'. simplify_eq/=. exists name.
  split; [by eapply list_elem_of_lookup_2 | done].
Qed.

(** An optimal solution is a balanced assignment of least cost. *)
Lemma modified_solution_optimal data names m sol :
  optimal (model_of data names m) sol →
  let g := cluster_of sol (length names) in
  balanced g (length data) (length names) m ∧
  ∀ g', balanced g' (length data) (length names) m →
        assignment_cost g names data <= assignment_cost g' names data.
Proof.
  intros [Hsol Hmin] g. pose proof (solution_balanced _ _ _ _ Hsol) as Hg.
  split; [done|]. intros g' Hg'.
  rewrite <- !getValue_total_cost by (by apply Hg || by apply Hg').
  eapply Qle_trans; [|apply Hmin; by apply assignment_feasible].
  apply Qle_lteq. right. symmetry. apply getValue_ext.
  intros v. by apply (solution_is_assignment data names m).
Qed.

End solutions.

(** * Assignments written as solutions and read back *)

Section round_trip.
Implicit Types (data : list row) (names : list string) (g : nat → nat).

(** The cluster read back from the solution of an assignment is the cluster
    of the assignment. *)
Lemma cluster_of_assignment data names g i :
  (∀ i, (i < length data)%nat → (g i < length names)%nat) → (i < length data)%nat →
  cluster_of (assignment g (length data) (length names)) (length names) i = g i.
Proof.
  intros Hg Hi.
  assert (feasible (model_of data names 0) (assignment g (length data) (length names)))
    as Hsol by (apply assignment_feasible; split; [done | lia]).
  destruct (modified_row_choice data names 0 _ i Hsol Hi) as [_ HX].
  specialize (HX (g i) (Hg i Hi)). rewrite X_assignment in HX by auto.
  rewrite (indicator_true (g i = g i)) in HX by done.
  apply (indicator_half (_ = g i)). lra.
Qed.

Lemma label_rows_ext g g' names data :
  (∀ i, (i < length data)%nat → g i = g' i) →
  label_rows g names data = label_rows g' names data.
Proof.
  intros Hg. unfold label_rows. apply list_eq. intros i.
  rewrite !list_lookup_imap. destruct (data !! i) as [r|] eqn:Hi; [|done].
  cbn. by rewrite (Hg i) by by eapply lookup_lt_Some.
Qed.

Lemma assign_clusters_assignment data names g :
  (∀ i, (i < length data)%nat → (g i < length names)%nat) →
  Modified.assign_clusters (Some (assignment g (length data) (length names))) names data
  = ret (label_rows g names data).
Proof.
  intros Hg. rewrite (assign_clusters_feasible data names 0)
    by (apply assignment_feasible; split; [done | lia]).
  f_equal. apply label_rows_ext. intros i Hi. by apply cluster_of_assignment.
Qed.

(** An assignment of the rows to the clusters, written as the 0/1
    values of the variables [x[i, j]] and read back by the loops of lines
    130-135, labels every row with the cluster the assignment gave it. *)
Theorem assign_clusters_round_trip data names g :
  (∀ i, (i < length data)%nat → (g i < length names)%nat) →
  Modified.assign_clusters (Some (assignment g (length data) (length names))) names data
  = ret (label_rows g names data) ∧
  ∀ i, (i < length data)%nat →
       cluster_of (assignment g (length data) (length names)) (length names) i = g i.
Proof.
  intros Hg. split; [by apply assign_clusters_assignment|].
  intros i Hi. by apply cluster_of_assignment.
Qed.

End round_trip.

(** ** Values that choose no cluster *)

Section no_choice.
Implicit Types (data : list row) (names : list string) (sol : solution).

(** No variable of the rows is above one half. *)
Definition none_chosen sol (n k : nat) : Prop :=
  Forall (λ v, v ∈ dom sol ∧ ¬ 1 # 2 < X sol v) (tuples [n; k]).

#[export] Instance none_chosen_dec sol n k : Decision (none_chosen sol n k).
Proof. unfold none_chosen. apply _. Defined.

(** The inner loop ends without a [break] and line 134 is not reached. *)
Lemma assign_cluster_no_choice sol i (r : row) names :
  (∀ j, (j < length names)%nat → [i; j] ∈ dom sol ∧ ¬ 1 # 2 < X sol [i; j]) →
  Modified.assign_cluster (Some sol) i r (enumerate names) = ret r.
Proof.
  intros Hsol. rewrite <- (app_nil_r (enumerate names)), assign_cluster_skip; [done|].
  apply Forall_forall. intros [j name] Hj%elem_of_enumerate%lookup_lt_Some.
  by apply Hsol.
Qed.

Lemma assign_clusters_unlabelled sol names data :
  none_chosen sol (length data) (length names) →
  Modified.assign_clusters (Some sol) names data = ret data.
Proof.
  intros Hsol. unfold Modified.assign_clusters.
  rewrite (mapM_pure _ (λ '(i, r), r));
    [rewrite (fmap_enumerate (λ _ r, r)); f_equal; apply list_eq; intros i;
     rewrite list_lookup_imap; by destruct (data !! i)|].
  apply Forall_forall. intros [i r] Hr%elem_of_enumerate%lookup_lt_Some.
  apply assign_cluster_no_choice. intros j Hj.
  apply (proj1 (Forall_forall _ _) Hsol), elem_of_tuples_2. eauto.
Qed.

(** C37: read from values of which none is above one half, the loops of
    lines 130-135 return the rows as they were given: no row receives a
    'Cluster' and nothing is raised. *)
Theorem assign_clusters_no_choice sol names data :
  none_chosen sol (length data) (length names) →
  Modified.assign_clusters (Some sol) names data = ret data.
Proof. apply assign_clusters_unlabelled. Qed.

End no_choice.

(** * cluster_artists of modified_artist_clustering.py *)

Section modified_run.
Context `{Solver}.
Implicit Types (data : list row) (profiles : list (string * Profiles.Modified.cluster_data)).

(** The floor of the model for [n] rows and [k] clusters. *)
Definition floor_of (n k : nat) : nat := Nat.max 1 (n / k).

(** The model that [cluster_artists] solves. *)
Definition cluster_model_of data profiles : Model :=
  let names := Profiles.Modified.cluster_names profiles in
  model_of data names (floor_of (length data) (length names)).

Lemma modified_cluster_artists_eq data profiles :
  let names := Profiles.Modified.cluster_names profiles in
  profiles ≠ [] → numeric_costs data names →
  Modified.cluster_artists data profiles =
  Modified.assign_clusters (optimize (cluster_model_of data profiles)) names data.
Proof.
  intros names Hne Hnum. unfold Modified.cluster_artists.
  rewrite modified_model_returns, bind_ret_l by done. cbv zeta.
  by rewrite bind_ret_r.
Qed.

Lemma length_cluster_names profiles :
  length (Profiles.Modified.cluster_names profiles) = length profiles.
Proof. unfold Profiles.Modified.cluster_names. by rewrite length_fmap. Qed.

Lemma cluster_names_nil profiles :
  profiles ≠ [] → Profiles.Modified.cluster_names profiles ≠ [].
Proof. by destruct profiles. Qed.

(** With a solution from the solver, the rows come back labelled with their
    clusters and nothing is printed. *)
Lemma modified_run_Some data profiles sol :
  let names := Profiles.Modified.cluster_names profiles in
  profiles ≠ [] → numeric_costs data names →
  optimize (cluster_model_of data profiles) = Some sol →
  Modified.cluster_artists data profiles =
  ret (label_rows (cluster_of sol (length names)) names data).
Proof.
  intros names Hne Hnum Hopt. rewrite modified_cluster_artists_eq, Hopt by done.
  eapply assign_clusters_feasible, optimize_optimal, Hopt.
Qed.

(** With no solution, reading [X] for the first row raises. *)
Lemma modified_run_None data profiles :
  let names := Profiles.Modified.cluster_names profiles in
  profiles ≠ [] → numeric_costs data names →
  optimize (cluster_model_of data profiles) = None →
  Modified.cluster_artists data profiles =
  match data with [] => ret [] | _ => raise AttributeError end.
Proof.
  intros names Hne Hnum Hopt. rewrite modified_cluster_artists_eq, Hopt by done.
  by apply assign_clusters_None, cluster_names_nil.
Qed.

(** The solver finds a solution exactly when there are at least as many rows
    as clusters. *)
Lemma modified_optimize_Some data profiles :
  profiles ≠ [] →
  is_Some (optimize (cluster_model_of data profiles)) ↔
  (length profiles ≤ length data)%nat.
Proof.
  intros Hne. set (names := Profiles.Modified.cluster_names profiles).
  assert (length profiles = length names) as ->
    by (unfold names, Profiles.Modified.cluster_names; by rewrite length_fmap).
  rewrite <- modified_feasible_exists by by apply cluster_names_nil.
  unfold cluster_model_of, floor_of. fold names. split.
  - intros [sol Hsol]. exists sol. by apply optimize_optimal.
  - intros [sol Hsol]. destruct (optimize _) eqn:Hopt; [done|].
    by apply (optimize_infeasible _ sol) in Hopt.
Qed.

Lemma modified_optimize_None data profiles :
  profiles ≠ [] → (length data < length profiles)%nat →
  optimize (cluster_model_of data profiles) = None.
Proof.
  intros Hne Hlt. destruct (optimize _) as [sol|] eqn:Hopt; [|done].
  assert (length profiles ≤ length data)%nat; [|lia].
  by apply modified_optimize_Some.
Qed.

(** With no row nothing is read back, whatever the solver has found. *)
Lemma modified_cluster_artists_nil profiles :
  profiles ≠ [] → Modified.cluster_artists [] profiles = ret [].
Proof.
  intros Hne. unfold Modified.cluster_artists.
  rewrite modified_model_returns, bind_ret_l by (done || apply numeric_costs_nil).
  reflexivity.
Qed.

End modified_run.

(** ** What a successful run implies *)

Section modified_inversion.
Context `{Solver}.
Implicit Types (data : list row) (profiles : list (string * Profiles.Modified.cluster_data)).

Lemma cost_returns (r : row) name c :
  Modified.cost r name = inr c → is_Some (cell name r).
Proof.
  unfold Modified.cost, cell, dict_item.
  destruct (r !! distance_key name) as [[]|]; by simplify_eq/=.
Qed.

(** The objective is built only when every cost is a number. *)
Lemma modified_objective_numeric data names e :
  returns (Modified.objective_of data names) e → numeric_costs data names.
Proof.
  unfold Modified.objective_of.
  intros (terms & Hterms%mapM_returns_iff & _)%returns_bind_inv.
  apply Forall_forall. intros name [j Hj]%list_elem_of_lookup.
  apply Forall_forall. intros r [i Hi]%list_elem_of_lookup.
  eapply (Forall2_lookup_l _ _ _ i (i, r)) in Hterms as (t & _ & Ht);
    [|by rewrite enumerate_lookup, Hi].
  apply returns_bind_inv in Ht as (ts & Hts%mapM_returns_iff & _).
  eapply (Forall2_lookup_l _ _ _ j (j, name)) in Hts as (t' & _ & Ht');
    [|by rewrite enumerate_lookup, Hj].
  apply returns_bind_inv in Ht' as (c & Hc%returns_lift_inv & _).
  by eapply cost_returns.
Qed.

(** [cluster_artists] returns only for a registry that is not empty and
    rows with numeric costs. *)
Lemma modified_returns_inv data profiles data' :
  returns (Modified.cluster_artists data profiles) data' →
  profiles ≠ [] ∧ numeric_costs data (Profiles.Modified.cluster_names profiles).
Proof.
  unfold Modified.cluster_artists.
  intros (model & Hmodel & _)%returns_bind_inv. split.
  - intros ->. by rewrite modified_model_no_profiles in Hmodel.
  - unfold Modified.cluster_model in Hmodel.
    apply returns_bind_inv in Hmodel as (e & He & _).
    by eapply modified_objective_numeric.
Qed.

(** A successful run on at least one row has a solution behind it. *)
Lemma modified_returns_solution data profiles data' :
  let names := Profiles.Modified.cluster_names profiles in
  returns (Modified.cluster_artists data profiles) data' → data ≠ [] →
  ∃ sol, optimal (cluster_model_of data profiles) sol ∧
         data' = label_rows (cluster_of sol (length names)) names data.
Proof.
  intros names Hret Hdata. destruct (modified_returns_inv _ _ _ Hret) as [Hne Hnum].
  destruct (optimize (cluster_model_of data profiles)) as [sol|] eqn:Hopt.
  - exists sol. split; [by apply optimize_optimal|].
    rewrite (modified_run_Some data profiles sol) in Hret by done.
    symmetry. by apply (returns_inj _ _ _ (returns_ret _)) in Hret.
  - rewrite modified_run_None in Hret by done. by destruct data.
Qed.

End modified_inversion.

(** * Sample tables *)

(** A row with its three normalised distances. *)
Definition scored (ready potential not_ready : Q) : row :=
  list_to_map [("Distance_to_Ready", VNum ready);
               ("Distance_to_Potential", VNum potential);
               ("Distance_to_Not Ready", VNum not_ready)].

Definition sample_scored : list row :=
  [scored 0 (1 # 2) 1; scored (1 # 2) 0 1; scored 1 (1 # 3) (1 # 4)].

(** * Theorems on cluster_artists of modified_artist_clustering.py *)

Section modified_theorems.
Context `{Solver}.
Implicit Types (data : list row) (profiles : list (string * Profiles.Modified.cluster_data)).

(** C1: with a registry that is not empty, numeric costs and at least as
    many rows as clusters, [cluster_artists] returns, without printing, the
    rows labelled by an assignment that gives every row one cluster and every
    cluster its floor [max(1, len(data) // len(profiles))] of rows, and whose
    total cost (distance plus the penalty of 'Not Ready') is the least among
    all such assignments. *)
Theorem modified_cluster_artists_spec data profiles :
  let names := Profiles.Modified.cluster_names profiles in
  let m := floor_of (length data) (length names) in
  profiles ≠ [] → numeric_costs data names →
  (length profiles ≤ length data)%nat →
  ∃ g, Modified.cluster_artists data profiles = ret (label_rows g names data) ∧
       balanced g (length data) (length names) m ∧
       ∀ g', balanced g' (length data) (length names) m →
             assignment_cost g names data <= assignment_cost g' names data.
Proof.
  intros names m Hne Hnum Hle.
  destruct (proj2 (modified_optimize_Some data profiles Hne) Hle) as [sol Hopt].
  exists (cluster_of sol (length names)). split.
  - by apply modified_run_Some.
  - eapply modified_solution_optimal, optimize_optimal, Hopt.
Qed.

(** With fewer rows than clusters, and at least one row, the model has no
    solution and [cluster_artists] raises [AttributeError] when it reads the
    first variable. *)
Theorem modified_cluster_artists_infeasible data profiles :
  profiles ≠ [] → numeric_costs data (Profiles.Modified.cluster_names profiles) →
  data ≠ [] → (length data < length profiles)%nat →
  Modified.cluster_artists data profiles = raise AttributeError.
Proof.
  intros Hne Hnum Hdata Hlt.
  rewrite modified_run_None by (done || by apply modified_optimize_None).
  by destruct data.
Qed.

(** With an empty registry [cluster_artists] raises [ZeroDivisionError],
    whatever the rows are. *)
Theorem modified_cluster_artists_no_profiles data :
  Modified.cluster_artists data [] = raise ZeroDivisionError.
Proof.
  unfold Modified.cluster_artists. by rewrite modified_model_no_profiles.
Qed.

(** The rows that [cluster_artists] returns are the rows it was given,
    in order, each with the name of one cluster under 'Cluster'. *)
Theorem modified_cluster_artists_labels data profiles data' :
  returns (Modified.cluster_artists data profiles) data' →
  Forall2 (λ r r', ∃ name, name ∈ Profiles.Modified.cluster_names profiles ∧
                           r' = <["Cluster" := VStr name]> r) data data'.
Proof.
  intros Hret. destruct data as [|r data].
  - destruct (modified_returns_inv _ _ _ Hret) as [Hne Hnum].
    unfold Modified.cluster_artists in Hret.
    rewrite modified_model_returns, bind_ret_l in Hret by done.
    by apply (returns_inj _ _ _ (returns_ret _)) in Hret as <-.
  - destruct (modified_returns_solution _ _ _ Hret) as (sol & [Hsol _] & ->); [done|].
    apply label_rows_Forall2. by apply (solution_balanced _ _ _ _ Hsol).
Qed.

(** C26: when [cluster_artists] returns for at least one row, every cluster
    name labels at least [max(1, len(data) // len(profiles))] rows. *)
Theorem modified_cluster_artists_floors data profiles data' name :
  returns (Modified.cluster_artists data profiles) data' → data ≠ [] →
  name ∈ Profiles.Modified.cluster_names profiles →
  (floor_of (length data) (length profiles) ≤ length (labelled name data'))%nat.
Proof.
  intros Hret Hdata [j Hj]%list_elem_of_lookup.
  destruct (modified_returns_solution _ _ _ Hret Hdata) as (sol & [Hsol _] & ->).
  apply solution_balanced in Hsol as [_ Hm].
  etrans; [|by apply members_le_labelled].
  rewrite <- (length_cluster_names profiles). apply Hm. by eapply lookup_lt_Some.
Qed.

(** C16: the model that [cluster_model] builds has a solution exactly when
    there are at least as many rows as clusters. *)
Theorem modified_cluster_model_feasible data profiles :
  profiles ≠ [] → numeric_costs data (Profiles.Modified.cluster_names profiles) →
  ∃ model, Modified.cluster_model data profiles = ret model ∧
           ((∃ sol, feasible model sol) ↔ (length profiles ≤ length data)%nat).
Proof.
  intros Hne Hnum. eexists. split; [by apply modified_model_returns|].
  rewrite modified_feasible_exists by by apply cluster_names_nil.
  unfold Profiles.Modified.cluster_names. by rewrite length_fmap.
Qed.

(** With no row [cluster_artists] returns the empty list although the
    model it has built has no solution: the floors ask for a row in every
    cluster. *)
Theorem modified_cluster_artists_no_rows profiles sol :
  profiles ≠ [] →
  Modified.cluster_artists [] profiles = ret [] ∧
  ¬ feasible (cluster_model_of [] profiles) sol.
Proof.
  intros Hne. split; [by apply modified_cluster_artists_nil|].
  apply modified_infeasible. unfold floor_of.
  destruct profiles; [done|]. cbn. lia.
Qed.

End modified_theorems.

(** ** The theorems at the sample table, with the reference solver *)

Definition sample_labelled : list row :=
  label_rows (λ i, i) (Profiles.Modified.cluster_names Profiles.Modified.profiles)
    sample_scored.

Lemma sample_scored_returns :
  returns (Modified.cluster_artists (H:=brute_force_solver) sample_scored
             Profiles.Modified.profiles) sample_labelled.
Proof. unfold returns. vm_decide. Qed.

Lemma modified_cluster_artists_spec_witness :
  let names := Profiles.Modified.cluster_names Profiles.Modified.profiles in
  let m := floor_of (length sample_scored) (length names) in
  ∃ g, Modified.cluster_artists (H:=brute_force_solver) sample_scored
         Profiles.Modified.profiles = ret (label_rows g names sample_scored) ∧
       balanced g (length sample_scored) (length names) m ∧
       ∀ g', balanced g' (length sample_scored) (length names) m →
             assignment_cost g names sample_scored <= assignment_cost g' names sample_scored.
Proof.
  apply (modified_cluster_artists_spec (H:=brute_force_solver) sample_scored
           Profiles.Modified.profiles); [done | vm_decide | vm_compute; lia].
Defined.

Lemma modified_cluster_artists_infeasible_witness :
  Modified.cluster_artists (H:=brute_force_solver) (take 2 sample_scored)
    Profiles.Modified.profiles = raise AttributeError.
Proof.
  apply (modified_cluster_artists_infeasible (H:=brute_force_solver));
    [done | vm_decide | done | vm_compute; lia].
Defined.

Lemma modified_cluster_artists_labels_witness :
  Forall2 (λ r r', ∃ name,
             name ∈ Profiles.Modified.cluster_names Profiles.Modified.profiles ∧
             r' = <["Cluster" := VStr name]> r) sample_scored sample_labelled.
Proof.
  apply (modified_cluster_artists_labels (H:=brute_force_solver) sample_scored
           Profiles.Modified.profiles sample_labelled).
  exact sample_scored_returns.
Defined.

Lemma modified_cluster_artists_floors_witness :
  (floor_of (length sample_scored) (length Profiles.Modified.profiles)
   ≤ length (labelled "Not Ready" sample_labelled))%nat.
Proof.
  apply (modified_cluster_artists_floors (H:=brute_force_solver) sample_scored
           Profiles.Modified.profiles sample_labelled "Not Ready").
  - exact sample_scored_returns.
  - done.
  - vm_decide.
Defined.

Lemma modified_cluster_model_feasible_witness :
  ∃ model, Modified.cluster_model (take 2 sample_scored) Profiles.Modified.profiles
           = ret model ∧
           ((∃ sol, feasible model sol) ↔
            (length Profiles.Modified.profiles ≤ length (take 2 sample_scored))%nat).
Proof.
  apply (modified_cluster_model_feasible (take 2 sample_scored)
           Profiles.Modified.profiles); [done | vm_decide].
Defined.

Lemma modified_cluster_artists_no_rows_witness :
  Modified.cluster_artists (H:=brute_force_solver) [] Profiles.Modified.profiles = ret [] ∧
  ¬ feasible (cluster_model_of [] Profiles.Modified.profiles) ∅.
Proof.
  apply (modified_cluster_artists_no_rows (H:=brute_force_solver)
           Profiles.Modified.profiles ∅). done.
Defined.

(** * cluster_artists of artist_clustering.py *)

(** The number a row stores under 'Distance_to_Ideal'. *)
Definition ideal_cell (r : row) : option Q :=
  match r !! "Distance_to_Ideal" with
  | Some (VNum q) => Some q
  | _ => None
  end.

(** Every row stores a number under 'Distance_to_Ideal'. *)
Definition numeric_ideal (data : list row) : Prop :=
  Forall (λ r, is_Some (ideal_cell r)) data.

#[export] Instance numeric_ideal_dec data : Decision (numeric_ideal data).
Proof. unfold numeric_ideal. apply _. Defined.

(** The objective: the distance of row [i] times [x[i]]. *)
Definition ideal_cost (data : list row) : LinExpr :=
  quicksum (imap (λ i r, times [i] (default 0 (ideal_cell r))) data).

(** The model for rows [data] and the floor [min_ready_artists]. *)
Definition ready_model_of (data : list row) (min_ready_artists : Q) : Model :=
  {| vars := list_to_set (tuples [length data]);
     objective := ideal_cost data;
     constrs := [Artist.min_ready_constr (length data) min_ready_artists] |}.

(** The solution in which the rows that [ready] selects are 'Ready'. *)
Definition selection (ready : nat → bool) (n : nat) : solution :=
  solution_of (λ v, match v with
                    | [i] => if ready i then 1 else 0
                    | _ => 0
                    end) (tuples [n]).

(** The number of the [n] rows that [ready] selects. *)
Definition ready_count (ready : nat → bool) (n : nat) : nat :=
  length (filter (λ i, ready i = true) (seq 0 n)).

(** The total distance of the rows that [ready] selects. *)
Definition selection_cost (ready : nat → bool) (data : list row) : Q :=
  Qsum (imap (λ i r, if ready i then default 0 (ideal_cell r) else 0) data).

(** The rows labelled 'Ready' where [ready] selects them. *)
Definition label_ready (ready : nat → bool) (data : list row) : list row :=
  imap (λ i r, <["Cluster" := VStr (if ready i then "Ready" else "Not Ready")]> r) data.

(** The rows that a solution selects. *)
Definition ready_of (sol : solution) (i : nat) : bool := chosen (X sol [i]).

Section artist_model.
Implicit Types (data : list row) (sol : solution) (ready : nat → bool).

Lemma artist_objective_returns data :
  numeric_ideal data → Artist.objective_of data = ret (ideal_cost data).
Proof.
  intros Hnum. unfold Artist.objective_of, ideal_cost.
  rewrite <- fmap_enumerate. erewrite mapM_pure, bind_ret_l; [reflexivity|].
  apply Forall_forall. intros [i r] Hr%elem_of_enumerate%list_elem_of_lookup_2.
  eapply Forall_forall in Hnum as [q Hq]; [|done].
  unfold ideal_cell, dict_item in *.
  destruct (r !! "Distance_to_Ideal") as [[]|]; by simplify_eq/=.
Qed.

Lemma artist_objective_numeric data e :
  returns (Artist.objective_of data) e → numeric_ideal data.
Proof.
  unfold Artist.objective_of.
  intros (terms & Hterms%mapM_returns_iff & _)%returns_bind_inv.
  apply Forall_forall. intros r [i Hi]%list_elem_of_lookup.
  eapply (Forall2_lookup_l _ _ _ i (i, r)) in Hterms as (t & _ & Ht);
    [|by rewrite enumerate_lookup, Hi].
  apply returns_bind_inv in Ht as (v & Hv%returns_lift_inv & Ht).
  apply returns_bind_inv in Ht as (c & Hc%returns_lift_inv & _).
  unfold ideal_cell, dict_item in *.
  destruct (r !! "Distance_to_Ideal") as [[]|]; by simplify_eq/=.
Qed.

Lemma artist_model_returns data min_ready_artists :
  numeric_ideal data →
  Artist.cluster_model data min_ready_artists =
  ret (ready_model_of data min_ready_artists).
Proof.
  intros Hnum. unfold Artist.cluster_model.
  rewrite artist_objective_returns, bind_ret_l by done.
  unfold ready_model_of, addConstr, setObjective, addVars. cbn.
  by rewrite union_empty_l_L.
Qed.

Lemma artist_feasible_iff data min_ready_artists sol :
  feasible (ready_model_of data min_ready_artists) sol ↔
  dom sol = list_to_set (tuples [length data]) ∧
  map_Forall (λ _ q, binary q) sol ∧
  min_ready_artists <= Qsum ((λ i, X sol [i]) <$> seq 0 (length data)).
Proof.
  unfold feasible, ready_model_of. cbn [vars constrs].
  rewrite Forall_singleton. unfold holds.
  cbn [op lhs rhs Artist.min_ready_constr]. by rewrite getValue_sum_vars.
Qed.

Lemma X_selection ready n i :
  (i < n)%nat → X (selection ready n) [i] = if ready i then 1 else 0.
Proof.
  intros Hi. unfold selection. rewrite X_solution_of; [done|].
  apply elem_of_tuples_1. eauto.
Qed.

Lemma selection_sum ready n :
  Qsum ((λ i, X (selection ready n) [i]) <$> seq 0 n) == Qnat (ready_count ready n).
Proof.
  unfold ready_count. rewrite <- Qsum_indicator.
  apply Qsum_fmap_ext, Forall_forall. intros i Hi%elem_of_seq.
  rewrite X_selection by lia. unfold indicator.
  destruct (ready i); by case_decide.
Qed.

Lemma selection_feasible data min_ready_artists ready :
  min_ready_artists <= Qnat (ready_count ready (length data)) →
  feasible (ready_model_of data min_ready_artists) (selection ready (length data)).
Proof.
  intros Hm. apply artist_feasible_iff. split_and!.
  - apply dom_solution_of.
  - apply solution_of_binary. intros v (i & -> & _)%elem_of_tuples_1.
    destruct (ready i); [by right | by left].
  - by rewrite selection_sum.
Qed.

Lemma ready_count_le ready n : (ready_count ready n ≤ n)%nat.
Proof.
  unfold ready_count. etrans; [apply length_filter|]. by rewrite length_seq.
Qed.

Lemma ready_count_all n : ready_count (λ _, true) n = n.
Proof.
  unfold ready_count. rewrite filter_all, length_seq; [done|].
  by apply Forall_forall.
Qed.

(** A solution is the selection of the rows whose variable is above one
    half. *)
Lemma solution_is_selection data min_ready_artists sol v :
  feasible (ready_model_of data min_ready_artists) sol →
  X sol v == X (selection (ready_of sol) (length data)) v.
Proof.
  intros (Hdom & Hbin & _). destruct (decide (v ∈ tuples [length data])) as [Hv|Hv].
  - apply elem_of_tuples_1 in Hv as (i & -> & Hi). rewrite X_selection by done.
    unfold ready_of, chosen. pose proof (X_binary sol [i] Hbin) as Hb.
    case_bool_decide as Hc; [by apply binary_half | destruct Hb as [E|E]; lra].
  - unfold X, selection. rewrite lookup_solution_of, decide_False by done.
    rewrite (proj1 (not_elem_of_dom sol v)); [done|].
    rewrite Hdom. unfold ready_model_of. cbn [vars]. by rewrite elem_of_list_to_set.
Qed.

Lemma solution_ready_count data min_ready_artists sol :
  feasible (ready_model_of data min_ready_artists) sol →
  min_ready_artists <= Qnat (ready_count (ready_of sol) (length data)).
Proof.
  intros Hsol. rewrite <- selection_sum.
  pose proof Hsol as (_ & _ & Hm)%artist_feasible_iff.
  eapply Qle_trans; [exact Hm|]. apply Qle_lteq. right.
  apply Qsum_fmap_ext, Forall_forall. intros i _.
  by apply (solution_is_selection data min_ready_artists).
Qed.

(** The model has a solution exactly when the floor is at most the number of
    rows. *)
Lemma artist_feasible_exists data min_ready_artists :
  (∃ sol, feasible (ready_model_of data min_ready_artists) sol) ↔
  min_ready_artists <= Qnat (length data).
Proof.
  split.
  - intros [sol Hsol%solution_ready_count]. eapply Qle_trans; [exact Hsol|].
    apply Qnat_le, ready_count_le.
  - intros Hle. exists (selection (λ _, true) (length data)).
    apply selection_feasible. by rewrite ready_count_all.
Qed.

(** The objective at a selection is the cost of the selection. *)
Lemma getValue_ideal_cost ready data :
  getValue (selection ready (length data)) (ideal_cost data) == selection_cost ready data.
Proof.
  unfold ideal_cost, selection_cost. rewrite getValue_quicksum, fmap_imap.
  apply Qsum_imap_ext. intros i r Hi%lookup_lt_Some. unfold compose, times.
  rewrite getValue_cons, X_selection by done. cbn. destruct (ready i); lra.
Qed.

(** Reading a solution back labels the rows it selects 'Ready'. *)
Lemma artist_assign_feasible data min_ready_artists sol :
  feasible (ready_model_of data min_ready_artists) sol →
  Artist.assign_clusters (Some sol) data = ret (label_ready (ready_of sol) data).
Proof.
  intros [Hdom _]. unfold Artist.assign_clusters, label_ready.
  rewrite <- fmap_enumerate. apply mapM_pure, Forall_forall.
  intros [i r] Hr%elem_of_enumerate%lookup_lt_Some.
  rewrite attr_X_Some, bind_lift_inr; [done|].
  rewrite Hdom. apply elem_of_list_to_set, elem_of_tuples_1. eauto.
Qed.

Lemma artist_assign_None data :
  Artist.assign_clusters None data =
  match data with [] => ret [] | _ => raise AttributeError end.
Proof. by destruct data. Qed.

(** The rows labelled 'Ready' are the rows selected. *)
Lemma labelled_ready ready data :
  length (labelled "Ready" (label_ready ready data)) = ready_count ready (length data).
Proof.
  apply Qnat_inj. unfold labelled, ready_count, label_ready.
  rewrite <- !Qsum_indicator, fmap_imap, <- (imap_index _ data).
  apply Qsum_imap_ext. intros i r _. unfold compose.
  rewrite lookup_insert_eq. unfold indicator.
  destruct (ready i); repeat case_decide; done.
Qed.

(** An optimal solution is a selection of least cost that meets the floor. *)
Lemma artist_solution_optimal data min_ready_artists sol :
  optimal (ready_model_of data min_ready_artists) sol →
  min_ready_artists <= Qnat (ready_count (ready_of sol) (length data)) ∧
  ∀ ready', min_ready_artists <= Qnat (ready_count ready' (length data)) →
            selection_cost (ready_of sol) data <= selection_cost ready' data.
Proof.
  intros [Hsol Hmin]. split; [by eapply solution_ready_count|].
  intros ready' Hready'. rewrite <- !getValue_ideal_cost.
  eapply Qle_trans; [|apply Hmin; by apply selection_feasible].
  apply Qle_lteq. right. symmetry. apply getValue_ext.
  intros v. by apply (solution_is_selection data min_ready_artists).
Qed.

End artist_model.

Section artist_run.
Context `{Solver}.
Implicit Types (data : list row) (min_ready_artists : Q).

Lemma artist_cluster_artists_eq data min_ready_artists :
  numeric_ideal data →
  Artist.cluster_artists data min_ready_artists =
  Artist.assign_clusters (optimize (ready_model_of data min_ready_artists)) data.
Proof.
  intros Hnum. unfold Artist.cluster_artists.
  rewrite artist_model_returns, bind_ret_l by done. cbv zeta.
  by rewrite bind_ret_r.
Qed.

Lemma artist_run_Some data min_ready_artists sol :
  numeric_ideal data →
  optimize (ready_model_of data min_ready_artists) = Some sol →
  Artist.cluster_artists data min_ready_artists =
  ret (label_ready (ready_of sol) data).
Proof.
  intros Hnum Hopt. rewrite artist_cluster_artists_eq, Hopt by done.
  eapply artist_assign_feasible, optimize_optimal, Hopt.
Qed.

Lemma artist_run_None data min_ready_artists :
  numeric_ideal data →
  optimize (ready_model_of data min_ready_artists) = None →
  Artist.cluster_artists data min_ready_artists =
  match data with [] => ret [] | _ => raise AttributeError end.
Proof.
  intros Hnum Hopt. rewrite artist_cluster_artists_eq, Hopt by done.
  apply artist_assign_None.
Qed.

Lemma artist_optimize_Some data min_ready_artists :
  is_Some (optimize (ready_model_of data min_ready_artists)) ↔
  min_ready_artists <= Qnat (length data).
Proof.
  rewrite <- artist_feasible_exists. split.
  - intros [sol Hsol]. exists sol. by apply optimize_optimal.
  - intros [sol Hsol]. destruct (optimize _) eqn:Hopt; [done|].
    by apply (optimize_infeasible _ sol) in Hopt.
Qed.

Lemma artist_returns_inv data min_ready_artists data' :
  returns (Artist.cluster_artists data min_ready_artists) data' → numeric_ideal data.
Proof.
  unfold Artist.cluster_artists, Artist.cluster_model.
  intros (model & (e & He & _)%returns_bind_inv & _)%returns_bind_inv.
  by eapply artist_objective_numeric.
Qed.

Lemma artist_optimize_None data min_ready_artists :
  Qnat (length data) < min_ready_artists →
  optimize (ready_model_of data min_ready_artists) = None.
Proof.
  intros Hlt. destruct (optimize _) as [sol|] eqn:Hopt; [|done].
  assert (min_ready_artists <= Qnat (length data)); [|lra].
  by apply artist_optimize_Some.
Qed.

End artist_run.

(** * Theorems on cluster_artists of artist_clustering.py *)

(** Rows with their distance to the ideal profile. *)
Definition sample_ideal : list row :=
  (λ d, {["Distance_to_Ideal" := VNum d]}) <$> [3; 1 # 2; 7; 0; 2].

Section artist_theorems.
Context `{Solver}.
Implicit Types (data : list row) (min_ready_artists : Q).

(** C9: with numeric distances and a floor that is at most the number of
    rows, [cluster_artists] returns, without printing, the rows labelled
    'Ready' or 'Not Ready' by a selection with at least [min_ready_artists]
    rows 'Ready' whose total distance is the least among all such
    selections. *)
Theorem artist_cluster_artists_spec data min_ready_artists :
  numeric_ideal data → min_ready_artists <= Qnat (length data) →
  ∃ ready, Artist.cluster_artists data min_ready_artists = ret (label_ready ready data) ∧
           min_ready_artists <= Qnat (ready_count ready (length data)) ∧
           ∀ ready', min_ready_artists <= Qnat (ready_count ready' (length data)) →
                     selection_cost ready data <= selection_cost ready' data.
Proof.
  intros Hnum Hle.
  destruct (proj2 (artist_optimize_Some data min_ready_artists) Hle) as [sol Hopt].
  exists (ready_of sol). split.
  - by apply artist_run_Some.
  - eapply artist_solution_optimal, optimize_optimal, Hopt.
Qed.

(** With more rows asked 'Ready' than there are rows, and at least one
    row, [cluster_artists] raises [AttributeError]: the model has no
    solution and the status of the solver is never looked at. *)
Theorem artist_cluster_artists_infeasible data min_ready_artists :
  numeric_ideal data → data ≠ [] → Qnat (length data) < min_ready_artists →
  Artist.cluster_artists data min_ready_artists = raise AttributeError.
Proof.
  intros Hnum Hdata Hlt.
  rewrite artist_run_None by (done || by apply artist_optimize_None).
  by destruct data.
Qed.

(** When [cluster_artists] returns for at least one row, at least
    [min_ready_artists] of the rows returned are labelled 'Ready'. *)
Theorem artist_cluster_artists_ready_count data min_ready_artists data' :
  returns (Artist.cluster_artists data min_ready_artists) data' → data ≠ [] →
  min_ready_artists <= Qnat (length (labelled "Ready" data')).
Proof.
  intros Hret Hdata. pose proof (artist_returns_inv _ _ _ Hret) as Hnum.
  destruct (optimize (ready_model_of data min_ready_artists)) as [sol|] eqn:Hopt.
  - rewrite (artist_run_Some data min_ready_artists sol) in Hret by done.
    apply (returns_inj _ _ _ (returns_ret _)) in Hret as <-.
    rewrite labelled_ready. eapply solution_ready_count, optimize_optimal, Hopt.
  - rewrite artist_run_None in Hret by done. by destruct data.
Qed.

(** A row without 'Distance_to_Ideal', after rows that have it, makes
    [cluster_artists] raise [KeyError] before the solver is called. *)
Theorem artist_cluster_artists_KeyError data1 (r : row) data2 min_ready_artists :
  numeric_ideal data1 → r !! "Distance_to_Ideal" = None →
  Artist.cluster_artists (data1 ++ r :: data2) min_ready_artists = raise KeyError.
Proof.
  intros Hnum Hr. unfold Artist.cluster_artists, Artist.cluster_model, Artist.objective_of.
  rewrite <- (take_drop_middle (enumerate (data1 ++ r :: data2)) (length data1)
                (length data1, r)) by (by rewrite enumerate_lookup, list_lookup_middle).
  rewrite (mapM_pure_raise _ (λ item, times [item.1] (default 0 (ideal_cell item.2)))
             _ _ _ KeyError); [done| |].
  - apply Forall_lookup_2. intros i [i' r'] [Hi Hlt]%lookup_take_Some.
    rewrite enumerate_lookup, lookup_app_l in Hi by done.
    destruct (data1 !! i) as [r1|] eqn:Hi1; simplify_eq/=.
    eapply Forall_lookup_1 in Hnum as [q Hq]; [|done].
    unfold ideal_cell, dict_item in *.
    destruct (r' !! "Distance_to_Ideal") as [[]|]; by simplify_eq/=.
  - unfold dict_item. by rewrite Hr.
Qed.

End artist_theorems.

Lemma artist_cluster_artists_spec_witness :
  ∃ ready, Artist.cluster_artists (H:=brute_force_solver) sample_ideal 2 =
             ret (label_ready ready sample_ideal) ∧
           2 <= Qnat (ready_count ready (length sample_ideal)) ∧
           ∀ ready', 2 <= Qnat (ready_count ready' (length sample_ideal)) →
                     selection_cost ready sample_ideal <= selection_cost ready' sample_ideal.
Proof.
  apply (artist_cluster_artists_spec (H:=brute_force_solver) sample_ideal 2);
    vm_decide.
Defined.

Lemma artist_cluster_artists_infeasible_witness :
  Artist.cluster_artists (H:=brute_force_solver) (take 4 sample_ideal) 5 =
  raise AttributeError.
Proof.
  apply (artist_cluster_artists_infeasible (H:=brute_force_solver) (take 4 sample_ideal) 5);
    [vm_decide | done | vm_decide].
Defined.

Lemma artist_cluster_artists_ready_count_witness :
  2 <= Qnat (length (labelled "Ready" (label_ready (λ i, bool_decide (i = 1 ∨ i = 3)%nat)
                                         sample_ideal))).
Proof.
  apply (artist_cluster_artists_ready_count (H:=brute_force_solver) sample_ideal 2);
    [unfold returns; vm_decide | done].
Defined.

Lemma artist_cluster_artists_KeyError_witness :
  Artist.cluster_artists (H:=brute_force_solver)
    (take 2 sample_ideal ++ artist_ready :: drop 2 sample_ideal) 2 = raise KeyError.
Proof.
  apply (artist_cluster_artists_KeyError (H:=brute_force_solver));
    [vm_decide | done].
Defined.

Lemma assign_clusters_round_trip_witness :
  let names := Profiles.Modified.cluster_names Profiles.Modified.profiles in
  let g := λ i, (2 - i)%nat in
  Modified.assign_clusters
    (Some (assignment g (length sample_scored) (length names))) names sample_scored
  = ret (label_rows g names sample_scored) ∧
  ∀ i, (i < length sample_scored)%nat →
       cluster_of (assignment g (length sample_scored) (length names)) (length names) i = g i.
Proof.
  apply (assign_clusters_round_trip sample_scored
           (Profiles.Modified.cluster_names Profiles.Modified.profiles) (λ i, (2 - i)%nat)).
  intros i Hi. cbn in *. lia.
Defined.

Lemma assign_clusters_no_choice_witness :
  Modified.assign_clusters (Some (solution_of (λ _, 1 # 2) (tuples [3; 3])%nat))
    (Profiles.Modified.cluster_names Profiles.Modified.profiles) sample_scored
  = ret sample_scored.
Proof.
  apply (assign_clusters_no_choice (solution_of (λ _, 1 # 2) (tuples [3; 3])%nat)
           (Profiles.Modified.cluster_names Profiles.Modified.profiles) sample_scored).
  vm_decide.
Defined.
