(* ===== verification/Loops.v ===== *)
(** * The loops that read the labels back

    Lines 131-135 of modified_artist_clustering.py as a machine that makes
    one test of a loop per step:

      for i in range(len(data)):
          for j, cluster_name in enumerate(cluster_names):
              if x[i, j].X > 0.5:
                  data[i]['Cluster'] = cluster_name
                  break

    A state holds the two loop counters and the list [data], which the
    assignment of line 134 updates in place.  The machine has a step
    relation ([step]), the function that computes the one successor of a
    state ([next]) and a runner with fuel ([run]).

    The file shows that the machine is deterministic and never stuck, that
    it halts from every state within [steps_left] steps, that it leaves the
    rows it has not reached untouched, that it ends as
    [Cluster.Modified.assign_clusters] says (the fold of [Cluster] is a
    faithful summary of the loops), and how many tests it makes before it
    ends ([tests]): the [break] of line 135 saves the tests of the clusters
    after the one chosen. *)

From Stdlib Require Import QArith String.
From stdpp Require Import base option list gmap strings relations.
From S2P Require Import Prelude Sums PyValue Profiles Milp Cluster.

#[local] Open Scope py_scope.

(** The loop counters [i] and [j] and the list [data]. *)
Record state : Type := State {
  row_index : nat;
  cluster_index : nat;
  rows : list row
}.

(** The loops are running, or have ended, or an exception left them. *)
Inductive config : Type :=
| Running (s : state)
| Returned (data : list row)
| Raised (e : exn).

#[export] Instance state_eq_dec : EqDecision state.
Proof. solve_decision. Defined.

#[export] Instance config_eq_dec : EqDecision config.
Proof. solve_decision. Defined.

Section machine.
Context (result : option solution) (cluster_names : list string).

(** One test of a loop. *)
Inductive step : config → config → Prop :=
| step_return i j data :
    data !! i = None →
    step (Running (State i j data)) (Returned data)
| step_next_row i j data row :
    data !! i = Some row → cluster_names !! j = None →
    step (Running (State i j data)) (Running (State (S i) 0 data))
| step_raise i j data row cluster_name e :
    data !! i = Some row → cluster_names !! j = Some cluster_name →
    attr_X result [i; j] = inl e →
    step (Running (State i j data)) (Raised e)
| step_break i j data row cluster_name x :
    data !! i = Some row → cluster_names !! j = Some cluster_name →
    attr_X result [i; j] = inr x → chosen x = true →
    step (Running (State i j data))
         (Running (State (S i) 0 (<[i := <["Cluster" := VStr cluster_name]> row]> data)))
| step_continue i j data row cluster_name x :
    data !! i = Some row → cluster_names !! j = Some cluster_name →
    attr_X result [i; j] = inr x → chosen x = false →
    step (Running (State i j data)) (Running (State i (S j) data)).

(** The successor of a state. *)
Definition next (s : state) : config :=
  let '(State i j data) := s in
  match data !! i with
  | None => Returned data
  | Some row =>
      match cluster_names !! j with
      | None => Running (State (S i) 0 data)
      | Some cluster_name =>
          match attr_X result [i; j] with
          | inl e => Raised e
          | inr x =>
              if chosen x
              then Running (State (S i) 0 (<[i := <["Cluster" := VStr cluster_name]> row]> data))
              else Running (State i (S j) data)
          end
      end
  end.

(** At most [fuel] steps. *)
Fixpoint run (fuel : nat) (c : config) : config :=
  match fuel, c with
  | S fuel', Running s => run fuel' (next s)
  | _, _ => c
  end.

End machine.

(** The loops have ended. *)
Definition final (c : config) : Prop :=
  match c with
  | Running _ => False
  | _ => True
  end.

#[export] Instance final_dec c : Decision (final c).
Proof. destruct c; apply _. Defined.

(** The state at line 131. *)
Definition start (data : list row) : config := Running (State 0 0 data).

(** A bound on the tests that remain: for each row that remains a test per
    cluster and the test that ends the inner loop, and the test that ends
    the outer loop. *)
Definition steps_left (k : nat) (s : state) : nat :=
  (length (rows s) - row_index s) * S k + (k - cluster_index s) + 1.

Definition measure (k : nat) (c : config) : nat :=
  match c with
  | Running s => steps_left k s
  | _ => 0
  end.

(** The tests of the inner loop for row [i] on the clusters [items]: one
    for every cluster up to the first whose variable is above one half or
    cannot be read, and the test that ends the loop when there is none. *)
Fixpoint tests_row (result : option solution) (i : nat) (items : list (nat * string)) : nat :=
  match items with
  | [] => 1%nat
  | (j, _) :: items' =>
      match attr_X result [i; j] with
      | inl _ => 1%nat
      | inr x => if chosen x then 1%nat else S (tests_row result i items')
      end
  end.

(** The inner loop for row [i] ends at a variable that cannot be read. *)
Fixpoint row_raises (result : option solution) (i : nat) (items : list (nat * string)) : bool :=
  match items with
  | [] => false
  | (j, _) :: items' =>
      match attr_X result [i; j] with
      | inl _ => true
      | inr x => if chosen x then false else row_raises result i items'
      end
  end.

(** The tests of both loops for the [n] rows from row [i] on, with the test
    that ends the outer loop: an exception ends the loops at once. *)
Fixpoint tests (result : option solution) (cluster_names : list string) (i n : nat) : nat :=
  match n with
  | 0%nat => 1%nat
  | S n' =>
      (tests_row result i (enumerate cluster_names) +
       (if row_raises result i (enumerate cluster_names) then 0
        else tests result cluster_names (S i) n'))%nat
  end.

(** How a computation of the functional model ends, as a configuration. *)
Definition ending {E} (m : M E (list row)) : config :=
  match outcome m with
  | inr data => Returned data
  | inl e => Raised e
  end.

(** * The step relation and its function *)

Section steps.
Context (result : option solution) (cluster_names : list string).
#[local] Abbreviation step := (step result cluster_names).
#[local] Abbreviation next := (next result cluster_names).
#[local] Abbreviation run := (run result cluster_names).
#[local] Abbreviation k := (length cluster_names).
Implicit Types (s : state) (c : config).

(** The relation is the graph of [next]. *)
Lemma step_next s c : step (Running s) c ↔ next s = c.
Proof.
  split.
  - intros Hs. inversion Hs; subst; cbn [next];
      repeat match goal with H : ?x = _ |- context [?x] => rewrite H end; done.
  - destruct s as [i j data]. cbn [next]. intros <-.
    destruct (data !! i) as [row|] eqn:Hi; [|by constructor].
    destruct (cluster_names !! j) as [name|] eqn:Hj; [|by econstructor].
    destruct (attr_X result [i; j]) as [e|x] eqn:Hx; [by econstructor|].
    destruct (chosen x) eqn:Hc; by econstructor.
Qed.

Lemma step_running c c' : step c c' → ∃ s, c = Running s.
Proof. inversion 1; eauto. Qed.

Lemma step_deterministic : deterministic step.
Proof.
  intros c c1 c2 H1 H2. destruct (step_running _ _ H1) as [s ->].
  apply step_next in H1, H2. congruence.
Qed.

(** A running machine is never stuck, a machine that has ended stays. *)
Lemma running_red s : red step (Running s).
Proof. exists (next s). by apply step_next. Qed.

Lemma final_nf c : final c → nf step c.
Proof. intros Hc [c' [s ->]%step_running]. done. Qed.

(** ** The runner *)

Lemma run_final fuel c : final c → run fuel c = c.
Proof. by destruct fuel, c. Qed.

Lemma run_S fuel s : run (S fuel) (Running s) = run fuel (next s).
Proof. done. Qed.

(** The runner follows the relation. *)
Lemma rtc_run fuel c : rtc step c (run fuel c).
Proof.
  revert c. induction fuel as [|fuel IH]; intros c; [done|].
  destruct c as [s|data|e]; [|done..].
  eapply rtc_l; [by apply step_next | apply IH].
Qed.

(** A final configuration that the relation reaches is the one the runner
    reaches, with enough fuel. *)
Lemma rtc_final_run c c' :
  rtc step c c' → final c' → ∀ fuel, final (run fuel c) → run fuel c = c'.
Proof.
  induction 1 as [c|c c1 c' Hstep _ IH]; intros Hc' fuel Hfuel; [by apply run_final|].
  destruct (step_running _ _ Hstep) as [s ->]. apply step_next in Hstep as <-.
  destruct fuel as [|fuel]; [done|]. by apply IH.
Qed.

(** The runner after the steps that the relation counts. *)
Lemma nsteps_run n c c' : nsteps step n c c' → run n c = c'.
Proof.
  induction 1 as [c|n c c1 c' Hstep _ IH]; [done|].
  destruct (step_running _ _ Hstep) as [s ->]. by apply step_next in Hstep as <-.
Qed.

(** With less fuel than the steps to the end the runner has not ended. *)
Lemma nsteps_running n c c' fuel :
  nsteps step n c c' → (fuel < n)%nat → ¬ final (run fuel c).
Proof.
  intros Hn. revert fuel. induction Hn as [c|n c c1 c' Hstep _ IH]; intros fuel Hfuel; [lia|].
  destruct (step_running _ _ Hstep) as [s ->]. apply step_next in Hstep as <-.
  destruct fuel as [|fuel]; [by intros []|]. apply IH. lia.
Qed.

(** More fuel than the end needs changes nothing. *)
Lemma run_le n fuel c : (n ≤ fuel)%nat → final (run n c) → run fuel c = run n c.
Proof.
  revert fuel c. induction n as [|n IH]; intros fuel c Hle Hfinal; [by apply run_final|].
  destruct fuel as [|fuel]; [lia|]. destruct c as [s| |]; [|done..].
  rewrite !run_S. apply IH; [lia|done].
Qed.

(** ** The measure *)

Lemma next_steps_left s s' :
  next s = Running s' → (steps_left k s' < steps_left k s)%nat.
Proof.
  destruct s as [i j data]. unfold steps_left. cbn [next rows row_index cluster_index].
  destruct (data !! i) as [row|] eqn:Hi; [|done]. apply lookup_lt_Some in Hi.
  destruct (cluster_names !! j) as [name|] eqn:Hj.
  - apply lookup_lt_Some in Hj.
    destruct (attr_X result [i; j]) as [e|x]; [done|].
    destruct (chosen x); intros [= <-]; cbn [rows row_index cluster_index];
      rewrite ?length_insert; nia.
  - intros [= <-]. cbn [rows row_index cluster_index]. nia.
Qed.

Lemma step_measure c c' : step c c' → (measure k c' < measure k c)%nat.
Proof.
  intros Hstep. destruct (step_running _ _ Hstep) as [s ->].
  apply step_next in Hstep. destruct c' as [s'| |]; cbn [measure].
  - by apply next_steps_left.
  - unfold steps_left. nia.
  - unfold steps_left. nia.
Qed.

(** With the steps that are left as fuel the runner reaches the end. *)
Lemma run_measure fuel c : (measure k c ≤ fuel)%nat → final (run fuel c).
Proof.
  revert c. induction fuel as [|fuel IH]; intros c Hc.
  - destruct c as [s| |]; [|done..]. cbn in Hc. unfold steps_left in Hc. nia.
  - destruct c as [s| |]; [|done..]. rewrite run_S. apply IH.
    pose proof (step_measure (Running s) (next s) (proj2 (step_next _ _) eq_refl)). lia.
Qed.

(** No run goes on for ever. *)
Lemma step_sn c : sn step c.
Proof.
  remember (measure k c) as n eqn:Hn. revert c Hn.
  induction (lt_wf n) as [n _ IH]. intros c ->.
  constructor. intros c' Hstep. eapply IH; [|done]. by apply step_measure.
Qed.

(** ** What a step keeps *)

(** A step keeps the length of the list and the rows from the row index
    on, but the row at the index. *)
Lemma next_rows s s' :
  next s = Running s' →
  (row_index s ≤ row_index s')%nat ∧
  length (rows s') = length (rows s) ∧
  drop (row_index s') (rows s') = drop (row_index s') (rows s).
Proof.
  destruct s as [i j data]. cbn [next rows row_index].
  destruct (data !! i) as [row|] eqn:Hi; [|done].
  destruct (cluster_names !! j) as [name|]; [|intros [= <-]; cbn; auto with lia].
  destruct (attr_X result [i; j]) as [e|x]; [done|].
  destruct (chosen x); intros [= <-]; cbn [rows row_index]; [|auto].
  rewrite length_insert, drop_insert_lt by lia. auto with lia.
Qed.

End steps.

(** * The loops and the fold *)

Section refinement.
Context (result : option solution) (cluster_names : list string).
#[local] Abbreviation step' := (step result cluster_names).
#[local] Abbreviation run' := (run result cluster_names).
Implicit Types (data pre suf : list row) (s : state) (c : config).

(** Whether the inner loop raises, from how [assign_cluster] ends. *)
Lemma row_raises_outcome i (row : row) items :
  row_raises result i items
  = match outcome (Modified.assign_cluster result i row items) with
    | inl _ => true
    | inr _ => false
    end.
Proof.
  induction items as [|[j name] items IH]; [done|]. cbn [row_raises Modified.assign_cluster].
  destruct (attr_X result [i; j]) as [e|x]; [done|]. rewrite bind_lift_inr.
  by destruct (chosen x).
Qed.

(** The inner loop from cluster [j] on ends as [assign_cluster] does on the
    clusters from [j] on, after the tests that [tests_row] counts. *)
Lemma inner_loop i data (row : row) n j :
  data !! i = Some row → (length cluster_names - j)%nat = n →
  nsteps step' (tests_row result i (drop j (enumerate cluster_names)))
    (Running (State i j data))
    match outcome (Modified.assign_cluster result i row (drop j (enumerate cluster_names))) with
    | inr row' => Running (State (S i) 0 (<[i := row']> data))
    | inl e => Raised e
    end.
Proof.
  intros Hi. revert j. induction n as [|n IH]; intros j Hn.
  - rewrite drop_ge by (rewrite enumerate_length; lia). cbn.
    rewrite list_insert_id by done. apply nsteps_once.
    eapply step_next_row; [done|]. apply lookup_ge_None. lia.
  - destruct (lookup_lt_is_Some_2 cluster_names j ltac:(lia)) as [name Hj].
    rewrite (drop_S _ (j, name)) by by rewrite enumerate_lookup, Hj.
    cbn [Modified.assign_cluster tests_row].
    destruct (attr_X result [i; j]) as [e|x] eqn:Hx.
    { apply nsteps_once. by eapply step_raise. }
    rewrite bind_lift_inr. destruct (chosen x) eqn:Hc.
    + apply nsteps_once. by eapply step_break.
    + eapply nsteps_l; [by eapply step_continue|]. apply IH. lia.
Qed.

(** The outer loop from the row after [pre] on ends as the traversal of the
    rows that remain does, after the tests that [tests] counts. *)
Lemma outer_loop pre suf :
  nsteps step' (tests result cluster_names (length pre) (length suf))
    (Running (State (length pre) 0 (pre ++ suf)))
    match outcome (mapM (λ '(i, row),
                     Modified.assign_cluster result i row (enumerate cluster_names))
                     (zip (seq (length pre) (length suf)) suf)) with
    | inr suf' => Returned (pre ++ suf')
    | inl e => Raised e
    end.
Proof.
  revert pre. induction suf as [|row suf IH]; intros pre.
  - apply nsteps_once. constructor. rewrite app_nil_r. by apply lookup_ge_None.
  - cbn [length seq zip zip_with tests]. rewrite outcome_mapM_cons.
    pose proof (inner_loop (length pre) (pre ++ row :: suf) row
                  (length cluster_names) 0 (list_lookup_middle _ _ _ _ eq_refl)
                  (Nat.sub_0_r _)) as Hinner.
    rewrite drop_0 in Hinner. rewrite (row_raises_outcome _ row).
    destruct (outcome (Modified.assign_cluster result (length pre) row _)) as [e|row'];
      [by rewrite Nat.add_0_r|].
    eapply nsteps_trans; [exact Hinner|].
    rewrite insert_app_r_alt, Nat.sub_diag by done. cbn [insert list_insert].
    specialize (IH (pre ++ [row'])). rewrite length_app, Nat.add_1_r in IH.
    destruct (outcome (mapM _ _)) as [e|suf'];
      rewrite <- ?(assoc_L (++) pre [row']) in IH; exact IH.
Qed.

(** From line 131 the loops end as [assign_clusters] does, after the tests
    that [tests] counts. *)
Lemma loops_count data :
  nsteps step' (tests result cluster_names 0 (length data)) (start data)
    (ending (Modified.assign_clusters result cluster_names data)).
Proof. exact (outer_loop [] data). Qed.

Lemma loops_end data :
  rtc step' (start data) (ending (Modified.assign_clusters result cluster_names data)).
Proof. eapply rtc_nsteps_2, loops_count. Qed.

Lemma ending_final {E} (m : M E (list row)) : final (ending m).
Proof. unfold ending. by destruct (outcome m). Qed.

(** The runner ends at the end of [assign_clusters] with the fuel of the
    tests counted, and with no less. *)
Lemma run_tests data fuel :
  run' fuel (start data) = ending (Modified.assign_clusters result cluster_names data)
  ↔ (tests result cluster_names 0 (length data) ≤ fuel)%nat.
Proof.
  pose proof (loops_count data) as Hn. split.
  - intros Hrun. destruct (decide (tests result cluster_names 0 (length data) ≤ fuel)%nat);
      [done|]. destruct (nsteps_running _ _ _ _ _ fuel Hn); [lia|].
    rewrite Hrun. apply ending_final.
  - intros Hle. apply nsteps_run in Hn.
    rewrite (run_le _ _ _ _ _ Hle); rewrite Hn; [done|apply ending_final].
Qed.

(** The rows that the loops have not reached are as they were. *)
Lemma rtc_rows s0 s :
  rtc step' (Running s0) (Running s) →
  (row_index s0 ≤ row_index s)%nat ∧
  length (rows s) = length (rows s0) ∧
  drop (row_index s) (rows s) = drop (row_index s) (rows s0).
Proof.
  intros Hrtc.
  assert (∀ c, rtc step' (Running s0) c → ∀ s, c = Running s →
            (row_index s0 ≤ row_index s)%nat ∧
            length (rows s) = length (rows s0) ∧
            drop (row_index s) (rows s) = drop (row_index s) (rows s0)) as Hall;
    [|by eapply Hall].
  clear s Hrtc. apply (rtc_ind_r (λ c, ∀ s, c = Running s → _)).
  { by intros s [= <-]. }
  intros c' c Hrtc Hstep IH s ->. destruct (step_running _ _ _ _ Hstep) as [s' ->].
  destruct (IH s' eq_refl) as (Hle & Hlen & Hdrop).
  apply step_next, next_rows in Hstep as (Hle' & Hlen' & Hdrop').
  split_and!; [lia | congruence |]. rewrite Hdrop'.
  replace (row_index s) with (row_index s' + (row_index s - row_index s'))%nat by lia.
  by rewrite <- !drop_drop, Hdrop.
Qed.

(** C31: the loops of lines 131-135 make exactly the tests that [tests]
    counts: for every row one test per cluster up to the first whose
    variable is above one half, and one more only when no cluster is chosen,
    then the test that ends the outer loop; a variable that cannot be read
    ends them at once.  Run for that many tests from line 131 the machine
    has ended as [assign_clusters] does, and run for fewer it has not. *)
Theorem loops_tests data fuel :
  run' fuel (start data) = ending (Modified.assign_clusters result cluster_names data)
  ↔ (tests result cluster_names 0 (length data) ≤ fuel)%nat.
Proof. exact (run_tests data fuel). Qed.

(** C28: run for [len(data) * (len(cluster_names) + 1) + len(cluster_names)
    + 1] tests from line 131, the machine ends with the list that
    [assign_clusters] returns, or with the exception that it raises. *)
Theorem loops_refine_assign_clusters data :
  run' (steps_left (length cluster_names) (State 0 0 data)) (start data)
  = ending (Modified.assign_clusters result cluster_names data).
Proof.
  apply rtc_final_run; [apply loops_end | apply ending_final | by apply run_measure].
Qed.

(** While the loops run the list keeps its length, and the rows from
    the row index on are the rows given: line 134 writes to the row at the
    index and to no other. *)
Theorem loops_keep_rows data s :
  rtc step' (start data) (Running s) →
  length (rows s) = length data ∧
  drop (row_index s) (rows s) = drop (row_index s) data.
Proof. intros (_ & Hlen & Hdrop)%rtc_rows. done. Qed.

End refinement.

(** * The tests on the solution of an assignment *)

Section assignment.
Context (g : nat → nat) (n : nat) (cluster_names : list string).
#[local] Abbreviation result := (Some (assignment g n (length cluster_names))).

Lemma attr_X_assignment i j :
  (i < n)%nat → (j < length cluster_names)%nat →
  attr_X result [i; j] = inr (indicator (g i = j)).
Proof.
  intros Hi Hj. rewrite attr_X_Some; [by rewrite X_assignment|].
  unfold assignment. rewrite dom_solution_of, elem_of_list_to_set.
  apply elem_of_tuples_2. eauto.
Qed.

(** The inner loop of a row makes one test per cluster up to the cluster of
    the row, and raises nothing. *)
Lemma inner_assignment i j :
  (i < n)%nat → (g i < length cluster_names)%nat → (j ≤ g i)%nat →
  tests_row result i (drop j (enumerate cluster_names)) = S (g i - j) ∧
  row_raises result i (drop j (enumerate cluster_names)) = false.
Proof.
  intros Hi Hg. remember (g i - j)%nat as d eqn:Hd. revert j Hd.
  induction d as [|d IH]; intros j Hd Hj;
    (destruct (lookup_lt_is_Some_2 cluster_names j ltac:(lia)) as [name Hname]);
    rewrite (drop_S _ (j, name)) by (by rewrite enumerate_lookup, Hname);
    cbn [tests_row row_raises]; rewrite attr_X_assignment by (done || lia).
  - by rewrite indicator_true by lia.
  - rewrite indicator_false by lia. change (chosen 0) with false. cbv iota.
    destruct (IH (S j)) as [-> ->]; [lia..|done].
Qed.

Lemma tests_assignment i m :
  (i + m ≤ n)%nat → (∀ i, (i < n)%nat → (g i < length cluster_names)%nat) →
  tests result cluster_names i m = S (sum_list ((λ i, S (g i)) <$> seq i m)).
Proof.
  intros Hm Hg. revert i Hm. induction m as [|m IH]; intros i Hm; [done|].
  cbn [tests seq fmap list_fmap sum_list sum_list_with].
  destruct (inner_assignment i 0) as [Ht Hr]; [lia | apply Hg; lia | lia |].
  rewrite drop_0 in Ht, Hr. rewrite Ht, Hr, IH by lia. unfold id. lia.
Qed.

End assignment.

(** With the solution of an assignment [g] of the rows to the clusters, the
    loops make [g i + 1] tests for row [i] and the test that ends them:
    with that fuel, and with no less, the machine has returned the rows
    with their labels. *)
Theorem loops_tests_assignment (data : list row) cluster_names g fuel :
  (∀ i, (i < length data)%nat → (g i < length cluster_names)%nat) →
  run (Some (assignment g (length data) (length cluster_names))) cluster_names fuel (start data)
  = Returned (label_rows g cluster_names data)
  ↔ (S (sum_list ((λ i, S (g i)) <$> seq 0 (length data))) ≤ fuel)%nat.
Proof.
  intros Hg. rewrite <- (tests_assignment g (length data) cluster_names 0) by (done || lia).
  rewrite <- run_tests. unfold ending. by rewrite assign_clusters_assignment.
Qed.

(** * The theorems at the sample table *)

(** A solution that puts row [i] of three in cluster [2 - i]. *)
Definition sample_solution : option solution :=
  Some (assignment (λ i, (2 - i)%nat) 3 3).

(** The state after the three tests of the first row. *)
Definition sample_state : state :=
  State 1 0 (<[0%nat := <["Cluster" := VStr "Not Ready"]> (scored 0 (1 # 2) 1)]> sample_scored).

Lemma sample_state_reached :
  rtc (step sample_solution (Profiles.Modified.cluster_names Profiles.Modified.profiles))
      (start sample_scored) (Running sample_state).
Proof.
  replace (Running sample_state)
    with (run sample_solution (Profiles.Modified.cluster_names Profiles.Modified.profiles)
            3 (start sample_scored)) by vm_decide.
  apply rtc_run.
Qed.

Lemma loops_keep_rows_witness :
  length (rows sample_state) = length sample_scored ∧
  drop (row_index sample_state) (rows sample_state)
  = drop (row_index sample_state) sample_scored.
Proof.
  apply (loops_keep_rows sample_solution
           (Profiles.Modified.cluster_names Profiles.Modified.profiles)
           sample_scored sample_state).
  exact sample_state_reached.
Defined.

(** On the sample table the loops make three tests for the first row, two
    for the second and one for the third, and the test that ends them: seven
    of the sixteen that [steps_left] allows, and with six the machine is
    at the test that ends the outer loop. *)
Example sample_tests :
  let names := Profiles.Modified.cluster_names Profiles.Modified.profiles in
  tests sample_solution names 0 (length sample_scored) = 7%nat ∧
  steps_left (length names) (State 0 0 sample_scored) = 16%nat ∧
  run sample_solution names 6 (start sample_scored)
  = Running (State 3 0 (label_rows (λ i, (2 - i)%nat) names sample_scored)).
Proof. intros names. vm_decide. Qed.

Lemma loops_tests_assignment_witness :
  run sample_solution (Profiles.Modified.cluster_names Profiles.Modified.profiles) 7
    (start sample_scored)
  = Returned (label_rows (λ i, (2 - i)%nat)
                (Profiles.Modified.cluster_names Profiles.Modified.profiles) sample_scored).
Proof.
  apply (loops_tests_assignment sample_scored
           (Profiles.Modified.cluster_names Profiles.Modified.profiles) (λ i, (2 - i)%nat) 7).
  - intros i _. change (2 - i < 3)%nat. lia.
  - vm_compute. lia.
Defined.
