(* ===== verification/Penalty.v ===== *)
(** * The penalty of 'Not Ready'

    Line 110 of modified_artist_clustering.py adds 10 to the cost of a row
    in the cluster named 'Not Ready'.  The distances that reach
    [cluster_artists] are normalised: they lie between 0 and 1.  Moving a
    row out of 'Not Ready' therefore always lowers the total cost, by 9 at
    least, and an assignment of least cost leaves in 'Not Ready' no more
    rows than the floor forces into it.

    The file proves this by an exchange argument on assignments
    ([move]: the assignment with one row moved to another cluster) and
    carries it to the rows that [cluster_artists] returns. *)

From Stdlib Require Import QArith Qabs Lqa String.
From stdpp Require Import functions base option list gmap strings.
From S2P Require Import Prelude Sums PyValue Profiles Samples Distance Normalize Milp Cluster.

#[local] Open Scope py_scope.

(** Every row stores, for every cluster, a distance between 0 and 1. *)
Definition unit_cell (r : row) (name : string) : Prop :=
  match cell name r with
  | Some q => 0 <= q ∧ q <= 1
  | None => False
  end.

Definition unit_costs (data : list row) (names : list string) : Prop :=
  Forall (λ r, Forall (unit_cell r) names) data.

#[export] Instance unit_cell_dec r name : Decision (unit_cell r name).
Proof. unfold unit_cell. destruct (cell name r); apply _. Defined.

#[export] Instance unit_costs_dec data names : Decision (unit_costs data names).
Proof. unfold unit_costs. apply _. Defined.

(** The assignment [g] with row [i] moved to cluster [j]. *)
Definition move (g : nat → nat) (i j : nat) : nat → nat := <[i := j]> g.

(** * Moving one row *)

Section move.
Context (g : nat → nat) (n k m : nat).

(** The members of a cluster after a move: one less where the row was, one
    more where it is. *)
Lemma members_move i j' j :
  (i < n)%nat →
  Qnat (members (move g i j') n j) ==
  Qnat (members g n j) - indicator (g i = j) + indicator (j' = j).
Proof.
  intros Hi. unfold members. rewrite <- !Qsum_indicator.
  rewrite (Qsum_seq_change (λ i, indicator (g i = j)) _ n i Hi).
  - unfold move. by rewrite fn_lookup_insert.
  - intros i' Hne. unfold move. by rewrite fn_lookup_insert_ne.
Qed.

(** A row of a cluster that has more rows than the floor can move to any
    other cluster. *)
Lemma balanced_move i j' :
  balanced g n k m → (i < n)%nat → (j' < k)%nat → (m < members g n (g i))%nat →
  balanced (move g i j') n k m.
Proof.
  intros [Hg Hm] Hi Hj' Hmore. split.
  - intros i' Hi'. unfold move. destruct (decide (i = i')) as [->|Hne].
    + by rewrite fn_lookup_insert.
    + rewrite fn_lookup_insert_ne by done. auto.
  - intros j Hj. apply Qnat_le. rewrite members_move by done.
    pose proof (indicator_binary (j' = j)) as [E|E]; rewrite E;
      destruct (decide (g i = j)) as [<-|Hne];
      rewrite ?indicator_true, ?(indicator_false (g i = j)) by done;
      try (apply (Qnat_le (S m)) in Hmore; rewrite Qnat_S in Hmore);
      try (pose proof (proj2 (Qnat_le m _) (Hm j Hj))); lra.
Qed.

End move.

(** The cost after a move: the cost of the row in its old cluster is
    replaced by its cost in the new one. *)
Lemma assignment_cost_move g names data i (r : row) j' :
  data !! i = Some r →
  assignment_cost (move g i j') names data ==
  assignment_cost g names data
  - cost_of r (default "" (names !! g i)) + cost_of r (default "" (names !! j')).
Proof.
  intros Hr. unfold assignment_cost.
  rewrite (Qsum_imap_change (λ i r, cost_of r (default "" (names !! g i))) _ data i r Hr).
  - unfold move. by rewrite fn_lookup_insert.
  - intros i' r' Hne _. unfold move. by rewrite fn_lookup_insert_ne.
Qed.

(** * The cost with and without the penalty *)

Lemma cost_of_not_ready (r : row) :
  unit_cell r "Not Ready" → 10 <= cost_of r "Not Ready".
Proof.
  unfold unit_cell, cost_of, Modified.penalty. rewrite decide_True by done.
  destruct (cell "Not Ready" r) as [q|]; [|done]. intros [??]. cbn. lra.
Qed.

Lemma cost_of_other (r : row) name :
  name ≠ "Not Ready" → unit_cell r name → cost_of r name <= 1.
Proof.
  unfold unit_cell, cost_of, Modified.penalty. intros Hne.
  rewrite decide_False by done. destruct (cell name r) as [q|]; [|done].
  intros [??]. cbn. lra.
Qed.

(** * Least cost leaves 'Not Ready' at its floor *)

Section exchange.
Context (data : list row) (names : list string) (m jn : nat).
Context (Hjn : names !! jn = Some "Not Ready") (Hnd : NoDup names).
Context (Hk : (2 ≤ length names)%nat) (Hunit : unit_costs data names).

(** A cluster other than 'Not Ready'. *)
Lemma other_cluster :
  ∃ j' name, names !! j' = Some name ∧ j' ≠ jn ∧ name ≠ "Not Ready".
Proof using Hjn Hnd Hk.
  set (j' := if decide (jn = 0)%nat then 1%nat else 0%nat).
  assert (j' ≠ jn) as Hne by (unfold j'; case_decide; lia).
  destruct (lookup_lt_is_Some_2 names j') as [name Hname].
  { unfold j'. case_decide; lia. }
  exists j', name. split_and!; [done..|]. intros ->.
  by apply Hne, (NoDup_lookup names j' jn "Not Ready").
Qed.

(** Moving a row out of 'Not Ready' lowers the cost by 9 at least. *)
Lemma move_out_gains g i j' name :
  (i < length data)%nat → g i = jn → names !! j' = Some name → name ≠ "Not Ready" →
  assignment_cost (move g i j') names data + 9 <= assignment_cost g names data.
Proof using Hjn Hunit.
  intros [r Hr]%lookup_lt_is_Some_2 Hg Hname Hne.
  rewrite (assignment_cost_move g names data i r j' Hr), Hg, Hjn, Hname. cbn [default id].
  pose proof (Forall_lookup_1 _ _ _ _ Hunit Hr) as Hcells. cbv beta in Hcells.
  pose proof (cost_of_not_ready r (Forall_lookup_1 _ _ _ _ Hcells Hjn)).
  pose proof (cost_of_other r name Hne (Forall_lookup_1 _ _ _ _ Hcells Hname)). lra.
Qed.

(** A balanced assignment whose cost is less than 9 above the least gives
    'Not Ready' exactly the floor. *)
Lemma near_least_cost_not_ready gap g :
  gap < 9 → balanced g (length data) (length names) m →
  (∀ g', balanced g' (length data) (length names) m →
         assignment_cost g names data <= assignment_cost g' names data + gap) →
  members g (length data) jn = m.
Proof using Hjn Hnd Hk Hunit.
  intros Hgap Hg Hmin. pose proof Hg as [_ Hm].
  assert (jn < length names)%nat as Hlt by by eapply lookup_lt_Some.
  destruct (decide (m < members g (length data) jn)%nat) as [Hmore|]; [|specialize (Hm jn Hlt); lia].
  exfalso. unfold members in Hmore.
  destruct (filter _ _) as [|i l] eqn:Hf; [cbn in Hmore; lia|].
  assert (i ∈ filter (λ i, g i = jn) (seq 0 (length data))) as [Hgi Hi%elem_of_seq]%list_elem_of_filter
    by (rewrite Hf; set_solver).
  destruct other_cluster as (j' & name & Hname & Hne & Hother).
  pose proof (move_out_gains g i j' name ltac:(lia) Hgi Hname Hother) as Hlower.
  assert (balanced (move g i j') (length data) (length names) m) as Hg'.
  { apply balanced_move; [done | lia | by eapply lookup_lt_Some |].
    rewrite Hgi. unfold members. rewrite Hf. done. }
  specialize (Hmin _ Hg'). lra.
Qed.

(** A balanced assignment of least cost gives 'Not Ready' exactly the
    floor. *)
Lemma least_cost_not_ready g :
  balanced g (length data) (length names) m →
  (∀ g', balanced g' (length data) (length names) m →
         assignment_cost g names data <= assignment_cost g' names data) →
  members g (length data) jn = m.
Proof using Hjn Hnd Hk Hunit.
  intros Hg Hmin. apply (near_least_cost_not_ready 0); [done..|].
  intros g' Hg'. specialize (Hmin g' Hg'). lra.
Qed.

End exchange.

(** * The rows that carry a label *)

(** With distinct names, the rows labelled with a cluster are the members of
    the cluster. *)
Lemma labelled_members g names data j name :
  NoDup names → names !! j = Some name →
  (∀ i, (i < length data)%nat → (g i < length names)%nat) →
  length (labelled name (label_rows g names data)) = members g (length data) j.
Proof.
  intros Hnd Hname Hg. unfold labelled, label_rows, members.
  apply filter_imap_length. intros i r Hr%lookup_lt_Some.
  destruct (lookup_lt_is_Some_2 names (g i) (Hg i Hr)) as [name' Hname'].
  rewrite Hname', lookup_insert_eq. split.
  - intros [= ->]. by apply (NoDup_lookup names (g i) j name).
  - intros E. rewrite E in Hname'. by simplify_eq.
Qed.

(** * The distances that [calculate_all_distances] stores *)

Section normalised.
Context `{FloatParser}.
Implicit Types (data : list row) (ps : list (string * Profiles.Modified.cluster_data)).

Lemma dist_nonneg (r : row) cd :
  Forall (λ it, 0 <= it.2) (Profiles.Modified.profile cd) → 0 <= dist r cd.
Proof.
  intros Hp. unfold dist. rewrite distance_value_manhattan; [|apply _|done].
  apply manhattan_nonneg. intros it x _ Hx. exact Hx.
Qed.

(** A distance divided by the largest distance of its column lies between 0
    and 1. *)
Lemma quotient_unit data (r : row) cd :
  Forall (λ it, 0 <= it.2) (Profiles.Modified.profile cd) → r ∈ data →
  let d := divisor ((λ r, dist r cd) <$> data) in
  ¬ d == 0 → 0 <= dist r cd / d ∧ dist r cd / d <= 1.
Proof.
  intros Hp Hr d Hd.
  assert (0 < d) as Hpos.
  { apply divisor_pos; [|done]. apply Forall_fmap, Forall_forall.
    intros r' _. by apply dist_nonneg. }
  assert (dist r cd <= d) as Hle.
  { pose proof (divisor_ge ((λ r, dist r cd) <$> data)) as Hge.
    rewrite Forall_fmap in Hge. exact (proj1 (Forall_forall _ _) Hge r Hr). }
  pose proof (dist_nonneg r cd Hp). split.
  - apply Qle_shift_div_l; [done|]. lra.
  - apply Qle_shift_div_r; [done|]. lra.
Qed.

(** The rows of [calculate_all_distances] store distances between 0 and 1,
    when no ideal value is negative. *)
Lemma unit_costs_all_distances data ps :
  registry_wf ps → nonzero_columns data ps →
  unit_costs (all_distances data ps) (Profiles.Modified.cluster_names ps).
Proof.
  intros (Hnd & Hwf & _) Hnz. apply Forall_lookup_2. intros i r' Hr'.
  assert (i < length data)%nat as [r Hr]%lookup_lt_is_Some_2.
  { apply lookup_lt_Some in Hr'. unfold all_distances in Hr'.
    by rewrite normalized_all_length, length_fmap in Hr'. }
  destruct (all_distances_lookup data ps i r Hnd Hr) as (r2 & Hr2 & Hcell & _).
  simplify_eq. apply Forall_forall.
  intros c ([c' cd] & -> & Hc)%list_elem_of_fmap. unfold unit_cell. cbn [fst].
  rewrite (Hcell c' cd Hc). apply quotient_unit.
  - by apply (proj1 (Forall_forall _ _) Hwf (c', cd)).
  - by eapply list_elem_of_lookup_2.
  - by apply (proj1 (Forall_forall _ _) Hnz (c', cd)).
Qed.

End normalised.

Section not_ready.
Context `{Solver}.
Implicit Types (data : list row) (profiles : list (string * Profiles.Modified.cluster_data)).

(** What [cluster_artists] returns has exactly the floor of rows under
    'Not Ready'. *)
Lemma modified_not_ready_count data profiles data' :
  let names := Profiles.Modified.cluster_names profiles in
  NoDup names → "Not Ready" ∈ names → (2 ≤ length profiles)%nat →
  unit_costs data names → data ≠ [] →
  returns (Modified.cluster_artists data profiles) data' →
  length (labelled "Not Ready" data') = floor_of (length data) (length profiles).
Proof.
  intros names Hnd [jn Hjn]%list_elem_of_lookup Hk Hunit Hdata Hret.
  destruct (modified_returns_solution _ _ _ Hret Hdata) as (sol & Hopt & ->).
  apply modified_solution_optimal in Hopt as [Hg Hmin]. fold names in Hg, Hmin.
  rewrite (labelled_members _ names data jn) by (done || apply Hg).
  rewrite <- (length_cluster_names profiles). fold names.
  apply (least_cost_not_ready data names _ jn); try done.
  unfold names. by rewrite length_cluster_names.
Qed.

(** C3: with the penalty of line 110 and distances between 0 and 1, the
    rows that [cluster_artists] labels 'Not Ready' are exactly
    [max(1, len(data) // len(profiles))] in number, whatever the distances
    are: the penalty 10 outweighs every difference of normalised distances,
    so a row is 'Not Ready' only because the floor of that cluster asks for
    it. *)
Theorem modified_cluster_artists_not_ready data profiles data' :
  let names := Profiles.Modified.cluster_names profiles in
  NoDup names → "Not Ready" ∈ names → (2 ≤ length profiles)%nat →
  unit_costs data names → data ≠ [] →
  returns (Modified.cluster_artists data profiles) data' →
  length (labelled "Not Ready" data') = floor_of (length data) (length profiles).
Proof. exact (modified_not_ready_count data profiles data'). Qed.

End not_ready.

(** Four rows for three clusters: one cluster holds a row more than its
    floor. *)
Definition sample_scored4 : list row := sample_scored ++ [scored (1 # 4) (1 # 2) 1].

Definition sample_labelled4 : list row :=
  label_rows (λ i, if decide (i = 3)%nat then 0%nat else i)
    (Profiles.Modified.cluster_names Profiles.Modified.profiles) sample_scored4.

Lemma sample_scored4_returns :
  returns (Modified.cluster_artists (H:=brute_force_solver) sample_scored4
             Profiles.Modified.profiles) sample_labelled4.
Proof. unfold returns. vm_decide. Qed.

(** Of the four rows one is 'Not Ready', the floor: the row beyond the
    floors goes to another cluster. *)
Lemma modified_cluster_artists_not_ready_witness :
  length (labelled "Not Ready" sample_labelled4)
  = floor_of (length sample_scored4) (length Profiles.Modified.profiles).
Proof.
  apply (modified_cluster_artists_not_ready (H:=brute_force_solver)
           sample_scored4 Profiles.Modified.profiles sample_labelled4);
    first [exact sample_scored4_returns | vm_decide].
Defined.
