(* ===== verification/Preference.v ===== *)
(** * The cluster a row prefers

    [cluster_artists] of modified_artist_clustering.py returns the labels of
    an assignment of least total cost among those that give every cluster
    its floor ([Cluster]).  The spec words the intent as: all else equal,
    the assignment prefers for a row the profile it is nearest to.  The
    floors are what is not equal; this file proves what remains of the
    preference:

    - two rows never both gain by exchanging their clusters ([swap] keeps
      the number of rows of every cluster);
    - a row of a cluster that holds more rows than its floor has the least
      cost there: it could move anywhere ([move] of [Penalty]).

    The cost of a row in a cluster is [cost_of]: its normalised distance,
    plus 10 for 'Not Ready'. *)

From Stdlib Require Import QArith Qabs Lqa String.
From stdpp Require Import functions base option list gmap strings.
From S2P Require Import Prelude Sums PyValue Profiles Samples Distance Normalize Milp Cluster Penalty.

#[local] Open Scope py_scope.

(** The assignment [g] with the clusters of rows [i] and [i'] exchanged. *)
Definition swap (g : nat → nat) (i i' : nat) : nat → nat :=
  move (move g i (g i')) i' (g i).

(** * Exchanging two rows *)

Section swap.
Context (g : nat → nat) (n k m : nat) (i i' : nat).
Context (Hi : (i < n)%nat) (Hi' : (i' < n)%nat).

Lemma swap_lookup x :
  swap g i i' x = if decide (i' = x) then g i else if decide (i = x) then g i' else g x.
Proof.
  unfold swap, move. destruct (decide (i' = x)) as [->|?]; [by rewrite fn_lookup_insert|].
  rewrite fn_lookup_insert_ne by done.
  destruct (decide (i = x)) as [->|?]; [by rewrite fn_lookup_insert|].
  by rewrite fn_lookup_insert_ne.
Qed.

(** Every cluster keeps the number of its rows. *)
Lemma members_swap j : members (swap g i i') n j = members g n j.
Proof using Hi Hi'.
  apply Qnat_inj. unfold swap. rewrite !members_move by done. unfold move.
  destruct (decide (i = i')) as [->|Hne].
  - rewrite fn_lookup_insert. lra.
  - rewrite fn_lookup_insert_ne by done. lra.
Qed.

Lemma balanced_swap : balanced g n k m → balanced (swap g i i') n k m.
Proof using Hi Hi'.
  intros [Hg Hm]. split.
  - intros x Hx. rewrite swap_lookup. repeat case_decide; auto.
  - intros j Hj. rewrite members_swap. auto.
Qed.

End swap.

(** The cost after an exchange. *)
Lemma assignment_cost_swap g names data i i' (r r' : row) :
  i ≠ i' → data !! i = Some r → data !! i' = Some r' →
  assignment_cost (swap g i i') names data ==
  assignment_cost g names data
  - cost_of r (default "" (names !! g i)) - cost_of r' (default "" (names !! g i'))
  + cost_of r (default "" (names !! g i')) + cost_of r' (default "" (names !! g i)).
Proof.
  intros Hne Hr Hr'. unfold swap.
  rewrite (assignment_cost_move _ names data i' r'), (assignment_cost_move _ names data i r)
    by done.
  unfold move. rewrite fn_lookup_insert_ne by done. lra.
Qed.

(** * An assignment of least cost *)

Section least.
Context (data : list row) (names : list string) (m : nat) (g : nat → nat).
Context (Hg : balanced g (length data) (length names) m).
Context (Hleast : ∀ g', balanced g' (length data) (length names) m →
                        assignment_cost g names data <= assignment_cost g' names data).

#[local] Abbreviation name_of j := (default "" (names !! j)).

(** Two rows do not both gain by exchanging their clusters. *)
Lemma least_cost_exchange i i' (r r' : row) :
  data !! i = Some r → data !! i' = Some r' →
  cost_of r (name_of (g i)) + cost_of r' (name_of (g i'))
  <= cost_of r (name_of (g i')) + cost_of r' (name_of (g i)).
Proof using Hg Hleast.
  intros Hr Hr'. destruct (decide (i = i')) as [->|Hne]; [simplify_eq; lra|].
  pose proof (Hleast (swap g i i')) as Hc.
  rewrite (assignment_cost_swap g names data i i' r r') in Hc by done.
  assert (balanced (swap g i i') (length data) (length names) m)
    by (apply balanced_swap; [by eapply lookup_lt_Some..|done]).
  specialize (Hc ltac:(done)). lra.
Qed.

(** A row of a cluster above its floor is nowhere cheaper. *)
Lemma least_cost_slack i (r : row) j' :
  data !! i = Some r → (j' < length names)%nat →
  (m < members g (length data) (g i))%nat →
  cost_of r (name_of (g i)) <= cost_of r (name_of j').
Proof using Hg Hleast.
  intros Hr Hj' Hmore. pose proof (Hleast (move g i j')) as Hc.
  rewrite (assignment_cost_move g names data i r j') in Hc by done.
  assert (balanced (move g i j') (length data) (length names) m)
    by (apply balanced_move; [done | by eapply lookup_lt_Some | done..]).
  specialize (Hc ltac:(done)). lra.
Qed.

End least.

(** * The rows that [cluster_artists] returns *)

Section rows.
Implicit Types (data : list row) (names : list string) (g : nat → nat) (r : row).

(** The label changes no cost. *)
Lemma cost_of_labelled r (v : value) c : cost_of (<["Cluster" := v]> r) c = cost_of r c.
Proof. unfold cost_of, cell. by rewrite lookup_insert_ne. Qed.

(** A row of the output, the row it labels and its cluster. *)
Lemma label_rows_row g names data i r' c :
  (∀ i, (i < length data)%nat → (g i < length names)%nat) →
  label_rows g names data !! i = Some r' → r' !! "Cluster" = Some (VStr c) →
  ∃ r, data !! i = Some r ∧ names !! g i = Some c ∧ ∀ c', cost_of r' c' = cost_of r c'.
Proof.
  intros Hg Hr' Hc. unfold label_rows in Hr'. rewrite list_lookup_imap in Hr'.
  destruct (data !! i) as [r|] eqn:Hr; simplify_eq/=.
  destruct (lookup_lt_is_Some_2 names (g i)) as [name Hname];
    [by eapply Hg, lookup_lt_Some|].
  rewrite Hname in Hc |- *. rewrite lookup_insert_eq in Hc. simplify_eq.
  exists r. split_and!; [done..|]. intros c'. apply cost_of_labelled.
Qed.

End rows.

Section returned.
Context `{Solver}.
Implicit Types (data : list row) (profiles : list (string * Profiles.Modified.cluster_data)).

(** Without rows nothing is returned. *)
Lemma modified_returns_nil profiles data' :
  returns (Modified.cluster_artists [] profiles) data' → data' = [].
Proof.
  intros Hret. destruct (modified_returns_inv _ _ _ Hret) as [Hne Hnum].
  destruct (optimize (cluster_model_of [] profiles)) as [sol|] eqn:Hopt.
  - rewrite (modified_run_Some [] profiles sol) in Hret by done.
    by apply (returns_inj _ _ _ (returns_ret _)) in Hret as <-.
  - rewrite modified_run_None in Hret by done.
    by apply (returns_inj _ _ _ (returns_ret _)) in Hret as <-.
Qed.

(** The rows returned, when there is one, are labelled by a balanced
    assignment of least cost. *)
Lemma modified_returns_least data profiles data' i r' :
  let names := Profiles.Modified.cluster_names profiles in
  let m := floor_of (length data) (length names) in
  returns (Modified.cluster_artists data profiles) data' → data' !! i = Some r' →
  ∃ g, data' = label_rows g names data ∧
       balanced g (length data) (length names) m ∧
       ∀ g', balanced g' (length data) (length names) m →
             assignment_cost g names data <= assignment_cost g' names data.
Proof.
  intros names m Hret Hr'.
  assert (data ≠ []) as Hdata
    by (intros ->; by apply modified_returns_nil in Hret as ->).
  destruct (modified_returns_solution _ _ _ Hret Hdata) as (sol & Hopt & ->).
  exists (cluster_of sol (length names)). split; [done|].
  by apply modified_solution_optimal.
Qed.

Lemma modified_rows_exchange data profiles data' i1 i2 (r1 r2 : row) c1 c2 :
  returns (Modified.cluster_artists data profiles) data' →
  data' !! i1 = Some r1 → data' !! i2 = Some r2 →
  r1 !! "Cluster" = Some (VStr c1) → r2 !! "Cluster" = Some (VStr c2) →
  cost_of r1 c1 + cost_of r2 c2 <= cost_of r1 c2 + cost_of r2 c1.
Proof.
  intros Hret Hr1 Hr2 Hc1 Hc2.
  destruct (modified_returns_least _ _ _ _ _ Hret Hr1) as (g & -> & Hg & Hleast).
  destruct (label_rows_row _ _ _ _ _ _ (proj1 Hg) Hr1 Hc1) as (r & Hr & Hn1 & E1).
  destruct (label_rows_row _ _ _ _ _ _ (proj1 Hg) Hr2 Hc2) as (r' & Hr' & Hn2 & E2).
  pose proof (least_cost_exchange data _ _ g Hg Hleast i1 i2 r r' Hr Hr') as Hc.
  rewrite Hn1, Hn2 in Hc. cbn [default id] in Hc. by rewrite !E1, !E2.
Qed.

Lemma modified_rows_slack data profiles data' i (r : row) c c' :
  let names := Profiles.Modified.cluster_names profiles in
  NoDup names →
  returns (Modified.cluster_artists data profiles) data' →
  data' !! i = Some r → r !! "Cluster" = Some (VStr c) →
  (floor_of (length data) (length profiles) < length (labelled c data'))%nat →
  c' ∈ names → cost_of r c <= cost_of r c'.
Proof.
  intros names Hnd Hret Hr Hc Hmore [j' Hj']%list_elem_of_lookup.
  destruct (modified_returns_least _ _ _ _ _ Hret Hr) as (g & -> & Hg & Hleast).
  fold names in Hg, Hleast, Hr, Hmore.
  destruct (label_rows_row _ _ _ _ _ _ (proj1 Hg) Hr Hc) as (r0 & Hr0 & Hn & E).
  rewrite (labelled_members g names data (g i) c) in Hmore by (done || apply Hg).
  rewrite <- (length_cluster_names profiles) in Hmore. fold names in Hmore.
  pose proof (least_cost_slack data names _ g Hg Hleast i r0 j' Hr0
                ltac:(by eapply lookup_lt_Some) Hmore) as Hle.
  rewrite Hn, Hj' in Hle. cbn [default id] in Hle. by rewrite !E.
Qed.

(** Two rows that [cluster_artists] of modified_artist_clustering.py
    returns never both gain by exchanging their clusters: the costs of the
    two rows in their own clusters add up to no more than their costs in
    each other's. *)
Theorem modified_no_exchange_gains data profiles data' i1 i2 (r1 r2 : row) c1 c2 :
  returns (Modified.cluster_artists data profiles) data' →
  data' !! i1 = Some r1 → data' !! i2 = Some r2 →
  r1 !! "Cluster" = Some (VStr c1) → r2 !! "Cluster" = Some (VStr c2) →
  cost_of r1 c1 + cost_of r2 c2 <= cost_of r1 c2 + cost_of r2 c1.
Proof. apply modified_rows_exchange. Qed.

(** C13: a row that [cluster_artists] of modified_artist_clustering.py puts
    in a cluster holding more rows than the floor
    [max(1, len(data) // len(profiles))] costs there no more than in any
    other cluster: where the floors leave a choice, a row gets the profile
    it prefers. *)
Theorem modified_slack_row_prefers data profiles data' i (r : row) c c' :
  let names := Profiles.Modified.cluster_names profiles in
  NoDup names →
  returns (Modified.cluster_artists data profiles) data' →
  data' !! i = Some r → r !! "Cluster" = Some (VStr c) →
  (floor_of (length data) (length profiles) < length (labelled c data'))%nat →
  c' ∈ names → cost_of r c <= cost_of r c'.
Proof. apply modified_rows_slack. Qed.

End returned.

(** * The theorems at sample rows *)

Lemma modified_no_exchange_gains_witness :
  let r1 := <["Cluster" := VStr "Potential"]> (scored (1 # 2) 0 1) in
  let r2 := <["Cluster" := VStr "Not Ready"]> (scored 1 (1 # 3) (1 # 4)) in
  cost_of r1 "Potential" + cost_of r2 "Not Ready"
  <= cost_of r1 "Not Ready" + cost_of r2 "Potential".
Proof.
  apply (modified_no_exchange_gains (H:=brute_force_solver) sample_scored
           Profiles.Modified.profiles sample_labelled 1 2);
    [exact sample_scored_returns | done..].
Defined.

Lemma modified_slack_row_prefers_witness :
  let r := <["Cluster" := VStr "Ready"]> (scored (1 # 4) (1 # 2) 1) in
  cost_of r "Ready" <= cost_of r "Potential".
Proof.
  apply (modified_slack_row_prefers (H:=brute_force_solver) sample_scored4
           Profiles.Modified.profiles sample_labelled4 3);
    [vm_decide | exact sample_scored4_returns | done | done
    | vm_compute; lia | vm_decide].
Defined.
