(* ===== verification/Pipeline.v ===== *)
(** * Loading, running and saving

    [load_data] and [main] of both scripts.  The file system is outside the
    model: [load_data] takes the rows that [csv.DictReader] yields for the
    input file (strings under the names of the header, [None] where a line
    is short) and [main] records what it prints and what it hands to
    [csv.DictWriter] as events of type [output].

    Module [Artist] is artist_clustering.py, Module [Modified] is
    modified_artist_clustering.py.  The two [load_data] are the same text.
    Strings are ASCII: [str.isdigit] is the test for the digits 0 to 9. *)

From Stdlib Require Import QArith Qabs Lqa Ascii String.
From stdpp Require Import base option list gmap strings.
From S2P Require Import Prelude Sums PyValue Profiles Samples Distance Normalize Milp Cluster Penalty.

#[local] Open Scope py_scope.

(** What a run of [main] shows: the diagnostics of [calculate_distance], the
    lines printed by [main], and the file written. *)
Inductive output : Type :=
| Diagnostic (e : event)
| Message (s : string)
| Report (name : value) (distance : option value) (cluster : value)
| Opened (file : string)
| Header (fieldnames : gset string)
| Record (r : row).

(** [l[0]] *)
Definition first_item {A} (l : list A) : exn + A :=
  match l with
  | [] => inl IndexError
  | x :: _ => inr x
  end.

Section defs.
Context `{FloatParser} `{Solver}.

(** Lines 12-15 of [load_data]: a string that is digits around at most one
    point becomes a number, any other string stays; a cell that is not a
    string has no [replace]. *)
Definition convert_cell (v : value) : M output value :=
  try_except
    (match v with
     | VStr s =>
         if str_isdigit (str_remove_first "." s)
         then x <- lift (str_to_float s) ;; ret (VNum x)
         else ret (VStr s)
     | _ => raise AttributeError
     end)
    (λ e, match e with
          | ValueError => ret (VNum 0)
          | _ => raise e
          end).

(** Lines 11-15: the loop over the keys of a row. *)
Definition convert_row (row : row) : M output (gmap string value) :=
  foldM (λ row key,
    v <- lift (dict_item row key) ;;
    v' <- convert_cell v ;;
    ret (<[key := v']> row)) row (elements (dom row)).

(** Lines 5-17, on the rows of the reader. *)
Definition load_data (file : list row) : M output (list row) :=
  mapM convert_row file.

(** Lines 111-115 and 159-162: the file handed to [csv.DictWriter], with the
    keys of the first row as field names; a row with a key outside them is
    refused. *)
Definition save (output_file : string) (clustered_data : list row) : M output unit :=
  tell (Opened output_file) ;;
  first <- lift (first_item clustered_data) ;;
  let fieldnames := dom first in
  tell (Header fieldnames) ;;
  foldM (λ _ r,
    if decide (dom r ⊆ fieldnames) then tell (Record r) else raise ValueError)
    tt clustered_data.

End defs.

Module Artist.
Section defs.
Context `{FloatParser} `{Solver}.

(** Lines 92-116 of artist_clustering.py. *)
Definition main (file : list row) : M output unit :=
  tell (Message "Loading data...") ;;
  artist_data <- load_data file ;;
  tell (Message "Calculating distances to the ideal profile...") ;;
  artist_data <- map_events Diagnostic
    (Distance.Artist.calculate_all_distances artist_data
       Profiles.Artist.ideal_artist Profiles.Artist.weights) ;;
  tell (Message "Clustering artists...") ;;
  clustered_data <- map_events Diagnostic (Cluster.Artist.cluster_artists artist_data 5) ;;
  tell (Message "Clustering complete. Displaying results:") ;;
  foldM (λ _ artist,
    distance <- lift (dict_item artist "Distance_to_Ideal") ;;
    cluster <- lift (dict_item artist "Cluster") ;;
    tell (Report (dict_get artist "Artist Name" (VStr "Unknown")) (Some distance) cluster))
    tt clustered_data ;;
  let output_file := "clustered_artists.csv" in
  save output_file clustered_data ;;
  tell (Message "Results saved to 'clustered_artists.csv'.").

End defs.
End Artist.

Module Modified.
Section defs.
Context `{FloatParser} `{Solver}.

(** Lines 140-164 of modified_artist_clustering.py. *)
Definition main (file : list row) : M output unit :=
  tell (Message "Loading data...") ;;
  artist_data <- load_data file ;;
  tell (Message "Calculating distances to the ideal profiles...") ;;
  artist_data <- map_events Diagnostic
    (Normalize.calculate_all_distances artist_data Profiles.Modified.profiles) ;;
  tell (Message "Clustering artists...") ;;
  clustered_data <- map_events Diagnostic
    (Cluster.Modified.cluster_artists artist_data Profiles.Modified.profiles) ;;
  tell (Message "Clustering complete. Displaying results:") ;;
  foldM (λ _ artist,
    cluster <- lift (dict_item artist "Cluster") ;;
    tell (Report (dict_get artist "Artist Name" (VStr "Unknown")) None cluster))
    tt clustered_data ;;
  let output_file := "modified_clustered_artists.csv" in
  save output_file clustered_data ;;
  tell (Message "Results saved to 'modified_clustered_artists.csv'.").

End defs.
End Modified.

(** * load_data *)

(** The string is digits around at most one point: the test of line 13. *)
Definition looks_numeric (s : string) : bool :=
  str_isdigit (str_remove_first "." s).

Section load.
Context `{FloatParser}.

(** The cell after the conversion, for a cell that the conversion accepts. *)
Definition converted (v : value) : value :=
  match outcome (convert_cell v) with
  | inr v' => v'
  | inl _ => v
  end.

(** The conversion of the cell returns. *)
Definition convertible_cell (v : value) : Prop :=
  is_Some (match outcome (convert_cell v) with inr v' => Some v' | inl _ => None end).

#[export] Instance convertible_cell_dec v : Decision (convertible_cell v).
Proof. unfold convertible_cell. apply _. Defined.

Lemma convert_cell_events v : events (convert_cell v) = [].
Proof.
  unfold convert_cell. destruct v as [q|s|]; try reflexivity.
  destruct (str_isdigit _); [|reflexivity].
  destruct (str_to_float s) as [[]|x]; reflexivity.
Qed.

Lemma convert_cell_converted v :
  convertible_cell v → convert_cell v = ret (converted v).
Proof.
  unfold convertible_cell, converted. intros Hc.
  rewrite (eta_M (convert_cell v)), convert_cell_events.
  destruct (outcome (convert_cell v)); [by destruct Hc | done].
Qed.

Lemma convert_cell_other s :
  looks_numeric s = false → convert_cell (VStr s) = ret (VStr s).
Proof. unfold convert_cell, looks_numeric. by intros ->. Qed.

Lemma convert_cell_number s q :
  looks_numeric s = true → str_to_float s = inr q →
  convert_cell (VStr s) = ret (VNum q).
Proof. unfold convert_cell, looks_numeric. by intros -> ->. Qed.

Lemma convert_cell_replaced s :
  looks_numeric s = true → str_to_float s = inl ValueError →
  convert_cell (VStr s) = ret (VNum 0).
Proof. unfold convert_cell, looks_numeric. by intros -> ->. Qed.

(** The loop over the keys converts the cells under the keys it has seen. *)
Lemma convert_keys (r : row) (l : list string) :
  NoDup l → Forall (λ k, ∃ v, r !! k = Some v ∧ convertible_cell v) l →
  ∃ r', foldM (λ row key,
               v <- lift (dict_item row key) ;;
               v' <- convert_cell v ;;
               ret (<[key := v']> row)) r l = ret r' ∧
        ∀ k, r' !! k = if decide (k ∈ l) then converted <$> r !! k else r !! k.
Proof.
  intros Hnd. revert r. induction Hnd as [|k0 l Hk0 Hnd IH]; intros r Hl.
  { exists r. split; [done|]. intros k. by rewrite decide_False by set_solver. }
  apply Forall_cons in Hl as [(v & Hv & Hc) Hl].
  destruct (IH (<[k0 := converted v]> r)) as (r' & Hr' & Hlook).
  { apply Forall_forall. intros k Hk.
    destruct (proj1 (Forall_forall _ _) Hl k Hk) as (v' & Hv' & Hc').
    exists v'. split; [|done]. rewrite lookup_insert_ne; [done|]. by intros ->. }
  exists r'. split.
  - cbn [foldM]. unfold dict_item at 1. rewrite Hv, bind_lift_inr.
    by rewrite convert_cell_converted, !bind_ret_l.
  - intros k. rewrite Hlook. destruct (decide (k = k0)) as [->|Hne].
    + rewrite decide_False, decide_True by set_solver.
      by rewrite lookup_insert_eq, Hv.
    + rewrite lookup_insert_ne by done.
      destruct (decide (k ∈ l)); [rewrite decide_True | rewrite decide_False];
        set_solver.
Qed.

(** On a row whose cells the conversion accepts, the loop over the keys
    converts every cell, whatever the order of the keys. *)
Lemma convert_row_returns (r : row) :
  map_Forall (λ _ v, convertible_cell v) r →
  convert_row r = ret (converted <$> r).
Proof.
  intros Hr. destruct (convert_keys r (elements (dom r))) as (r' & Hr' & Hlook).
  - apply NoDup_elements.
  - apply Forall_forall. intros k [v Hv]%elem_of_elements%elem_of_dom. eauto.
  - unfold convert_row. rewrite Hr'. f_equal. apply map_eq. intros k.
    rewrite Hlook, lookup_fmap. case_decide as Hk; [done|].
    rewrite elem_of_elements in Hk. apply not_elem_of_dom in Hk. by rewrite Hk.
Qed.

(** The cell is a number or [None]: it has no [replace]. *)
Definition not_str (v : value) : Prop :=
  match v with VStr _ => False | _ => True end.

#[export] Instance not_str_dec v : Decision (not_str v).
Proof. destruct v; apply _. Defined.

Lemma convert_cell_not_str v : not_str v → convert_cell v = raise AttributeError.
Proof. by destruct v. Qed.

(** A cell that is not a string makes the loop raise [AttributeError],
    when the cells before it are strings that the conversion accepts. *)
Lemma convert_keys_raises (r : row) (l : list string) :
  NoDup l →
  Forall (λ k, ∃ v, r !! k = Some v ∧ (convertible_cell v ∨ not_str v)) l →
  Exists (λ k, ∃ v, r !! k = Some v ∧ not_str v) l →
  raises (foldM (λ row key,
                 v <- lift (dict_item row key) ;;
                 v' <- convert_cell v ;;
                 ret (<[key := v']> row)) r l) AttributeError.
Proof.
  intros Hnd. revert r. induction Hnd as [|k0 l Hk0 Hnd IH]; intros r Hl Hex.
  { by apply Exists_nil in Hex. }
  apply Forall_cons in Hl as [(v & Hv & Hc) Hl]. cbn [foldM].
  unfold dict_item at 1. rewrite Hv, bind_lift_inr.
  destruct (decide (not_str v)) as [Hn|Hn].
  { by rewrite convert_cell_not_str. }
  destruct Hc as [Hc|Hc]; [|done].
  rewrite convert_cell_converted, !bind_ret_l by done.
  apply Exists_cons in Hex as [(v' & Hv' & Hn')|Hex]; [by simplify_eq|].
  apply IH.
  - apply Forall_forall. intros k Hk.
    destruct (proj1 (Forall_forall _ _) Hl k Hk) as (v' & Hv' & Hc').
    exists v'. split; [|done]. rewrite lookup_insert_ne; [done|]. by intros ->.
  - apply Exists_exists in Hex as (k & Hk & v' & Hv' & Hn').
    apply Exists_exists. exists k. split; [done|]. exists v'. split; [|done].
    rewrite lookup_insert_ne; [done|]. by intros ->.
Qed.

Lemma convert_row_raises (r : row) k v :
  map_Forall (λ _ v, convertible_cell v ∨ not_str v) r →
  r !! k = Some v → not_str v →
  raises (convert_row r) AttributeError.
Proof.
  intros Hr Hk Hv. apply convert_keys_raises.
  - apply NoDup_elements.
  - apply Forall_forall. intros k' [v' Hv']%elem_of_elements%elem_of_dom. eauto.
  - apply Exists_exists. exists k. split; [|eauto].
    apply elem_of_elements, elem_of_dom. eauto.
Qed.

Lemma load_data_returns (file : list row) :
  Forall (map_Forall (λ _ v, convertible_cell v)) file →
  load_data file = ret ((λ r : row, converted <$> r) <$> file).
Proof.
  intros Hfile. apply mapM_pure. eapply Forall_impl; [exact Hfile|].
  intros r. apply convert_row_returns.
Qed.

End load.

(** * main *)

(** The rows handed to the writer, in order. *)
Definition written (evs : list output) : list row :=
  omap (λ o, match o with Record r => Some r | _ => None end) evs.

(** The line printed for a row by modified_artist_clustering.py and by
    artist_clustering.py. *)
Definition report_line (r : row) : output :=
  Report (dict_get r "Artist Name" (VStr "Unknown")) None
         (default VNone (r !! "Cluster")).

Definition report_line_distance (r : row) : output :=
  Report (dict_get r "Artist Name" (VStr "Unknown")) (r !! "Distance_to_Ideal")
         (default VNone (r !! "Cluster")).

Section stages.
Implicit Types (rows : list row) (r : row).

Lemma map_events_returns {E E' A} (f : E → E') (m : M E A) a :
  returns m a → map_events f m = (f <$> events m, inr a).
Proof. intros Hm. rewrite (returns_eq m a Hm) at 1. done. Qed.

Lemma written_app evs1 evs2 : written (evs1 ++ evs2) = written evs1 ++ written evs2.
Proof. apply omap_app. Qed.

Lemma written_records rows : written (Record <$> rows) = rows.
Proof. induction rows as [|r rows IH]; [done|]. cbn. by f_equal. Qed.

Lemma written_none {A} (f : A → output) (l : list A) :
  (∀ a r, f a ≠ Record r) → written (f <$> l) = [].
Proof.
  intros Hf. induction l as [|a l IH]; [done|]. cbn.
  destruct (f a) eqn:E; try done. by destruct (Hf a r).
Qed.

Lemma written_skip o evs : (∀ r, o ≠ Record r) → written (o :: evs) = written evs.
Proof. intros Ho. destruct o; try done. by destruct (Ho r). Qed.

Lemma written_nil : written [] = [].
Proof. done. Qed.

(** The loop that prints the rows, on rows that have a label. *)
Lemma report_returns rows :
  Forall (λ r, is_Some (r !! "Cluster")) rows →
  foldM (λ _ artist,
    cluster <- lift (dict_item artist "Cluster") ;;
    tell (Report (dict_get artist "Artist Name" (VStr "Unknown")) None cluster))
    tt rows = (report_line <$> rows, inr tt).
Proof.
  intros Hrows. apply (foldM_tell _ report_line).
  eapply Forall_impl; [exact Hrows|]. intros r [c Hc].
  unfold dict_item, report_line. by rewrite Hc.
Qed.

Lemma report_distance_returns rows :
  Forall (λ r, is_Some (r !! "Distance_to_Ideal") ∧ is_Some (r !! "Cluster")) rows →
  foldM (λ _ artist,
    distance <- lift (dict_item artist "Distance_to_Ideal") ;;
    cluster <- lift (dict_item artist "Cluster") ;;
    tell (Report (dict_get artist "Artist Name" (VStr "Unknown")) (Some distance) cluster))
    tt rows = (report_line_distance <$> rows, inr tt).
Proof.
  intros Hrows. apply (foldM_tell _ report_line_distance).
  eapply Forall_impl; [exact Hrows|]. intros r [[d Hd] [c Hc]].
  unfold dict_item, report_line_distance. by rewrite Hd, Hc.
Qed.

(** The writer accepts rows whose keys are among those of the first. *)
Lemma save_returns output_file r0 rows :
  Forall (λ r, dom r ⊆ dom r0) (r0 :: rows) →
  save output_file (r0 :: rows) =
  (Opened output_file :: Header (dom r0) :: (Record <$> r0 :: rows), inr tt).
Proof.
  intros Hrows. unfold save.
  eapply (bind_eq _ _ [Opened output_file]); [done|].
  cbn [first_item]. rewrite bind_lift_inr.
  eapply (bind_eq _ _ [Header (dom r0)]); [done|].
  apply (foldM_tell (λ r, if decide (dom r ⊆ dom r0) then tell (Record r)
                          else raise ValueError) Record).
  eapply Forall_impl; [exact Hrows|]. intros r Hr. by rewrite decide_True.
Qed.

(** With no row the file is opened and [clustered_data[0]] raises. *)
Lemma save_empty output_file :
  save output_file [] = ([Opened output_file], inl IndexError).
Proof. reflexivity. Qed.

End stages.

Ltac written_simpl :=
  repeat first [ rewrite written_app | rewrite written_records
               | rewrite written_nil | rewrite written_none by done
               | rewrite written_skip by done ];
  rewrite ?app_nil_r.

(** ** The rows that reach the writer *)

Section final_rows.
Context `{FloatParser}.
Implicit Types (data : list row) (ps : list (string * Profiles.Modified.cluster_data)).

Lemma all_distances_length data ps : length (all_distances data ps) = length data.
Proof. unfold all_distances. by rewrite normalized_all_length, length_fmap. Qed.

Lemma numeric_costs_all_distances data ps :
  NoDup (Profiles.Modified.cluster_names ps) →
  numeric_costs (all_distances data ps) (Profiles.Modified.cluster_names ps).
Proof.
  intros Hnd. apply Forall_forall.
  intros c ([c' cd] & -> & Hc)%list_elem_of_fmap.
  by apply numeric_column_normalized_all, (numeric_column_stored _ _ _ cd).
Qed.

(** A row with its distances has the keys of the row and the distance
    keys. *)
Lemma dom_all_distances data ps i r r' :
  NoDup (Profiles.Modified.cluster_names ps) →
  data !! i = Some r → all_distances data ps !! i = Some r' →
  dom r' = dom r ∪ list_to_set (distance_keys ps).
Proof.
  intros Hnd Hr Hr'.
  destruct (all_distances_lookup data ps i r Hnd Hr) as (r2 & Hr2 & Hcell & Hother).
  simplify_eq. apply set_eq. intros k.
  rewrite elem_of_union, !elem_of_dom, elem_of_list_to_set.
  destruct (decide (k ∈ distance_keys ps)) as [Hk|Hk].
  - split; [by right|]. intros _. unfold distance_keys in Hk.
    apply list_elem_of_fmap in Hk as (c & -> & ([c' cd] & -> & Hc)%list_elem_of_fmap).
    specialize (Hcell c' cd Hc). apply cell_Some in Hcell. cbn [fst].
    by rewrite Hcell.
  - rewrite (Hother k Hk). split; [by left | by intros [?|?]].
Qed.

(** The labelled rows have the keys of the rows read, the distance keys and
    'Cluster'. *)
Lemma final_rows_dom data ps g D :
  NoDup (Profiles.Modified.cluster_names ps) →
  (∀ i, (i < length data)%nat → (g i < length (Profiles.Modified.cluster_names ps))%nat) →
  Forall (λ r, dom r = D) data →
  Forall (λ r', dom r' = {["Cluster"]} ∪ (D ∪ list_to_set (distance_keys ps)))
    (label_rows g (Profiles.Modified.cluster_names ps) (all_distances data ps)).
Proof.
  intros Hnd Hg HD. apply Forall_lookup_2. intros i r' Hr'.
  unfold label_rows in Hr'. rewrite list_lookup_imap in Hr'.
  destruct (all_distances data ps !! i) as [r2|] eqn:Hr2; simplify_eq/=.
  assert (i < length data)%nat as Hi
    by (rewrite <- (all_distances_length data ps); by eapply lookup_lt_Some).
  destruct (lookup_lt_is_Some_2 data i Hi) as [r Hr].
  destruct (lookup_lt_is_Some_2 _ _ (Hg i Hi)) as [name ->].
  rewrite dom_insert_L, (dom_all_distances data ps i r r2) by done.
  by rewrite (Forall_lookup_1 _ _ _ _ HD Hr).
Qed.

Lemma label_rows_labelled g names data :
  (∀ i, (i < length data)%nat → (g i < length names)%nat) →
  Forall (λ r, is_Some (r !! "Cluster")) (label_rows g names data).
Proof.
  intros Hg. apply Forall_lookup_2. intros i r' Hr'.
  unfold label_rows in Hr'. rewrite list_lookup_imap in Hr'.
  destruct (data !! i) as [r|] eqn:Hr; simplify_eq/=.
  destruct (lookup_lt_is_Some_2 names (g i)) as [name ->].
  { apply Hg. by eapply lookup_lt_Some. }
  by rewrite lookup_insert_eq.
Qed.

End final_rows.

(** ** main of modified_artist_clustering.py *)

Section modified_main.
Context `{FloatParser} `{Solver}.

(** A run in which every stage returns. *)
Lemma modified_main_run file d1 d2 r0 d3 :
  load_data file = ret d1 →
  returns (Normalize.calculate_all_distances d1 Profiles.Modified.profiles) d2 →
  Cluster.Modified.cluster_artists d2 Profiles.Modified.profiles = ret (r0 :: d3) →
  Forall (λ r, is_Some (r !! "Cluster")) (r0 :: d3) →
  Forall (λ r, dom r ⊆ dom r0) (r0 :: d3) →
  Modified.main file =
  (Message "Loading data..." ::
   Message "Calculating distances to the ideal profiles..." ::
   (Diagnostic <$> events (Normalize.calculate_all_distances d1 Profiles.Modified.profiles)) ++
   Message "Clustering artists..." ::
   Message "Clustering complete. Displaying results:" ::
   (report_line <$> r0 :: d3) ++
   Opened "modified_clustered_artists.csv" :: Header (dom r0) ::
   (Record <$> r0 :: d3) ++
   [Message "Results saved to 'modified_clustered_artists.csv'."], inr tt).
Proof.
  intros Hload Hdist Hcluster Hlabel Hdom. unfold Modified.main.
  eapply (bind_eq _ _ [_]); [done|].
  eapply (bind_eq _ _ []); [exact Hload|].
  eapply (bind_eq _ _ [_]); [done|].
  eapply bind_eq; [by apply map_events_returns|].
  eapply (bind_eq _ _ [_]); [done|].
  eapply (bind_eq _ _ []); [by rewrite Hcluster|].
  eapply (bind_eq _ _ [_]); [done|].
  eapply bind_eq; [by apply report_returns|].
  eapply (bind_eq _ _ (Opened _ :: Header _ :: (Record <$> r0 :: d3)));
    [by apply save_returns|]. done.
Qed.

End modified_main.

(** All rows of the file have the same keys, as the rows of a reader have. *)
Definition same_keys (file : list row) : Prop :=
  Forall (λ r, Forall (λ r', dom r' = dom r) file) file.

#[export] Instance same_keys_dec file : Decision (same_keys file).
Proof. unfold same_keys. apply _. Defined.

Lemma profiles_names_NoDup :
  NoDup (Profiles.Modified.cluster_names Profiles.Modified.profiles).
Proof. vm_decide. Qed.

Lemma profiles_keys_apart : keys_apart Profiles.Modified.profiles.
Proof. vm_decide. Qed.

Section modified_main_theorems.
Context `{FloatParser} `{Solver}.

(** The rows after [load_data]. *)
Definition loaded (file : list row) : list row :=
  (λ r : row, converted <$> r) <$> file.

Lemma loaded_same_keys file r0 :
  same_keys file → r0 ∈ file → Forall (λ r, dom r = dom r0) (loaded file).
Proof.
  intros Hk Hr0. unfold loaded. apply Forall_fmap, Forall_forall. intros r Hr.
  cbn. rewrite dom_fmap_L.
  eapply Forall_forall in Hk; [|exact Hr0]. by eapply Forall_forall in Hk.
Qed.

(** A run on a file that every stage accepts. *)
Lemma modified_main_returns file :
  let data := loaded file in
  let names := Profiles.Modified.cluster_names Profiles.Modified.profiles in
  let rows := all_distances data Profiles.Modified.profiles in
  let m := floor_of (length rows) (length names) in
  Forall (map_Forall (λ _ v, convertible_cell v)) file → same_keys file →
  Forall (λ r, convertible_row r Profiles.Modified.profiles) data →
  nonzero_columns data Profiles.Modified.profiles →
  (3 ≤ length file)%nat →
  ∃ g evs, Modified.main file = (evs, inr tt) ∧
           written evs = label_rows g names rows ∧
           balanced g (length rows) (length names) m ∧
           ∀ g', balanced g' (length rows) (length names) m →
                 assignment_cost g names rows <= assignment_cost g' names rows.
Proof.
  intros data names rows m Hfile Hkeys Hconv Hnz Hlen.
  assert (length rows = length file) as Hrows
    by (unfold rows, data, loaded; by rewrite all_distances_length, length_fmap).
  assert (numeric_costs rows names) as Hnum
    by apply numeric_costs_all_distances, profiles_names_NoDup.
  destruct (proj2 (modified_optimize_Some rows Profiles.Modified.profiles
                     ltac:(done))) as [sol Hopt]; [by rewrite Hrows|].
  destruct (modified_solution_optimal rows names m sol) as [Hg Hmin];
    [eapply optimize_optimal, Hopt|].
  set (g := cluster_of sol (length names)) in *.
  exists g. destruct (label_rows g names rows) as [|r0 d3] eqn:Hfinal.
  { apply (f_equal length) in Hfinal. unfold label_rows in Hfinal.
    rewrite length_imap, Hrows in Hfinal. cbn in Hfinal. lia. }
  destruct file as [|f0 file']; [cbn in Hlen; lia|].
  assert (Forall (λ r', dom r' = {["Cluster"]} ∪ (dom f0 ∪
            list_to_set (distance_keys Profiles.Modified.profiles))) (r0 :: d3)) as Hdom.
  { rewrite <- Hfinal. apply final_rows_dom; [apply profiles_names_NoDup| |].
    - intros i Hi. apply Hg. unfold rows. by rewrite all_distances_length.
    - apply loaded_same_keys; [done | by left]. }
  eexists. split_and!; [|..|exact Hg|exact Hmin].
  - apply (modified_main_run _ data rows r0 d3).
    + by apply load_data_returns.
    + exact (calculate_all_distances_returns data Profiles.Modified.profiles
               profiles_names_NoDup profiles_keys_apart Hconv Hnz).
    + rewrite <- Hfinal. by apply modified_run_Some.
    + rewrite <- Hfinal. apply label_rows_labelled, Hg.
    + pose proof (Forall_inv Hdom) as Hr0. eapply Forall_impl; [exact Hdom|].
      intros r Hr. by rewrite Hr, Hr0.
  - by written_simpl.
Qed.


(** On a file of at least three rows with the same keys, whose cells
    the conversion of [load_data] accepts, whose features [float] can read
    and whose distance columns have a maximum that is not zero, [main] of
    modified_artist_clustering.py runs to its end and hands to the writer
    the rows read, with their normalised distances and the labels of a
    least-cost assignment that gives each of the three clusters its floor
    of rows. *)
Theorem modified_main_spec file :
  let data := loaded file in
  let names := Profiles.Modified.cluster_names Profiles.Modified.profiles in
  let rows := all_distances data Profiles.Modified.profiles in
  let m := floor_of (length rows) (length names) in
  Forall (map_Forall (λ _ v, convertible_cell v)) file → same_keys file →
  Forall (λ r, convertible_row r Profiles.Modified.profiles) data →
  nonzero_columns data Profiles.Modified.profiles →
  (3 ≤ length file)%nat →
  ∃ g evs, Modified.main file = (evs, inr tt) ∧
           written evs = label_rows g names rows ∧
           balanced g (length rows) (length names) m ∧
           ∀ g', balanced g' (length rows) (length names) m →
                 assignment_cost g names rows <= assignment_cost g' names rows.
Proof. exact (modified_main_returns file). Qed.

(** On such a file the rows that [main] of modified_artist_clustering.py
    writes under 'Not Ready' are exactly [max(1, len(data) // 3)] in number:
    the distances of the file decide which rows they are, never how many. *)
Theorem modified_main_not_ready file :
  Forall (map_Forall (λ _ v, convertible_cell v)) file → same_keys file →
  Forall (λ r, convertible_row r Profiles.Modified.profiles) (loaded file) →
  nonzero_columns (loaded file) Profiles.Modified.profiles →
  (3 ≤ length file)%nat →
  ∃ evs, Modified.main file = (evs, inr tt) ∧
         length (labelled "Not Ready" (written evs)) = floor_of (length file) 3.
Proof.
  intros Hfile Hkeys Hconv Hnz Hlen.
  destruct (modified_main_returns file Hfile Hkeys Hconv Hnz Hlen)
    as (g & evs & Hmain & Hw & Hg & Hmin).
  exists evs. split; [done|]. rewrite Hw. clear Hw Hmain.
  set (rows := all_distances (loaded file) Profiles.Modified.profiles) in *.
  set (names := Profiles.Modified.cluster_names Profiles.Modified.profiles) in *.
  assert (length rows = length file) as Hrows
    by (unfold rows, loaded; by rewrite all_distances_length, length_fmap).
  rewrite (labelled_members g names rows 2) by
    (apply profiles_names_NoDup || done || apply Hg).
  rewrite <- Hrows.
  apply (least_cost_not_ready rows names _ 2);
    [done | apply profiles_names_NoDup | vm_compute; lia | | done..].
  apply unit_costs_all_distances; [vm_decide | done].
Qed.

End modified_main_theorems.

(** ** main of artist_clustering.py *)

Section artist_main.
Context `{FloatParser} `{Solver}.

(** The rows with their distance to the ideal profile. *)
Definition measured (data : list row) : list row :=
  with_distance Profiles.Artist.ideal_artist Profiles.Artist.weights <$> data.

Lemma numeric_ideal_measured data : numeric_ideal (measured data).
Proof.
  apply Forall_fmap, Forall_forall. intros r _. cbn.
  unfold ideal_cell, with_distance. by rewrite lookup_insert_eq.
Qed.

Lemma label_ready_lookup ready data i r' :
  label_ready ready data !! i = Some r' →
  ∃ r, data !! i = Some r ∧
       r' = <["Cluster" := VStr (if ready i then "Ready" else "Not Ready")]> r.
Proof.
  unfold label_ready. rewrite list_lookup_imap.
  destruct (data !! i) as [r|]; [|done]. intros [= <-]. eauto.
Qed.

(** The labelled rows have the keys of the rows read and the two keys
    added. *)
Lemma ready_rows_dom ready data D :
  Forall (λ r, dom r = D) data →
  Forall (λ r', dom r' = {["Cluster"]} ∪ ({["Distance_to_Ideal"]} ∪ D) ∧
                is_Some (r' !! "Distance_to_Ideal") ∧ is_Some (r' !! "Cluster"))
    (label_ready ready (measured data)).
Proof.
  intros HD. apply Forall_lookup_2. intros i r' (r2 & Hr2 & ->)%label_ready_lookup.
  unfold measured in Hr2. apply list_lookup_fmap_Some in Hr2 as (r & -> & Hr).
  unfold with_distance. rewrite !dom_insert_L, (Forall_lookup_1 _ _ _ _ HD Hr).
  rewrite lookup_insert_eq, lookup_insert_ne, lookup_insert_eq by done. eauto.
Qed.

(** A run in which every stage returns. *)
Lemma artist_main_run file d1 d2 r0 d3 :
  load_data file = ret d1 →
  returns (Distance.Artist.calculate_all_distances d1
             Profiles.Artist.ideal_artist Profiles.Artist.weights) d2 →
  Cluster.Artist.cluster_artists d2 5 = ret (r0 :: d3) →
  Forall (λ r, is_Some (r !! "Distance_to_Ideal") ∧ is_Some (r !! "Cluster")) (r0 :: d3) →
  Forall (λ r, dom r ⊆ dom r0) (r0 :: d3) →
  Artist.main file =
  (Message "Loading data..." ::
   Message "Calculating distances to the ideal profile..." ::
   (Diagnostic <$> events (Distance.Artist.calculate_all_distances d1
                             Profiles.Artist.ideal_artist Profiles.Artist.weights)) ++
   Message "Clustering artists..." ::
   Message "Clustering complete. Displaying results:" ::
   (report_line_distance <$> r0 :: d3) ++
   Opened "clustered_artists.csv" :: Header (dom r0) ::
   (Record <$> r0 :: d3) ++
   [Message "Results saved to 'clustered_artists.csv'."], inr tt).
Proof.
  intros Hload Hdist Hcluster Hlabel Hdom. unfold Artist.main.
  eapply (bind_eq _ _ [_]); [done|].
  eapply (bind_eq _ _ []); [exact Hload|].
  eapply (bind_eq _ _ [_]); [done|].
  eapply bind_eq; [by apply map_events_returns|].
  eapply (bind_eq _ _ [_]); [done|].
  eapply (bind_eq _ _ []); [by rewrite Hcluster|].
  eapply (bind_eq _ _ [_]); [done|].
  eapply bind_eq; [by apply report_distance_returns|].
  eapply (bind_eq _ _ (Opened _ :: Header _ :: (Record <$> r0 :: d3)));
    [by apply save_returns|]. done.
Qed.

(** A run on a file that every stage accepts. *)
Lemma artist_main_returns file :
  let rows := measured (loaded file) in
  Forall (map_Forall (λ _ v, convertible_cell v)) file → same_keys file →
  Forall (λ r, convertible_on r Profiles.Artist.ideal_artist) (loaded file) →
  (5 ≤ length file)%nat →
  ∃ ready evs, Artist.main file = (evs, inr tt) ∧
               written evs = label_ready ready rows ∧
               5 <= Qnat (ready_count ready (length rows)) ∧
               ∀ ready', 5 <= Qnat (ready_count ready' (length rows)) →
                         selection_cost ready rows <= selection_cost ready' rows.
Proof.
  intros rows Hfile Hkeys Hconv Hlen.
  assert (length rows = length file) as Hrows
    by (unfold rows, measured, loaded; by rewrite !length_fmap).
  destruct (proj2 (artist_optimize_Some rows 5)) as [sol Hopt].
  { rewrite Hrows. apply (Qnat_le 5). lia. }
  destruct (artist_solution_optimal rows 5 sol) as [Hg Hmin];
    [eapply optimize_optimal, Hopt|].
  exists (ready_of sol).
  destruct (label_ready (ready_of sol) rows) as [|r0 d3] eqn:Hfinal.
  { apply (f_equal length) in Hfinal. unfold label_ready in Hfinal.
    rewrite length_imap, Hrows in Hfinal. cbn in Hfinal. lia. }
  destruct file as [|f0 file']; [cbn in Hlen; lia|].
  pose proof (ready_rows_dom (ready_of sol) (loaded (f0 :: file')) (dom f0)
                (loaded_same_keys _ f0 Hkeys ltac:(by left))) as Hdom.
  fold rows in Hdom. rewrite Hfinal in Hdom.
  eexists. split_and!; [|..|exact Hg|exact Hmin].
  - apply (artist_main_run _ (loaded (f0 :: file')) rows r0 d3).
    + by apply load_data_returns.
    + by apply artist_all_distances_returns.
    + rewrite <- Hfinal. apply artist_run_Some; [apply numeric_ideal_measured | done].
    + eapply Forall_impl; [exact Hdom|]. by intros r (_ & ? & ?).
    + pose proof (Forall_inv Hdom) as [Hr0 _]. eapply Forall_impl; [exact Hdom|].
      intros r [Hr _]. by rewrite Hr, Hr0.
  - by written_simpl.
Qed.

(** On a file of at least five rows with the same keys, whose cells
    the conversion of [load_data] accepts and whose features [float] can
    read, [main] of artist_clustering.py runs to its end and hands to the
    writer the rows read, with their distance to the ideal profile and the
    labels of a selection of at least five rows 'Ready' of least total
    distance. *)
Theorem artist_main_spec file :
  let rows := measured (loaded file) in
  Forall (map_Forall (λ _ v, convertible_cell v)) file → same_keys file →
  Forall (λ r, convertible_on r Profiles.Artist.ideal_artist) (loaded file) →
  (5 ≤ length file)%nat →
  ∃ ready evs, Artist.main file = (evs, inr tt) ∧
               written evs = label_ready ready rows ∧
               5 <= Qnat (ready_count ready (length rows)) ∧
               ∀ ready', 5 <= Qnat (ready_count ready' (length rows)) →
                         selection_cost ready rows <= selection_cost ready' rows.
Proof. exact (artist_main_returns file). Qed.

End artist_main.

(** ** Runs that stop *)

Section stops.
Context `{FloatParser} `{Solver}.

(** On an empty file [main] of modified_artist_clustering.py goes
    through every stage with no row, opens the output file, and raises
    [IndexError] at [clustered_data[0]]. *)
Lemma modified_main_empty_file :
  Modified.main [] =
  ([Message "Loading data...";
    Message "Calculating distances to the ideal profiles...";
    Message "Clustering artists...";
    Message "Clustering complete. Displaying results:";
    Opened "modified_clustered_artists.csv"], inl IndexError).
Proof.
  unfold Modified.main. cbn [load_data mapM].
  eapply (bind_eq _ _ [_]); [done|]. rewrite bind_ret_l.
  eapply (bind_eq _ _ [_]); [done|].
  eapply (bind_eq _ _ [] []); [done|].
  eapply (bind_eq _ _ [_]); [done|].
  eapply (bind_eq _ _ [] []); [by rewrite modified_cluster_artists_nil|].
  done.
Qed.

(** On an empty file [main] of artist_clustering.py goes through every
    stage with no row, opens the output file, and raises [IndexError] at
    [clustered_data[0]]. *)
Lemma artist_main_empty_file :
  Artist.main [] =
  ([Message "Loading data...";
    Message "Calculating distances to the ideal profile...";
    Message "Clustering artists...";
    Message "Clustering complete. Displaying results:";
    Opened "clustered_artists.csv"], inl IndexError).
Proof. reflexivity. Qed.

(** On a file of one or two rows that the earlier stages accept, [main]
    of modified_artist_clustering.py raises [AttributeError] in
    [cluster_artists], before any row is reported or written. *)
Lemma modified_main_too_few file :
  Forall (map_Forall (λ _ v, convertible_cell v)) file →
  Forall (λ r, convertible_row r Profiles.Modified.profiles) (loaded file) →
  nonzero_columns (loaded file) Profiles.Modified.profiles →
  file ≠ [] → (length file < 3)%nat →
  raises (Modified.main file) AttributeError ∧ written (events (Modified.main file)) = [].
Proof.
  intros Hfile Hconv Hnz Hne Hlen.
  set (rows := all_distances (loaded file) Profiles.Modified.profiles).
  assert (length rows = length file) as Hrows
    by (unfold rows, loaded; by rewrite all_distances_length, length_fmap).
  assert (Modified.main file =
          (Message "Loading data..." ::
           Message "Calculating distances to the ideal profiles..." ::
           (Diagnostic <$> events (Normalize.calculate_all_distances (loaded file)
                                     Profiles.Modified.profiles)) ++
           [Message "Clustering artists..."], inl AttributeError)) as ->.
  { unfold Modified.main.
    eapply (bind_eq _ _ [_]); [done|].
    eapply (bind_eq _ _ []); [by apply load_data_returns|].
    eapply (bind_eq _ _ [_]); [done|].
    eapply bind_eq.
    { apply map_events_returns.
      exact (calculate_all_distances_returns (loaded file) Profiles.Modified.profiles
               profiles_names_NoDup profiles_keys_apart Hconv Hnz). }
    eapply (bind_eq _ _ [_]); [done|]. fold rows.
    rewrite modified_run_None.
    - assert (rows ≠ []) as Hr by (intros E; rewrite E in Hrows; by destruct file).
      by destruct rows.
    - done.
    - apply numeric_costs_all_distances, profiles_names_NoDup.
    - apply modified_optimize_None; [done|]. by rewrite Hrows. }
  split; [reflexivity|]. unfold events. cbn [fst]. by written_simpl.
Qed.

(** On a file of one to four rows that the earlier stages accept,
    [main] of artist_clustering.py raises [AttributeError]: it asks for five
    rows 'Ready'. *)
Lemma artist_main_too_few file :
  Forall (map_Forall (λ _ v, convertible_cell v)) file →
  Forall (λ r, convertible_on r Profiles.Artist.ideal_artist) (loaded file) →
  file ≠ [] → (length file < 5)%nat →
  raises (Artist.main file) AttributeError ∧ written (events (Artist.main file)) = [].
Proof.
  intros Hfile Hconv Hne Hlen.
  set (rows := measured (loaded file)).
  assert (length rows = length file) as Hrows
    by (unfold rows, measured, loaded; by rewrite !length_fmap).
  assert (Artist.main file =
          (Message "Loading data..." ::
           Message "Calculating distances to the ideal profile..." ::
           (Diagnostic <$> events (Distance.Artist.calculate_all_distances (loaded file)
                            Profiles.Artist.ideal_artist Profiles.Artist.weights)) ++
           [Message "Clustering artists..."], inl AttributeError)) as ->.
  { unfold Artist.main.
    eapply (bind_eq _ _ [_]); [done|].
    eapply (bind_eq _ _ []); [by apply load_data_returns|].
    eapply (bind_eq _ _ [_]); [done|].
    eapply bind_eq;
      [by apply map_events_returns, artist_all_distances_returns|].
    eapply (bind_eq _ _ [_]); [done|]. fold (measured (loaded file)). fold rows.
    rewrite artist_run_None.
    - assert (rows ≠ []) as Hr by (intros E; rewrite E in Hrows; by destruct file).
      by destruct rows.
    - apply numeric_ideal_measured.
    - apply artist_optimize_None. rewrite Hrows. apply (Qnat_lt _ 5). lia. }
  split; [reflexivity|]. unfold events. cbn [fst]. by written_simpl.
Qed.

End stops.

(** * load_data with the decimal parser *)

(** The cell that [load_data] leaves for a cell of the reader: the number
    read from a string of digits around at most one point, and any other
    cell as it is. *)
Definition numeric_value (v : value) : value :=
  match v with
  | VStr s =>
      if looks_numeric s
      then match float_of_string s with
           | inr q => VNum q
           | inl _ => v
           end
      else v
  | _ => v
  end.

(** A string whose digits fit a float. *)
Definition readable (v : value) : Prop :=
  match v with
  | VStr s => float_of_string s ≠ inl NonFinite
  | _ => False
  end.

#[export] Instance readable_dec v : Decision (readable v).
Proof. destruct v; apply _. Defined.

Section decimal.

Lemma convert_cell_decimal v :
  readable v → convert_cell (H:=decimal_parser) v = ret (numeric_value v).
Proof.
  destruct v as [q|s|]; [done| |done]. cbn [readable]. intros Hs.
  unfold numeric_value. destruct (looks_numeric s) eqn:Hl.
  - destruct (float_of_string s) as [e|q] eqn:Hf.
    + destruct (float_of_string_exn s e Hf) as [-> | ->]; [|done].
      by apply float_of_string_numeric in Hf.
    + by apply convert_cell_number.
  - by apply convert_cell_other.
Qed.

Lemma readable_convertible v : readable v → convertible_cell (H:=decimal_parser) v.
Proof.
  intros Hv. unfold convertible_cell. by rewrite (convert_cell_decimal v Hv).
Qed.

Lemma readable_converted v : readable v → converted (H:=decimal_parser) v = numeric_value v.
Proof. intros Hv. unfold converted. by rewrite (convert_cell_decimal v Hv). Qed.

(** C17: with the decimal parser, on rows of strings whose digits fit a
    float, [load_data] returns the rows in order with every string of digits
    around at most one point replaced by its number and every other string
    kept; the replacement by 0 of its [except] clause never happens. *)
Theorem load_data_spec file :
  Forall (map_Forall (λ _ v, readable v)) file →
  load_data (H:=decimal_parser) file = ret ((λ r : row, numeric_value <$> r) <$> file).
Proof.
  intros Hfile. rewrite load_data_returns.
  - f_equal. apply list_fmap_ext. intros i r Hr. apply map_fmap_ext.
    intros k v Hv. apply readable_converted.
    eapply Forall_lookup_1 in Hfile; [|exact Hr]. by eapply Hfile.
  - eapply Forall_impl; [exact Hfile|]. intros r Hr k v Hv.
    by apply readable_convertible, (Hr k).
Qed.

(** What [load_data] leaves in a cell is read by [float] as the string
    was: turning digits into numbers early changes no distance. *)
Theorem load_data_keeps_float s v :
  convert_cell (H:=decimal_parser) (VStr s) = ret v →
  py_float (H:=decimal_parser) v = py_float (H:=decimal_parser) (VStr s).
Proof.
  intros Hv. destruct (looks_numeric s) eqn:Hl.
  - cbn [py_float str_to_float decimal_parser].
    destruct (float_of_string s) as [e|q] eqn:Hf.
    + destruct (float_of_string_exn s e Hf) as [-> | ->].
      * by apply float_of_string_numeric in Hf.
      * unfold convert_cell, looks_numeric in *. rewrite Hl in Hv.
        cbn [str_to_float decimal_parser] in Hv. by rewrite Hf in Hv.
    + rewrite (convert_cell_number (H:=decimal_parser) s q Hl Hf) in Hv.
      by simplify_eq.
  - rewrite (convert_cell_other (H:=decimal_parser) s Hl) in Hv. by simplify_eq.
Qed.

End decimal.

Section short_rows.
Context `{FloatParser}.

(** A row with a cell that is not a string (a line shorter than the
    header leaves [None]) makes [load_data] raise [AttributeError], when the
    rows before it are accepted. *)
Theorem load_data_short_row file1 (r : row) file2 k v :
  Forall (map_Forall (λ _ v, convertible_cell v)) file1 →
  map_Forall (λ _ v, convertible_cell v ∨ not_str v) r →
  r !! k = Some v → not_str v →
  raises (load_data (file1 ++ r :: file2)) AttributeError.
Proof.
  intros Hfile Hr Hk Hv. apply mapM_raises.
  - eapply Forall_impl; [exact Hfile|]. intros r' Hr'.
    exists (converted <$> r'). by rewrite convert_row_returns.
  - by eapply convert_row_raises.
Qed.

End short_rows.

(** * The theorems at sample files, with the decimal parser and the
    reference solver *)

(** A row as the reader yields it. *)
Definition raw (name songs listeners : string) : row :=
  list_to_map [("Artist Name", VStr name);
               ("Number of Songs (Spotify)", VStr songs);
               ("Monthly listeners (Spotify)", VStr listeners)].

Definition sample_file : list row :=
  [raw "Ada" "3" "5000"; raw "Bo" "2" "2000.5"; raw "Cy" "n/a" "-5"].

Definition sample_file5 : list row :=
  sample_file ++ [raw "Di" "1" ".5"; raw "Ed" "7." "1e3"].

(** A line shorter than the header. *)
Definition short_row : row := <["Monthly listeners (Spotify)" := VNone]> (raw "Fy" "4" "").

Lemma modified_main_spec_witness :
  let data := loaded (H:=decimal_parser) sample_file in
  let names := Profiles.Modified.cluster_names Profiles.Modified.profiles in
  let rows := all_distances data Profiles.Modified.profiles in
  let m := floor_of (length rows) (length names) in
  ∃ g evs, Modified.main (H:=decimal_parser) (H0:=brute_force_solver) sample_file
           = (evs, inr tt) ∧
           written evs = label_rows g names rows ∧
           balanced g (length rows) (length names) m ∧
           ∀ g', balanced g' (length rows) (length names) m →
                 assignment_cost g names rows <= assignment_cost g' names rows.
Proof.
  apply (modified_main_spec (H:=decimal_parser) (H0:=brute_force_solver) sample_file);
    [vm_decide | vm_decide | vm_decide | vm_decide | vm_compute; lia].
Defined.

Lemma modified_main_not_ready_witness :
  ∃ evs, Modified.main (H:=decimal_parser) (H0:=brute_force_solver) sample_file5
         = (evs, inr tt) ∧
         length (labelled "Not Ready" (written evs)) = floor_of (length sample_file5) 3.
Proof.
  apply (modified_main_not_ready (H:=decimal_parser) (H0:=brute_force_solver) sample_file5);
    [vm_decide | vm_decide | vm_decide | vm_decide | vm_compute; lia].
Defined.

Lemma artist_main_spec_witness :
  let rows := measured (loaded (H:=decimal_parser) sample_file5) in
  ∃ ready evs, Artist.main (H:=decimal_parser) (H0:=brute_force_solver) sample_file5
               = (evs, inr tt) ∧
               written evs = label_ready ready rows ∧
               5 <= Qnat (ready_count ready (length rows)) ∧
               ∀ ready', 5 <= Qnat (ready_count ready' (length rows)) →
                         selection_cost ready rows <= selection_cost ready' rows.
Proof.
  apply (artist_main_spec (H:=decimal_parser) (H0:=brute_force_solver) sample_file5);
    [vm_decide | vm_decide | vm_decide | vm_compute; lia].
Defined.

Lemma load_data_spec_witness :
  load_data (H:=decimal_parser) sample_file5
  = ret ((λ r : row, numeric_value <$> r) <$> sample_file5).
Proof. apply (load_data_spec sample_file5). vm_decide. Defined.

Lemma load_data_keeps_float_witness :
  py_float (H:=decimal_parser) (VNum 2000.5)
  = py_float (H:=decimal_parser) (VStr "2000.5").
Proof. apply (load_data_keeps_float "2000.5" (VNum 2000.5)). by vm_compute. Defined.

Lemma load_data_short_row_witness :
  raises (load_data (H:=decimal_parser) (sample_file ++ short_row :: sample_file))
         AttributeError.
Proof.
  apply (load_data_short_row (H:=decimal_parser) sample_file short_row sample_file
           "Monthly listeners (Spotify)" VNone);
    [vm_decide | vm_decide | vm_decide | done].
Defined.
