(* ===== verification/Nearest.v ===== *)
(** * Which rows artist_clustering.py calls 'Ready'

    The model of [cluster_artists] in artist_clustering.py minimises the
    total distance of the rows it selects, under the one constraint that at
    least [min_ready_artists] rows are selected.  [Cluster] proves that the
    rows returned are labelled by a selection of least cost.  This file
    draws the consequences by exchanging rows in that selection:

    - swapping a selected row for a row left out keeps the floor, so no row
      left out is nearer to the ideal profile than a selected row;
    - dropping a selected row keeps the floor as long as more rows than the
      floor are selected, so with positive distances the rows selected are
      exactly as many as the floor.

    The selections are functions [nat → bool], updated at one index with
    [<[i:=b]>] of stdpp's [functions]. *)

From Stdlib Require Import QArith Qabs Lqa String.
From stdpp Require Import functions base option list gmap strings.
From S2P Require Import Prelude Sums PyValue Profiles Samples Distance Milp Cluster Pipeline.

#[local] Open Scope py_scope.

(** The number a row stores under 'Distance_to_Ideal', 0 for a row that
    stores none. *)
Definition ideal_distance (r : row) : Q := default 0 (ideal_cell r).

(** Every row lies at a positive distance from the ideal profile. *)
Definition apart_from_ideal (data : list row) : Prop :=
  Forall (λ r, 0 < ideal_distance r) data.

#[export] Instance apart_from_ideal_dec data : Decision (apart_from_ideal data).
Proof. unfold apart_from_ideal. apply _. Defined.

(** * A selection changed at one row *)

Section change.
Implicit Types (ready : nat → bool) (data : list row) (r : row).

Lemma ready_count_insert ready n i (b : bool) :
  (i < n)%nat →
  Qnat (ready_count (<[i:=b]> ready) n) ==
  Qnat (ready_count ready n) - indicator (ready i = true) + indicator (b = true).
Proof.
  intros Hi. unfold ready_count. rewrite <- !Qsum_indicator.
  pose proof (Qsum_seq_change (λ j, indicator (ready j = true))
                (λ j, indicator (<[i:=b]> ready j = true)) n i Hi) as E.
  cbv beta in E. rewrite fn_lookup_insert in E. apply E.
  intros j Hj. by rewrite fn_lookup_insert_ne.
Qed.

Lemma selection_cost_insert ready data i r (b : bool) :
  data !! i = Some r →
  selection_cost (<[i:=b]> ready) data ==
  selection_cost ready data - (if ready i then ideal_distance r else 0)
  + (if b then ideal_distance r else 0).
Proof.
  intros Hi. unfold selection_cost, ideal_distance.
  pose proof (Qsum_imap_change
                (λ j r, if ready j then default 0 (ideal_cell r) else 0)
                (λ j r, if <[i:=b]> ready j then default 0 (ideal_cell r) else 0)
                data i r Hi) as E.
  cbv beta in E. rewrite fn_lookup_insert in E. apply E.
  intros j r' Hj _. by rewrite fn_lookup_insert_ne.
Qed.

(** A selected row and the number of rows selected. *)
Lemma ready_count_pos ready n :
  (0 < ready_count ready n)%nat → ∃ i, (i < n)%nat ∧ ready i = true.
Proof.
  unfold ready_count. intros Hpos.
  destruct (filter _ _) as [|i l] eqn:Hf; [cbn in Hpos; lia|].
  assert (i ∈ filter (λ i, ready i = true) (seq 0 n)) as [Hi ?%elem_of_seq]%list_elem_of_filter
    by (rewrite Hf; left).
  exists i. split; [lia | done].
Qed.

(** What a row of the output tells about the row labelled. *)
Lemma label_ready_row ready data i r' :
  label_ready ready data !! i = Some r' →
  ∃ r, data !! i = Some r ∧ ideal_distance r' = ideal_distance r ∧
       r' !! "Cluster" = Some (VStr (if ready i then "Ready" else "Not Ready")).
Proof.
  intros (r & Hr & ->)%label_ready_lookup. exists r. split_and!; [done| |].
  - unfold ideal_distance, ideal_cell. by rewrite lookup_insert_ne.
  - by rewrite lookup_insert_eq.
Qed.

End change.

(** * A selection of least cost *)

Section least.
Context (data : list row) (m : Q) (ready : nat → bool).
Context (Hfloor : m <= Qnat (ready_count ready (length data))).
Context (Hleast : ∀ ready', m <= Qnat (ready_count ready' (length data)) →
                            selection_cost ready data <= selection_cost ready' data).

(** Swapping a selected row for a row left out does not lower the cost. *)
Lemma selected_nearer i j r r' :
  data !! i = Some r → data !! j = Some r' → ready i = true → ready j = false →
  ideal_distance r <= ideal_distance r'.
Proof using Hfloor Hleast.
  intros Hi Hj Hri Hrj. assert (j ≠ i) as Hne by congruence.
  pose (ready' := <[j:=true]> (<[i:=false]> ready)).
  assert (Qnat (ready_count ready' (length data)) ==
          Qnat (ready_count ready (length data))) as Hcount.
  { unfold ready'. rewrite !ready_count_insert by by eapply lookup_lt_Some.
    rewrite fn_lookup_insert_ne by done. unfold indicator.
    rewrite Hri, Hrj, !decide_True, !decide_False by done. lra. }
  pose proof (Hleast ready' ltac:(by rewrite Hcount)) as Hc. unfold ready' in Hc.
  rewrite (selection_cost_insert _ data j r'), (selection_cost_insert _ data i r) in Hc
    by done.
  rewrite fn_lookup_insert_ne, Hri, Hrj in Hc by done. lra.
Qed.

(** Dropping a selected row at a positive distance lowers the cost: no such
    row is selected beyond the floor. *)
Lemma selected_no_spare k :
  m == Qnat k → apart_from_ideal data → ready_count ready (length data) = k.
Proof using Hfloor Hleast.
  intros Hm Hpos. rewrite Hm in Hfloor. apply Qnat_le in Hfloor.
  destruct (decide (ready_count ready (length data) = k)) as [|Hk]; [done|exfalso].
  destruct (ready_count_pos ready (length data)) as (i & Hi & Hri); [lia|].
  destruct (lookup_lt_is_Some_2 data i Hi) as [r Hr].
  pose proof (Forall_lookup_1 _ _ _ _ Hpos Hr) as Hd. cbv beta in Hd.
  pose proof (ready_count_insert ready (length data) i false Hi) as Hcount.
  unfold indicator in Hcount. rewrite Hri, decide_True, decide_False in Hcount by done.
  assert (Qnat k <= Qnat (ready_count (<[i:=false]> ready) (length data))) as Hfloor'.
  { rewrite Hcount. assert (Qnat (S k) <= Qnat (ready_count ready (length data)))
      by (apply Qnat_le; lia). rewrite Qnat_S in *. lra. }
  pose proof (Hleast (<[i:=false]> ready) ltac:(by rewrite Hm)) as Hc.
  rewrite (selection_cost_insert _ data i r), Hri in Hc by done. lra.
Qed.

End least.

(** * The rows that [cluster_artists] returns *)

Section returned.
Context `{Solver}.
Implicit Types (data : list row) (min_ready_artists : Q).

(** The rows returned are labelled by a selection of least cost. *)
Lemma artist_returns_selection data min_ready_artists data' :
  returns (Artist.cluster_artists data min_ready_artists) data' → data ≠ [] →
  ∃ ready, data' = label_ready ready data ∧
           min_ready_artists <= Qnat (ready_count ready (length data)) ∧
           ∀ ready', min_ready_artists <= Qnat (ready_count ready' (length data)) →
                     selection_cost ready data <= selection_cost ready' data.
Proof.
  intros Hret Hdata. pose proof (artist_returns_inv _ _ _ Hret) as Hnum.
  destruct (optimize (ready_model_of data min_ready_artists)) as [sol|] eqn:Hopt.
  - rewrite (artist_run_Some data min_ready_artists sol) in Hret by done.
    apply (returns_inj _ _ _ (returns_ret _)) in Hret as <-.
    exists (ready_of sol). split; [done|].
    eapply artist_solution_optimal, optimize_optimal, Hopt.
  - rewrite artist_run_None in Hret by done. by destruct data.
Qed.

(** Without rows nothing is returned. *)
Lemma artist_returns_nil min_ready_artists data' :
  returns (Artist.cluster_artists [] min_ready_artists) data' → data' = [].
Proof.
  intros Hret. assert (numeric_ideal []) as Hnum by constructor.
  destruct (optimize (ready_model_of [] min_ready_artists)) as [sol|] eqn:Hopt.
  - rewrite (artist_run_Some [] min_ready_artists sol) in Hret by done.
    by apply (returns_inj _ _ _ (returns_ret _)) in Hret as <-.
  - rewrite artist_run_None in Hret by done.
    by apply (returns_inj _ _ _ (returns_ret _)) in Hret as <-.
Qed.

Lemma artist_ready_rows_nearest data min_ready_artists data' i j r r' :
  returns (Artist.cluster_artists data min_ready_artists) data' →
  data' !! i = Some r → data' !! j = Some r' →
  r !! "Cluster" = Some (VStr "Ready") → r' !! "Cluster" = Some (VStr "Not Ready") →
  ideal_distance r <= ideal_distance r'.
Proof.
  intros Hret Hi Hj Hr Hr'.
  destruct (artist_returns_selection data min_ready_artists data' Hret)
    as (ready & -> & Hfloor & Hleast).
  { intros ->. by apply artist_returns_nil in Hret as ->. }
  apply label_ready_row in Hi as (r1 & Hi & -> & Hc).
  apply label_ready_row in Hj as (r2 & Hj & -> & Hc').
  apply (selected_nearer data min_ready_artists ready Hfloor Hleast i j); [done..| |].
  - destruct (ready i); [done | congruence].
  - destruct (ready j); [congruence | done].
Qed.

Lemma artist_ready_rows_count data k data' :
  returns (Artist.cluster_artists data (Qnat k)) data' → data ≠ [] →
  apart_from_ideal data → length (labelled "Ready" data') = k.
Proof.
  intros Hret Hdata Hpos.
  destruct (artist_returns_selection data (Qnat k) data' Hret Hdata)
    as (ready & -> & Hfloor & Hleast).
  rewrite labelled_ready. by apply (selected_no_spare data (Qnat k)).
Qed.

(** Among the rows that [cluster_artists] of artist_clustering.py
    returns, no row labelled 'Not Ready' is nearer to the ideal profile than
    a row labelled 'Ready'. *)
Theorem artist_ready_nearest data min_ready_artists data' i j r r' :
  returns (Artist.cluster_artists data min_ready_artists) data' →
  data' !! i = Some r → data' !! j = Some r' →
  r !! "Cluster" = Some (VStr "Ready") → r' !! "Cluster" = Some (VStr "Not Ready") →
  ideal_distance r <= ideal_distance r'.
Proof. apply artist_ready_rows_nearest. Qed.

(** When every row lies at a positive distance from the ideal profile,
    the rows that [cluster_artists] of artist_clustering.py labels 'Ready'
    are exactly as many as the floor [min_ready_artists]: the floor is also
    the ceiling. *)
Theorem artist_ready_exactly data k data' :
  returns (Artist.cluster_artists data (Qnat k)) data' → data ≠ [] →
  apart_from_ideal data → length (labelled "Ready" data') = k.
Proof. apply artist_ready_rows_count. Qed.

End returned.

(** * The rows that [main] writes *)

(** The rows with a label among labelled rows. *)
Lemma labelled_lookup name (data : list row) r :
  r ∈ labelled name data ↔ ∃ i, data !! i = Some r ∧ r !! "Cluster" = Some (VStr name).
Proof.
  unfold labelled. rewrite list_elem_of_filter, list_elem_of_lookup. split.
  - intros [Hc [i Hi]]. eauto.
  - intros (i & Hi & Hc). eauto.
Qed.

Section written.
Context `{FloatParser} `{Solver}.

Lemma artist_main_ready file :
  Forall (map_Forall (λ _ v, convertible_cell v)) file → same_keys file →
  Forall (λ r, convertible_on r Profiles.Artist.ideal_artist) (loaded file) →
  (5 ≤ length file)%nat → apart_from_ideal (measured (loaded file)) →
  ∃ evs, Artist.main file = (evs, inr tt) ∧
         length (labelled "Ready" (written evs)) = 5%nat ∧
         ∀ r r', r ∈ labelled "Ready" (written evs) →
                 r' ∈ labelled "Not Ready" (written evs) →
                 ideal_distance r <= ideal_distance r'.
Proof.
  intros Hfile Hkeys Hconv Hlen Hpos.
  destruct (artist_main_returns file Hfile Hkeys Hconv Hlen)
    as (ready & evs & Hmain & Hw & Hfloor & Hleast).
  exists evs. rewrite Hw. split_and!; [done| |].
  - rewrite labelled_ready. by apply (selected_no_spare _ 5 ready Hfloor Hleast 5%nat).
  - intros r r' (i & (r1 & Hi & -> & Hc)%label_ready_row & Hr)%labelled_lookup
      (j & (r2 & Hj & -> & Hc')%label_ready_row & Hr')%labelled_lookup.
    apply (selected_nearer _ 5 ready Hfloor Hleast i j); [done..| |].
    + destruct (ready i); [done | congruence].
    + destruct (ready j); [congruence | done].
Qed.

(** C11: on a file of at least five rows with the same keys, whose cells
    [load_data] and [float] accept, and whose rows all lie at a positive
    distance from the ideal profile, [main] of artist_clustering.py labels
    exactly five rows 'Ready', and no row labelled 'Not Ready' is nearer to
    the ideal profile than one of the five. *)
Theorem artist_main_five_ready file :
  Forall (map_Forall (λ _ v, convertible_cell v)) file → same_keys file →
  Forall (λ r, convertible_on r Profiles.Artist.ideal_artist) (loaded file) →
  (5 ≤ length file)%nat → apart_from_ideal (measured (loaded file)) →
  ∃ evs, Artist.main file = (evs, inr tt) ∧
         length (labelled "Ready" (written evs)) = 5%nat ∧
         ∀ r r', r ∈ labelled "Ready" (written evs) →
                 r' ∈ labelled "Not Ready" (written evs) →
                 ideal_distance r <= ideal_distance r'.
Proof. exact (artist_main_ready file). Qed.

End written.

(** * The theorems at the sample rows *)

(** Six rows, one more than the floor of [main]. *)
Definition sample_file6 : list row := sample_file5 ++ [raw "Fy" "12" "9000"].

Lemma artist_ready_nearest_witness :
  ideal_distance (<["Cluster" := VStr "Ready"]> {["Distance_to_Ideal" := VNum (1 # 2)]})
  <= ideal_distance (<["Cluster" := VStr "Not Ready"]> {["Distance_to_Ideal" := VNum 3]}).
Proof.
  apply (artist_ready_nearest (H:=brute_force_solver) sample_ideal 2
           (label_ready (λ i, bool_decide (i = 1 ∨ i = 3)%nat) sample_ideal) 1 0);
    [unfold returns; vm_decide | done..].
Defined.

Lemma artist_ready_exactly_witness :
  length (labelled "Ready"
            (label_ready (λ i, bool_decide (i = 1 ∨ i = 3)%nat) (delete 3%nat sample_ideal))) = 2%nat.
Proof.
  apply (artist_ready_exactly (H:=brute_force_solver) (delete 3%nat sample_ideal) 2);
    [unfold returns; vm_decide | done | vm_decide].
Defined.

Lemma artist_main_five_ready_witness :
  ∃ evs, Artist.main (H:=decimal_parser) (H0:=brute_force_solver) sample_file6
         = (evs, inr tt) ∧
         length (labelled "Ready" (written evs)) = 5%nat ∧
         ∀ r r', r ∈ labelled "Ready" (written evs) →
                 r' ∈ labelled "Not Ready" (written evs) →
                 ideal_distance r <= ideal_distance r'.
Proof.
  apply (artist_main_five_ready (H:=decimal_parser) (H0:=brute_force_solver) sample_file6);
    [vm_decide | vm_decide | vm_decide | vm_compute; lia | vm_decide].
Defined.
