(* ===== verification/Schema.v ===== *)
(** * The shape of the rows written

    The spec asks that a record, after processing, carries one distance per
    profile and exactly one cluster label.  [output_row] states it for the
    rows that [main] of modified_artist_clustering.py hands to the writer:
    the columns of the input, a number between 0 and 1 under
    ['Distance_to_<name>'] for every profile, the name of a profile under
    ['Cluster'], and no cell that is [None].

    The file proves that each stage keeps its part of the shape and that
    every row written has it. *)

From Stdlib Require Import QArith Qabs Lqa Ascii String.
From stdpp Require Import base option list gmap strings.
From S2P Require Import Prelude Sums PyValue Profiles Samples Distance Normalize Milp Cluster Penalty Pipeline.

#[local] Open Scope py_scope.

(** No cell of the row is [None]. *)
Definition no_None (r : row) : Prop := map_Forall (λ _ v, v ≠ VNone) r.

(** A row of the output for the input columns [header] and the clusters
    [names]. *)
Definition output_row (header : gset string) (names : list string) (r : row) : Prop :=
  dom r = {["Cluster"]} ∪ (header ∪ list_to_set (distance_key <$> names)) ∧
  Forall (unit_cell r) names ∧
  Exists (λ name, r !! "Cluster" = Some (VStr name)) names ∧
  no_None r.

#[export] Instance no_None_dec r : Decision (no_None r).
Proof. unfold no_None. apply _. Defined.

#[export] Instance output_row_dec header names r : Decision (output_row header names r).
Proof. unfold output_row. apply _. Defined.

(** * What each stage keeps *)

Section stages.
Context `{FloatParser}.
Implicit Types (r : row) (data : list row) (ps : list (string * Profiles.Modified.cluster_data)).

(** [load_data] leaves a number or a string in every cell. *)
Lemma converted_not_None v : convertible_cell v → converted v ≠ VNone.
Proof.
  unfold convertible_cell, converted, convert_cell.
  destruct v as [q|s|]; [by intros [? [=]]| |by intros [? [=]]].
  destruct (str_isdigit _); [|done].
  destruct (str_to_float s) as [[]|x]; try done; by intros [? [=]].
Qed.

Lemma loaded_no_None file :
  Forall (map_Forall (λ _ v, convertible_cell v)) file → Forall no_None (loaded file).
Proof.
  intros Hfile. unfold loaded. apply Forall_fmap.
  eapply Forall_impl; [exact Hfile|]. intros r Hr k v'. cbn.
  rewrite lookup_fmap. destruct (r !! k) as [v|] eqn:Hv; [|done].
  intros [= <-]. by eapply converted_not_None, Hr.
Qed.

(** [calculate_all_distances] adds numbers and changes no other cell. *)
Lemma all_distances_no_None data ps :
  NoDup (Profiles.Modified.cluster_names ps) →
  Forall no_None data → Forall no_None (all_distances data ps).
Proof.
  intros Hnd Hdata. apply Forall_lookup_2. intros i r' Hr'.
  assert (i < length data)%nat as [r Hr]%lookup_lt_is_Some_2
    by (rewrite <- (all_distances_length data ps); by eapply lookup_lt_Some).
  destruct (all_distances_lookup data ps i r Hnd Hr) as (r2 & Hr2 & Hcell & Hother).
  simplify_eq. intros k v Hv ->.
  destruct (decide (k ∈ distance_keys ps)) as [Hk|Hk].
  - unfold distance_keys in Hk.
    apply list_elem_of_fmap in Hk as (c & -> & ([c' cd] & -> & Hc)%list_elem_of_fmap).
    specialize (Hcell c' cd Hc). apply cell_Some in Hcell. cbn [fst] in Hv. congruence.
  - rewrite (Hother k Hk) in Hv. by eapply (Forall_lookup_1 _ _ _ _ Hdata Hr).
Qed.

(** The label of line 134 changes no distance. *)
Lemma unit_cell_labelled r (v : value) c :
  unit_cell r c → unit_cell (<["Cluster" := v]> r) c.
Proof. unfold unit_cell, cell. by rewrite lookup_insert_ne. Qed.

(** A row with its distances and a label has the shape of the output. *)
Lemma labelled_output_row header names r name :
  dom r = header ∪ list_to_set (distance_key <$> names) →
  Forall (unit_cell r) names → no_None r → name ∈ names →
  output_row header names (<["Cluster" := VStr name]> r).
Proof.
  intros Hdom Hunit Hnone Hname. split_and!.
  - by rewrite dom_insert_L, Hdom.
  - eapply Forall_impl; [exact Hunit|]. intros c. apply unit_cell_labelled.
  - apply Exists_exists. exists name. by rewrite lookup_insert_eq.
  - by apply map_Forall_insert_2.
Qed.

(** The rows labelled by an assignment have the shape of the output. *)
Lemma label_rows_output header g ps data :
  let names := Profiles.Modified.cluster_names ps in
  let rows := all_distances data ps in
  registry_wf ps → nonzero_columns data ps →
  Forall (λ r, dom r = header) data → Forall no_None data →
  (∀ i, (i < length data)%nat → (g i < length names)%nat) →
  Forall (output_row header names) (label_rows g names rows).
Proof.
  intros names rows Hwf Hnz Hdom Hnone Hg. pose proof Hwf as (Hnd & _).
  apply Forall_lookup_2. intros i r' Hr'.
  unfold label_rows in Hr'. rewrite list_lookup_imap in Hr'.
  destruct (rows !! i) as [r2|] eqn:Hr2; simplify_eq/=.
  assert (i < length data)%nat as Hi
    by (rewrite <- (all_distances_length data ps); by eapply lookup_lt_Some).
  destruct (lookup_lt_is_Some_2 data i Hi) as [r Hr].
  destruct (lookup_lt_is_Some_2 names (g i) (Hg i Hi)) as [name Hname].
  rewrite Hname. apply labelled_output_row.
  - rewrite (dom_all_distances data ps i r r2) by done.
    by rewrite (Forall_lookup_1 _ _ _ _ Hdom Hr).
  - exact (Forall_lookup_1 _ _ _ _ (unit_costs_all_distances data ps Hwf Hnz) Hr2).
  - exact (Forall_lookup_1 _ _ _ _ (all_distances_no_None data ps Hnd Hnone) Hr2).
  - by eapply list_elem_of_lookup_2.
Qed.

End stages.

(** * The rows that [main] writes *)

Section written.
Context `{FloatParser} `{Solver}.

(** C29: every row that [main] of modified_artist_clustering.py hands to the
    writer has the columns of the input, a distance between 0 and 1 for
    each of the three profiles, the name of one profile under 'Cluster',
    and no cell that is [None]; there is one such row for each row read. *)
Theorem modified_main_output_rows file r0 :
  Forall (map_Forall (λ _ v, convertible_cell v)) file → same_keys file →
  Forall (λ r, convertible_row r Profiles.Modified.profiles) (loaded file) →
  nonzero_columns (loaded file) Profiles.Modified.profiles →
  (3 ≤ length file)%nat → r0 ∈ file →
  ∃ evs, Modified.main file = (evs, inr tt) ∧
         length (written evs) = length file ∧
         Forall (output_row (dom r0) (Profiles.Modified.cluster_names Profiles.Modified.profiles))
                (written evs).
Proof.
  intros Hfile Hkeys Hconv Hnz Hlen Hr0.
  destruct (modified_main_returns file Hfile Hkeys Hconv Hnz Hlen)
    as (g & evs & Hmain & Hw & [Hg _] & _).
  exists evs. rewrite Hw. split_and!; [done| |].
  - unfold label_rows, loaded. by rewrite length_imap, all_distances_length, length_fmap.
  - apply label_rows_output; [vm_decide | done | by apply loaded_same_keys
                             | by apply loaded_no_None |].
    intros i Hi. apply Hg. by rewrite all_distances_length.
Qed.

End written.

Lemma modified_main_output_rows_witness :
  ∃ evs, Modified.main (H:=decimal_parser) (H0:=brute_force_solver) sample_file5
         = (evs, inr tt) ∧
         length (written evs) = length sample_file5 ∧
         Forall (output_row (dom (raw "Ada" "3" "5000"))
                   (Profiles.Modified.cluster_names Profiles.Modified.profiles))
                (written evs).
Proof.
  apply (modified_main_output_rows (H:=decimal_parser) (H0:=brute_force_solver)
           sample_file5 (raw "Ada" "3" "5000"));
    [vm_decide | vm_decide | vm_decide | vm_decide | vm_compute; lia | vm_decide].
Defined.
