(* ===== verification/Outcomes.v ===== *)
(** * How a run ends

    The outcome of [main] of both scripts on every file that the reader
    yields for lines as long as the header: rows of strings under the same
    keys.  The verdict is computed from the file alone: the number of its
    rows and, for modified_artist_clustering.py, whether some column of
    distances has maximum zero.  No such file makes [main] raise
    [ValueError], [TypeError] or [KeyError], and no row reaches the writer
    unless the run goes to its end.

    [float] is the decimal parser of [PyValue]; the solver is any solver
    that meets the contract of [Milp]. *)

From Stdlib Require Import QArith Qabs Lqa Ascii String.
From stdpp Require Import base option list gmap strings.
From S2P Require Import Prelude Sums PyValue Profiles Samples Distance Normalize Milp Cluster Penalty Pipeline.

#[local] Open Scope py_scope.

(** A file as the reader yields it: every cell a string whose digits fit a
    float, every row under the keys of the header. *)
Definition well_read (file : list row) : Prop :=
  Forall (map_Forall (λ _ v, readable v)) file ∧ same_keys file.

#[export] Instance well_read_dec file : Decision (well_read file).
Proof. unfold well_read. apply _. Defined.

(** How [main] of modified_artist_clustering.py ends on a file. *)
Definition modified_verdict (file : list row) : exn + unit :=
  if decide (file = []) then inl IndexError
  else if decide (nonzero_columns (loaded file) Profiles.Modified.profiles) then
    if decide (3 ≤ length file)%nat then inr tt else inl AttributeError
  else inl ZeroDivisionError.

(** How [main] of artist_clustering.py ends on a file. *)
Definition artist_verdict (file : list row) : exn + unit :=
  if decide (file = []) then inl IndexError
  else if decide (5 ≤ length file)%nat then inr tt else inl AttributeError.

(** * What [load_data] leaves for [float] *)

Section loaded.
Implicit Types (file : list row) (p : profile_t).

(** [float] accepts what [load_data] leaves in a cell, or rejects it with
    [ValueError]. *)
Lemma numeric_value_float v e :
  readable v → py_float (numeric_value v) = inl e → e = ValueError.
Proof.
  destruct v as [q|s|]; [done| |done]. cbn [readable numeric_value]. intros Hs.
  assert (py_float (VStr s) = inl e → e = ValueError) as Hf.
  { cbn [py_float str_to_float decimal_parser]. intros Hf.
    by destruct (float_of_string_exn s e Hf) as [-> | ->]. }
  destruct (looks_numeric s); [|exact Hf].
  by destruct (float_of_string s) as [e'|q] eqn:Hq.
Qed.

Lemma readable_file_convertible file :
  Forall (map_Forall (λ _ v, readable v)) file →
  Forall (map_Forall (λ _ v, convertible_cell v)) file.
Proof.
  intros Hfile. eapply Forall_impl; [exact Hfile|]. intros r Hr k v Hv.
  by apply readable_convertible, (Hr k).
Qed.

Lemma loaded_convertible_on file p :
  Forall (map_Forall (λ _ v, readable v)) file →
  Forall (λ r, convertible_on r p) (loaded file).
Proof.
  intros Hfile. unfold loaded. apply Forall_fmap.
  eapply Forall_impl; [exact Hfile|]. intros r Hr. cbn.
  apply Forall_forall. intros [f x] _ e. cbn [fst].
  unfold dict_get. rewrite lookup_fmap.
  destruct (r !! f) as [v|] eqn:Hv; [|done]. cbn [fmap option_fmap option_map default].
  rewrite (readable_converted v (Hr f v Hv)). apply numeric_value_float, (Hr f v Hv).
Qed.

Lemma loaded_convertible_row file ps :
  Forall (map_Forall (λ _ v, readable v)) file →
  Forall (λ r, convertible_row r ps) (loaded file).
Proof.
  intros Hfile. apply Forall_forall. intros r Hr. apply Forall_forall. intros c _.
  by apply (proj1 (Forall_forall _ _) (loaded_convertible_on file _ Hfile) r).
Qed.

End loaded.

(** * The run that stops at the division *)

Section zero_column.
Context `{Solver}.

(** When the largest distance to some profile is zero, [main] of
    modified_artist_clustering.py stops in [calculate_all_distances]. *)
Lemma modified_main_zero_column file :
  Forall (map_Forall (λ _ v, readable v)) file → file ≠ [] →
  ¬ nonzero_columns (loaded file) Profiles.Modified.profiles →
  raises (Modified.main file) ZeroDivisionError ∧
  written (events (Modified.main file)) = [].
Proof.
  intros Hfile Hne Hz.
  assert (raises (Normalize.calculate_all_distances (loaded file) Profiles.Modified.profiles)
            ZeroDivisionError) as Hraise.
  { apply calculate_all_distances_zero_column;
      [apply profiles_names_NoDup | apply profiles_keys_apart
      | by apply loaded_convertible_row | by destruct file | done]. }
  assert (Modified.main file =
          (Message "Loading data..." ::
           Message "Calculating distances to the ideal profiles..." ::
           (Diagnostic <$> events (Normalize.calculate_all_distances (loaded file)
                                     Profiles.Modified.profiles)), inl ZeroDivisionError)) as ->.
  { unfold Modified.main.
    eapply (bind_eq _ _ [_]); [done|].
    eapply (bind_eq _ _ []); [by apply load_data_returns, readable_file_convertible|].
    eapply (bind_eq _ _ [_]); [done|].
    rewrite (eta_M (map_events _ _)), outcome_map_events, events_map_events, Hraise.
    by rewrite bind_err. }
  split; [reflexivity|]. unfold events. cbn [fst]. by written_simpl.
Qed.

End zero_column.

(** * The outcome of [main] *)

Section outcomes.
Context `{Solver}.

Lemma modified_main_ends file :
  well_read file →
  outcome (Modified.main file) = modified_verdict file ∧
  (modified_verdict file ≠ inr tt → written (events (Modified.main file)) = []).
Proof.
  intros [Hfile Hkeys]. unfold modified_verdict.
  pose proof (readable_file_convertible file Hfile) as Hcells.
  pose proof (loaded_convertible_row file Profiles.Modified.profiles Hfile) as Hconv.
  destruct (decide (file = [])) as [->|Hne]; [by rewrite modified_main_empty_file|].
  destruct (decide (nonzero_columns _ _)) as [Hnz|Hz];
    [|split; [|intros _]; by apply modified_main_zero_column].
  destruct (decide (3 ≤ length file)%nat) as [Hlen|Hlen].
  - destruct (modified_main_returns file Hcells Hkeys Hconv Hnz Hlen) as (g & evs & -> & _).
    by split.
  - split; [|intros _]; apply modified_main_too_few; (done || lia).
Qed.

Lemma artist_main_ends file :
  well_read file →
  outcome (Artist.main file) = artist_verdict file ∧
  (artist_verdict file ≠ inr tt → written (events (Artist.main file)) = []).
Proof.
  intros [Hfile Hkeys]. unfold artist_verdict.
  pose proof (readable_file_convertible file Hfile) as Hcells.
  pose proof (loaded_convertible_on file Profiles.Artist.ideal_artist Hfile) as Hconv.
  destruct (decide (file = [])) as [->|Hne]; [by rewrite artist_main_empty_file|].
  destruct (decide (5 ≤ length file)%nat) as [Hlen|Hlen].
  - destruct (artist_main_returns file Hcells Hkeys Hconv Hlen) as (g & evs & -> & _).
    by split.
  - split; [|intros _]; apply artist_main_too_few; (done || lia).
Qed.

(** C5: on every file of strings under the keys of a header, [main] of
    modified_artist_clustering.py ends as the verdict says: [IndexError] on
    an empty file, [ZeroDivisionError] when the largest distance to some
    profile is zero, [AttributeError] on one or two rows, and a normal end
    otherwise; unless the end is normal no row reaches the writer. *)
Theorem modified_main_outcome file :
  well_read file →
  outcome (Modified.main file) = modified_verdict file ∧
  (modified_verdict file ≠ inr tt → written (events (Modified.main file)) = []).
Proof. exact (modified_main_ends file). Qed.

(** On every file of strings under the keys of a header, [main] of
    artist_clustering.py ends with [IndexError] on an empty file, with
    [AttributeError] on one to four rows, and normally otherwise; unless
    the end is normal no row reaches the writer. *)
Theorem artist_main_outcome file :
  well_read file →
  outcome (Artist.main file) = artist_verdict file ∧
  (artist_verdict file ≠ inr tt → written (events (Artist.main file)) = []).
Proof. exact (artist_main_ends file). Qed.

(** On a file of strings under the keys of a header, [main] of
    modified_artist_clustering.py raises no [ValueError], [TypeError] or
    [KeyError]: the conversions of [load_data] and [calculate_distance]
    absorb every malformed cell. *)
Theorem modified_main_safe file e :
  well_read file → raises (Modified.main file) e →
  e = IndexError ∨ e = ZeroDivisionError ∨ e = AttributeError.
Proof.
  intros Hfile He. destruct (modified_main_ends file Hfile) as [Ho _].
  unfold raises in He. rewrite Ho in He. unfold modified_verdict in He.
  repeat case_decide; naive_solver.
Qed.

End outcomes.

(** * The theorems at sample files *)

(** A file with the names of three artists and no other column: every row
    is at distance 0 from the profile of 'Not Ready'. *)
Definition names_only : list row :=
  [{["Artist Name" := VStr "Di"]}; {["Artist Name" := VStr "Ed"]};
   {["Artist Name" := VStr "Fy"]}].

Lemma modified_main_outcome_witness :
  outcome (Modified.main (H0:=brute_force_solver) names_only) = modified_verdict names_only ∧
  (modified_verdict names_only ≠ inr tt →
   written (events (Modified.main (H0:=brute_force_solver) names_only)) = []).
Proof. apply (modified_main_outcome (H:=brute_force_solver) names_only). vm_decide. Defined.

Lemma artist_main_outcome_witness :
  outcome (Artist.main (H0:=brute_force_solver) sample_file5) = artist_verdict sample_file5 ∧
  (artist_verdict sample_file5 ≠ inr tt →
   written (events (Artist.main (H0:=brute_force_solver) sample_file5)) = []).
Proof. apply (artist_main_outcome (H:=brute_force_solver) sample_file5). vm_decide. Defined.

Lemma modified_main_safe_witness :
  ZeroDivisionError = IndexError ∨ ZeroDivisionError = ZeroDivisionError ∨
  ZeroDivisionError = AttributeError.
Proof.
  apply (modified_main_safe (H:=brute_force_solver) names_only ZeroDivisionError);
    [vm_decide | unfold raises; vm_decide].
Defined.
