(* ===== verification/Saved.v ===== *)
(** * The events of a run that goes to its end

    A run of [main] of either script that returns has opened the output
    file once, handed the header to the writer once and then the rows, and
    printed its last message; everything else that it shows is printed.
    [saved] states this form of the events of a run, [main_saved] proves it
    for both scripts by going through the stages, each of which is [quiet]
    (it hands nothing to the writer) but [save]. *)

From Stdlib Require Import QArith String.
From stdpp Require Import base option list gmap strings.
From S2P Require Import Prelude Layers PyValue Profiles Distance Normalize Milp Cluster Pipeline.

#[local] Open Scope py_scope.

(** The event is printed: nothing goes to the writer. *)
Definition quiet (o : output) : Prop :=
  match o with
  | Header _ | Record _ => False
  | _ => True
  end.

#[export] Instance quiet_dec o : Decision (quiet o).
Proof. destruct o; apply _. Defined.

(** The events of a run that has written [rows] to the file. *)
Definition saved (evs : list output) (rows : list row) : Prop :=
  ∃ pre file fieldnames post,
    evs = pre ++ Opened file :: Header fieldnames :: (Record <$> rows) ++ post ∧
    Forall quiet pre ∧ Forall quiet post.

(** A computation that returns only after it has written rows, and that
    has written nothing when it raises, unless the writer has refused a
    row. *)
Definition saves {A} (m : M output A) : Prop :=
  (∀ a, returns m a → ∃ rows, saved (events m) rows) ∧
  (∀ e, raises m e → e ≠ ValueError → Forall quiet (events m)).

(** A computation of binds and traversals whose leaves print nothing. *)
Ltac silent :=
  repeat first
    [ apply events_mapM_nil; intros [? ?]
    | apply events_bind_nil; [|intros ?]
    | done ].

Section quiet.
Context `{FloatParser} `{Solver}.

Lemma quiet_map_events_Diagnostic {A} (m : M event A) :
  Forall quiet (events (map_events Diagnostic m)).
Proof. rewrite events_map_events. by apply Forall_fmap, Forall_forall. Qed.

(** [load_data] shows nothing. *)
Lemma load_data_silent (file : list row) : events (load_data file) = [].
Proof.
  apply events_mapM_nil. intros r. apply events_foldM_nil. intros acc k.
  apply events_bind_nil; [done|]. intros v.
  apply events_bind_nil; [apply convert_cell_events|done].
Qed.

Lemma quiet_load_data (file : list row) : Forall quiet (events (load_data file)).
Proof. rewrite load_data_silent. constructor. Qed.

(** [cluster_artists] prints nothing of its own: what Gurobi prints is not
    modelled. *)
Lemma modified_assign_cluster_silent result i (r : row) items :
  events (Cluster.Modified.assign_cluster result i r items) = [].
Proof.
  induction items as [|[j c] items IH]; [done|]. cbn [Cluster.Modified.assign_cluster].
  apply events_bind_nil; [done|]. intros x. by destruct (chosen x).
Qed.

Lemma artist_cluster_artists_silent (data : list row) min_ready_artists :
  events (Cluster.Artist.cluster_artists data min_ready_artists) = [].
Proof.
  unfold Cluster.Artist.cluster_artists, Cluster.Artist.cluster_model,
    Cluster.Artist.objective_of, Cluster.Artist.assign_clusters. cbv zeta. silent.
Qed.

Lemma modified_cluster_artists_silent (data : list row) profiles :
  events (Cluster.Modified.cluster_artists data profiles) = [].
Proof.
  unfold Cluster.Modified.cluster_artists, Cluster.Modified.cluster_model,
    Cluster.Modified.objective_of, Cluster.Modified.assign_clusters. cbv zeta. silent.
  apply modified_assign_cluster_silent.
Qed.

(** A quiet stage before a computation that saves. *)
Lemma saves_bind {A B} (m : M output A) (k : A → M output B) :
  Forall quiet (events m) → (∀ a, saves (k a)) → saves (bind m k).
Proof.
  intros Hm Hk. unfold saves. split.
  - intros b (a & Ha & Hb)%returns_bind_inv.
    destruct (proj1 (Hk a) b Hb) as (rows & pre & file & fieldnames & post & Hevs & Hpre & Hpost).
    exists rows, (events m ++ pre), file, fieldnames, post.
    rewrite (events_bind m k a Ha), Hevs, <- app_assoc. split_and!; [done| |done].
    by apply Forall_app.
  - intros e He Hne. destruct (outcome m) as [e'|a] eqn:Hout.
    + by rewrite (events_bind_raises m k e').
    + rewrite (events_bind m k a Hout). apply Forall_app. split; [done|].
      apply (proj2 (Hk a) e); [|done]. unfold raises in *.
      by rewrite <- (outcome_bind m k a Hout).
Qed.

(** The writer accepts every row when [save] returns. *)
Lemma save_returns_inv output_file r0 rows :
  returns (save output_file (r0 :: rows)) tt → Forall (λ r, dom r ⊆ dom r0) (r0 :: rows).
Proof.
  unfold save. intros ([] & _ & Hsave)%returns_bind_inv.
  cbn [first_item] in Hsave. rewrite bind_lift_inr in Hsave.
  apply returns_bind_inv in Hsave as ([] & _ & Hrows%foldM_unit_returns).
  eapply Forall_impl; [exact Hrows|]. intros r Hr. cbn in Hr. by case_decide.
Qed.

(** The writer refuses a row with [ValueError], and [save] raises nothing
    else once the header is written. *)
Lemma save_raises_inv output_file data e :
  raises (save output_file data) e → e ≠ ValueError → data = [].
Proof.
  destruct data as [|r0 rows]; [done|]. intros He Hne. exfalso. revert He.
  unfold save, raises. rewrite (outcome_bind _ _ tt) by done.
  cbn [first_item]. rewrite bind_lift_inr, (outcome_bind _ _ tt) by done.
  generalize (r0 :: rows). intros l. induction l as [|r l IH]; [done|].
  cbn [foldM]. case_decide; [by rewrite (outcome_bind _ _ tt)|].
  rewrite bind_raise. by intros [= <-].
Qed.

(** [save], then a message. *)
Lemma saves_save output_file data (msg : string) :
  saves (save output_file data ;; tell (Message msg)).
Proof.
  unfold saves. split.
  - intros [] ([] & Hsave & _)%returns_bind_inv. exists data.
    destruct data as [|r0 rows]; [done|].
    exists [], output_file, (dom r0), [Message msg].
    split_and!; [|constructor|by repeat constructor].
    by rewrite (save_returns output_file r0 rows (save_returns_inv _ _ _ Hsave)).
  - intros e He Hne. destruct (outcome (save output_file data)) as [e'|[]] eqn:Hout.
    + rewrite (events_bind_raises _ _ e' Hout).
      assert (e' = e) as -> by (apply (raises_bind_l _ (λ _, tell (Message msg))) in Hout;
                                unfold raises in *; congruence).
      rewrite (save_raises_inv output_file data e Hout Hne). by repeat constructor.
    + unfold raises in He. by rewrite (outcome_bind _ _ tt Hout) in He.
Qed.

End quiet.

(** Go through the stages of [main] up to [save]; the stage left is the
    loop that prints the rows. *)
Ltac saves_stages :=
  repeat first
    [ apply saves_save
    | apply saves_bind;
      [first [ by repeat constructor | apply quiet_load_data
             | apply quiet_map_events_Diagnostic | idtac ]|intros ?] ];
  apply Forall_events_foldM; intros _ ?;
  repeat (apply Forall_events_bind; [by constructor|intros ?]); by repeat constructor.

Section mains.
Context `{FloatParser} `{Solver}.

Lemma artist_main_saves file : saves (Pipeline.Artist.main file).
Proof. unfold Pipeline.Artist.main. saves_stages. Qed.

Lemma modified_main_saves file : saves (Pipeline.Modified.main file).
Proof. unfold Pipeline.Modified.main. saves_stages. Qed.

(** The rows of a run that has saved are the rows written. *)
Lemma saved_written evs rows : saved evs rows → written evs = rows.
Proof.
  intros (pre & file & fieldnames & post & -> & Hpre & Hpost).
  assert (∀ l, Forall quiet l → written l = []) as Hquiet.
  { induction 1 as [|o l Ho _ IH]; [done|]. by destruct o. }
  rewrite written_app, (Hquiet pre Hpre). cbn.
  by rewrite written_app, written_records, (Hquiet post Hpost), app_nil_r.
Qed.

(** A run that returns has saved the rows that it has written. *)
Lemma saves_returns {A} (m : M output A) a :
  saves m → returns m a → saved (events m) (written (events m)).
Proof.
  intros [Hm _] Ha. destruct (Hm a Ha) as [rows Hrows].
  by rewrite (saved_written _ rows).
Qed.

End mains.
