(* ===== verification/Ordered.v ===== *)
(** * The scripts on rows that keep the order of their keys

    The stages of both scripts once more, from the records of the input
    file to the records of the output file, on dictionaries that keep the
    order of insertion ([Odict], [Csv]).  The order of the keys of a row
    shows in two places: in the columns of the file written, and in the
    diagnostic of [calculate_distance], which prints the row.  So the
    functions that assign to a key of a row are written again here, with
    [od_set] for the assignment, and so is [calculate_distance], which reads
    the row by its keys and prints it as the dictionary it is
    ([Ordered.diagnostic]).  The objective of the model only reads the rows,
    and is that of the other files on the rows without their order
    ([to_row]).

    Module [Ordered] holds the definitions, with Modules [Artist] and
    [Modified] for what differs between artist_clustering.py and
    modified_artist_clustering.py.  The lemmas show that every stage
    refines the stage of the other layer: it raises the same and returns
    the same rows up to [to_row], and it prints the same, the row of a
    diagnostic being the row without order put in the order of the columns
    ([printed]); they say which keys a row has after every stage, in which
    order. *)

From Stdlib Require Import QArith Qabs String.
From stdpp Require Import base option list gmap strings.
From S2P Require Import Prelude Layers Sums Odict PyValue Csv Profiles Samples Distance Normalize Milp Cluster Penalty Pipeline.

#[local] Open Scope py_scope.

Module Ordered.

(** What [calculate_distance] prints (lines 55 and 58 of
    artist_clustering.py, 77 and 80 of modified_artist_clustering.py), with
    the row as [print] shows it: a dictionary, its keys in their order. *)
Inductive diagnostic : Type :=
| NonNumeric (feature : string) (row : orow)
| ErrorProcessing (feature : string) (e : exn).

(** What a run shows: the lines that [main] prints and the file it opens,
    the diagnostics of [calculate_distance], and the records it hands to
    [csv.writer]. *)
Inductive output : Type :=
| Shown (o : Pipeline.output)
| Printed (d : diagnostic)
| Line (record : list value).

Section defs.
Context `{FloatParser}.

(** Lines 11-15 of [load_data]: the loop over the keys of a row, in their
    order. *)
Definition convert_fields (row : orow) : M Pipeline.output orow :=
  foldM (λ row key,
    v <- lift (dict_item (to_row row) key) ;;
    v' <- convert_cell v ;;
    ret (od_set row key v')) row (od_keys row).

(** Lines 11-15 on a row of the reader: the key [None] of a long record
    comes last and its value, a list, has no [replace]. *)
Definition convert_row (row : reader_row) : M Pipeline.output orow :=
  d <- convert_fields (fields row) ;;
  match rest row with
  | Some _ => raise AttributeError
  | None => ret d
  end.

(** Lines 5-17: [load_data], from the records of the file. *)
Definition load_data (records : list (list string)) : M Pipeline.output (list orow) :=
  mapM convert_row (DictReader records).

(** Lines 109-114 of artist_clustering.py and 158-162 of
    modified_artist_clustering.py: the keys of the first row are the field
    names, in their order. *)
Definition save (output_file : string) (clustered_data : list orow) : M output unit :=
  tell (Shown (Opened output_file)) ;;
  first <- lift (first_item clustered_data) ;;
  let fieldnames := od_keys first in
  map_events Line (writeheader fieldnames) ;;
  map_events Line (writerows fieldnames clustered_data).

End defs.

Module Artist.
Section defs.
Context `{FloatParser} `{Solver}.

(** Lines 47-60 of artist_clustering.py: the row is read by its keys and
    printed as it is. *)
Definition calculate_distance
    (row : orow) (ideal : profile_t) (weights : gmap string Q) : M diagnostic Q :=
  foldM (λ distance '(feature, ideal_value),
    let weight := dict_get weights feature 1 in
    try_except
      (let row_value := dict_get (to_row row) feature (VNum 0) in
       x <- lift (py_float row_value) ;;
       ret (distance + weight * Qabs (x - ideal_value)))
      (λ e, match e with
            | ValueError =>
                tell (NonNumeric feature row) ;;
                ret (distance + weight * ideal_value)
            | _ =>
                tell (ErrorProcessing feature e) ;;
                raise e
            end))
    0 ideal.

(** Lines 62-65 of artist_clustering.py. *)
Definition calculate_all_distances
    (data : list orow) (ideal : profile_t) (weights : gmap string Q)
    : M diagnostic (list orow) :=
  mapM (λ artist,
    d <- calculate_distance artist ideal weights ;;
    ret (od_set artist "Distance_to_Ideal" (VNum d))) data.

(** Lines 86-87. *)
Definition assign_clusters (result : option solution) (data : list orow)
    : M event (list orow) :=
  mapM (λ '(i, row),
    x <- lift (attr_X result [i]) ;;
    ret (od_set row "Cluster" (VStr (Cluster.Artist.label x)))) (enumerate data).

(** Lines 68-89. *)
Definition cluster_artists (data : list orow) (min_ready_artists : Q)
    : M event (list orow) :=
  model <- Cluster.Artist.cluster_model (to_row <$> data) min_ready_artists ;;
  let result := optimize model in
  data <- assign_clusters result data ;;
  ret data.

(** Lines 92-116, from the records of the input file. *)
Definition main (records : list (list string)) : M output unit :=
  tell (Shown (Message "Loading data...")) ;;
  artist_data <- map_events Shown (load_data records) ;;
  tell (Shown (Message "Calculating distances to the ideal profile...")) ;;
  artist_data <- map_events Printed
    (calculate_all_distances artist_data
       Profiles.Artist.ideal_artist Profiles.Artist.weights) ;;
  tell (Shown (Message "Clustering artists...")) ;;
  clustered_data <- map_events (Shown ∘ Diagnostic) (cluster_artists artist_data 5) ;;
  tell (Shown (Message "Clustering complete. Displaying results:")) ;;
  foldM (λ _ artist,
    distance <- lift (dict_item (to_row artist) "Distance_to_Ideal") ;;
    cluster <- lift (dict_item (to_row artist) "Cluster") ;;
    tell (Shown (Report (dict_get (to_row artist) "Artist Name" (VStr "Unknown"))
                   (Some distance) cluster)))
    tt clustered_data ;;
  let output_file := "clustered_artists.csv" in
  save output_file clustered_data ;;
  tell (Shown (Message "Results saved to 'clustered_artists.csv'.")).

End defs.
End Artist.

Module Modified.
Section defs.
Context `{FloatParser} `{Solver}.

(** Lines 70-82 of modified_artist_clustering.py: the row is read by its
    keys and printed as it is. *)
Definition calculate_distance (row : orow) (profile : profile_t) : M diagnostic Q :=
  foldM (λ distance '(feature, ideal_value),
    try_except
      (let row_value := dict_get (to_row row) feature (VNum 0) in
       x <- lift (py_float row_value) ;;
       ret (distance + Qabs (x - ideal_value)))
      (λ e, match e with
            | ValueError =>
                tell (NonNumeric feature row) ;;
                ret (distance + ideal_value)
            | _ =>
                tell (ErrorProcessing feature e) ;;
                raise e
            end))
    0 profile.

(** Lines 94-96: the distances of one row; the row that a diagnostic
    prints holds the distances stored before. *)
Definition store_distances
    (artist : orow) (profiles : list (string * Profiles.Modified.cluster_data))
    : M diagnostic orow :=
  foldM (λ artist '(cluster_name, cluster_data),
    let profile := Profiles.Modified.profile cluster_data in
    d <- calculate_distance artist profile ;;
    ret (od_set artist (distance_key cluster_name) (VNum d))) artist profiles.

(** Lines 85-89: the pass of [normalize_distances] for one cluster; it
    prints nothing. *)
Definition normalize_column {E} (data : list orow) (cluster_name : string)
    : M E (list orow) :=
  distances <- mapM (λ row, lift (dict_item (to_row row) (distance_key cluster_name))) data ;;
  max_distance <- lift (match distances with
                        | [] => inr (VNum 1)
                        | _ => py_max distances
                        end) ;;
  mapM (λ row,
    v <- lift (dict_item (to_row row) (distance_key cluster_name)) ;;
    q <- lift (value_div v max_distance) ;;
    ret (od_set row (distance_key cluster_name) q)) data.

(** Lines 84-89. *)
Definition normalize_distances {E}
    (data : list orow) (profiles : list (string * Profiles.Modified.cluster_data))
    : M E (list orow) :=
  foldM normalize_column data (Profiles.Modified.cluster_names profiles).

(** Lines 92-98. *)
Definition calculate_all_distances
    (data : list orow) (profiles : list (string * Profiles.Modified.cluster_data))
    : M diagnostic (list orow) :=
  data <- mapM (λ artist, store_distances artist profiles) data ;;
  data <- normalize_distances data profiles ;;
  ret data.

(** Lines 132-135: the first cluster whose variable is above one half
    names the row. *)
Fixpoint assign_cluster (result : option solution) (i : nat) (row : orow)
    (items : list (nat * string)) : M event orow :=
  match items with
  | [] => ret row
  | (j, cluster_name) :: items' =>
      x <- lift (attr_X result [i; j]) ;;
      if chosen x then ret (od_set row "Cluster" (VStr cluster_name))
      else assign_cluster result i row items'
  end.

(** Lines 130-135. *)
Definition assign_clusters (result : option solution) (cluster_names : list string)
    (data : list orow) : M event (list orow) :=
  mapM (λ '(i, row), assign_cluster result i row (enumerate cluster_names))
    (enumerate data).

(** Lines 101-137. *)
Definition cluster_artists
    (data : list orow) (profiles : list (string * Profiles.Modified.cluster_data))
    : M event (list orow) :=
  model <- Cluster.Modified.cluster_model (to_row <$> data) profiles ;;
  let result := optimize model in
  let cluster_names := Profiles.Modified.cluster_names profiles in
  data <- assign_clusters result cluster_names data ;;
  ret data.

(** Lines 140-164, from the records of the input file. *)
Definition main (records : list (list string)) : M output unit :=
  tell (Shown (Message "Loading data...")) ;;
  artist_data <- map_events Shown (load_data records) ;;
  tell (Shown (Message "Calculating distances to the ideal profiles...")) ;;
  artist_data <- map_events Printed
    (calculate_all_distances artist_data Profiles.Modified.profiles) ;;
  tell (Shown (Message "Clustering artists...")) ;;
  clustered_data <- map_events (Shown ∘ Diagnostic)
    (cluster_artists artist_data Profiles.Modified.profiles) ;;
  tell (Shown (Message "Clustering complete. Displaying results:")) ;;
  foldM (λ _ artist,
    cluster <- lift (dict_item (to_row artist) "Cluster") ;;
    tell (Shown (Report (dict_get (to_row artist) "Artist Name" (VStr "Unknown"))
                   None cluster)))
    tt clustered_data ;;
  let output_file := "modified_clustered_artists.csv" in
  save output_file clustered_data ;;
  tell (Shown (Message "Results saved to 'modified_clustered_artists.csv'.")).

End defs.
End Modified.

End Ordered.

#[export] Instance diagnostic_eq_dec : EqDecision Ordered.diagnostic.
Proof. solve_decision. Defined.

(** * The diagnostics of the two layers *)

(** The diagnostic on a row without order, as it is printed when the keys
    of the row come in the order of [cols]. *)
Definition printed (cols : list string) (ev : event) : Ordered.diagnostic :=
  match ev with
  | NonNumeric feature r => Ordered.NonNumeric feature (in_order cols r)
  | ErrorProcessing feature e => Ordered.ErrorProcessing feature e
  end.

(** A diagnostic without the order of its row. *)
Definition unordered (d : Ordered.diagnostic) : event :=
  match d with
  | Ordered.NonNumeric feature row => NonNumeric feature (to_row row)
  | Ordered.ErrorProcessing feature e => ErrorProcessing feature e
  end.

(** * Every stage refines the stage on rows without order *)

Lemma to_row_set (d : orow) k v : to_row (od_set d k v) = <[k := v]> (to_row d).
Proof. apply to_map_set. Qed.

Lemma to_row_keys (d : orow) k : k ∈ od_keys d ↔ is_Some (to_row d !! k).
Proof. unfold to_row. by rewrite lookup_to_map, od_get_keys. Qed.

Lemma dom_to_row (d : orow) : dom (to_row d) = list_to_set (od_keys d).
Proof. apply dom_to_map. Qed.

(** The row of a diagnostic in the order of the columns is the row, when
    its keys come first among the columns. *)
Lemma printed_row cols (d : orow) feature :
  NoDup cols → od_keys d `prefix_of` cols →
  printed cols (NonNumeric feature (to_row d)) = Ordered.NonNumeric feature d.
Proof. intros Hnd Hd. cbn. f_equal. by apply in_order_to_map. Qed.

#[export] Hint Rewrite @map_result_ret @map_result_raise to_row_set : pyrw.

(** Go through the tests of [calculate_distance] in both layers. *)
Ltac distance_tests :=
  rewrite map_events_foldM; apply foldM_ext; intros distance [feature ideal_value] _;
  rewrite map_events_try_except; cbv zeta;
  destruct (py_float _) as [e|x];
  [rewrite !bind_lift_inl, map_events_raise, !try_except_raise; destruct e;
     rewrite map_events_bind, map_events_tell
  |by rewrite !bind_lift_inr, map_events_ret, !try_except_ret].

Section stages.
Context `{FloatParser} `{Solver}.
Implicit Types (d artist : orow) (data : list orow) (cols : list string).
Implicit Types (ps : list (string * Profiles.Modified.cluster_data)).

(** ** calculate_distance *)

(** [calculate_distance] on a row with its order computes what it computes
    on the row without, and prints the same about the row with its
    order. *)
Lemma artist_calculate_distance_refines d ideal weights :
  map_events unordered (Ordered.Artist.calculate_distance d ideal weights)
  = Distance.Artist.calculate_distance (to_row d) ideal weights.
Proof. unfold Ordered.Artist.calculate_distance. distance_tests; done. Qed.

Lemma modified_calculate_distance_refines d profile :
  map_events unordered (Ordered.Modified.calculate_distance d profile)
  = Distance.Modified.calculate_distance (to_row d) profile.
Proof. unfold Ordered.Modified.calculate_distance. distance_tests; done. Qed.

(** The diagnostics of [calculate_distance] on a row whose keys come first
    among the columns are those on the row without order, with the row in
    the order of the columns. *)
Lemma artist_calculate_distance_printed cols d ideal weights :
  NoDup cols → od_keys d `prefix_of` cols →
  Ordered.Artist.calculate_distance d ideal weights
  = map_events (printed cols) (Distance.Artist.calculate_distance (to_row d) ideal weights).
Proof.
  intros Hnd Hd. symmetry. unfold Distance.Artist.calculate_distance.
  distance_tests; by rewrite ?printed_row.
Qed.

Lemma modified_calculate_distance_printed cols d profile :
  NoDup cols → od_keys d `prefix_of` cols →
  Ordered.Modified.calculate_distance d profile
  = map_events (printed cols) (Distance.Modified.calculate_distance (to_row d) profile).
Proof.
  intros Hnd Hd. symmetry. unfold Distance.Modified.calculate_distance.
  distance_tests; by rewrite ?printed_row.
Qed.

(** ** The stages *)

Lemma artist_calculate_all_distances_refines cols data ideal weights :
  NoDup cols → Forall (λ d, od_keys d `prefix_of` cols) data →
  map_result (fmap to_row) (Ordered.Artist.calculate_all_distances data ideal weights)
  = map_events (printed cols)
      (Distance.Artist.calculate_all_distances (to_row <$> data) ideal weights).
Proof.
  intros Hnd Hdata. unfold Distance.Artist.calculate_all_distances.
  rewrite map_events_mapM. apply mapM_map_result. eapply Forall_impl; [exact Hdata|].
  intros d Hd. cbn beta. rewrite map_events_bind, <- artist_calculate_distance_printed by done.
  apply map_result_bind_same. intros q _. by autorewrite with pyrw.
Qed.

Lemma artist_assign_clusters_refines result data :
  map_result (fmap to_row) (Ordered.Artist.assign_clusters result data)
  = Cluster.Artist.assign_clusters result (to_row <$> data).
Proof.
  unfold Cluster.Artist.assign_clusters. rewrite enumerate_fmap.
  apply mapM_map_result, Forall_forall. intros [i d] _.
  apply map_result_bind_same. intros x _. by autorewrite with pyrw.
Qed.

Lemma artist_cluster_artists_refines data min_ready_artists :
  map_result (fmap to_row) (Ordered.Artist.cluster_artists data min_ready_artists)
  = Cluster.Artist.cluster_artists (to_row <$> data) min_ready_artists.
Proof.
  apply map_result_bind_same. intros model _.
  rewrite !bind_ret_r. apply artist_assign_clusters_refines.
Qed.

(** One pass of the loop of lines 94-96. *)
Lemma store_distance_refines cols artist c cd :
  NoDup cols → od_keys artist `prefix_of` cols →
  map_result to_row
    (d <- Ordered.Modified.calculate_distance artist (Profiles.Modified.profile cd) ;;
     ret (od_set artist (distance_key c) (VNum d)))
  = map_events (printed cols)
      (d <- Distance.Modified.calculate_distance (to_row artist) (Profiles.Modified.profile cd) ;;
       ret (<[distance_key c := VNum d]> (to_row artist))).
Proof.
  intros Hnd Hkeys. rewrite map_events_bind, <- modified_calculate_distance_printed by done.
  apply map_result_bind_same. intros q _. by autorewrite with pyrw.
Qed.

(** The row that a diagnostic of [store_distances] prints holds the keys of
    the row given and the distances stored before: keys that come first
    among the columns. *)
Lemma store_distances_refines cols artist ps :
  NoDup cols → keys_after (od_keys artist) (distance_keys ps) `prefix_of` cols →
  map_result to_row (Ordered.Modified.store_distances artist ps)
  = map_events (printed cols) (Normalize.store_distances (to_row artist) ps).
Proof.
  intros Hnd. unfold Ordered.Modified.store_distances, Normalize.store_distances.
  revert artist. induction ps as [|[c cd] ps IH]; intros artist Hkeys; [done|].
  cbn [foldM]. cbv zeta. rewrite map_events_bind.
  change (distance_keys ((c, cd) :: ps)) with ([distance_key c] ++ distance_keys ps) in Hkeys.
  rewrite keys_after_app in Hkeys.
  rewrite <- (store_distance_refines cols artist c cd)
    by (done || (etrans; [|exact Hkeys]); etrans; apply keys_after_prefix).
  apply map_result_bind. intros d' (q & _ & [= <-])%returns_bind_inv.
  apply IH. by rewrite od_keys_set_after.
Qed.

(** [normalize_distances] prints nothing, whatever the events are. *)
Lemma map_events_normalize_column {E E'} (f : E → E') data cluster_name :
  map_events f (Ordered.Modified.normalize_column data cluster_name)
  = Ordered.Modified.normalize_column data cluster_name.
Proof.
  unfold Ordered.Modified.normalize_column.
  rewrite map_events_bind, map_events_mapM. apply bind_ext. intros distances.
  rewrite map_events_bind, map_events_lift. apply bind_ext. intros max_distance.
  rewrite map_events_mapM. apply mapM_ext. intros d.
  rewrite map_events_bind, map_events_lift. apply bind_ext. intros v.
  by rewrite map_events_bind, map_events_lift.
Qed.

Lemma map_events_normalize_distances {E E'} (f : E → E') data ps :
  map_events f (Ordered.Modified.normalize_distances data ps)
  = Ordered.Modified.normalize_distances data ps.
Proof.
  unfold Ordered.Modified.normalize_distances. rewrite map_events_foldM.
  apply foldM_ext. intros acc c _. apply map_events_normalize_column.
Qed.

Lemma normalize_column_refines data cluster_name :
  map_result (fmap to_row) (Ordered.Modified.normalize_column data cluster_name)
  = Normalize.normalize_column (to_row <$> data) cluster_name.
Proof.
  unfold Normalize.normalize_column. rewrite mapM_fmap.
  apply map_result_bind_same. intros distances _.
  apply map_result_bind_same. intros max_distance _.
  apply mapM_map_result, Forall_forall. intros d _.
  apply map_result_bind_same. intros v _.
  apply map_result_bind_same. intros q _. by autorewrite with pyrw.
Qed.

Lemma normalize_distances_refines data ps :
  map_result (fmap to_row) (Ordered.Modified.normalize_distances data ps)
  = Normalize.normalize_distances (to_row <$> data) ps.
Proof. apply foldM_map_result. intros acc c _. apply normalize_column_refines. Qed.

Lemma modified_calculate_all_distances_refines cols data ps :
  NoDup cols →
  Forall (λ d, keys_after (od_keys d) (distance_keys ps) `prefix_of` cols) data →
  map_result (fmap to_row) (Ordered.Modified.calculate_all_distances data ps)
  = map_events (printed cols) (Normalize.calculate_all_distances (to_row <$> data) ps).
Proof.
  intros Hnd Hdata.
  unfold Ordered.Modified.calculate_all_distances, Normalize.calculate_all_distances.
  rewrite map_events_bind, map_events_mapM.
  rewrite <- (mapM_map_result to_row to_row (λ artist, Ordered.Modified.store_distances artist ps))
    by (eapply Forall_impl; [exact Hdata|]; intros d Hd; by apply store_distances_refines).
  apply map_result_bind. intros data' _. rewrite !bind_ret_r.
  rewrite <- normalize_distances_refines, <- map_result_map_events.
  by rewrite map_events_normalize_distances.
Qed.

Lemma assign_cluster_refines result i d items :
  map_result to_row (Ordered.Modified.assign_cluster result i d items)
  = Cluster.Modified.assign_cluster result i (to_row d) items.
Proof.
  induction items as [|[j c] items IH]; [done|]. cbn [Ordered.Modified.assign_cluster
    Cluster.Modified.assign_cluster].
  apply map_result_bind_same. intros x _. case_match; [|done]. by autorewrite with pyrw.
Qed.

Lemma modified_assign_clusters_refines result cluster_names data :
  map_result (fmap to_row) (Ordered.Modified.assign_clusters result cluster_names data)
  = Cluster.Modified.assign_clusters result cluster_names (to_row <$> data).
Proof.
  unfold Cluster.Modified.assign_clusters. rewrite enumerate_fmap.
  apply mapM_map_result, Forall_forall. intros [i d] _. apply assign_cluster_refines.
Qed.

Lemma modified_cluster_artists_refines data ps :
  map_result (fmap to_row) (Ordered.Modified.cluster_artists data ps)
  = Cluster.Modified.cluster_artists (to_row <$> data) ps.
Proof.
  apply map_result_bind_same. intros model _.
  rewrite !bind_ret_r. apply modified_assign_clusters_refines.
Qed.

End stages.

(** * The keys of the rows after every stage *)

(** Every row has the keys [cols], in this order. *)
Definition keyed (cols : list string) (data : list orow) : Prop :=
  Forall (λ d, od_keys d = cols) data.

#[export] Instance keyed_dec cols data : Decision (keyed cols data).
Proof. unfold keyed. apply _. Defined.

(** A row has the key that [d[k]] finds. *)
Lemma dict_item_key {E} (d : orow) k v :
  returns (lift (E:=E) (dict_item (to_row d) k)) v → k ∈ od_keys d.
Proof.
  intros Hv%returns_lift_inv. apply to_row_keys. unfold dict_item in Hv.
  by destruct (to_row d !! k).
Qed.

Lemma Forall_enumerate {A} (P : A → Prop) (l : list A) :
  Forall P l → Forall (λ ix, P ix.2) (enumerate l).
Proof. intros Hl. apply Forall_fmap. by rewrite enumerate_snd. Qed.

Section keys.
Context `{FloatParser} `{Solver}.
Implicit Types (d artist : orow) (data : list orow) (cols : list string).
Implicit Types (ps : list (string * Profiles.Modified.cluster_data)).

(** [load_data] assigns to the keys that the row has. *)
Lemma convert_row_keys row d :
  returns (Ordered.convert_row row) d → od_keys d = od_keys (fields row).
Proof.
  unfold Ordered.convert_row. intros (d' & Hd' & Hd)%returns_bind_inv.
  destruct (rest row); [done|]. injection Hd as <-.
  revert Hd'. unfold Ordered.convert_fields. apply (foldM_invariant (λ acc, od_keys acc = od_keys (fields row))); [done|].
  intros acc k acc' Hk Hacc (v & Hv & (v' & _ & [= <-])%returns_bind_inv)%returns_bind_inv.
  rewrite od_keys_set_in; [done|]. by rewrite Hacc.
Qed.

Lemma load_data_keys records data :
  returns (Ordered.load_data records) data → keyed (columns (hd [] records)) data.
Proof.
  apply mapM_Forall_returns with (P := λ row, od_keys (fields row) = columns (hd [] records)).
  - intros row d <-. apply convert_row_keys.
  - destruct records as [|fieldnames rows]; [constructor|]. cbn.
    apply Forall_fmap, Forall_forall. intros row _. apply dict_row_keys.
Qed.

Lemma artist_calculate_all_distances_keys cols data ideal weights data' :
  keyed cols data →
  returns (Ordered.Artist.calculate_all_distances data ideal weights) data' →
  keyed (keys_after cols ["Distance_to_Ideal"]) data'.
Proof.
  intros Hdata. apply mapM_Forall_returns with (P := λ d, od_keys d = cols); [|done].
  intros d d' <- (q & _ & [= <-])%returns_bind_inv. apply od_keys_set_after.
Qed.

Lemma artist_cluster_artists_keys cols data min_ready_artists data' :
  keyed cols data →
  returns (Ordered.Artist.cluster_artists data min_ready_artists) data' →
  keyed (keys_after cols ["Cluster"]) data'.
Proof.
  intros Hdata (model & _ & Hassign)%returns_bind_inv. rewrite bind_ret_r in Hassign.
  revert Hassign. apply mapM_Forall_returns with (P := λ ix, od_keys ix.2 = cols);
    [|by apply (Forall_enumerate (λ d, od_keys d = cols))].
  intros [i d] d' <- (x & _ & [= <-])%returns_bind_inv. apply od_keys_set_after.
Qed.

Lemma store_distances_keys artist ps d :
  returns (Ordered.Modified.store_distances artist ps) d →
  od_keys d = keys_after (od_keys artist) (distance_keys ps).
Proof.
  unfold Ordered.Modified.store_distances, distance_keys, Profiles.Modified.cluster_names.
  revert artist. induction ps as [|[c cd] ps IH]; intros artist; [by intros [= <-]|].
  cbn [foldM]. intros (d1 & (q & _ & [= <-])%returns_bind_inv & Hd)%returns_bind_inv.
  rewrite (IH _ Hd), od_keys_set_after. symmetry. apply (keys_after_app _ [_]).
Qed.

Lemma normalize_column_keys {E} cols data cluster_name data' :
  keyed cols data →
  returns (Ordered.Modified.normalize_column (E:=E) data cluster_name) data' →
  keyed cols data'.
Proof.
  intros Hdata (distances & _ & (m & _ & Hrows)%returns_bind_inv)%returns_bind_inv.
  revert Hrows. apply mapM_Forall_returns with (P := λ d, od_keys d = cols); [|done].
  intros d d' <- (v & Hv%dict_item_key & (q & _ & [= <-])%returns_bind_inv)%returns_bind_inv.
  by apply od_keys_set_in.
Qed.

Lemma modified_calculate_all_distances_keys cols data ps data' :
  keyed cols data → returns (Ordered.Modified.calculate_all_distances data ps) data' →
  keyed (keys_after cols (distance_keys ps)) data'.
Proof.
  intros Hdata (data1 & Hstore & Hnorm)%returns_bind_inv. rewrite bind_ret_r in Hnorm.
  revert Hnorm. apply (foldM_invariant (keyed (keys_after cols (distance_keys ps)))).
  - revert Hstore. apply mapM_Forall_returns with (P := λ d, od_keys d = cols); [|done].
    intros d d' <-. apply store_distances_keys.
  - intros acc c acc' _. apply normalize_column_keys.
Qed.

(** A row that has a label after [assign_clusters] has the key [Cluster]
    after its other keys, or where it had it. *)
Lemma assign_cluster_keys result i d items d' :
  returns (Ordered.Modified.assign_cluster result i d items) d' →
  "Cluster" ∈ od_keys d' → od_keys d' = keys_after (od_keys d) ["Cluster"].
Proof.
  induction items as [|[j c] items IH]; cbn [Ordered.Modified.assign_cluster].
  - intros [= <-] Hin. symmetry. apply keys_after_present.
    by intros k ->%list_elem_of_singleton.
  - intros (x & _ & Hd')%returns_bind_inv. destruct (chosen x); [|by apply IH].
    injection Hd' as <-. intros _. apply od_keys_set_after.
Qed.

Lemma modified_cluster_artists_keys cols data ps data' :
  keyed cols data → returns (Ordered.Modified.cluster_artists data ps) data' →
  Forall (λ d, "Cluster" ∈ od_keys d → od_keys d = keys_after cols ["Cluster"]) data'.
Proof.
  intros Hdata (model & _ & Hassign)%returns_bind_inv. rewrite bind_ret_r in Hassign.
  revert Hassign. apply mapM_Forall_returns with (P := λ ix, od_keys ix.2 = cols);
    [|by apply (Forall_enumerate (λ d, od_keys d = cols))].
  intros [i d] d' <-. apply assign_cluster_keys.
Qed.

End keys.
