(* ===== verification/Files.v ===== *)
(** * From the records of the input file to the records of the output file

    [main] of both scripts on the records of artist_data.csv, as
    [csv.reader] yields them, to the records handed to [csv.writer].

    The first part relates the two layers of the development.  On records
    as long as the header, [load_data] on ordered rows refines [load_data]
    on rows without order, in whatever order the latter takes the keys;
    [save] writes the rows under the keys of the first row in their order;
    and [main] on the records shows what [main] on the rows of the reader
    shows, with every row handed to the writer as the record of its cells
    under the columns of the output, and the row of every diagnostic
    printed with its keys in the order of these columns.

    The second part says what the file written holds (its columns and their
    order, one record per row), how a run ends on every input of strings,
    and that the writer gives back the records that the reader took. *)

From Stdlib Require Import QArith String.
From stdpp Require Import base option list gmap strings.
From S2P Require Import Prelude Layers Sums Odict PyValue Csv Profiles Samples Distance Normalize Milp Cluster Penalty Pipeline Outcomes Saved Ordered.

#[local] Open Scope py_scope.

(** The rows that the reader yields for the records, without the order of
    their keys. *)
Definition rows_of (records : list (list string)) : list row :=
  (to_row ∘ fields) <$> DictReader records.

(** Every record is blank or as long as the header. *)
Definition even (records : list (list string)) : Prop :=
  match records with
  | [] => True
  | fieldnames :: rows => Forall (λ row, row = [] ∨ length row = length fieldnames) rows
  end.

#[export] Instance even_dec records : Decision (even records).
Proof. destruct records; apply _. Defined.

(** * load_data *)

Section load.
Context `{FloatParser}.

(** The body of the loop over the keys of a row. *)
#[local] Abbreviation convert_key := (λ (row : gmap string value) key,
  v <- lift (dict_item row key) ;;
  v' <- convert_cell v ;;
  ret (<[key := v']> row)).

(** A string is converted, or its digits do not fit a float. *)
Lemma convert_cell_string s :
  convertible_cell (VStr s) ∨ convert_cell (VStr s) = raise NonFinite.
Proof.
  unfold convertible_cell, convert_cell.
  destruct (str_isdigit _); [|left; by eexists].
  destruct (str_to_float s) as [e|q] eqn:Hs; [|left; by eexists].
  destruct (str_to_float_exn s e Hs) as [-> | ->]; [left; by eexists|by right].
Qed.

Lemma convert_key_converted (r : row) k v :
  r !! k = Some v → convertible_cell v →
  convert_key r k = ret (<[k := converted v]> r).
Proof.
  intros Hk Hv. unfold dict_item. rewrite Hk, bind_lift_inr.
  by rewrite convert_cell_converted, bind_ret_l.
Qed.

Lemma convert_key_raises (r : row) k v e :
  r !! k = Some v → convert_cell v = raise e → convert_key r k = raise e.
Proof.
  intros Hk Hv. unfold dict_item. by rewrite Hk, bind_lift_inr, Hv, bind_raise.
Qed.

(** Every cell under the keys is converted or makes the conversion raise
    [e]. *)
Definition settled (e : exn) (r : row) (l : list string) : Prop :=
  Forall (λ k, ∃ v, r !! k = Some v ∧ (convertible_cell v ∨ convert_cell v = raise e)) l.

Lemma settled_insert e r l k v :
  k ∉ l → settled e r l → settled e (<[k := v]> r) l.
Proof.
  intros Hk Hl. apply Forall_forall. intros k' Hk'.
  destruct (proj1 (Forall_forall _ _) Hl k' Hk') as (v' & Hv' & Hc).
  exists v'. split; [|done]. rewrite lookup_insert_ne; [done|]. by intros ->.
Qed.

(** The loop over the keys of a row ends the same in every order of the
    keys, when the cells that are refused are refused alike. *)
Lemma convert_keys_any_order e (l l' : list string) :
  l ≡ₚ l' → ∀ r : row, NoDup l → settled e r l →
  foldM convert_key r l = foldM convert_key r l'.
Proof.
  induction 1 as [|x l l' Hp IH|x y l|l l' l'' Hp IH Hp' IH']; intros r Hnd Hr.
  - done.
  - apply NoDup_cons in Hnd as [Hx Hnd].
    apply Forall_cons in Hr as [(vx & Hvx & [Hcx|Hex]) Hr]; cbn [foldM].
    + rewrite !(convert_key_converted r x vx), !bind_ret_l by done.
      apply IH; [done|]. by apply settled_insert.
    + by rewrite !(convert_key_raises r x vx e), !bind_raise.
  - apply NoDup_cons in Hnd as [[Hne Hy]%not_elem_of_cons [Hx Hnd]%NoDup_cons].
    apply Forall_cons in Hr as [(vy & Hvy & Hy') [(vx & Hvx & Hx') Hr]%Forall_cons].
    cbn [foldM]. destruct Hx' as [Hcx|Hex], Hy' as [Hcy|Hey];
      rewrite ?(convert_key_converted r x vx), ?(convert_key_converted r y vy),
        ?(convert_key_raises r x vx e), ?(convert_key_raises r y vy e),
        ?bind_ret_l, ?bind_raise by done;
      rewrite ?(convert_key_converted (<[y:=converted vy]> r) x vx),
        ?(convert_key_converted (<[x:=converted vx]> r) y vy),
        ?(convert_key_raises (<[x:=converted vx]> r) y vy e),
        ?(convert_key_raises (<[y:=converted vy]> r) x vx e),
        ?bind_ret_l, ?bind_raise by (done || by rewrite lookup_insert_ne);
      [|done..].
    by rewrite insert_insert_ne.
  - rewrite IH by done. apply IH'; [by rewrite <- Hp|].
    unfold settled. by rewrite <- Hp.
Qed.

(** The loop over the keys of an ordered row, seen without the order of
    the row. *)
Lemma convert_fields_refines (d : orow) :
  map_result to_row (Ordered.convert_fields d) = foldM convert_key (to_row d) (od_keys d).
Proof.
  apply foldM_map_result. intros acc k _. apply map_result_bind_same. intros v _.
  apply map_result_bind_same. intros v' _. by autorewrite with pyrw.
Qed.

(** What holds of the cells of an ordered row holds of the cell under every
    key of the row without its order. *)
Lemma to_row_cells (P : value → Prop) (d : orow) :
  Forall P d.*2 → Forall (λ k, ∃ v, to_row d !! k = Some v ∧ P v) (od_keys d).
Proof.
  intros Hd. eapply Forall_impl; [by apply od_keys_values|].
  intros k (v & Hv & HP). exists v. unfold to_row. by rewrite lookup_to_map.
Qed.

(** The loop returns on a row whose cells are converted. *)
Lemma convert_fields_returns (d : orow) :
  od_wf d → Forall convertible_cell d.*2 → ∃ d', returns (Ordered.convert_fields d) d'.
Proof.
  intros Hwf Hd.
  destruct (convert_keys (to_row d) (od_keys d) Hwf (to_row_cells _ d Hd)) as (r' & Hr' & _).
  rewrite <- convert_fields_refines in Hr'.
  assert (returns (map_result to_row (Ordered.convert_fields d)) r')
    as (d' & Hd' & _)%returns_map_result_inv by (by rewrite Hr'). eauto.
Qed.

(** The loop raises [AttributeError] on a row with a cell that is not a
    string, when the strings are converted. *)
Lemma convert_fields_raises (d : orow) :
  od_wf d → Forall (λ v, convertible_cell v ∨ not_str v) d.*2 → Exists not_str d.*2 →
  raises (Ordered.convert_fields d) AttributeError.
Proof.
  intros Hwf Hd Hex. apply (raises_map_result to_row). rewrite convert_fields_refines.
  apply convert_keys_raises; [done|by apply to_row_cells|].
  eapply Exists_impl; [by apply od_keys_Exists|].
  intros k (v & Hv & HP). exists v. unfold to_row. by rewrite lookup_to_map.
Qed.

(** On a row of strings, the loop over the keys in their order ends as
    the loop over the keys in any order. *)
Lemma convert_row_refines (row : reader_row) :
  rest row = None → od_wf (fields row) → Forall (λ v, ∃ s, v = VStr s) (fields row).*2 →
  map_result to_row (Ordered.convert_row row) = Pipeline.convert_row (to_row (fields row)).
Proof.
  destruct row as [d r]. cbn [fields rest]. intros -> Hwf Hstr.
  unfold Ordered.convert_row, Pipeline.convert_row. cbn [fields rest].
  rewrite bind_ret_r, convert_fields_refines.
  apply (convert_keys_any_order NonFinite); [|done|].
  - unfold to_row. rewrite dom_to_map. symmetry. by apply elements_list_to_set.
  - eapply Forall_impl; [by apply (to_row_cells _ d Hstr)|].
    intros k (v & Hv & s & ->). exists (VStr s). split; [done|]. apply convert_cell_string.
Qed.

(** On records as long as the header, [load_data] on ordered rows refines
    [load_data] on the rows of the reader. *)
Lemma load_data_refines records :
  even records →
  map_result (fmap to_row) (Ordered.load_data records) = Pipeline.load_data (rows_of records).
Proof.
  intros Hev. unfold Ordered.load_data, Pipeline.load_data, rows_of.
  apply (mapM_map_result (to_row ∘ fields)).
  destruct records as [|fieldnames rows]; [constructor|]. cbn [DictReader].
  apply Forall_fmap, Forall_forall. intros row [Hne Hrow]%list_elem_of_filter.
  destruct (proj1 (Forall_forall _ _) Hev row Hrow) as [->|Hl]; [done|].
  apply convert_row_refines.
  - rewrite dict_row_rest. by rewrite decide_False by lia.
  - apply dict_row_wf.
  - eapply Forall_impl; [apply dict_row_strings; lia|]. naive_solver.
Qed.

(** The cells of a row of the reader for a record whose fields are
    converted: strings that are converted, or [None]. *)
Lemma dict_row_settled fieldnames row :
  Forall (λ s, convertible_cell (VStr s)) row →
  Forall (λ v, convertible_cell v ∨ not_str v) (fields (dict_row fieldnames row)).*2.
Proof.
  intros Hrow. eapply Forall_impl; [apply dict_row_cells|].
  intros [q|s|]; [done| |by right]. cbn. intros Hs. left.
  by apply (proj1 (Forall_forall _ _) Hrow).
Qed.

Lemma dict_row_convertible fieldnames row :
  Forall (λ s, convertible_cell (VStr s)) row → (length fieldnames ≤ length row)%nat →
  Forall convertible_cell (fields (dict_row fieldnames row)).*2.
Proof.
  intros Hrow Hl. eapply Forall_impl; [by apply dict_row_strings|].
  intros v (s & -> & Hs). by apply (proj1 (Forall_forall _ _) Hrow).
Qed.

(** A record longer than the header stops [load_data] at the key [None],
    a shorter one at the first name that it does not reach, when the
    fields are converted. *)
Lemma convert_row_uneven fieldnames row :
  Forall (λ s, convertible_cell (VStr s)) row → length row ≠ length fieldnames →
  raises (Ordered.convert_row (dict_row fieldnames row)) AttributeError.
Proof.
  intros Hrow Hl. unfold Ordered.convert_row.
  destruct (decide (length fieldnames < length row)%nat) as [Hlong|Hshort].
  - destruct (convert_fields_returns (fields (dict_row fieldnames row))) as [d Hd];
      [apply dict_row_wf|apply dict_row_convertible; (done || lia)|].
    eapply raises_bind_r; [exact Hd|]. rewrite dict_row_rest, decide_True by done.
    apply raises_raise.
  - apply raises_bind_l, convert_fields_raises;
      [apply dict_row_wf|by apply dict_row_settled|].
    apply Exists_exists. exists VNone. split; [apply dict_row_short_None; lia|done].
Qed.

(** A record as long as the header is converted. *)
Lemma convert_row_even fieldnames row :
  Forall (λ s, convertible_cell (VStr s)) row → length row = length fieldnames →
  ∃ d, returns (Ordered.convert_row (dict_row fieldnames row)) d.
Proof.
  intros Hrow Hl.
  destruct (convert_fields_returns (fields (dict_row fieldnames row))) as [d Hd];
    [apply dict_row_wf|apply dict_row_convertible; (done || lia)|].
  exists d. unfold Ordered.convert_row. eapply returns_bind; [exact Hd|].
  rewrite dict_row_rest, decide_False by lia. apply returns_ret.
Qed.

(** [load_data] raises [AttributeError] on records of which one is longer
    or shorter than the header. *)
Lemma load_data_uneven records :
  Forall (Forall (λ s, convertible_cell (VStr s))) (tail records) → ¬ even records →
  raises (Ordered.load_data records) AttributeError.
Proof.
  destruct records as [|fieldnames rows]; [by intros _ []|]. cbn [tail even DictReader].
  intros Hrows Hev. apply mapM_raises_alike.
  - apply Forall_fmap, Forall_forall. intros row [_ Hrow]%list_elem_of_filter. cbn.
    pose proof (proj1 (Forall_forall _ _) Hrows row Hrow) as Hcells.
    destruct (decide (length row = length fieldnames));
      [left; by apply convert_row_even | right; by apply convert_row_uneven].
  - apply not_Forall_Exists in Hev; [|apply _].
    apply Exists_exists in Hev as (row & Hrow & Hne).
    apply Exists_fmap, Exists_exists. exists row.
    split; [apply list_elem_of_filter; naive_solver|]. cbn.
    apply convert_row_uneven; [by apply (proj1 (Forall_forall _ _) Hrows)|naive_solver].
Qed.

(** [load_data] shows nothing. *)
Lemma ordered_load_data_silent records : events (Ordered.load_data records) = [].
Proof.
  apply events_mapM_nil. intros r. apply events_bind_nil; [|by destruct (rest r)].
  unfold Ordered.convert_fields. apply events_foldM_nil. intros acc k. apply events_bind_nil; [done|]. intros v.
  apply events_bind_nil; [apply convert_cell_events|done].
Qed.

End load.

(** * What a run shows *)

(** What a run on rows shows, as a run on ordered rows shows it: the header
    goes to the writer as the names of the columns, a row as the record of
    its cells under the columns, and a diagnostic is printed with the keys
    of its row in the order of the columns. *)
Definition shown (cols : list string) (o : Pipeline.output) : Ordered.output :=
  match o with
  | Header _ => Ordered.Line (VStr <$> cols)
  | Record r => Ordered.Line (record_of cols r)
  | Diagnostic ev => Ordered.Printed (printed cols ev)
  | _ => Ordered.Shown o
  end.

(** The records handed to [csv.writer], in order. *)
Definition lines (evs : list Ordered.output) : list (list value) :=
  omap (λ o, match o with Ordered.Line record => Some record | _ => None end) evs.

(** The columns of the file that artist_clustering.py writes. *)
Definition artist_columns (fieldnames : list string) : list string :=
  keys_after (columns fieldnames) ["Distance_to_Ideal"; "Cluster"].

(** The columns of the file that modified_artist_clustering.py writes. *)
Definition modified_columns (fieldnames : list string) : list string :=
  keys_after (columns fieldnames) (distance_keys Profiles.Modified.profiles ++ ["Cluster"]).

(** Push [map_events] to the leaves of a computation. *)
Ltac map_events_push :=
  repeat first
    [ rewrite map_events_tell | rewrite map_events_lift
    | rewrite map_events_bind; apply bind_ext; intros ? ].

Section shown.
Context `{FloatParser} `{Solver}.
Implicit Types (d : orow) (data : list orow) (cols : list string).

(** A stage that prints diagnostics, and one that prints nothing. *)
Lemma printed_stage_refines {A A'} (f : A → A') cols
    (m : M Ordered.diagnostic A) (m' : M event A') :
  map_result f m = map_events (printed cols) m' →
  map_result f (map_events Ordered.Printed m)
  = map_events (shown cols) (map_events Diagnostic m').
Proof. intros Hm. by rewrite map_result_map_events, Hm, !map_events_compose. Qed.

Lemma silent_stage_refines {A A'} (f : A → A') cols (m : M event A) (m' : M event A') :
  map_result f m = m' → events m' = [] →
  map_result f (map_events (Ordered.Shown ∘ Diagnostic) m)
  = map_events (shown cols) (map_events Diagnostic m').
Proof.
  intros <- Hm. rewrite map_events_compose, map_result_map_events.
  by apply map_events_silent.
Qed.

(** The columns of the output are distinct, and the keys of a row of the
    reader with the keys that [calculate_all_distances] adds come first
    among them. *)
Lemma artist_columns_NoDup fieldnames : NoDup (artist_columns fieldnames).
Proof. apply keys_after_NoDup, keys_after_NoDup. constructor. Qed.

Lemma modified_columns_NoDup fieldnames : NoDup (modified_columns fieldnames).
Proof. apply keys_after_NoDup, keys_after_NoDup. constructor. Qed.

Lemma artist_loaded_prefix fieldnames data :
  keyed (columns fieldnames) data →
  Forall (λ d, od_keys d `prefix_of` artist_columns fieldnames) data.
Proof.
  intros Hdata. eapply Forall_impl; [exact Hdata|]. intros d ->. apply keys_after_prefix.
Qed.

Lemma modified_loaded_prefix fieldnames data :
  keyed (columns fieldnames) data →
  Forall (λ d, keys_after (od_keys d) (distance_keys Profiles.Modified.profiles)
               `prefix_of` modified_columns fieldnames) data.
Proof.
  intros Hdata. eapply Forall_impl; [exact Hdata|]. intros d ->.
  unfold modified_columns. rewrite keys_after_app. apply keys_after_prefix.
Qed.

Lemma load_stage_refines cols records :
  even records →
  map_result (fmap to_row) (map_events Ordered.Shown (Ordered.load_data records))
  = map_events (shown cols) (Pipeline.load_data (rows_of records)).
Proof.
  intros Hev. rewrite map_result_map_events, load_data_refines by done.
  apply map_events_silent, load_data_silent.
Qed.

(** [save] writes the header and the rows under the keys of the first row,
    in their order. *)
Lemma save_refines cols output_file data :
  (∀ first, head data = Some first → od_keys first = cols) →
  Ordered.save output_file data
  = map_events (shown cols) (Pipeline.save output_file (to_row <$> data)).
Proof.
  intros Hcols. unfold Ordered.save, Pipeline.save.
  rewrite map_events_bind, map_events_tell. apply bind_ext. intros _.
  destruct data as [|first data']; [done|].
  cbn [first_item fmap list_fmap]. rewrite !bind_lift_inr. cbv zeta.
  rewrite (Hcols first eq_refl).
  rewrite writeheader_tell, map_events_bind, !map_events_tell. apply bind_ext. intros _.
  unfold writerows. rewrite <- fmap_cons, !map_events_foldM, (foldM_fmap to_row).
  apply foldM_ext. intros _ d _. unfold writerow. rewrite !dom_to_row.
  rewrite (Hcols first eq_refl). case_decide as Hd.
  - rewrite dict_to_list_record, bind_lift_inr; [done|].
    intros k Hk. apply (elem_of_list_to_set (C:=gset string)), Hd. by apply elem_of_list_to_set.
  - rewrite dict_to_list_extra, bind_lift_inl; [done|].
    intros Hsub. apply Hd. intros k Hk%elem_of_list_to_set. by apply elem_of_list_to_set, Hsub.
Qed.

End shown.

(** * main on the records of the file *)

(** A line printed by [main]. *)
Ltac message_step :=
  rewrite map_events_bind, map_events_tell; apply bind_ext; intros _.

(** A stage of [main] that refines the stage on rows without order. *)
Ltac stage_step tac :=
  rewrite map_events_bind; apply (bind_refined (fmap to_row)); [tac|].

Section main.
Context `{FloatParser} `{Solver}.
Implicit Types (records : list (list string)) (data : list orow).

(** The rows that artist_clustering.py hands to the writer have the columns
    of the header, then the distance and the label. *)
Lemma artist_clustered_keys records data1 data2 data3 :
  returns (Ordered.load_data records) data1 →
  returns (Ordered.Artist.calculate_all_distances data1
             Profiles.Artist.ideal_artist Profiles.Artist.weights) data2 →
  returns (Ordered.Artist.cluster_artists data2 5) data3 →
  keyed (artist_columns (hd [] records)) data3.
Proof.
  intros H1%load_data_keys H2 H3.
  by eapply artist_cluster_artists_keys, H3; eapply artist_calculate_all_distances_keys, H2.
Qed.

Lemma artist_main_shows records :
  even records →
  Ordered.Artist.main records
  = map_events (shown (artist_columns (hd [] records))) (Pipeline.Artist.main (rows_of records)).
Proof.
  intros Hev. unfold Ordered.Artist.main, Pipeline.Artist.main.
  message_step. stage_step ltac:(by apply load_stage_refines).
  intros data1 H1%returns_map_events. pose proof (load_data_keys _ _ H1) as Hk1.
  message_step.
  stage_step ltac:(apply printed_stage_refines, artist_calculate_all_distances_refines;
                   [apply artist_columns_NoDup | by apply artist_loaded_prefix]).
  intros data2 H2%returns_map_events.
  message_step.
  stage_step ltac:(apply silent_stage_refines;
                   [apply artist_cluster_artists_refines | apply artist_cluster_artists_silent]).
  intros data3 H3%returns_map_events.
  message_step. rewrite map_events_bind, map_events_foldM, (foldM_fmap to_row).
  apply (bind_refined id);
    [rewrite map_result_id; apply foldM_ext; intros _ d _; by map_events_push|].
  intros [] _. rewrite map_events_bind, map_events_tell.
  rewrite (save_refines (artist_columns (hd [] records))); [done|].
  intros first Hfirst%head_Some_elem_of.
  by apply (proj1 (Forall_forall _ _) (artist_clustered_keys records _ _ _ H1 H2 H3)).
Qed.

(** A row that modified_artist_clustering.py has labelled has the columns
    of the header, then the distances and the label. *)
Lemma modified_clustered_keys records data1 data2 data3 :
  returns (Ordered.load_data records) data1 →
  returns (Ordered.Modified.calculate_all_distances data1 Profiles.Modified.profiles) data2 →
  returns (Ordered.Modified.cluster_artists data2 Profiles.Modified.profiles) data3 →
  Forall (λ d, "Cluster" ∈ od_keys d → od_keys d = modified_columns (hd [] records)) data3.
Proof.
  intros H1%load_data_keys H2 H3. unfold modified_columns. rewrite keys_after_app.
  by eapply modified_cluster_artists_keys, H3; eapply modified_calculate_all_distances_keys, H2.
Qed.

Lemma modified_main_shows records :
  even records →
  Ordered.Modified.main records
  = map_events (shown (modified_columns (hd [] records)))
      (Pipeline.Modified.main (rows_of records)).
Proof.
  intros Hev. unfold Ordered.Modified.main, Pipeline.Modified.main.
  message_step. stage_step ltac:(by apply load_stage_refines).
  intros data1 H1%returns_map_events. pose proof (load_data_keys _ _ H1) as Hk1.
  message_step.
  stage_step ltac:(apply printed_stage_refines, modified_calculate_all_distances_refines;
                   [apply modified_columns_NoDup | by apply modified_loaded_prefix]).
  intros data2 H2%returns_map_events.
  message_step.
  stage_step ltac:(apply silent_stage_refines;
                   [apply modified_cluster_artists_refines
                   |apply modified_cluster_artists_silent]).
  intros data3 H3%returns_map_events.
  message_step. rewrite map_events_bind, map_events_foldM, (foldM_fmap to_row).
  apply (bind_refined id);
    [rewrite map_result_id; apply foldM_ext; intros _ d _; by map_events_push|].
  intros [] Hrep%foldM_unit_returns. rewrite map_events_bind, map_events_tell.
  rewrite (save_refines (modified_columns (hd [] records))); [done|].
  intros first Hfirst%head_Some_elem_of.
  apply (proj1 (Forall_forall _ _) (modified_clustered_keys records _ _ _ H1 H2 H3)); [done|].
  apply (proj1 (Forall_forall _ _) Hrep) in Hfirst.
  by apply returns_bind_inv in Hfirst as (c & Hc%dict_item_key & _).
Qed.

End main.

(** * The records handed to the writer *)

Section lines.
Implicit Types (cols : list string) (evs : list Pipeline.output).

Lemma lines_app l1 l2 : lines (l1 ++ l2) = lines l1 ++ lines l2.
Proof. apply omap_app. Qed.

Lemma lines_quiet cols evs : Forall quiet evs → lines (shown cols <$> evs) = [].
Proof. induction 1 as [|o evs Ho _ IH]; [done|]. by destruct o. Qed.

Lemma lines_records cols rows :
  lines (shown cols <$> (Record <$> rows)) = record_of cols <$> rows.
Proof. induction rows as [|r rows IH]; [done|]. cbn. by f_equal. Qed.

(** A run that has saved its rows has handed to the writer the names of
    the columns, then the record of every row. *)
Lemma lines_saved cols evs rows :
  saved evs rows → lines (shown cols <$> evs) = (VStr <$> cols) :: (record_of cols <$> rows).
Proof.
  intros (pre & file & fieldnames & post & -> & Hpre & Hpost).
  rewrite fmap_app, lines_app, (lines_quiet cols pre Hpre). cbn. f_equal.
  by rewrite fmap_app, lines_app, lines_records, (lines_quiet cols post Hpost), app_nil_r.
Qed.

End lines.

(** * The rows of the reader *)

(** Every field of every record after the header is a string whose digits
    fit a float. *)
Definition legible (records : list (list string)) : Prop :=
  Forall (Forall (λ s, readable (VStr s))) (tail records).

#[export] Instance legible_dec records : Decision (legible records).
Proof. unfold legible. apply _. Defined.

Section reader_rows.
Implicit Types (records : list (list string)).

(** The keys of the rows of the reader are the columns of the header. *)
Lemma rows_of_dom records :
  Forall (λ r : row, dom r = list_to_set (columns (hd [] records))) (rows_of records).
Proof.
  unfold rows_of. destruct records as [|fieldnames rows]; [constructor|]. cbn.
  rewrite <- list_fmap_compose. apply Forall_fmap, Forall_forall. intros row _. cbn.
  by rewrite dom_to_row, dict_row_keys.
Qed.

Lemma rows_of_same_keys records : same_keys (rows_of records).
Proof.
  pose proof (rows_of_dom records) as Hk.
  apply Forall_forall. intros r Hr. eapply Forall_impl; [exact Hk|]. intros r' ->.
  symmetry. by apply (proj1 (Forall_forall _ _) Hk).
Qed.

Lemma loaded_rows_dom `{FloatParser} records :
  Forall (λ r : row, dom r = list_to_set (columns (hd [] records))) (loaded (rows_of records)).
Proof.
  unfold loaded. apply Forall_fmap. eapply Forall_impl; [apply rows_of_dom|].
  intros r Hr. cbn. by rewrite dom_fmap_L.
Qed.

(** The keys after the keys added, as a set. *)
Lemma list_to_set_keys_after (keys ks : list string) :
  list_to_set (C:=gset string) (keys_after keys ks) = list_to_set keys ∪ list_to_set ks.
Proof.
  apply set_eq. intros k.
  by rewrite elem_of_union, !elem_of_list_to_set, elem_of_keys_after.
Qed.

(** The rows that the scripts hand to the writer have the columns of the
    output as their keys: the writer fills in no cell. *)
Lemma modified_rows_full `{FloatParser} records g :
  let names := Profiles.Modified.cluster_names Profiles.Modified.profiles in
  let data := loaded (rows_of records) in
  (∀ i, (i < length data)%nat → (g i < length names)%nat) →
  Forall (λ r : row, dom r = list_to_set (modified_columns (hd [] records)))
    (label_rows g names (all_distances data Profiles.Modified.profiles)).
Proof.
  intros names data Hg.
  eapply Forall_impl;
    [apply (final_rows_dom data _ g _ profiles_names_NoDup Hg (loaded_rows_dom records))|].
  intros r ->. unfold modified_columns.
  rewrite list_to_set_keys_after, list_to_set_app_L. set_solver.
Qed.

Lemma artist_rows_full `{FloatParser} records ready :
  Forall (λ r : row, dom r = list_to_set (artist_columns (hd [] records)))
    (label_ready ready (measured (loaded (rows_of records)))).
Proof.
  eapply Forall_impl; [apply (ready_rows_dom ready _ _ (loaded_rows_dom records))|].
  intros r [-> _]. unfold artist_columns. rewrite list_to_set_keys_after. set_solver.
Qed.

(** The cells of the rows are the fields of the records, when no record
    is shorter than the header. *)
Lemma rows_of_readable records :
  even records → legible records →
  Forall (map_Forall (λ _ v, readable v)) (rows_of records).
Proof.
  unfold rows_of. destruct records as [|fieldnames rows]; [constructor|]. cbn.
  intros Hev Hleg. rewrite <- list_fmap_compose. apply Forall_fmap, Forall_forall.
  intros row [Hne Hrow]%list_elem_of_filter k v. cbn. unfold to_row.
  rewrite lookup_to_map. intros Hv.
  destruct (proj1 (Forall_forall _ _) Hev row Hrow) as [->|Hl]; [done|].
  apply (od_get_values (K:=string) (λ v, ∃ s, v = VStr s ∧ s ∈ row)) in Hv as (s & -> & Hs);
    [|apply dict_row_strings; lia].
  by apply (proj1 (Forall_forall _ _) (proj1 (Forall_forall _ _) Hleg row Hrow)).
Qed.

Lemma rows_of_well_read records : even records → legible records → well_read (rows_of records).
Proof. intros Hev Hleg. split; [by apply rows_of_readable|apply rows_of_same_keys]. Qed.

End reader_rows.

(** * The scripts on the records of a file *)

(** The names of the header are distinct and none is the name of a column
    that the scripts add. *)
Definition fresh (added fieldnames : list string) : Prop :=
  NoDup fieldnames ∧ Forall (λ k, k ∉ fieldnames) added.

#[export] Instance fresh_dec added fieldnames : Decision (fresh added fieldnames).
Proof. unfold fresh. apply _. Defined.

(** The columns that the scripts add to those of the input. *)
Definition artist_added : list string := ["Distance_to_Ideal"; "Cluster"].

Definition modified_added : list string :=
  ["Distance_to_Ready"; "Distance_to_Potential"; "Distance_to_Not Ready"; "Cluster"].

(** How [main] ends on the records of a file: a record longer or shorter
    than the header stops [load_data]. *)
Definition modified_verdict_on (records : list (list string)) : exn + unit :=
  if decide (even records) then modified_verdict (rows_of records) else inl AttributeError.

Definition artist_verdict_on (records : list (list string)) : exn + unit :=
  if decide (even records) then artist_verdict (rows_of records) else inl AttributeError.

Lemma columns_fresh added fieldnames :
  NoDup added → fresh added fieldnames →
  keys_after (columns fieldnames) added = fieldnames ++ added.
Proof.
  intros Hadded [Hnd Hnew]. unfold columns.
  rewrite (keys_after_new [] fieldnames) by (done || intros k _; apply not_elem_of_nil).
  apply keys_after_new; [done|]. intros k Hk. by apply (proj1 (Forall_forall _ _) Hnew).
Qed.

Section records.
Context `{FloatParser} `{Solver}.
Implicit Types (records : list (list string)).

(** A run that stops in [load_data] has printed one line. *)
Lemma modified_main_stops records e :
  raises (Ordered.load_data records) e →
  Ordered.Modified.main records = ([Ordered.Shown (Message "Loading data...")], inl e).
Proof.
  intros He. unfold Ordered.Modified.main. eapply (bind_eq _ _ [_]); [done|].
  rewrite (eta_M (Ordered.load_data records)), ordered_load_data_silent, He. done.
Qed.

Lemma artist_main_stops records e :
  raises (Ordered.load_data records) e →
  Ordered.Artist.main records = ([Ordered.Shown (Message "Loading data...")], inl e).
Proof.
  intros He. unfold Ordered.Artist.main. eapply (bind_eq _ _ [_]); [done|].
  rewrite (eta_M (Ordered.load_data records)), ordered_load_data_silent, He. done.
Qed.

(** The lines of a run on records, from the run on the rows of the
    reader. *)
Lemma lines_returned cols (m : M Pipeline.output unit) evs :
  saves m → m = (evs, inr tt) →
  lines (shown cols <$> evs) = (VStr <$> cols) :: (record_of cols <$> written evs).
Proof. intros Hm ->. by apply lines_saved, (saves_returns _ tt Hm). Qed.

Lemma lines_raised cols (m : M Pipeline.output unit) e :
  saves m → raises m e → e ≠ ValueError → lines (shown cols <$> events m) = [].
Proof. intros Hm He Hne. by apply lines_quiet, (proj2 Hm e). Qed.

End records.

(** * The theorems *)

Section refinement.
Context `{FloatParser} `{Solver}.
Implicit Types (records : list (list string)).

(** C8: on records as long as the header, [main] of
    modified_artist_clustering.py on rows that keep the order of their keys
    ends as [main] on the rows of the reader without order and shows the
    same, with the header handed to the writer as the names of the columns
    of the input followed by the keys that the script adds, every row as
    the record of its cells under these columns, and the row of every
    diagnostic printed with its keys in the order of these columns. *)
Theorem modified_main_refines records :
  even records →
  Ordered.Modified.main records
  = map_events (shown (modified_columns (hd [] records)))
      (Pipeline.Modified.main (rows_of records)).
Proof. exact (modified_main_shows records). Qed.

(** C33: on records as long as the header, [main] of artist_clustering.py on
    rows that keep the order of their keys ends as [main] on the rows of
    the reader without order and shows the same, with the header and the
    rows handed to the writer under the columns of the input followed by
    ['Distance_to_Ideal'] and ['Cluster'], and the row of every diagnostic
    printed with its keys in the order of these columns. *)
Theorem artist_main_refines records :
  even records →
  Ordered.Artist.main records
  = map_events (shown (artist_columns (hd [] records))) (Pipeline.Artist.main (rows_of records)).
Proof. exact (artist_main_shows records). Qed.

(** C18: when the names of the header are distinct and none is a distance
    key or ['Cluster'], a run of [main] of modified_artist_clustering.py
    that goes to its end hands to the writer, as the header of the output,
    the names of the input in their order, then ['Distance_to_Ready'],
    ['Distance_to_Potential'], ['Distance_to_Not Ready'] and ['Cluster'],
    and after it records as long as the header. *)
Theorem modified_main_header fieldnames rows :
  even (fieldnames :: rows) → fresh modified_added fieldnames →
  returns (Ordered.Modified.main (fieldnames :: rows)) tt →
  ∃ body, lines (events (Ordered.Modified.main (fieldnames :: rows)))
          = (VStr <$> fieldnames ++ modified_added) :: body ∧
          Forall (λ record, length record = length (fieldnames ++ modified_added)) body.
Proof.
  intros Hev Hfresh. rewrite modified_main_shows by done. cbn [hd].
  intros Hret%returns_map_events%returns_eq. rewrite events_map_events.
  rewrite (lines_returned _ _ _ (modified_main_saves _) Hret).
  assert (modified_columns fieldnames = fieldnames ++ modified_added) as ->
    by (apply columns_fresh; [vm_decide|done]).
  eexists. split; [done|].
  apply Forall_fmap, Forall_forall. intros r _. cbn. unfold record_of. by rewrite length_fmap.
Qed.

End refinement.

Section files.
Context `{Solver}.
Implicit Types (records : list (list string)).

(** C2: with the decimal parser, on records of strings as long as the
    header, at least three of them not blank, such that no column of
    distances has maximum zero, [main] of modified_artist_clustering.py
    runs to its end and hands to the writer the names of the columns, then
    for every row of the input, in order, the record of its cells under
    these columns: the cells read, the normalised distances and the label
    of a least-cost assignment that gives each cluster its floor of rows;
    every row has exactly these columns as keys, so the writer fills in no
    cell. *)
Theorem modified_main_file records :
  let data := loaded (rows_of records) in
  let names := Profiles.Modified.cluster_names Profiles.Modified.profiles in
  let rows := all_distances data Profiles.Modified.profiles in
  let m := floor_of (length rows) (length names) in
  let cols := modified_columns (hd [] records) in
  even records → legible records →
  nonzero_columns data Profiles.Modified.profiles →
  (3 ≤ length (rows_of records))%nat →
  ∃ g evs, Ordered.Modified.main records = (evs, inr tt) ∧
           lines evs = (VStr <$> cols) :: (record_of cols <$> label_rows g names rows) ∧
           Forall (λ r : row, dom r = list_to_set cols) (label_rows g names rows) ∧
           balanced g (length rows) (length names) m ∧
           ∀ g', balanced g' (length rows) (length names) m →
                 assignment_cost g names rows <= assignment_cost g' names rows.
Proof.
  intros data names rows m cols Hev Hleg Hnz Hlen.
  pose proof (rows_of_readable records Hev Hleg) as Hfile.
  destruct (modified_main_returns (rows_of records)) as (g & evs & Hmain & Hw & Hg & Hmin);
    [by apply readable_file_convertible | apply rows_of_same_keys
    | by apply loaded_convertible_row | done..|].
  exists g, (shown cols <$> evs). split_and!; [|..|done|done].
  - by rewrite modified_main_shows, Hmain.
  - by rewrite (lines_returned _ _ _ (modified_main_saves _) Hmain), Hw.
  - apply modified_rows_full. intros i Hi. apply Hg. unfold rows.
    by rewrite all_distances_length.
Qed.

(** C12: with the decimal parser, on records of strings as long as the
    header, at least five of them not blank, [main] of artist_clustering.py
    runs to its end and hands to the writer the names of the columns, then
    for every row of the input, in order, the record of its cells under
    these columns: the cells read, the distance to the ideal profile and
    the label of a selection of at least five rows 'Ready' of least total
    distance; every row has exactly these columns as keys, so the writer
    fills in no cell. *)
Theorem artist_main_file records :
  let rows := measured (loaded (rows_of records)) in
  let cols := artist_columns (hd [] records) in
  even records → legible records → (5 ≤ length (rows_of records))%nat →
  ∃ ready evs, Ordered.Artist.main records = (evs, inr tt) ∧
               lines evs = (VStr <$> cols) :: (record_of cols <$> label_ready ready rows) ∧
               Forall (λ r : row, dom r = list_to_set cols) (label_ready ready rows) ∧
               5 <= Qnat (ready_count ready (length rows)) ∧
               ∀ ready', 5 <= Qnat (ready_count ready' (length rows)) →
                         selection_cost ready rows <= selection_cost ready' rows.
Proof.
  intros rows cols Hev Hleg Hlen.
  pose proof (rows_of_readable records Hev Hleg) as Hfile.
  destruct (artist_main_returns (rows_of records)) as (g & evs & Hmain & Hw & Hg & Hmin);
    [by apply readable_file_convertible | apply rows_of_same_keys
    | by apply loaded_convertible_on | done |].
  exists g, (shown cols <$> evs). split_and!; [|..|done|done].
  - by rewrite artist_main_shows, Hmain.
  - by rewrite (lines_returned _ _ _ (artist_main_saves _) Hmain), Hw.
  - apply artist_rows_full.
Qed.

Lemma legible_convertible records :
  legible records → Forall (Forall (λ s, convertible_cell (VStr s))) (tail records).
Proof.
  intros Hleg. eapply Forall_impl; [exact Hleg|]. intros row Hrow.
  eapply Forall_impl; [exact Hrow|]. intros s. apply readable_convertible.
Qed.

(** C4: with the decimal parser, on every input of strings whose digits fit
    a float, [main] of modified_artist_clustering.py ends as the verdict
    says: with [AttributeError] when some record is longer or shorter than
    the header, else with [IndexError] when no record follows the header,
    with [ZeroDivisionError] when the largest distance to some profile is
    zero, with [AttributeError] on one or two rows, and normally otherwise;
    unless the end is normal nothing reaches the writer. *)
Theorem modified_main_on_records records :
  legible records →
  outcome (Ordered.Modified.main records) = modified_verdict_on records ∧
  (modified_verdict_on records ≠ inr tt → lines (events (Ordered.Modified.main records)) = []).
Proof.
  intros Hleg. unfold modified_verdict_on. case_decide as Hev.
  - rewrite modified_main_shows by done.
    destruct (modified_main_ends (rows_of records)) as [Hout _];
      [by apply rows_of_well_read|].
    split; [by rewrite outcome_map_events|]. intros Hne. rewrite events_map_events.
    destruct (modified_verdict (rows_of records)) as [e|[]] eqn:He; [|done].
    apply (lines_raised _ _ e (modified_main_saves _) Hout). intros ->.
    unfold modified_verdict in He. by repeat case_decide.
  - by rewrite (modified_main_stops records AttributeError)
      by (by apply load_data_uneven; [apply legible_convertible|]).
Qed.

(** C30: with the decimal parser, on every input of strings whose digits fit
    a float, [main] of artist_clustering.py ends with [AttributeError] when
    some record is longer or shorter than the header, else with
    [IndexError] when no record follows the header, with [AttributeError]
    on one to four rows, and normally otherwise; unless the end is normal
    nothing reaches the writer. *)
Theorem artist_main_on_records records :
  legible records →
  outcome (Ordered.Artist.main records) = artist_verdict_on records ∧
  (artist_verdict_on records ≠ inr tt → lines (events (Ordered.Artist.main records)) = []).
Proof.
  intros Hleg. unfold artist_verdict_on. case_decide as Hev.
  - rewrite artist_main_shows by done.
    destruct (artist_main_ends (rows_of records)) as [Hout _];
      [by apply rows_of_well_read|].
    split; [by rewrite outcome_map_events|]. intros Hne. rewrite events_map_events.
    destruct (artist_verdict (rows_of records)) as [e|[]] eqn:He; [|done].
    apply (lines_raised _ _ e (artist_main_saves _) Hout). intros ->.
    unfold artist_verdict in He. by repeat case_decide.
  - by rewrite (artist_main_stops records AttributeError)
      by (by apply load_data_uneven; [apply legible_convertible|]).
Qed.

End files.

(** * From the reader to the writer *)

Lemma columns_NoDup fieldnames : NoDup fieldnames → columns fieldnames = fieldnames.
Proof.
  intros Hnd. unfold columns. apply (keys_after_new [] fieldnames Hnd).
  intros k _. apply not_elem_of_nil.
Qed.

(** C25: [save] on the rows that the reader yields writes back the file:
    for a header of distinct names and records as long as the header, one
    of them at least not blank, the records handed to the writer are the
    header and the records read that are not blank, in order and
    unchanged. *)
Theorem save_round_trip output_file fieldnames rows :
  NoDup fieldnames → even (fieldnames :: rows) → filter (λ row, row ≠ []) rows ≠ [] →
  Ordered.save output_file (fields <$> DictReader (fieldnames :: rows))
  = (Ordered.Shown (Opened output_file) ::
     (Ordered.Line <$> ((λ row : list string, VStr <$> row) <$>
        fieldnames :: filter (λ row, row ≠ []) rows)),
     inr tt).
Proof.
  intros Hnd Hrows Hne. unfold Ordered.save.
  eapply (bind_eq _ _ [_]); [done|].
  destruct (filter (λ row, row ≠ []) rows) as [|row rows'] eqn:Hrows'; [done|].
  assert (first_item (fields <$> DictReader (fieldnames :: rows))
          = inr (fields (dict_row fieldnames row))) as ->
    by (cbn [DictReader]; by rewrite Hrows').
  rewrite bind_lift_inr. cbv zeta. rewrite dict_row_keys, columns_NoDup by done.
  rewrite writeheader_tell, writerows_DictReader, Hrows' by done.
  by eapply (bind_eq _ _ [_]).
Qed.

(** * The theorems at sample files, with the decimal parser and the
    reference solver *)

Definition sample_header : list string :=
  ["Artist Name"; "Number of Songs (Spotify)"; "Monthly listeners (Spotify)"].

(** The records of a file of three artists, and of five. *)
Definition sample_records : list (list string) :=
  [sample_header; ["Ada"; "3"; "5000"]; ["Bo"; "2"; "2000.5"]; []; ["Cy"; "n/a"; "-5"]].

Definition sample_records5 : list (list string) :=
  sample_records ++ [["Di"; "1"; ".5"]; ["Ed"; "7."; "1e3"]].

(** A file with a record shorter than the header, and one with a record
    that is longer. *)
Definition short_records : list (list string) := sample_records ++ [["Fy"; "4"]].

Definition long_records : list (list string) := sample_records ++ [["Fy"; "4"; "9"; "x"]].

(** A header with a repeated name and with a column ['Cluster']: the
    repeated name has one column, and the label goes where the input had
    ['Cluster']. *)
Example modified_columns_merged :
  modified_columns ["Artist Name"; "Cluster"; "Artist Name"]
  = ["Artist Name"; "Cluster";
     "Distance_to_Ready"; "Distance_to_Potential"; "Distance_to_Not Ready"].
Proof. reflexivity. Qed.

Lemma modified_main_refines_witness :
  Ordered.Modified.main (H:=decimal_parser) (H0:=brute_force_solver) sample_records
  = map_events (shown (modified_columns (hd [] sample_records)))
      (Pipeline.Modified.main (H:=decimal_parser) (H0:=brute_force_solver)
         (rows_of sample_records)).
Proof.
  apply (modified_main_refines (H:=decimal_parser) (H0:=brute_force_solver) sample_records).
  vm_decide.
Defined.

Lemma artist_main_refines_witness :
  Ordered.Artist.main (H:=decimal_parser) (H0:=brute_force_solver) sample_records5
  = map_events (shown (artist_columns (hd [] sample_records5)))
      (Pipeline.Artist.main (H:=decimal_parser) (H0:=brute_force_solver)
         (rows_of sample_records5)).
Proof.
  apply (artist_main_refines (H:=decimal_parser) (H0:=brute_force_solver) sample_records5).
  vm_decide.
Defined.

Lemma modified_main_header_witness :
  ∃ body, lines (events (Ordered.Modified.main (H:=decimal_parser) (H0:=brute_force_solver)
                           sample_records))
          = (VStr <$> sample_header ++ modified_added) :: body ∧
          Forall (λ record, length record = length (sample_header ++ modified_added)) body.
Proof.
  apply (modified_main_header (H:=decimal_parser) (H0:=brute_force_solver)
           sample_header (tail sample_records));
    [vm_decide | vm_decide | unfold returns; vm_decide].
Defined.

Lemma modified_main_file_witness :
  let data := loaded (rows_of sample_records) in
  let names := Profiles.Modified.cluster_names Profiles.Modified.profiles in
  let rows := all_distances data Profiles.Modified.profiles in
  let m := floor_of (length rows) (length names) in
  let cols := modified_columns (hd [] sample_records) in
  ∃ g evs, Ordered.Modified.main (H0:=brute_force_solver) sample_records = (evs, inr tt) ∧
           lines evs = (VStr <$> cols) :: (record_of cols <$> label_rows g names rows) ∧
           Forall (λ r : row, dom r = list_to_set cols) (label_rows g names rows) ∧
           balanced g (length rows) (length names) m ∧
           ∀ g', balanced g' (length rows) (length names) m →
                 assignment_cost g names rows <= assignment_cost g' names rows.
Proof.
  apply (modified_main_file (H:=brute_force_solver) sample_records);
    [vm_decide | vm_decide | vm_decide | vm_compute; lia].
Defined.

Lemma artist_main_file_witness :
  let rows := measured (loaded (rows_of sample_records5)) in
  let cols := artist_columns (hd [] sample_records5) in
  ∃ ready evs, Ordered.Artist.main (H0:=brute_force_solver) sample_records5 = (evs, inr tt) ∧
               lines evs = (VStr <$> cols) :: (record_of cols <$> label_ready ready rows) ∧
               Forall (λ r : row, dom r = list_to_set cols) (label_ready ready rows) ∧
               5 <= Qnat (ready_count ready (length rows)) ∧
               ∀ ready', 5 <= Qnat (ready_count ready' (length rows)) →
                         selection_cost ready rows <= selection_cost ready' rows.
Proof.
  apply (artist_main_file (H:=brute_force_solver) sample_records5);
    [vm_decide | vm_decide | vm_compute; lia].
Defined.

Lemma modified_main_on_records_witness :
  outcome (Ordered.Modified.main (H0:=brute_force_solver) short_records)
  = modified_verdict_on short_records ∧
  (modified_verdict_on short_records ≠ inr tt →
   lines (events (Ordered.Modified.main (H0:=brute_force_solver) short_records)) = []).
Proof. apply (modified_main_on_records (H:=brute_force_solver) short_records). vm_decide. Defined.

Lemma artist_main_on_records_witness :
  outcome (Ordered.Artist.main (H0:=brute_force_solver) long_records)
  = artist_verdict_on long_records ∧
  (artist_verdict_on long_records ≠ inr tt →
   lines (events (Ordered.Artist.main (H0:=brute_force_solver) long_records)) = []).
Proof. apply (artist_main_on_records (H:=brute_force_solver) long_records). vm_decide. Defined.

Lemma save_round_trip_witness :
  Ordered.save "copy.csv" (fields <$> DictReader sample_records5)
  = (Ordered.Shown (Opened "copy.csv") ::
     (Ordered.Line <$> ((λ row : list string, VStr <$> row) <$>
        sample_header :: filter (λ row, row ≠ []) (tail sample_records5))),
     inr tt).
Proof. apply (save_round_trip "copy.csv" sample_header (tail sample_records5)); vm_decide. Defined.
