(* ===== verification/Columns.v ===== *)
(** * The columns of the input in another order

    The scripts find the cells of a row by the names of the header, so the
    order of the columns of the input file shows in two places only: the
    order of the columns of the file written, and the order of the items of
    the row that a diagnostic of [calculate_distance] prints.
    [same_columns] relates two inputs that have the same fields under the
    same names; the rows of the reader are then the same, and the two runs
    of [main] end the same, print the same lines, print diagnostics about
    the same features with rows of the same items, and hand to the writer
    records with the same cells under the same names ([rearranged]).  The
    lines printed are not the same: [swapped_diagnostic] shows a diagnostic
    that differs. *)

From Stdlib Require Import QArith String.
From stdpp Require Import base option list gmap strings.
From S2P Require Import Prelude Layers Odict PyValue Csv Profiles Normalize Milp Pipeline Ordered Files.

#[local] Open Scope py_scope.

(** The records have the same fields under the same names of the header,
    record by record. *)
Definition same_columns (records records' : list (list string)) : Prop :=
  match records, records' with
  | [], [] => True
  | fieldnames :: rows, fieldnames' :: rows' =>
      fieldnames ≡ₚ fieldnames' ∧
      Forall2 (λ row row', zip fieldnames row ≡ₚ zip fieldnames' row') rows rows'
  | _, _ => False
  end.

#[export] Instance same_columns_dec records records' : Decision (same_columns records records').
Proof. destruct records, records'; apply _. Defined.

(** Two diagnostics are about the same feature of rows with the same
    items, whatever their order, or about the same exception. *)
Definition same_diagnostic (d d' : Ordered.diagnostic) : Prop :=
  match d, d' with
  | Ordered.NonNumeric feature row, Ordered.NonNumeric feature' row' =>
      feature = feature' ∧ row ≡ₚ row'
  | Ordered.ErrorProcessing feature e, Ordered.ErrorProcessing feature' e' =>
      feature = feature' ∧ e = e'
  | _, _ => False
  end.

(** Two events show the same up to the order of the columns: the same line
    printed, diagnostics that are the same up to the order of the items of
    their row, or records with the same cells under the names of their
    columns. *)
Definition rearranged (cols cols' : list string) (o o' : Ordered.output) : Prop :=
  match o, o' with
  | Ordered.Shown a, Ordered.Shown a' => a = a'
  | Ordered.Printed d, Ordered.Printed d' => same_diagnostic d d'
  | Ordered.Line record, Ordered.Line record' => zip cols record ≡ₚ zip cols' record'
  | _, _ => False
  end.

(** The diagnostics printed, in order. *)
Definition diagnostics (evs : list Ordered.output) : list Ordered.diagnostic :=
  omap (λ o, match o with Ordered.Printed d => Some d | _ => None end) evs.

(** ** Keys and columns up to their order *)

#[export] Instance keys_after_proper :
  Proper ((≡ₚ) ==> (=) ==> (≡ₚ)) (keys_after (K:=string)).
Proof.
  intros keys keys' Hkeys ks _ <-. revert keys keys' Hkeys.
  induction ks as [|k ks IH]; intros keys keys' Hkeys; [done|]. cbn.
  apply IH. destruct (decide (k ∈ keys)) as [Hk|Hk].
  - by rewrite decide_True by (by rewrite <- Hkeys).
  - rewrite decide_False by (by rewrite <- Hkeys). by rewrite Hkeys.
Qed.

Lemma zip_fmap_values {A B C} (f : B → C) (l : list A) (k : list B) :
  zip l (f <$> k) = prod_map id f <$> zip l k.
Proof. revert k. induction l as [|x l IH]; intros [|y k]; cbn; [done..|]. by rewrite IH. Qed.

Section columns.
Implicit Types (fieldnames row : list string) (records : list (list string)).

(** The row of the reader for a record as long as a header of distinct
    names holds the fields of the record under the names, whatever the order
    of the columns. *)
Lemma dict_row_same_columns fieldnames fieldnames' row row' :
  NoDup fieldnames → fieldnames ≡ₚ fieldnames' →
  length row = length fieldnames → length row' = length fieldnames' →
  zip fieldnames row ≡ₚ zip fieldnames' row' →
  to_row (fields (dict_row fieldnames' row')) = to_row (fields (dict_row fieldnames row)).
Proof.
  intros Hnd Hperm Hl Hl' Hzip.
  rewrite !dict_row_fit by (done || by rewrite <- Hperm). cbn [fields].
  unfold to_row, to_map. rewrite !zip_fmap_values. symmetry. apply list_to_map_proper.
  - rewrite <- list_fmap_compose. rewrite (list_fmap_ext _ fst (zip fieldnames row));
      [by rewrite fst_zip by lia|by intros i [??]].
  - by rewrite Hzip.
Qed.

(** A record is blank when the record with the same fields is. *)
Lemma blank_same_columns fieldnames fieldnames' row row' :
  fieldnames ≡ₚ fieldnames' →
  row = [] ∨ length row = length fieldnames → row' = [] ∨ length row' = length fieldnames' →
  zip fieldnames row ≡ₚ zip fieldnames' row' →
  (row = [] ↔ row' = []) ∧ (row ≠ [] → length row = length fieldnames ∧
                                        length row' = length fieldnames').
Proof.
  intros Hperm Hrow Hrow' Hzip%Permutation_length. apply Permutation_length in Hperm.
  rewrite !length_zip in Hzip.
  destruct row as [|s row], row' as [|s' row']; cbn in *; split; try done;
    destruct Hrow as [?|Hrow], Hrow' as [?|Hrow']; try done; try lia.
  all: intros _; lia.
Qed.

(** The rows of the reader are the same for records with the same fields
    under the same names. *)
Lemma rows_of_same_columns records records' :
  NoDup (hd [] records) → even records → even records' →
  same_columns records records' → rows_of records' = rows_of records.
Proof.
  destruct records as [|fieldnames rows], records' as [|fieldnames' rows']; try done.
  cbn [hd even same_columns]. intros Hnd Hev Hev' [Hperm Hrows].
  unfold rows_of. cbn [DictReader]. rewrite <- !list_fmap_compose.
  induction Hrows as [|row row' rows rows' Hzip _ IH]; [done|].
  apply Forall_cons in Hev as [Hrow Hev], Hev' as [Hrow' Hev'].
  destruct (blank_same_columns _ _ _ _ Hperm Hrow Hrow' Hzip) as [Hblank Hlen].
  destruct (decide (row = [])) as [->|Hne].
  - rewrite (proj1 Hblank eq_refl), !filter_cons_False by (by intros []). by apply IH.
  - rewrite !filter_cons_True by (done || by intros ?%Hblank).
    cbn [fmap list_fmap]. f_equal; [|by apply IH].
    cbn. destruct (Hlen Hne). by apply dict_row_same_columns.
Qed.

End columns.

(** ** The two runs *)

Section runs.
Context `{FloatParser} `{Solver}.
Implicit Types (cols : list string) (records : list (list string)).

(** What a run on rows shows is shown the same under the columns in
    another order. *)
Lemma shown_rearranged cols cols' (o : Pipeline.output) :
  cols ≡ₚ cols' → rearranged cols cols' (shown cols o) (shown cols' o).
Proof.
  intros Hcols. destruct o as [[feature r|feature e]| | | | |]; cbn; try done.
  - split; [done|]. by apply in_order_Permutation.
  - by rewrite !zip_fmap_self, Hcols.
  - unfold record_of. by rewrite !zip_fmap_self, Hcols.
Qed.

Lemma events_rearranged cols cols' (evs : list Pipeline.output) :
  cols ≡ₚ cols' →
  Forall2 (rearranged cols cols') (shown cols <$> evs) (shown cols' <$> evs).
Proof.
  intros Hcols. apply Forall2_fmap, Forall_Forall2_diag, Forall_forall.
  intros o _. by apply shown_rearranged.
Qed.

(** The columns of the output for headers with the same names. *)
Lemma modified_columns_Permutation fieldnames fieldnames' :
  NoDup fieldnames → fieldnames ≡ₚ fieldnames' →
  modified_columns fieldnames ≡ₚ modified_columns fieldnames'.
Proof.
  intros Hnd Hperm. unfold modified_columns.
  by rewrite !columns_NoDup, Hperm by (done || by rewrite <- Hperm).
Qed.

Lemma artist_columns_Permutation fieldnames fieldnames' :
  NoDup fieldnames → fieldnames ≡ₚ fieldnames' →
  artist_columns fieldnames ≡ₚ artist_columns fieldnames'.
Proof.
  intros Hnd Hperm. unfold artist_columns.
  by rewrite !columns_NoDup, Hperm by (done || by rewrite <- Hperm).
Qed.

Lemma same_columns_header records records' :
  same_columns records records' → hd [] records ≡ₚ hd [] records'.
Proof. destruct records, records'; try done. by intros [? _]. Qed.

Lemma modified_main_rearranged records records' :
  NoDup (hd [] records) → even records → even records' → same_columns records records' →
  outcome (Ordered.Modified.main records') = outcome (Ordered.Modified.main records) ∧
  Forall2 (rearranged (modified_columns (hd [] records)) (modified_columns (hd [] records')))
    (events (Ordered.Modified.main records)) (events (Ordered.Modified.main records')).
Proof.
  intros Hnd Hev Hev' Hsame.
  rewrite !modified_main_shows, (rows_of_same_columns records records') by done.
  split; [by rewrite !outcome_map_events|]. rewrite !events_map_events.
  by apply events_rearranged, modified_columns_Permutation, same_columns_header.
Qed.

Lemma artist_main_rearranged records records' :
  NoDup (hd [] records) → even records → even records' → same_columns records records' →
  outcome (Ordered.Artist.main records') = outcome (Ordered.Artist.main records) ∧
  Forall2 (rearranged (artist_columns (hd [] records)) (artist_columns (hd [] records')))
    (events (Ordered.Artist.main records)) (events (Ordered.Artist.main records')).
Proof.
  intros Hnd Hev Hev' Hsame.
  rewrite !artist_main_shows, (rows_of_same_columns records records') by done.
  split; [by rewrite !outcome_map_events|]. rewrite !events_map_events.
  by apply events_rearranged, artist_columns_Permutation, same_columns_header.
Qed.

(** C19: the order of the columns of the input shows only in the order of
    the columns written and of the items of the rows printed: on two inputs
    with the same fields under the same names of a header of distinct names,
    every record as long as its header, the two runs of [main] of
    modified_artist_clustering.py end the same and show as much, event by
    event: the same line of [main], a diagnostic about the same feature
    whose row has the same items in the order of the columns of each input,
    or a record handed to the writer with the same cells under the same
    names of columns. *)
Theorem modified_main_any_columns records records' :
  NoDup (hd [] records) → even records → even records' → same_columns records records' →
  outcome (Ordered.Modified.main records') = outcome (Ordered.Modified.main records) ∧
  Forall2 (rearranged (modified_columns (hd [] records)) (modified_columns (hd [] records')))
    (events (Ordered.Modified.main records)) (events (Ordered.Modified.main records')).
Proof. exact (modified_main_rearranged records records'). Qed.

End runs.

(** * The theorem at a sample file *)

(** The records of [sample_records] with the name of the artist in the
    last column. *)
Definition swapped_records : list (list string) :=
  [["Number of Songs (Spotify)"; "Monthly listeners (Spotify)"; "Artist Name"];
   ["3"; "5000"; "Ada"]; ["2"; "2000.5"; "Bo"]; []; ["n/a"; "-5"; "Cy"]].

Lemma modified_main_any_columns_witness :
  outcome (Ordered.Modified.main (H:=decimal_parser) (H0:=brute_force_solver) swapped_records)
  = outcome (Ordered.Modified.main (H:=decimal_parser) (H0:=brute_force_solver) sample_records) ∧
  Forall2 (rearranged (modified_columns (hd [] sample_records))
             (modified_columns (hd [] swapped_records)))
    (events (Ordered.Modified.main (H:=decimal_parser) (H0:=brute_force_solver) sample_records))
    (events (Ordered.Modified.main (H:=decimal_parser) (H0:=brute_force_solver) swapped_records)).
Proof.
  apply (modified_main_any_columns (H:=decimal_parser) (H0:=brute_force_solver)
           sample_records swapped_records); vm_decide.
Defined.

(** The two runs do not print the same lines: the row of the first
    diagnostic, for the record of Cy, has its items in the order of the
    columns of each file. *)
Example swapped_diagnostic :
  head (diagnostics (events (Ordered.Modified.main (H:=decimal_parser)
                               (H0:=brute_force_solver) sample_records)))
  = Some (Ordered.NonNumeric "Number of Songs (Spotify)"
            [("Artist Name", VStr "Cy"); ("Number of Songs (Spotify)", VStr "n/a");
             ("Monthly listeners (Spotify)", VStr "-5")]) ∧
  head (diagnostics (events (Ordered.Modified.main (H:=decimal_parser)
                               (H0:=brute_force_solver) swapped_records)))
  = Some (Ordered.NonNumeric "Number of Songs (Spotify)"
            [("Number of Songs (Spotify)", VStr "n/a");
             ("Monthly listeners (Spotify)", VStr "-5"); ("Artist Name", VStr "Cy")]).
Proof. vm_decide. Qed.

(** The diagnostics of the run on the sample file: the row of Cy is printed
    once for every profile, each time with the distances stored before. *)
Example sample_diagnostics :
  diagnostics (events (Ordered.Modified.main (H:=decimal_parser) (H0:=brute_force_solver)
                         sample_records))
  = (λ stored, Ordered.NonNumeric "Number of Songs (Spotify)"
                 ([("Artist Name", VStr "Cy"); ("Number of Songs (Spotify)", VStr "n/a");
                   ("Monthly listeners (Spotify)", VStr "-5")] ++ stored))
    <$> [[]; [("Distance_to_Ready", VNum 37069)];
         [("Distance_to_Ready", VNum 37069); ("Distance_to_Potential", VNum 18032)]].
Proof. vm_decide. Qed.
