(* ===== verification/Solvers.v ===== *)
(** * What the labels owe to the solver

    [cluster_artists] of both scripts reads the labels from the values that
    the solver leaves in the variables, with the test [x.X > 0.5].  The class
    [Solver] of [Milp] asks for exact values 0 and 1 and for an optimum, and
    says nothing of which optimum.  This file shows what that leaves open:

    - a solver whose values are within one half of an optimal solution (the
      integrality tolerance of a numeric solver), read through the test
      [> 0.5], behaves as a solver of the class ([thresholded]); the scripts
      with such a solver are the scripts with an exact one;
    - a solver that stops within a gap of the least value ([within_gap])
      gives labels that meet the floors and cost at most the gap more than
      the least;
    - [cluster_artists] of modified_artist_clustering.py ends in one of
      five ways: with the exception of the first cost that is not a number
      ([first_cost_error]), or as the numbers of rows and clusters decide;
    - two solvers of the class agree on what is printed, on the exception
      and on the total cost of the rows returned; when one assignment only
      has the least cost ([only_least]), every solver labels the rows with
      it.

    [cluster_artists_with] is [cluster_artists] of
    modified_artist_clustering.py (lines 101-137) with the call
    [model.optimize()] as a parameter; [ready_artists_with] is the same for
    artist_clustering.py (lines 68-89). *)

From Stdlib Require Import QArith Qabs Lqa String.
From stdpp Require Import base option list gmap strings.
From S2P Require Import Prelude Layers Sums PyValue Profiles Normalize Milp Cluster Penalty Preference.

#[local] Open Scope py_scope.

(** * The scripts over any solver *)

(** Lines 102-137 of modified_artist_clustering.py, with [opt] for the call
    of the solver. *)
Definition cluster_artists_with (opt : Model → option solution) (data : list row)
    (profiles : list (string * Profiles.Modified.cluster_data)) : M event (list row) :=
  model <- Modified.cluster_model data profiles ;;
  let result := opt model in
  let cluster_names := Profiles.Modified.cluster_names profiles in
  data <- Modified.assign_clusters result cluster_names data ;;
  ret data.

(** Lines 69-89 of artist_clustering.py, with [opt] for the call of the
    solver. *)
Definition ready_artists_with (opt : Model → option solution) (data : list row)
    (min_ready_artists : Q) : M event (list row) :=
  model <- Artist.cluster_model data min_ready_artists ;;
  let result := opt model in
  data <- Artist.assign_clusters result data ;;
  ret data.

(** * Values within the tolerance *)

(** Every value of [sol] is less than one half away from the value that
    [sol'] gives to the same variable. *)
Definition within_half (sol sol' : solution) : Prop :=
  dom sol = dom sol' ∧ map_Forall (λ v q, Qabs (q - X sol' v) < 1 # 2) sol.

#[export] Instance within_half_dec sol sol' : Decision (within_half sol sol').
Proof. unfold within_half. apply _. Defined.

(** The values of a result, each rounded to 0 or 1 at one half. *)
Definition rounded (result : option solution) : option solution :=
  (λ sol : solution, round <$> sol) <$> result.

Section threshold.
Implicit Types (sol : solution) (q : Q) (result : option solution).

(** The test [> 0.5] does not see the rounding. *)
Lemma chosen_round q : chosen (round q) = chosen q.
Proof.
  unfold chosen, round. case_decide.
  - by rewrite !bool_decide_eq_true_2.
  - by rewrite !bool_decide_eq_false_2.
Qed.

Lemma round_close q b : binary b → Qabs (q - b) < 1 # 2 → round q == b.
Proof.
  intros Hb [Hlo Hhi]%Qabs_Qlt_condition. unfold round.
  destruct Hb as [E|E]; case_decide; lra.
Qed.

Lemma within_half_X sol sol' v :
  within_half sol sol' → Qabs (X sol v - X sol' v) < 1 # 2.
Proof.
  intros [Hdom Hv]. unfold X at 1. destruct (sol !! v) as [q|] eqn:E; cbn.
  - by apply (Hv v q).
  - apply not_elem_of_dom in E. rewrite Hdom in E. apply not_elem_of_dom in E.
    unfold X. by rewrite E.
Qed.

Lemma attr_X_round sol v :
  attr_X (Some (round <$> sol)) v =
  match attr_X (Some sol) v with inl e => inl e | inr q => inr (round q) end.
Proof. unfold attr_X. rewrite lookup_fmap. by destruct (sol !! v). Qed.

(** Rounding the values changes no label. *)
Lemma modified_assign_cluster_round sol i (r : row) items :
  Modified.assign_cluster (Some (round <$> sol)) i r items =
  Modified.assign_cluster (Some sol) i r items.
Proof.
  induction items as [|[j name] items IH]; [done|].
  cbn [Modified.assign_cluster]. rewrite attr_X_round.
  destruct (attr_X (Some sol) [i; j]) as [e|q]; [done|].
  by rewrite !bind_lift_inr, chosen_round, IH.
Qed.

Lemma modified_assign_clusters_round result names data :
  Modified.assign_clusters (rounded result) names data =
  Modified.assign_clusters result names data.
Proof.
  destruct result as [sol|]; [|done]. apply mapM_ext.
  intros [i r]. apply modified_assign_cluster_round.
Qed.

Lemma artist_assign_clusters_round result data :
  Artist.assign_clusters (rounded result) data =
  Artist.assign_clusters result data.
Proof.
  destruct result as [sol|]; [|done]. apply mapM_ext. intros [i r].
  cbn [rounded fmap option_fmap option_map]. rewrite attr_X_round.
  destruct (attr_X (Some sol) [i]) as [e|q]; [done|].
  rewrite !bind_lift_inr. unfold Artist.label. by rewrite chosen_round.
Qed.

(** The rounded values of [sol] are the values of a solution it is close
    to. *)
Lemma X_round_close sol sol' v :
  map_Forall (λ _ q, binary q) sol' → within_half sol sol' →
  X (round <$> sol) v == X sol' v.
Proof.
  intros Hb Hclose. pose proof (within_half_X _ _ v Hclose) as Hv.
  unfold X at 1. rewrite lookup_fmap. unfold X at 1 in Hv.
  destruct (sol !! v) as [q|]; cbn [fmap option_fmap option_map default] in *.
  - by apply round_close; [apply X_binary|].
  - apply Qabs_Qlt_condition in Hv. destruct (X_binary sol' v Hb); lra.
Qed.

Lemma feasible_close m sol sol' :
  feasible m sol' → within_half sol sol' → feasible m (round <$> sol).
Proof.
  intros (Hdom & Hb & Hc) Hclose. split; [|split].
  - rewrite dom_fmap_L, <- Hdom. apply Hclose.
  - intros v q. rewrite lookup_fmap. intros (q' & _ & ->)%fmap_Some.
    destruct (round_literal q') as [-> | ->]; [by left | by right].
  - eapply Forall_impl; [exact Hc|]. intros c. apply holds_ext.
    intros v. symmetry. by apply X_round_close.
Qed.

Lemma optimal_close m sol sol' :
  optimal m sol' → within_half sol sol' → optimal m (round <$> sol).
Proof.
  intros [Hf Hmin] Hclose. split; [by eapply feasible_close|].
  intros sol'' Hf''. eapply Qle_trans; [|by apply Hmin].
  apply Qle_lteq. right. apply getValue_ext. intros v.
  apply X_round_close; [apply Hf | done].
Qed.

End threshold.

(** * A solver with a tolerance *)

(** What a numeric solver promises: values close to an optimal solution when
    it reports one, and no solution when it reports none. *)
Definition tolerant (opt : Model → option solution) : Prop :=
  (∀ m sol, opt m = Some sol → ∃ sol', optimal m sol' ∧ within_half sol sol') ∧
  (∀ m sol, opt m = None → ¬ feasible m sol).

Section tolerant.
Context (opt : Model → option solution) (Htol : tolerant opt).

Lemma thresholded_optimal m sol : rounded (opt m) = Some sol → optimal m sol.
Proof.
  intros (sol0 & Hopt & ->)%fmap_Some.
  destruct (proj1 Htol m sol0 Hopt) as (sol' & Hsol' & Hclose).
  by eapply optimal_close.
Qed.

Lemma thresholded_infeasible m sol : rounded (opt m) = None → ¬ feasible m sol.
Proof. intros Hopt%fmap_None. by apply (proj2 Htol). Qed.

(** The solver seen through the test [> 0.5]. *)
Definition thresholded : Solver :=
  {| optimize m := rounded (opt m);
     optimize_optimal := thresholded_optimal;
     optimize_infeasible := thresholded_infeasible |}.

(** The script with the tolerant solver is the script with the exact one. *)
Lemma cluster_artists_thresholded data profiles :
  cluster_artists_with opt data profiles =
  Modified.cluster_artists (H:=thresholded) data profiles.
Proof.
  unfold cluster_artists_with, Modified.cluster_artists. apply bind_ext.
  intros model. cbn [optimize thresholded].
  by rewrite modified_assign_clusters_round.
Qed.

Lemma ready_artists_thresholded data min_ready_artists :
  ready_artists_with opt data min_ready_artists =
  Artist.cluster_artists (H:=thresholded) data min_ready_artists.
Proof.
  unfold ready_artists_with, Artist.cluster_artists. apply bind_ext.
  intros model. cbn [optimize thresholded].
  by rewrite artist_assign_clusters_round.
Qed.

End tolerant.

(** An exact solver is tolerant. *)
Lemma within_half_refl sol : within_half sol sol.
Proof.
  split; [done|]. intros v q Hq. rewrite (X_lookup _ _ _ Hq).
  apply Qabs_Qlt_condition. lra.
Qed.

Lemma solver_tolerant `{Solver} : tolerant optimize.
Proof.
  split.
  - intros m sol Hopt. exists sol. split; [by apply optimize_optimal|].
    apply within_half_refl.
  - apply optimize_infeasible.
Qed.

(** A solver that moves every value by less than one half is tolerant. *)
Lemma perturbed_tolerant `{Solver} (p : Q → Q) :
  (∀ q, binary q → Qabs (p q - q) < 1 # 2) →
  tolerant (λ m, (λ sol : solution, p <$> sol) <$> optimize m).
Proof.
  intros Hp. split.
  - intros m ? (sol & Hopt & ->)%fmap_Some. exists sol.
    pose proof (optimize_optimal m sol Hopt) as Hsol.
    split; [done|]. split; [by rewrite dom_fmap_L|].
    intros v ?. rewrite lookup_fmap. intros (q & Hq & ->)%fmap_Some.
    rewrite (X_lookup _ _ _ Hq). apply Hp. destruct Hsol as [(_ & Hb & _) _].
    by apply (Hb v).
  - intros m sol Hopt%fmap_None. by apply optimize_infeasible.
Qed.

(** * The least cost and the assignments that have it *)

(** [g] is a balanced assignment of least cost. *)
Definition least (g : nat → nat) (data : list row) (names : list string) (m : nat) : Prop :=
  balanced g (length data) (length names) m ∧
  ∀ g', balanced g' (length data) (length names) m →
        assignment_cost g names data <= assignment_cost g' names data.

(** [g] is the only balanced assignment of least cost. *)
Definition only_least (g : nat → nat) (data : list row) (names : list string) (m : nat) : Prop :=
  least g data names m ∧
  ∀ g', least g' data names m → ∀ i, (i < length data)%nat → g' i = g i.

Lemma balanced_Forall g n k m :
  balanced g n k m ↔
  Forall (λ i, g i < k)%nat (seq 0 n) ∧ Forall (λ j, m ≤ members g n j)%nat (seq 0 k).
Proof.
  unfold balanced. rewrite !Forall_forall. setoid_rewrite elem_of_seq.
  intuition auto with lia.
Qed.

#[export] Instance balanced_dec g n k m : Decision (balanced g n k m).
Proof.
  refine (cast_if (decide (Forall (λ i, g i < k)%nat (seq 0 n) ∧
                           Forall (λ j, m ≤ members g n j)%nat (seq 0 k))));
    by rewrite balanced_Forall.
Defined.

(** A test of [only_least] by enumeration: no other 0/1 solution of the
    model costs as little as the solution of [g]. *)
Definition only_least_among (g : nat → nat) (data : list row) (names : list string)
    (m : nat) : Prop :=
  let model := model_of data names m in
  let sol := assignment g (length data) (length names) in
  balanced g (length data) (length names) m ∧
  Forall (λ sol', feasible model sol' →
                  getValue sol' (objective model) <= getValue sol (objective model) →
                  sol' = sol)
    (assignments (elements (vars model))).

#[export] Instance only_least_among_dec g data names m :
  Decision (only_least_among g data names m).
Proof. unfold only_least_among. apply _. Defined.

Section least.
Implicit Types (data : list row) (names : list string) (g : nat → nat).

Lemma least_cost_unique g g' data names m :
  least g data names m → least g' data names m →
  assignment_cost g names data == assignment_cost g' names data.
Proof. intros [Hg Hmin] [Hg' Hmin']. apply Qle_antisym; auto. Qed.

(** The solution of a balanced assignment is in the enumeration. *)
Lemma assignment_listed g data names m :
  assignment g (length data) (length names)
  ∈ assignments (elements (vars (model_of data names m))).
Proof.
  apply assignments_complete; [apply NoDup_elements| |].
  - rewrite list_to_set_elements_L. apply dom_solution_of.
  - intros v q. unfold assignment. rewrite lookup_solution_of.
    case_decide as Hv; [|done]. apply elem_of_tuples_2 in Hv as (i & j & -> & _).
    intros [= <-]. unfold indicator. case_decide; auto.
Qed.

(** Two assignments with the same solution agree on the rows. *)
Lemma assignment_inj g g' n k i :
  assignment g' n k = assignment g n k → (i < n)%nat → (g i < k)%nat → g' i = g i.
Proof.
  intros Heq Hi Hg. apply (indicator_half (g' i = g i)).
  rewrite <- (X_assignment g' n k) by done. rewrite Heq, X_assignment by done.
  by apply indicator_half.
Qed.

Lemma only_least_checked g data names m :
  only_least_among g data names m → only_least g data names m.
Proof.
  intros [Hg Hall]. rewrite Forall_forall in Hall.
  assert (∀ g', balanced g' (length data) (length names) m →
            assignment_cost g' names data <= assignment_cost g names data →
            assignment g' (length data) (length names) =
            assignment g (length data) (length names)) as Hsame.
  { intros g' Hg' Hle. apply Hall; [apply assignment_listed | by apply assignment_feasible |].
    cbn [objective model_of]. rewrite !getValue_total_cost by (apply Hg || apply Hg').
    done. }
  split; [split; [done|]|].
  - intros g' Hg'. destruct (Qlt_le_dec (assignment_cost g' names data)
                               (assignment_cost g names data)) as [Hlt|Hle]; [|done].
    rewrite <- (getValue_total_cost g), <- (Hsame g'), getValue_total_cost
      by (apply Hg || apply Hg' || done || by apply Qlt_le_weak).
    apply Qle_refl.
  - intros g' [Hg' Hmin] i Hi. eapply assignment_inj; [|done|by apply Hg].
    apply Hsame; auto.
Qed.

End least.

(** * Two solvers *)

Section two_solvers.
Context (S1 S2 : Solver).
Implicit Types (data : list row) (profiles : list (string * Profiles.Modified.cluster_data)).

Lemma optimize_both m : is_Some (@optimize S1 m) → is_Some (@optimize S2 m).
Proof.
  intros [sol Hsol]. destruct (@optimize S2 m) eqn:E; [done|].
  destruct (optimize_infeasible m sol E). by apply (optimize_optimal m sol Hsol).
Qed.

Lemma optimize_same_value m sol1 sol2 :
  @optimize S1 m = Some sol1 → @optimize S2 m = Some sol2 →
  getValue sol1 (objective m) == getValue sol2 (objective m).
Proof.
  intros [Hf1 Hmin1]%optimize_optimal [Hf2 Hmin2]%optimize_optimal.
  apply Qle_antisym; auto.
Qed.

End two_solvers.

(** * The cost of the rows returned *)

(** The name under 'Cluster' of a row. *)
Definition label_of (r : row) : string :=
  match r !! "Cluster" with
  | Some (VStr name) => name
  | _ => ""
  end.

(** The total cost of labelled rows: each row at the cluster that labels
    it. *)
Definition labelled_cost (rows : list row) : Q :=
  Qsum ((λ r, cost_of r (label_of r)) <$> rows).

Section labelled_cost.
Implicit Types (data : list row) (names : list string) (g : nat → nat).

Lemma labelled_cost_label_rows g names data :
  (∀ i, (i < length data)%nat → (g i < length names)%nat) →
  labelled_cost (label_rows g names data) == assignment_cost g names data.
Proof.
  intros Hg. unfold labelled_cost, label_rows, assignment_cost.
  rewrite fmap_imap. apply Qsum_imap_ext. intros i r Hi%lookup_lt_Some.
  destruct (lookup_lt_is_Some_2 names (g i) (Hg i Hi)) as [name Hname].
  unfold compose. rewrite Hname. cbn [default]. unfold label_of.
  rewrite lookup_insert_eq, cost_of_labelled. reflexivity.
Qed.

End labelled_cost.

(** * The first cost that is not a number *)

(** The exception of line 110 for a row and a cluster: [KeyError] without
    the distance, [TypeError] for a distance that is not a number. *)
Definition cost_error (r : row) (name : string) : option exn :=
  match Modified.cost r name with
  | inl e => Some e
  | inr _ => None
  end.

(** The first exception of the generator of lines 109-113: rows outside,
    clusters inside. *)
Definition first_cost_error (data : list row) (names : list string) : option exn :=
  head (omap (λ r, head (omap (cost_error r) names)) data).

Section cost_errors.
Implicit Types (data : list row) (names : list string).

Lemma cost_error_None (r : row) name : cost_error r name = None ↔ is_Some (cell name r).
Proof.
  unfold cost_error. split.
  - destruct (Modified.cost r name) as [e|c] eqn:E; [done|]. intros _.
    by eapply cost_returns.
  - intros Hc. by rewrite cost_numeric.
Qed.

Lemma first_cost_error_None data names :
  first_cost_error data names = None ↔ numeric_costs data names.
Proof.
  unfold first_cost_error, numeric_costs, numeric_column.
  rewrite head_omap_None. setoid_rewrite head_omap_None.
  setoid_rewrite cost_error_None. rewrite !Forall_forall.
  setoid_rewrite Forall_forall. naive_solver.
Qed.

(** The objective is built up to the first cost that is not a number. *)
Lemma modified_objective_first_error data names :
  Modified.objective_of data names =
  match first_cost_error data names with
  | Some e => raise e
  | None => ret (total_cost data names)
  end.
Proof.
  destruct (first_cost_error data names) as [e|] eqn:E;
    [|by apply modified_objective_returns, first_cost_error_None].
  unfold Modified.objective_of.
  rewrite (mapM_first_error _ (λ p, head (omap (cost_error p.2) names))
             (λ p, quicksum (imap (λ j name, times [p.1; j] (cost_of p.2 name)) names))).
  - unfold enumerate.
    rewrite (omap_snd_zip (λ r, head (omap (cost_error r) names))) by (by rewrite length_seq).
    unfold first_cost_error in E. by rewrite E.
  - intros [i r]. cbn [fst snd].
    rewrite (mapM_first_error _ (λ p, cost_error r p.2)
               (λ '(j, name), times [i; j] (cost_of r name))).
    + unfold enumerate at 1.
      rewrite (omap_snd_zip (cost_error r)) by (by rewrite length_seq).
      destruct (head (omap (cost_error r) names)); [done|].
      by rewrite bind_ret_l, fmap_enumerate.
    + intros [j name]. cbn [fst snd]. unfold cost_error.
      destruct (Modified.cost r name) as [e'|c] eqn:Ec; [done|].
      rewrite cost_numeric in Ec by by eapply cost_returns.
      by injection Ec as <-.
Qed.

(** A cost that is not a number ends [cluster_artists] before the solver is
    called, whatever the registry. *)
Lemma modified_run_cost_error `{Solver} data profiles e :
  first_cost_error data (Profiles.Modified.cluster_names profiles) = Some e →
  Modified.cluster_artists data profiles = raise e.
Proof.
  intros E. unfold Modified.cluster_artists, Modified.cluster_model.
  by rewrite modified_objective_first_error, E.
Qed.

End cost_errors.

(** * cluster_artists over the solvers *)

Section modified_solvers.
Implicit Types (data : list row) (profiles : list (string * Profiles.Modified.cluster_data)).

(** The model is built only for a registry that is not empty and rows with
    numeric costs. *)
Lemma modified_model_returns_inv data profiles model :
  returns (Modified.cluster_model data profiles) model →
  profiles ≠ [] ∧ numeric_costs data (Profiles.Modified.cluster_names profiles).
Proof.
  intros Hmodel. split.
  - intros ->. by rewrite modified_model_no_profiles in Hmodel.
  - unfold Modified.cluster_model in Hmodel.
    apply returns_bind_inv in Hmodel as (e & He & _).
    by eapply modified_objective_numeric.
Qed.

(** Without a model the solver is not called. *)
Lemma modified_run_early (S1 S2 : Solver) data profiles :
  ¬ (profiles ≠ [] ∧ numeric_costs data (Profiles.Modified.cluster_names profiles)) →
  Modified.cluster_artists (H:=S1) data profiles =
  Modified.cluster_artists (H:=S2) data profiles.
Proof.
  intros Hno. unfold Modified.cluster_artists.
  destruct (Modified.cluster_model data profiles) as [evs [e|model]] eqn:E;
    [by rewrite !bind_err|].
  destruct Hno. apply (modified_model_returns_inv data profiles model).
  unfold returns. by rewrite E.
Qed.

(** With a solution, the rows come back labelled by a balanced assignment of
    least cost. *)
Lemma modified_run_least `{Solver} data profiles :
  let names := Profiles.Modified.cluster_names profiles in
  profiles ≠ [] → numeric_costs data names → (length profiles ≤ length data)%nat →
  ∃ g, Modified.cluster_artists data profiles = ret (label_rows g names data) ∧
       least g data names (floor_of (length data) (length names)).
Proof.
  intros names Hne Hnum Hle.
  destruct (proj2 (modified_optimize_Some data profiles Hne) Hle) as [sol Hopt].
  exists (cluster_of sol (length names)). split.
  - by apply modified_run_Some.
  - eapply modified_solution_optimal, optimize_optimal, Hopt.
Qed.

(** Two solvers give the same run, or two labellings of least cost. *)
Lemma modified_runs_cases (S1 S2 : Solver) data profiles :
  let names := Profiles.Modified.cluster_names profiles in
  let m := floor_of (length data) (length names) in
  Modified.cluster_artists (H:=S1) data profiles =
  Modified.cluster_artists (H:=S2) data profiles ∨
  ∃ g1 g2,
    Modified.cluster_artists (H:=S1) data profiles = ret (label_rows g1 names data) ∧
    Modified.cluster_artists (H:=S2) data profiles = ret (label_rows g2 names data) ∧
    least g1 data names m ∧ least g2 data names m.
Proof.
  intros names m.
  destruct (decide (profiles ≠ [] ∧ numeric_costs data names)) as [[Hne Hnum]|Hno];
    [|left; by apply modified_run_early].
  destruct (decide (length profiles ≤ length data)%nat) as [Hle|Hlt].
  - right.
    destruct (modified_run_least (H:=S1) data profiles Hne Hnum Hle) as (g1 & ? & ?).
    destruct (modified_run_least (H:=S2) data profiles Hne Hnum Hle) as (g2 & ? & ?).
    by exists g1, g2.
  - left. by rewrite !modified_run_None by (done || apply modified_optimize_None; (done || lia)).
Qed.

Lemma modified_same_cost (S1 S2 : Solver) data profiles d1 :
  returns (Modified.cluster_artists (H:=S1) data profiles) d1 →
  ∃ d2, returns (Modified.cluster_artists (H:=S2) data profiles) d2 ∧
        labelled_cost d1 == labelled_cost d2.
Proof.
  destruct (modified_runs_cases S1 S2 data profiles)
    as [<- | (g1 & g2 & -> & -> & Hg1 & Hg2)].
  - intros Hd1. by exists d1.
  - intros <-%(returns_inj _ _ _ (returns_ret _)). eexists. split; [apply returns_ret|].
    rewrite !labelled_cost_label_rows by (apply Hg1 || apply Hg2).
    by apply least_cost_unique with (m := floor_of (length data) (length (Profiles.Modified.cluster_names profiles))).
Qed.

Lemma modified_same_failure (S1 S2 : Solver) data profiles e :
  raises (Modified.cluster_artists (H:=S1) data profiles) e →
  raises (Modified.cluster_artists (H:=S2) data profiles) e.
Proof.
  by destruct (modified_runs_cases S1 S2 data profiles)
    as [<- | (g1 & g2 & -> & -> & _)].
Qed.

Lemma modified_same_events (S1 S2 : Solver) data profiles :
  events (Modified.cluster_artists (H:=S1) data profiles) =
  events (Modified.cluster_artists (H:=S2) data profiles).
Proof.
  by destruct (modified_runs_cases S1 S2 data profiles)
    as [<- | (g1 & g2 & -> & -> & _)].
Qed.

(** A balanced assignment needs as many rows as clusters. *)
Lemma balanced_enough_rows data profiles g :
  let names := Profiles.Modified.cluster_names profiles in
  profiles ≠ [] →
  balanced g (length data) (length names) (floor_of (length data) (length names)) →
  (length profiles ≤ length data)%nat.
Proof.
  intros names Hne Hg. rewrite <- length_cluster_names.
  apply (modified_feasible_exists data names); [by apply cluster_names_nil|].
  eexists. by apply assignment_feasible.
Qed.

(** When one assignment only has the least cost, the rows are labelled with
    it. *)
Lemma modified_run_only_least `{Solver} data profiles g :
  let names := Profiles.Modified.cluster_names profiles in
  profiles ≠ [] → numeric_costs data names →
  only_least g data names (floor_of (length data) (length names)) →
  Modified.cluster_artists data profiles = ret (label_rows g names data).
Proof.
  intros names Hne Hnum [[Hg Hmin] Honly].
  pose proof (balanced_enough_rows data profiles g Hne Hg) as Hle.
  destruct (modified_run_least data profiles Hne Hnum Hle) as (g' & -> & Hg').
  f_equal. apply label_rows_ext. intros i Hi. by apply Honly.
Qed.

(** Two solvers give the same run when there is no tie. *)
Lemma modified_runs_agree (S1 S2 : Solver) data profiles :
  let names := Profiles.Modified.cluster_names profiles in
  (profiles ≠ [] → (length profiles ≤ length data)%nat →
   ∃ g, only_least g data names (floor_of (length data) (length names))) →
  Modified.cluster_artists (H:=S1) data profiles =
  Modified.cluster_artists (H:=S2) data profiles.
Proof.
  intros names Honly.
  destruct (modified_runs_cases S1 S2 data profiles)
    as [Heq | (g1 & g2 & H1 & H2 & [Hg1 _] & _)]; [done|].
  destruct (modified_returns_inv (H:=S1) data profiles (label_rows g1 names data))
    as [Hne Hnum]; [rewrite H1; apply returns_ret|].
  destruct (Honly Hne (balanced_enough_rows data profiles g1 Hne Hg1)) as [g Hg].
  by rewrite !(modified_run_only_least data profiles g).
Qed.

(** On rows with numeric costs the numbers of rows and clusters decide how
    [cluster_artists] ends. *)
Lemma modified_run_numeric `{Solver} data profiles :
  let names := Profiles.Modified.cluster_names profiles in
  numeric_costs data names →
  match profiles, data with
  | [], _ => Modified.cluster_artists data profiles = raise ZeroDivisionError
  | _, [] => Modified.cluster_artists data profiles = ret [] ∧
             ∀ sol, ¬ feasible (cluster_model_of data profiles) sol
  | _, _ =>
      if decide (length profiles ≤ length data)%nat
      then ∃ g, Modified.cluster_artists data profiles = ret (label_rows g names data) ∧
                least g data names (floor_of (length data) (length names))
      else Modified.cluster_artists data profiles = raise AttributeError ∧
           ∀ sol, ¬ feasible (cluster_model_of data profiles) sol
  end.
Proof.
  intros names Hnum. destruct profiles as [|p profiles].
  { unfold Modified.cluster_artists. by rewrite modified_model_no_profiles. }
  set (ps := p :: profiles) in *. assert (ps ≠ []) as Hne by done.
  assert (∀ sol, ¬ (length ps ≤ length data)%nat →
                 ¬ feasible (cluster_model_of data ps) sol) as Hinf.
  { intros sol Hlt Hsol. apply Hlt. rewrite <- length_cluster_names.
    apply modified_feasible_exists; [by apply cluster_names_nil | by exists sol]. }
  destruct data as [|r data].
  { split; [by apply modified_cluster_artists_nil|]. intros sol. apply Hinf. cbn. lia. }
  case_decide as Hle; [by apply modified_run_least|]. split; [|eauto].
  rewrite modified_run_None; [done..|]. apply modified_optimize_None; [done|lia].
Qed.

End modified_solvers.

(** * A solver that stops within a gap *)

(** [sol] is a solution whose value is at most [gap] above the least. *)
Definition near_optimal (gap : Q) (m : Model) (sol : solution) : Prop :=
  feasible m sol ∧
  ∀ sol', feasible m sol' → getValue sol (objective m) <= getValue sol' (objective m) + gap.

(** What a numeric solver promises when it may stop before the optimum:
    values close to a solution within [gap] of the least value when it
    reports one, and no solution when it reports none. *)
Definition within_gap (gap : Q) (opt : Model → option solution) : Prop :=
  (∀ m sol, opt m = Some sol → ∃ sol', near_optimal gap m sol' ∧ within_half sol sol') ∧
  (∀ m sol, opt m = None → ¬ feasible m sol).

Section gap.
Implicit Types (data : list row) (names : list string) (sol : solution).

Lemma tolerant_within_gap opt : tolerant opt ↔ within_gap 0 opt.
Proof.
  unfold tolerant, within_gap, near_optimal, optimal.
  apply and_iff_both; [|done]. split; intros Hopt m sol Hsol;
    destruct (Hopt m sol Hsol) as (sol' & [Hf Hmin] & Hclose);
    exists sol'; (split; [split; [done|]|done]); intros sol'' Hf'';
    specialize (Hmin sol'' Hf''); lra.
Qed.

Lemma within_gap_mono gap gap' opt : gap <= gap' → within_gap gap opt → within_gap gap' opt.
Proof.
  intros Hle [Hsome Hnone]. split; [|done]. intros m sol Hsol.
  destruct (Hsome m sol Hsol) as (sol' & [Hf Hmin] & Hclose).
  exists sol'. split; [split; [done|]|done]. intros sol'' Hf''.
  specialize (Hmin sol'' Hf''). lra.
Qed.

(** The objective at a solution is the cost of its assignment. *)
Lemma modified_solution_cost data names m sol :
  feasible (model_of data names m) sol →
  getValue sol (total_cost data names) ==
  assignment_cost (cluster_of sol (length names)) names data.
Proof.
  intros Hsol. rewrite <- getValue_total_cost by by apply (solution_balanced _ _ _ _ Hsol).
  apply getValue_ext. intros v. by apply (solution_is_assignment data names m).
Qed.

(** Values close to a solution within the gap are read as a balanced
    assignment within the gap of the least cost. *)
Lemma assign_clusters_near_optimal gap data names m sol sol' :
  near_optimal gap (model_of data names m) sol' → within_half sol sol' →
  ∃ g, Modified.assign_clusters (Some sol) names data = ret (label_rows g names data) ∧
       balanced g (length data) (length names) m ∧
       ∀ g', balanced g' (length data) (length names) m →
             assignment_cost g names data <= assignment_cost g' names data + gap.
Proof.
  intros [Hf Hmin] Hclose.
  pose proof (feasible_close _ _ _ Hf Hclose) as Hround.
  exists (cluster_of (round <$> sol) (length names)). split_and!.
  - rewrite <- (modified_assign_clusters_round (Some sol)).
    by apply (assign_clusters_feasible data names m).
  - by apply (solution_balanced data names m).
  - intros g' Hg'. rewrite <- (modified_solution_cost data names m) by done.
    rewrite <- (getValue_total_cost g') by apply Hg'.
    rewrite (getValue_ext (round <$> sol) sol')
      by (intros v; apply X_round_close; [apply Hf | done]).
    by apply (Hmin _ (assignment_feasible data names m g' Hg')).
Qed.

(** Within a gap below the penalty margin, 'Not Ready' labels exactly the
    floor of rows. *)
Lemma not_ready_within_gap gap g data names m :
  gap < 9 → NoDup names → "Not Ready" ∈ names → (2 ≤ length names)%nat →
  unit_costs data names → balanced g (length data) (length names) m →
  (∀ g', balanced g' (length data) (length names) m →
         assignment_cost g names data <= assignment_cost g' names data + gap) →
  length (labelled "Not Ready" (label_rows g names data)) = m.
Proof.
  intros Hgap Hnd [jn Hjn]%list_elem_of_lookup Hk Hunit Hg Hmin.
  rewrite (labelled_members _ names data jn) by (done || apply Hg).
  by apply (near_least_cost_not_ready data names m jn Hjn Hnd Hk Hunit gap).
Qed.

End gap.

(** * cluster_artists of artist_clustering.py over the solvers *)

(** The total distance of the rows labelled 'Ready'. *)
Definition ready_cost (rows : list row) : Q :=
  Qsum ((λ r, if decide (r !! "Cluster" = Some (VStr "Ready"))
              then default 0 (ideal_cell r) else 0) <$> rows).

(** [ready] is a selection of least total distance among those with at
    least [min_ready_artists] rows. *)
Definition least_selection (ready : nat → bool) (data : list row)
    (min_ready_artists : Q) : Prop :=
  min_ready_artists <= Qnat (ready_count ready (length data)) ∧
  ∀ ready', min_ready_artists <= Qnat (ready_count ready' (length data)) →
            selection_cost ready data <= selection_cost ready' data.

Section artist_solvers.
Implicit Types (data : list row) (min_ready_artists : Q) (ready : nat → bool).

Lemma ready_cost_label_ready ready data :
  ready_cost (label_ready ready data) == selection_cost ready data.
Proof.
  unfold ready_cost, label_ready, selection_cost. rewrite fmap_imap.
  apply Qsum_imap_ext. intros i r _. unfold compose, ideal_cell.
  rewrite lookup_insert_eq, lookup_insert_ne by done.
  destruct (ready i); by rewrite ?decide_True, ?decide_False by done.
Qed.

Lemma artist_run_early (S1 S2 : Solver) data min_ready_artists :
  ¬ numeric_ideal data →
  Artist.cluster_artists (H:=S1) data min_ready_artists =
  Artist.cluster_artists (H:=S2) data min_ready_artists.
Proof.
  intros Hno. unfold Artist.cluster_artists.
  destruct (Artist.cluster_model data min_ready_artists) as [evs [e|model]] eqn:E;
    [by rewrite !bind_err|].
  destruct Hno. unfold Artist.cluster_model in E.
  assert (returns (Artist.cluster_model data min_ready_artists) model) as Hm
    by (unfold returns, Artist.cluster_model; by rewrite E).
  apply returns_bind_inv in Hm as (e & He & _). by eapply artist_objective_numeric.
Qed.

Lemma artist_run_least `{Solver} data min_ready_artists :
  numeric_ideal data → min_ready_artists <= Qnat (length data) →
  ∃ ready, Artist.cluster_artists data min_ready_artists = ret (label_ready ready data) ∧
           least_selection ready data min_ready_artists.
Proof.
  intros Hnum Hle.
  destruct (proj2 (artist_optimize_Some data min_ready_artists) Hle) as [sol Hopt].
  exists (ready_of sol). split.
  - by apply artist_run_Some.
  - eapply artist_solution_optimal, optimize_optimal, Hopt.
Qed.

(** Two solvers give the same run, or two selections of least cost. *)
Lemma artist_runs_cases (S1 S2 : Solver) data min_ready_artists :
  Artist.cluster_artists (H:=S1) data min_ready_artists =
  Artist.cluster_artists (H:=S2) data min_ready_artists ∨
  ∃ ready1 ready2,
    Artist.cluster_artists (H:=S1) data min_ready_artists = ret (label_ready ready1 data) ∧
    Artist.cluster_artists (H:=S2) data min_ready_artists = ret (label_ready ready2 data) ∧
    least_selection ready1 data min_ready_artists ∧
    least_selection ready2 data min_ready_artists.
Proof.
  destruct (decide (numeric_ideal data)) as [Hnum|Hno];
    [|left; by apply artist_run_early].
  destruct (Qlt_le_dec (Qnat (length data)) min_ready_artists) as [Hlt|Hle].
  - left. by rewrite !artist_run_None by (done || by apply artist_optimize_None).
  - right.
    destruct (artist_run_least (H:=S1) data min_ready_artists Hnum Hle) as (r1 & ? & ?).
    destruct (artist_run_least (H:=S2) data min_ready_artists Hnum Hle) as (r2 & ? & ?).
    by exists r1, r2.
Qed.

Lemma artist_same_cost (S1 S2 : Solver) data min_ready_artists d1 :
  returns (Artist.cluster_artists (H:=S1) data min_ready_artists) d1 →
  ∃ d2, returns (Artist.cluster_artists (H:=S2) data min_ready_artists) d2 ∧
        ready_cost d1 == ready_cost d2.
Proof.
  destruct (artist_runs_cases S1 S2 data min_ready_artists)
    as [<- | (r1 & r2 & -> & -> & [Hr1 Hmin1] & [Hr2 Hmin2])].
  - intros Hd1. by exists d1.
  - intros <-%(returns_inj _ _ _ (returns_ret _)). eexists. split; [apply returns_ret|].
    rewrite !ready_cost_label_ready. apply Qle_antisym; auto.
Qed.

(** The objective at a solution is the cost of its selection. *)
Lemma artist_solution_cost data min_ready_artists sol :
  feasible (ready_model_of data min_ready_artists) sol →
  getValue sol (ideal_cost data) == selection_cost (ready_of sol) data.
Proof.
  intros Hsol. rewrite <- getValue_ideal_cost. apply getValue_ext.
  intros v. by apply (solution_is_selection data min_ready_artists).
Qed.

(** With a solver that may stop within [gap] of the least value and leaves
    values less than one half away from 0 and 1, [cluster_artists] of
    artist_clustering.py labels 'Ready' at least [min_ready_artists] rows,
    of total distance at most [gap] above the least. *)
Lemma artist_cluster_artists_within_gap gap opt data min_ready_artists :
  within_gap gap opt → numeric_ideal data → min_ready_artists <= Qnat (length data) →
  ∃ ready, ready_artists_with opt data min_ready_artists = ret (label_ready ready data) ∧
           min_ready_artists <= Qnat (ready_count ready (length data)) ∧
           ∀ ready', min_ready_artists <= Qnat (ready_count ready' (length data)) →
                     selection_cost ready data <= selection_cost ready' data + gap.
Proof.
  intros [Hsome Hnone] Hnum Hle. unfold ready_artists_with.
  rewrite artist_model_returns, bind_ret_l by done. cbv zeta. rewrite bind_ret_r.
  destruct (opt (ready_model_of data min_ready_artists)) as [sol|] eqn:Hopt.
  - destruct (Hsome _ _ Hopt) as (sol' & [Hf Hmin] & Hclose).
    pose proof (feasible_close _ _ _ Hf Hclose) as Hround.
    exists (ready_of (round <$> sol)). split_and!.
    + rewrite <- (artist_assign_clusters_round (Some sol)).
      by apply (artist_assign_feasible data min_ready_artists).
    + by apply (solution_ready_count data min_ready_artists).
    + intros ready' Hready'.
      rewrite <- (artist_solution_cost data min_ready_artists) by done.
      rewrite <- (getValue_ideal_cost ready').
      rewrite (getValue_ext (round <$> sol) sol')
        by (intros v; apply X_round_close; [apply Hf | done]).
      by apply (Hmin _ (selection_feasible data min_ready_artists ready' Hready')).
  - apply artist_feasible_exists in Hle as [sol Hsol]. by destruct (Hnone _ sol Hopt).
Qed.

End artist_solvers.

(** * Sample solvers *)

(** The reference solver with every value moved by a millionth, as the
    integrality tolerance of a numeric solver allows. *)
Definition noise (q : Q) : Q := q * (999998 # 1000000) + (1 # 1000000).

Definition noisy (m : Model) : option solution :=
  (λ sol : solution, noise <$> sol) <$> brute_force m.

(** The reference solver with the last solution of smallest value in place
    of the first. *)
Definition brute_force_last (m : Model) : option solution :=
  argmin (objective m) (reverse (filter (feasible m) (assignments (elements (vars m))))).

Lemma noisy_tolerant : tolerant noisy.
Proof.
  apply (perturbed_tolerant (H:=brute_force_solver) noise).
  intros q [E|E]; apply Qabs_Qlt_condition; unfold noise; lra.
Qed.

Lemma brute_force_last_optimal m sol : brute_force_last m = Some sol → optimal m sol.
Proof.
  intros Hbf. split.
  - by apply argmin_elem, elem_of_reverse, list_elem_of_filter in Hbf as [? _].
  - intros sol' Hf'. eapply Qle_trans.
    + eapply argmin_le; [exact Hbf | by apply elem_of_reverse, feasible_rounded_listed].
    + apply Qle_lteq. right. apply getValue_ext. intros v. apply X_round, Hf'.
Qed.

Lemma brute_force_last_infeasible m sol : brute_force_last m = None → ¬ feasible m sol.
Proof.
  intros Hbf%argmin_None Hf%feasible_rounded_listed%elem_of_reverse.
  rewrite Hbf in Hf. by apply elem_of_nil in Hf.
Qed.

Definition brute_force_last_solver : Solver :=
  {| optimize := brute_force_last;
     optimize_optimal := brute_force_last_optimal;
     optimize_infeasible := brute_force_last_infeasible |}.

(** Three rows at the same distance of every profile: every balanced
    assignment has the least cost. *)
Definition sample_tied : list row := replicate 3 (scored 0 0 0).

(** * Theorems *)

(** C24: a solver that leaves in the variables values less than one half away
    from those of an optimal solution, read through the test [x.X > 0.5] of
    the two scripts, is a solver with exact values: there is a solver of the
    class, whose results are the rounded results, with which both
    [cluster_artists] run as they do with the tolerant one. *)
Theorem threshold_absorbs_tolerance (opt : Model → option solution) :
  tolerant opt →
  ∃ S : Solver,
    (∀ m, @optimize S m = rounded (opt m)) ∧
    (∀ data profiles, cluster_artists_with opt data profiles =
                      Modified.cluster_artists (H:=S) data profiles) ∧
    (∀ data min_ready_artists, ready_artists_with opt data min_ready_artists =
                               Artist.cluster_artists (H:=S) data min_ready_artists).
Proof.
  intros Htol. exists (thresholded opt Htol). split_and!; [done| |].
  - apply cluster_artists_thresholded.
  - apply ready_artists_thresholded.
Qed.

(** C21: with a solver that may stop within [gap] of the least value and
    leaves values less than one half away from 0 and 1, a registry that is
    not empty, numeric costs and at least as many rows as clusters,
    [cluster_artists] of modified_artist_clustering.py returns the rows
    labelled by an assignment that gives every row one cluster and every
    cluster its floor of rows, and whose total cost is at most [gap] above
    the least; and when the gap is below 9 and the distances lie between 0
    and 1, exactly [max(1, len(data) // len(profiles))] rows are 'Not
    Ready', as with an exact solver. *)
Theorem modified_cluster_artists_within_gap gap opt data profiles :
  let names := Profiles.Modified.cluster_names profiles in
  let m := floor_of (length data) (length names) in
  within_gap gap opt → profiles ≠ [] → numeric_costs data names →
  (length profiles ≤ length data)%nat →
  ∃ g, cluster_artists_with opt data profiles = ret (label_rows g names data) ∧
       balanced g (length data) (length names) m ∧
       (∀ g', balanced g' (length data) (length names) m →
              assignment_cost g names data <= assignment_cost g' names data + gap) ∧
       (gap < 9 → NoDup names → "Not Ready" ∈ names → (2 ≤ length names)%nat →
        unit_costs data names →
        length (labelled "Not Ready" (label_rows g names data)) = m).
Proof.
  intros names m [Hsome Hnone] Hne Hnum Hle. unfold cluster_artists_with.
  rewrite modified_model_returns, bind_ret_l by done. cbv zeta. rewrite bind_ret_r.
  fold names. fold (floor_of (length data) (length names)). fold m.
  destruct (opt (model_of data names m)) as [sol|] eqn:Hopt.
  - destruct (Hsome _ _ Hopt) as (sol' & Hsol' & Hclose).
    destruct (assign_clusters_near_optimal gap data names m sol sol')
      as (g & Hrun & Hg & Hmin); [done..|].
    exists g. split_and!; [done..|]. intros. by apply (not_ready_within_gap gap).
  - rewrite <- length_cluster_names in Hle.
    apply (modified_feasible_exists data names (cluster_names_nil _ Hne)) in Hle as [sol Hsol].
    by destruct (Hnone _ sol Hopt).
Qed.

(** C14: [cluster_artists] of modified_artist_clustering.py ends in one of
    five ways, whatever the solver: with the exception of the first cost
    that is not a number ([KeyError] for a row without the distance,
    [TypeError] for a distance that is not a number), before the solver is
    called; with [ZeroDivisionError] on an empty registry; with the empty
    list on no row, although the model has no solution; with
    [AttributeError] on fewer rows than clusters, where the model has no
    solution and the first variable has no value; and otherwise with the
    rows labelled by a balanced assignment of least cost. *)
Theorem modified_cluster_artists_total `{Solver} data profiles :
  let names := Profiles.Modified.cluster_names profiles in
  match first_cost_error data names, profiles, data with
  | Some e, _, _ => Modified.cluster_artists data profiles = raise e
  | None, [], _ => Modified.cluster_artists data profiles = raise ZeroDivisionError
  | None, _, [] => Modified.cluster_artists data profiles = ret [] ∧
                   ∀ sol, ¬ feasible (cluster_model_of data profiles) sol
  | None, _, _ =>
      if decide (length profiles ≤ length data)%nat
      then ∃ g, Modified.cluster_artists data profiles = ret (label_rows g names data) ∧
                least g data names (floor_of (length data) (length names))
      else Modified.cluster_artists data profiles = raise AttributeError ∧
           ∀ sol, ¬ feasible (cluster_model_of data profiles) sol
  end.
Proof.
  intros names. destruct (first_cost_error data names) as [e|] eqn:E;
    [by apply modified_run_cost_error|].
  apply first_cost_error_None in E. exact (modified_run_numeric data profiles E).
Qed.

(** C23: [cluster_artists] of modified_artist_clustering.py with two solvers
    of the class has the same events (none: the function prints nothing of
    its own, and the log of the solver is not modelled), fails with the same
    exception, and when it returns with one it returns with the other rows
    of the same total cost: only the choice among the assignments of least
    cost is the solver's. *)
Theorem modified_cluster_artists_any_solver (S1 S2 : Solver) data profiles :
  events (Modified.cluster_artists (H:=S1) data profiles) =
  events (Modified.cluster_artists (H:=S2) data profiles) ∧
  (∀ e, raises (Modified.cluster_artists (H:=S1) data profiles) e →
        raises (Modified.cluster_artists (H:=S2) data profiles) e) ∧
  (∀ d1, returns (Modified.cluster_artists (H:=S1) data profiles) d1 →
         ∃ d2, returns (Modified.cluster_artists (H:=S2) data profiles) d2 ∧
               labelled_cost d1 == labelled_cost d2).
Proof.
  split_and!.
  - apply modified_same_events.
  - apply modified_same_failure.
  - apply modified_same_cost.
Qed.

(** [cluster_artists] of artist_clustering.py with two solvers of the
    class prints the same, fails with the same exception, and when it
    returns with one it returns with the other rows whose 'Ready' rows have
    the same total distance. *)
Theorem artist_cluster_artists_any_solver (S1 S2 : Solver) data min_ready_artists :
  events (Artist.cluster_artists (H:=S1) data min_ready_artists) =
  events (Artist.cluster_artists (H:=S2) data min_ready_artists) ∧
  (∀ e, raises (Artist.cluster_artists (H:=S1) data min_ready_artists) e →
        raises (Artist.cluster_artists (H:=S2) data min_ready_artists) e) ∧
  (∀ d1, returns (Artist.cluster_artists (H:=S1) data min_ready_artists) d1 →
         ∃ d2, returns (Artist.cluster_artists (H:=S2) data min_ready_artists) d2 ∧
               ready_cost d1 == ready_cost d2).
Proof.
  split_and!; [| |apply artist_same_cost];
    by destruct (artist_runs_cases S1 S2 data min_ready_artists)
      as [<- | (r1 & r2 & -> & -> & _)].
Qed.

(** C22: when one balanced assignment only has the least cost,
    [cluster_artists] of modified_artist_clustering.py returns the rows
    labelled with it, whatever the solver. *)
Theorem modified_cluster_artists_unique `{Solver} data profiles g :
  let names := Profiles.Modified.cluster_names profiles in
  profiles ≠ [] → numeric_costs data names →
  only_least g data names (floor_of (length data) (length names)) →
  Modified.cluster_artists data profiles = ret (label_rows g names data).
Proof. exact (modified_run_only_least data profiles g). Qed.

(** ** The theorems at the sample tables *)

Lemma threshold_absorbs_tolerance_witness :
  ∃ S : Solver,
    (∀ m, @optimize S m = rounded (noisy m)) ∧
    (∀ data profiles, cluster_artists_with noisy data profiles =
                      Modified.cluster_artists (H:=S) data profiles) ∧
    (∀ data min_ready_artists, ready_artists_with noisy data min_ready_artists =
                               Artist.cluster_artists (H:=S) data min_ready_artists).
Proof. apply (threshold_absorbs_tolerance noisy). exact noisy_tolerant. Defined.

Lemma modified_cluster_artists_within_gap_witness :
  let names := Profiles.Modified.cluster_names Profiles.Modified.profiles in
  let m := floor_of (length sample_scored) (length names) in
  ∃ g, cluster_artists_with noisy sample_scored Profiles.Modified.profiles =
       ret (label_rows g names sample_scored) ∧
       balanced g (length sample_scored) (length names) m ∧
       (∀ g', balanced g' (length sample_scored) (length names) m →
              assignment_cost g names sample_scored <=
              assignment_cost g' names sample_scored + (1 # 10000)) ∧
       (1 # 10000 < 9 → NoDup names → "Not Ready" ∈ names → (2 ≤ length names)%nat →
        unit_costs sample_scored names →
        length (labelled "Not Ready" (label_rows g names sample_scored)) = m).
Proof.
  apply (modified_cluster_artists_within_gap (1 # 10000) noisy sample_scored
           Profiles.Modified.profiles); [|done | vm_decide | vm_compute; lia].
  apply (within_gap_mono 0); [done|]. apply tolerant_within_gap, noisy_tolerant.
Defined.

(** The five ends at sample tables, with the reference solver. *)
Example modified_cluster_artists_ends :
  let run data ps := outcome (Modified.cluster_artists (H:=brute_force_solver) data ps) in
  run [scored 0 0 0; ∅] Profiles.Modified.profiles = inl KeyError ∧
  run [<["Distance_to_Potential" := VStr "0.5"]> (scored 0 0 0)] Profiles.Modified.profiles
  = inl TypeError ∧
  run sample_scored [] = inl ZeroDivisionError ∧
  run [] Profiles.Modified.profiles = inr [] ∧
  run (take 2 sample_scored) Profiles.Modified.profiles = inl AttributeError ∧
  run sample_scored Profiles.Modified.profiles = inr sample_labelled.
Proof. cbv zeta. split_and!; vm_decide. Qed.

Lemma modified_cluster_artists_unique_witness :
  Modified.cluster_artists (H:=brute_force_last_solver) sample_scored
    Profiles.Modified.profiles = ret sample_labelled.
Proof.
  apply (modified_cluster_artists_unique (H:=brute_force_last_solver) sample_scored
           Profiles.Modified.profiles (λ i, i)); [done | vm_decide |].
  apply only_least_checked. vm_decide.
Defined.

(** The tolerant solver leaves values that are not 0 or 1, and the run is
    the run of the reference solver. *)
Example noisy_run :
  returns (cluster_artists_with noisy sample_scored Profiles.Modified.profiles)
    sample_labelled ∧
  ¬ feasible (cluster_model_of sample_scored Profiles.Modified.profiles)
      (default ∅ (noisy (cluster_model_of sample_scored Profiles.Modified.profiles))).
Proof. split; [unfold returns|]; vm_decide. Qed.

(** On the tied table the two reference solvers label the rows
    differently. *)
Example solvers_differ_on_ties :
  outcome (Modified.cluster_artists (H:=brute_force_solver) sample_tied
             Profiles.Modified.profiles) ≠
  outcome (Modified.cluster_artists (H:=brute_force_last_solver) sample_tied
             Profiles.Modified.profiles).
Proof. vm_decide. Qed.
