(* ===== verification/Reorder.v ===== *)
(** * The rows of cluster_artists in another order

    [cluster_artists] of modified_artist_clustering.py numbers the rows: the
    variable [x[i, j]] is row [i] in cluster [j].  The file shows that the
    numbering carries nothing: the cost of a labelling, the floors and the
    labels themselves belong to the rows paired with their clusters, and a
    permutation of the rows permutes the pairs.

    An assignment [g] of [data] is seen as the list [paired g data] of the
    rows with their clusters; [least_reordered] moves an assignment of least
    cost along a permutation of the rows, and the theorem at the end moves
    the rows that [cluster_artists] returns. *)

From Stdlib Require Import QArith Qabs Lqa String.
From stdpp Require Import base option list gmap strings.
From S2P Require Import Prelude Layers Sums PyValue Profiles Normalize Milp Cluster Solvers.

#[local] Open Scope py_scope.

(** * Rows paired with their clusters *)

(** The rows of [data], each with the cluster that [g] gives it. *)
Definition paired (g : nat → nat) (data : list row) : list (row * nat) :=
  imap (λ i r, (r, g i)) data.

(** The assignment that a list of pairs stands for. *)
Definition of_pairs (ps : list (row * nat)) : nat → nat :=
  λ i, default 0%nat (snd <$> ps !! i).

(** The row of a pair with the name of its cluster under 'Cluster'. *)
Definition label_pair (names : list string) (p : row * nat) : row :=
  match names !! p.2 with
  | Some name => <["Cluster" := VStr name]> p.1
  | None => p.1
  end.

Definition pairs_cost (names : list string) (ps : list (row * nat)) : Q :=
  Qsum ((λ p, cost_of p.1 (default "" (names !! p.2))) <$> ps).

(** Every pair has one of [k] clusters and every cluster at least [m]
    pairs. *)
Definition pairs_balanced (k m : nat) (ps : list (row * nat)) : Prop :=
  Forall (λ p, p.2 < k)%nat ps ∧
  ∀ j, (j < k)%nat → (m ≤ length (filter (λ p, p.2 = j) ps))%nat.

(** * Lists under a permutation *)

Section permutations.

#[export] Instance Qsum_Permutation : Proper ((≡ₚ) ==> Qeq) Qsum.
Proof.
  intros l l' Hp. induction Hp as [|x l l' _ IH|x y l|l1 l2 l3 _ IH1 _ IH2]; cbn.
  - reflexivity.
  - change (foldr Qplus 0 ?l) with (Qsum l). by rewrite IH.
  - lra.
  - by rewrite IH1.
Qed.

(** A permutation of the images of a list is the image of a permutation. *)
Lemma Permutation_fmap_lift {A B} (f : A → B) (k k' : list B) :
  k ≡ₚ k' → ∀ l, f <$> l = k → ∃ l', f <$> l' = k' ∧ l ≡ₚ l'.
Proof.
  induction 1 as [|x k k' _ IH|x y k|k1 k2 k3 _ IH1 _ IH2]; intros l Hl.
  - exists []. by apply fmap_nil_inv in Hl as ->.
  - apply fmap_cons_inv in Hl as (a & l0 & -> & -> & ->).
    destruct (IH l0 eq_refl) as (l' & <- & Hl'). exists (a :: l'). by rewrite Hl'.
  - apply fmap_cons_inv in Hl as (a & l0 & -> & Hl0 & ->). symmetry in Hl0.
    apply fmap_cons_inv in Hl0 as (b & l1 & -> & -> & ->).
    exists (b :: a :: l1). split; [done | apply perm_swap].
  - destruct (IH1 l Hl) as (l2 & Hl2 & Hp2).
    destruct (IH2 l2 Hl2) as (l3 & Hl3 & Hp3).
    exists l3. split; [done | by etrans].
Qed.

End permutations.

(** * Assignments as lists of pairs *)

Section pairs.
Implicit Types (data : list row) (names : list string) (g : nat → nat)
  (ps : list (row * nat)).

Lemma paired_fst g data : (paired g data).*1 = data.
Proof.
  unfold paired. rewrite fmap_imap. apply list_eq. intros i.
  rewrite list_lookup_imap. by destruct (data !! i).
Qed.

Lemma length_paired g data : length (paired g data) = length data.
Proof. unfold paired. apply length_imap. Qed.

Lemma paired_of_pairs ps : paired (of_pairs ps) (ps.*1) = ps.
Proof.
  apply list_eq. intros i. unfold paired, of_pairs.
  rewrite list_lookup_imap, list_lookup_fmap. by destruct (ps !! i) as [[r j]|].
Qed.

Lemma label_rows_paired g names data :
  label_rows g names data = label_pair names <$> paired g data.
Proof. unfold label_rows, paired. by rewrite fmap_imap. Qed.

Lemma assignment_cost_paired g names data :
  assignment_cost g names data = pairs_cost names (paired g data).
Proof. unfold assignment_cost, pairs_cost, paired. by rewrite fmap_imap. Qed.

Lemma members_paired g data j :
  members g (length data) j = length (filter (λ p, p.2 = j) (paired g data)).
Proof.
  unfold members, paired. symmetry.
  by apply (filter_imap_length (λ p : row * nat, p.2 = j) (λ i, g i = j)).
Qed.

Lemma balanced_paired g data k m :
  balanced g (length data) k m ↔ pairs_balanced k m (paired g data).
Proof.
  unfold balanced, pairs_balanced. apply and_iff_both.
  - unfold paired. rewrite Forall_lookup. split.
    + intros Hg i [r j]. rewrite list_lookup_imap.
      intros (r' & Hr%lookup_lt_Some & [= -> ->])%fmap_Some. by apply Hg.
    + intros Hall i [r Hr]%lookup_lt_is_Some.
      apply (Hall i (r, g i)). by rewrite list_lookup_imap, Hr.
  - by setoid_rewrite members_paired.
Qed.

#[export] Instance pairs_cost_Permutation names :
  Proper ((≡ₚ) ==> Qeq) (pairs_cost names).
Proof. intros ps ps' Hp. unfold pairs_cost. by rewrite Hp. Qed.

#[export] Instance pairs_balanced_Permutation k m :
  Proper ((≡ₚ) ==> iff) (pairs_balanced k m).
Proof.
  intros ps ps' Hp. unfold pairs_balanced. apply and_iff_both.
  - by rewrite Hp.
  - by setoid_rewrite Hp.
Qed.

(** The pairs of an assignment, moved along a permutation of the rows, are
    the pairs of an assignment of the rows in the other order. *)
Lemma paired_reordered g data data' :
  data ≡ₚ data' → ∃ g', paired g data ≡ₚ paired g' data'.
Proof.
  intros Hp.
  destruct (Permutation_fmap_lift fst data data' Hp (paired g data) (paired_fst g data))
    as (ps' & <- & Hps').
  exists (of_pairs ps'). by rewrite paired_of_pairs.
Qed.

End pairs.

(** * The least cost in another order *)

Section reorder.
Implicit Types (data : list row) (names : list string) (g : nat → nat).

Lemma balanced_reordered g g' data data' k m :
  paired g data ≡ₚ paired g' data' →
  balanced g (length data) k m → balanced g' (length data') k m.
Proof. intros Hp. rewrite !balanced_paired. by rewrite Hp. Qed.

Lemma assignment_cost_reordered g g' data data' names :
  paired g data ≡ₚ paired g' data' →
  assignment_cost g names data == assignment_cost g' names data'.
Proof. intros Hp. rewrite !assignment_cost_paired. by rewrite Hp. Qed.

(** An assignment of least cost, moved along a permutation of the rows, is
    one of least cost. *)
Lemma least_reordered g g' data data' names m :
  data ≡ₚ data' → paired g data ≡ₚ paired g' data' →
  least g data names m → least g' data' names m.
Proof.
  intros Hdata Hp [Hg Hmin]. split; [by eapply balanced_reordered|].
  intros h' Hh'. symmetry in Hdata.
  destruct (paired_reordered h' data' data Hdata) as [h Hh].
  rewrite <- (assignment_cost_reordered g g' data data') by done.
  rewrite (assignment_cost_reordered h' h data' data) by done.
  apply Hmin. by eapply balanced_reordered.
Qed.

(** The least cost does not depend on the order of the rows. *)
Lemma least_cost_reordered g g' data data' names m :
  data ≡ₚ data' → least g data names m → least g' data' names m →
  assignment_cost g names data == assignment_cost g' names data'.
Proof.
  intros Hdata Hg Hg'. destruct (paired_reordered g data data' Hdata) as [g1 Hg1].
  rewrite (assignment_cost_reordered g g1 data data') by done.
  eapply least_cost_unique; [by eapply least_reordered | done].
Qed.

(** When one assignment only has the least cost, the assignments of least
    cost of the rows in another order pair the rows as it does. *)
Lemma only_least_reordered g g' data data' names m :
  data ≡ₚ data' → only_least g data names m → least g' data' names m →
  paired g' data' ≡ₚ paired g data.
Proof.
  intros Hdata [_ Honly] Hg'. symmetry in Hdata.
  destruct (paired_reordered g' data' data Hdata) as [g1 Hg1].
  rewrite Hg1. unfold paired. erewrite imap_ext; [done|].
  intros i r Hi%lookup_lt_Some. cbn. f_equal.
  apply Honly; [by eapply least_reordered | done].
Qed.

Lemma numeric_costs_Permutation data data' names :
  data ≡ₚ data' → numeric_costs data names → numeric_costs data' names.
Proof.
  intros Hp Hnum. eapply Forall_impl; [exact Hnum|]. intros c Hc.
  unfold numeric_column in *. by rewrite <- Hp.
Qed.

End reorder.

(** * cluster_artists on the rows in another order *)

Section modified_reordered.
Context `{Solver}.
Implicit Types (data : list row) (profiles : list (string * Profiles.Modified.cluster_data)).

(** The rows returned for at least one row are labelled by an assignment of
    least cost. *)
Lemma modified_returns_by_least data profiles d :
  let names := Profiles.Modified.cluster_names profiles in
  returns (Modified.cluster_artists data profiles) d → data ≠ [] →
  ∃ g, d = label_rows g names data ∧
       least g data names (floor_of (length data) (length names)).
Proof.
  intros names Hret Hdata.
  destruct (modified_returns_solution _ _ _ Hret Hdata) as (sol & Hsol & ->).
  eexists. split; [done|]. by apply modified_solution_optimal.
Qed.

(** The total cost of the rows returned does not depend on the order of the
    rows. *)
Lemma modified_cost_reordered data data' profiles d d' :
  data ≡ₚ data' →
  returns (Modified.cluster_artists data profiles) d →
  returns (Modified.cluster_artists data' profiles) d' →
  labelled_cost d == labelled_cost d'.
Proof.
  intros Hp Hd Hd'. destruct (decide (data = [])) as [->|Hne].
  { apply Permutation_nil_l in Hp. subst data'. by destruct (returns_inj _ _ _ Hd Hd'). }
  assert (data' ≠ []) as Hne' by (intros ->; by apply Permutation_nil_r in Hp).
  destruct (modified_returns_by_least _ _ _ Hd Hne) as (g & -> & Hg).
  destruct (modified_returns_by_least _ _ _ Hd' Hne') as (g' & -> & Hg').
  rewrite !labelled_cost_label_rows by (apply Hg || apply Hg').
  rewrite <- (Permutation_length Hp) in Hg'. by eapply least_cost_reordered.
Qed.

(** When one assignment only has the least cost, the labels follow the
    rows. *)
Lemma modified_rows_reordered data data' profiles g d :
  let names := Profiles.Modified.cluster_names profiles in
  data ≡ₚ data' →
  only_least g data names (floor_of (length data) (length names)) →
  returns (Modified.cluster_artists data profiles) d →
  ∃ d', returns (Modified.cluster_artists data' profiles) d' ∧ d' ≡ₚ d.
Proof.
  intros names Hp Honly Hd. destruct (modified_returns_inv _ _ _ Hd) as [Hne Hnum].
  rewrite (modified_run_only_least data profiles g) in Hd by done.
  apply (returns_inj _ _ _ (returns_ret _)) in Hd as <-.
  pose proof (balanced_enough_rows data profiles g Hne (proj1 (proj1 Honly))) as Hle.
  destruct (modified_run_least data' profiles Hne) as (g' & -> & Hg').
  { by eapply numeric_costs_Permutation. }
  { by rewrite <- Hp. }
  eexists. split; [apply returns_ret|].
  rewrite !label_rows_paired. apply fmap_Permutation.
  eapply only_least_reordered; [done..|]. by rewrite (Permutation_length Hp).
Qed.

(** C32: [cluster_artists] of modified_artist_clustering.py on the same rows
    in another order returns rows of the same total cost; and when one
    balanced assignment only has the least cost it returns the same
    labelled rows, in the other order: the label of a row does not depend on
    where the row stands. *)
Theorem modified_cluster_artists_reordered data data' profiles :
  let names := Profiles.Modified.cluster_names profiles in
  data ≡ₚ data' →
  (∀ d d', returns (Modified.cluster_artists data profiles) d →
           returns (Modified.cluster_artists data' profiles) d' →
           labelled_cost d == labelled_cost d') ∧
  (∀ g d, only_least g data names (floor_of (length data) (length names)) →
          returns (Modified.cluster_artists data profiles) d →
          ∃ d', returns (Modified.cluster_artists data' profiles) d' ∧ d' ≡ₚ d).
Proof.
  intros names Hp. split.
  - intros d d'. by apply modified_cost_reordered.
  - intros g d. by apply modified_rows_reordered.
Qed.

End modified_reordered.

Lemma modified_cluster_artists_reordered_witness :
  let names := Profiles.Modified.cluster_names Profiles.Modified.profiles in
  let data := sample_scored in
  let data' := reverse sample_scored in
  (∀ d d', returns (Modified.cluster_artists (H:=brute_force_solver) data
                      Profiles.Modified.profiles) d →
           returns (Modified.cluster_artists (H:=brute_force_solver) data'
                      Profiles.Modified.profiles) d' →
           labelled_cost d == labelled_cost d') ∧
  (∀ g d, only_least g data names (floor_of (length data) (length names)) →
          returns (Modified.cluster_artists (H:=brute_force_solver) data
                     Profiles.Modified.profiles) d →
          ∃ d', returns (Modified.cluster_artists (H:=brute_force_solver) data'
                           Profiles.Modified.profiles) d' ∧ d' ≡ₚ d).
Proof.
  apply (modified_cluster_artists_reordered (H:=brute_force_solver) sample_scored
           (reverse sample_scored) Profiles.Modified.profiles).
  symmetry. apply reverse_Permutation.
Defined.

(** The sample table backwards: the rows come back backwards with the labels
    they had. *)
Example sample_scored_backwards :
  only_least (λ i, i) sample_scored
    (Profiles.Modified.cluster_names Profiles.Modified.profiles) 1 ∧
  returns (Modified.cluster_artists (H:=brute_force_solver) (reverse sample_scored)
             Profiles.Modified.profiles) (reverse sample_labelled).
Proof. split; [apply only_least_checked|unfold returns]; vm_decide. Qed.
