(* ===== verification/Determined.v ===== *)
(** * When the file written is a function of the file read

    [main] of modified_artist_clustering.py calls the solver once, in
    [cluster_artists]; every other stage is a function of its input.  So
    two runs on the same records with two solvers differ at most by the
    labels, and they do not differ when the table of normalised distances
    has one assignment of least cost only: the lines printed and the
    records handed to [csv.writer] are then determined by the input.

    The theorems are stated for [Ordered.Modified.main], from the records
    of the input to the records of the output, with the decimal parser. *)

From Stdlib Require Import QArith String.
From stdpp Require Import base option list gmap strings.
From S2P Require Import Prelude Layers Sums Odict PyValue Csv Profiles Samples Distance Normalize Milp Cluster Penalty Pipeline Outcomes Saved Ordered Files Solvers.

#[local] Open Scope py_scope.

(** * Two solvers in main *)

Section solvers.
Context `{FloatParser} (S1 S2 : Solver).

(** The runs of [main] on the rows of the reader are the same when
    [cluster_artists] is the same on the table that reaches it. *)
Lemma pipeline_main_solvers (file : list row) :
  (∀ rows data, returns (Pipeline.load_data file) rows →
                returns (calculate_all_distances rows Profiles.Modified.profiles) data →
                Cluster.Modified.cluster_artists (H:=S1) data Profiles.Modified.profiles =
                Cluster.Modified.cluster_artists (H:=S2) data Profiles.Modified.profiles) →
  Pipeline.Modified.main (H0:=S1) file = Pipeline.Modified.main (H0:=S2) file.
Proof.
  intros Hsame. unfold Pipeline.Modified.main.
  apply bind_ext. intros _. apply bind_ext_returns. intros rows Hrows.
  apply bind_ext. intros _. apply bind_ext_returns.
  intros data Hdata%returns_map_events.
  apply bind_ext. intros _. by rewrite (Hsame rows data).
Qed.

(** The same from the records of the file. *)
Lemma modified_main_solvers records :
  even records →
  (∀ rows data, returns (Pipeline.load_data (rows_of records)) rows →
                returns (calculate_all_distances rows Profiles.Modified.profiles) data →
                Cluster.Modified.cluster_artists (H:=S1) data Profiles.Modified.profiles =
                Cluster.Modified.cluster_artists (H:=S2) data Profiles.Modified.profiles) →
  Ordered.Modified.main (H0:=S1) records = Ordered.Modified.main (H0:=S2) records.
Proof.
  intros Hev Hsame. rewrite !modified_main_shows by done.
  by rewrite (pipeline_main_solvers (rows_of records)).
Qed.

(** Without a tie on the table that reaches [cluster_artists], the two runs
    are the same: what is printed, how the run ends and what is handed to
    the writer. *)
Lemma modified_main_no_tie records :
  let names := Profiles.Modified.cluster_names Profiles.Modified.profiles in
  even records →
  (∀ rows data, returns (Pipeline.load_data (rows_of records)) rows →
                returns (calculate_all_distances rows Profiles.Modified.profiles) data →
                (3 ≤ length data)%nat →
                ∃ g, only_least g data names (floor_of (length data) (length names))) →
  Ordered.Modified.main (H0:=S1) records = Ordered.Modified.main (H0:=S2) records.
Proof.
  intros names Hev Honly. apply modified_main_solvers; [done|].
  intros rows data Hrows Hdata. apply modified_runs_agree.
  intros _ Hle. by apply (Honly rows data).
Qed.

End solvers.

(** * The file written when there is no tie *)

Section determined.
Context `{Solver}.
Implicit Types (records : list (list string)).

(** The records of a run that the stages accept, for the assignment of
    least cost. *)
Lemma modified_main_only_least records g :
  let data := loaded (rows_of records) in
  let names := Profiles.Modified.cluster_names Profiles.Modified.profiles in
  let rows := all_distances data Profiles.Modified.profiles in
  let cols := modified_columns (hd [] records) in
  even records → legible records →
  nonzero_columns data Profiles.Modified.profiles →
  (3 ≤ length (rows_of records))%nat →
  only_least g rows names (floor_of (length rows) (length names)) →
  ∃ evs, Ordered.Modified.main records = (evs, inr tt) ∧
         lines evs = (VStr <$> cols) :: (record_of cols <$> label_rows g names rows).
Proof.
  intros data names rows cols Hev Hleg Hnz Hlen [_ Honly].
  pose proof (rows_of_readable records Hev Hleg) as Hfile.
  destruct (modified_main_returns (rows_of records)) as (g' & evs & Hmain & Hw & Hg' & Hmin');
    [by apply readable_file_convertible | apply rows_of_same_keys
    | by apply loaded_convertible_row | done..|].
  exists (shown cols <$> evs). split; [by rewrite modified_main_shows, Hmain|].
  rewrite (lines_returned _ _ _ (modified_main_saves _) Hmain), Hw.
  do 2 f_equal. apply label_rows_ext. intros i Hi. by apply Honly.
Qed.

(** C20: with the decimal parser, on records of strings as long as the
    header, at least three of them not blank, such that no column of
    distances has maximum zero, and such that one balanced assignment only
    has the least cost on the table of normalised distances, [main] of
    modified_artist_clustering.py runs to its end and hands to the writer
    the names of the columns and the rows labelled by that assignment,
    whatever the solver: the file written is a function of the file read. *)
Theorem modified_main_determined records g :
  let data := loaded (rows_of records) in
  let names := Profiles.Modified.cluster_names Profiles.Modified.profiles in
  let rows := all_distances data Profiles.Modified.profiles in
  let cols := modified_columns (hd [] records) in
  even records → legible records →
  nonzero_columns data Profiles.Modified.profiles →
  (3 ≤ length (rows_of records))%nat →
  only_least g rows names (floor_of (length rows) (length names)) →
  ∃ evs, Ordered.Modified.main records = (evs, inr tt) ∧
         lines evs = (VStr <$> cols) :: (record_of cols <$> label_rows g names rows).
Proof. exact (modified_main_only_least records g). Qed.

End determined.

(** ** The theorem at the sample file *)

Lemma modified_main_determined_witness :
  let data := loaded (rows_of sample_records) in
  let names := Profiles.Modified.cluster_names Profiles.Modified.profiles in
  let rows := all_distances data Profiles.Modified.profiles in
  let cols := modified_columns (hd [] sample_records) in
  ∃ evs, Ordered.Modified.main (H0:=brute_force_last_solver) sample_records = (evs, inr tt) ∧
         lines evs = (VStr <$> cols) :: (record_of cols <$> label_rows (λ i, i) names rows).
Proof.
  apply (modified_main_determined (H:=brute_force_last_solver) sample_records (λ i, i));
    [vm_decide | vm_decide | vm_decide | vm_compute; lia |].
  apply only_least_checked. vm_decide.
Defined.

(** With the reference solver that takes the last optimum instead, the
    records are the same: the sample table has no tie. *)
Example sample_records_both_solvers :
  lines (events (Ordered.Modified.main (H0:=brute_force_solver) sample_records)) =
  lines (events (Ordered.Modified.main (H0:=brute_force_last_solver) sample_records)).
Proof. vm_decide. Qed.
